(* ===== verification/_CoqProject ===== *)
-Q . S2P
Prelude.v
Errors.v
Poll.v
Util.v
Types.v
Table.v
Traffic.v
Report.v
Payload.v
Base62.v
Messages.v
Ring.v
Core.v
Speed.v
Rotate.v
Init.v
Handshake.v
Peer.v
Beacon.v
Device.v
Tuntap.v
Net.v
Proxy.v
Forwarding.v
Configuration.v
Cloud.v
Delivery.v
Meeting.v
Forgeries.v
Triples.v
Stages.v
Routing.v
Flooding.v
Periods.v
Rekey.v
Channel.v
Connection.v
Files.v
Wizard.v
Program.v
Simulation.v
Scenarios.v
Vectors.v
UnitTests.v
CryptoTests.v
