(* ===== verification/Prelude.v ===== *)
(** * VpnCloud: a verification development

    VpnCloud (src/src) is a peer-to-peer VPN. A node reads packets or frames from
    a TUN/TAP device, looks up which peer claims their destination, seals them
    and sends them in UDP datagrams; it opens what peers send and writes it to the
    device. Peers find each other through configured addresses, lists of peers in
    node information messages, and beacons; a signed three-way handshake gives two
    nodes a shared key, which is then rotated.

    This library is a shallow embedding of that program, with the theorems that
    make it correct. Names are the source's wherever Rocq allows it; every
    definition is translated from the lines it models.

    ** The files and what they model

    - Prelude: outcomes of calls (a value, an error, a panic), the state monad
      with errors [ST], machine integers wrapped at their width, big-endian
      numbers, the traits [Read] and [Write] as classes with their laws, tactics
      and the hint databases of the library. Errors: the enum of error.rs.
    - Poll (poll/): [EpollWait] over the system calls of epoll.
    - Util (util.rs): the message buffer [MsgBuffer] with its 65535 bytes, hex,
      statsd messages, [resolve]. Base62 (util.rs): the base-62 text.
    - Types (types.rs): addresses, ranges, modes, their text and wire forms.
    - Table (table.rs): claims and the cache of addresses, [ClaimTable].
    - Traffic (traffic.rs): counters. Report: the text of the statistics file
      (write_out in table.rs, traffic.rs and cloud.rs, Bytes in util.rs).
      Payload (payload.rs): the two parsers.
    - Messages (messages.rs): node information and its tag-length-value coding.
    - Ring: the primitives of the crate ring as the class [Ring] with their
      documented laws [RingLaws]; a toy instance shows that the laws can hold.
      [Env] is what an operation on an object runs in: the object, the message
      buffer, the random source.
    - Core (crypto/core.rs): nonces, four key slots, sealing, opening, replay
      protection. Speed: the speed test of a cipher. Rotate (crypto/rotate.rs): the rotation of keys, and two
      rotating nodes over a network that loses, repeats and reorders messages.
      Init (crypto/init.rs): the messages and the state machine of the
      handshake. Handshake: two such machines that talk to each other.
    - Peer (crypto/common.rs): keys of the configuration; [PeerCrypto], the
      crypto of one connection from the handshake to its rotations.
    - Beacon (beacon.rs): peer addresses hidden in a text.
    - Device (device.rs): the trait [Device] as a class; mock and TUN/TAP device.
      Tuntap (device.rs): how such a device is opened and gets its name.
    - Net (net.rs, wsproxy.rs): the trait [Socket] as a class; UDP socket, mock
      socket and the two ends of the websocket proxy. Proxy (wsproxy.rs): the
      proxy as a service. Forwarding (port_forwarding.rs).
    - Configuration (config.rs, oldconfig.rs, parts of main.rs).
    - Cloud (cloud.rs): [GenericCloud], the node, over any [Device], [Socket],
      [System], [Gateway] and [Protocol]; every handler and all periodic work.
    - Delivery: a packet from one node's device to the other's. Meeting: how the
      two nodes became connected. Forgeries: what comes from anybody else. Triples: a
      Hoare-style calculus for [ST]. Stages: what [PeerCrypto] promises the
      node: a connection under way hands out nothing, one that has succeeded
      never fails by its timers. Routing: the invariant of the node over all its
      operations. Flooding: what goes to every peer, packets and the last message.
      Periods: the intervals of the periodic work. Rekey: the crypto
      of two connected peers refines the two rotating nodes of Rotate. Channel:
      a connection from its handshake on, messages and rotations together.
      Connection: the handshake leaves such a channel behind.
    - Files: the file system as a class with laws, and the installer
      (installer.rs). Wizard (wizard.rs): the dialogue as an interaction tree.
      Program (main.rs): the commands, and a node from [main] to its end.
    - Simulation, Scenarios (tests/): the simulator of the integration tests and
      these tests; UnitTests, CryptoTests: the test functions of the modules;
      Vectors: those of the beacons, with SHA-512 written out. The kernel runs
      them, so the definitions are compared with what the program is expected to
      do, byte for byte where a test has fixed texts.

    ** How the model follows the program

    A method with [&mut self] is a computation over the object's state; [?] is the
    bind of the monad, [match call] is [catch], a panic ([assert!], [unwrap], an
    index out of range, [try_fail!], which ends the process) is the outcome
    [Panic] with the state reached. Arithmetic is that of release builds: it
    wraps at the width of the type, and the theorems say where that matters.
    The clock is read once per operation and passed to it as [now] (the port
    forwarding has its own, [system_now]). Hash maps are [gmap]s; a loop over one
    visits it in the order of [map_to_list], and no theorem depends on it. Maps
    keyed by [Address] are keyed by the bytes its [Eq] and [Hash] look at.
    Strings are byte strings; 32-bit floats, the speeds of the handshake, are
    their bit patterns with the order of the positive ones.
    What is not part of the program is a parameter: ring, the parsers of IP and
    socket addresses, the kernel ([Host], [DeviceFile], [TunDriver], [UdpSys],
    [TcpSys], [Epoll]), the file system ([Files]), the websocket library, the
    router ([Gateway]), YAML, the shell and the process ([Process]), and names,
    files, commands, hooks and the random choices of the crate rand ([System]).
    The speeds of the ciphers are arguments of [Crypto.new]; of the test that
    measures them ([test_speed]) only the division by the seconds is left out.
    Loops over what comes from outside run over the list of it: the waits of a
    node ([Program.turns]), the events and the connections of the proxy. The
    wizard asks until it is told to stop, which no bound covers: it is a tree
    of events, its loop [ITree.iter], and its theorems are about all answers.
    Loops whose termination is not structural take the length of their input
    plus one as fuel ([NodeInfo.decode], [InitMsg.read_from],
    [BeaconSerializer.decode]); that this is enough is part of their theorems,
    which exclude [Panic], what running out of fuel would give. The proxy's
    [read_message] takes the number of messages it may skip.

    ** What is shown

    - End to end: [Delivery.packet_delivered] follows a packet from
      [handle_device_event] of the sender through its table, the core, the socket
      and [handle_socket_event] of the receiver to the other device;
      [Flooding.packet_flooded] does so for a packet that goes to every peer, and
      [Flooding.shutdown_told] for the message of a node that ends.
      [Meeting.nodes_meet] starts before: two nodes that know an address, from
      [connect] to the packets they then deliver.
    - Connections: [Handshake.handshake_succeeds], [Connection.connection_opens]
      (handshake and channel in one), repeats and crossings, the selection of the
      algorithm, the end of a handshake nobody answers, authenticity of its messages.
    - Sessions: [Core.core_channel], replays refused; rotating
      keys agree in every reachable state, and both nodes get to new keys from
      each of them ([Rotate.rotation_progress], message ids below 2^64 - 2); [Rekey.rotation_refined] carries this to the connections that
      drive the rotation ([PeerCrypto], timers, sealing and key installation
      included), and with it [Rekey.peer_keys_agree].
      [Channel.channel_open] puts it together: after any calls on the two ends of
      a connection, with any datagrams, what one end sends next the other
      receives; [Channel.no_nonce_twice] that over all rotations and both ends no
      nonce was used twice with a key. That a seal cannot be forged is not a law
      of [Ring] but a condition on the datagrams received ([Channel.authentic]),
      and that rotated keys are new one on the keys a run ends with
      ([Channel.distinct]).
    - Forgeries: [Forgeries.forgery_changes_nothing] says of the node in any state
      that a datagram that is neither signed with a trusted key nor sealed for
      its connection leaves nothing behind but counters, or is too short to be
      sealed and ends the program.
    - The node: [Routing.connections_staged] and [Routing.routes_lead_to_peers] by
      induction over everything that can happen to it;
      [Routing.timers_spare_peers]; what goes wrong when a second handshake with
      a peer is under way or a route is stale.
    - The table: longest prefix, only what was announced or learned and not
      undone since, what announcing and removing do. The parser of IP packets
      against the layout of the headers.
    - Codecs: node information, handshake messages, base 62, beacons,
      configuration files come back as they were written; decoders are total.
    - Periodic work: back-off and announcements, the extension of leases; what
      the statistics show ([Report.bytes_shown], busiest first).
    - Around the node: the wizard's configurations have keys that can be used and
      keep what is accepted, migrated files mean what they meant, the installer
      can be undone, the proxy delivers, a wait ends with an event.
    - Defects of the code are theorems too, next to the properties they limit:
      [Core.short_message_panics], [Table.withdrawn_claim_survives],
      [Peer.unencrypted_close_lost], [Init.self_connection_unnoticed],
      [Init.select_algorithm_tie], [Payload.vlan_zero_not_untagged],
      [Beacon.beacon_overlap_panics], [Device.heading_is_default_device],
      [Configuration.keepalive_spec], [Configuration.ip_netmask_spec],
      [Routing.stale_route_blackholes], [Routing.second_handshake_blocks],
      [Routing.drop_dead_forgets], [Periods.announced_in_time].

    Each property with hypotheses has a witness, a closed theorem that applies it
    to concrete nodes, with the toy primitives of Ring and the mock device and
    socket.

    ** Not modelled

    The text of the log and what the wizard prints at its end; signals, but for the flag that tells a
    node to end; the closing of descriptors; which of the proxy's threads runs
    when (they share nothing); the parsers of YAML and of the command line. Of the
    tests: the logger of the simulator, tests that are ignored, that need YAML, files
    or commands ([config_file], [encode_decode_file], [encode_decode_cmd]), that
    measure time or sizes, or that are long runs (the files say which; of the
    thousand rounds of [normal] two are run). Benchmarks, the build script, and
    the code for other systems than Linux where the comments say so. *)

From Stdlib Require Export Ascii ZArith Lia.
From stdpp Require Export base tactics numbers gmap strings option.
From stdpp Require Export list.

#[global] Open Scope Z_scope.

(** ** Outcomes: what a Rust call can do *)

(** A call returns a value, returns an error value of type [E], or panics
    (a failed [assert!], [unwrap], [expect], slice index or [unreachable!]). *)
Inductive outcome (E A : Type) : Type :=
| Ok (a : A)
| Err (e : E)
| Panic.
Arguments Ok {E A} a.
Arguments Err {E A} e.
Arguments Panic {E A}.

#[global] Instance outcome_ret {E} : MRet (outcome E) := fun _ a => Ok a.
#[global] Instance outcome_bind {E} : MBind (outcome E) := fun _ _ f m =>
  match m with Ok a => f a | Err e => Err e | Panic => Panic end.
#[global] Instance outcome_fmap {E} : FMap (outcome E) := fun _ _ f m =>
  match m with Ok a => Ok (f a) | Err e => Err e | Panic => Panic end.

(** [Result::map_err]. *)
Definition map_err {E F A} (f : E -> F) (m : outcome E A) : outcome F A :=
  match m with Ok a => Ok a | Err e => Err (f e) | Panic => Panic end.

(** [Option::ok_or]; also an [io::Error] whose content the code drops with
    [map_err(|_| e)]: the models of the readers return [option]. *)
Definition ok_or {E A} (o : option A) (e : E) : outcome E A :=
  match o with Some a => Ok a | None => Err e end.

(** [Option::unwrap] and [Result::expect]. *)
Definition unwrap {E A} (o : option A) : outcome E A :=
  match o with Some a => Ok a | None => Panic end.

Definition is_ok {E A} (m : outcome E A) : bool :=
  match m with Ok _ => true | _ => false end.

(** ** The state-and-outcome monad

    [ST S E A] is a computation over a mutable [S] ([&mut self] and the other
    mutable arguments): state changes made before an [Err] stay. *)
Definition ST (S E A : Type) : Type := S -> S * outcome E A.

#[global] Instance ST_ret {S E} : MRet (ST S E) := fun _ a s => (s, Ok a).
#[global] Instance ST_bind {S E} : MBind (ST S E) := fun _ _ f m s =>
  match m s with
  | (s', Ok a) => f a s'
  | (s', Err e) => (s', Err e)
  | (s', Panic) => (s', Panic)
  end.

Definition get {S E} : ST S E S := fun s => (s, Ok s).
Definition gets {S E A} (f : S -> A) : ST S E A := fun s => (s, Ok (f s)).
Definition modify {S E} (f : S -> S) : ST S E unit := fun s => (f s, Ok tt).
Definition throw {S E A} (e : E) : ST S E A := fun s => (s, Err e).
Definition panic {S E A} : ST S E A := fun s => (s, Panic).
(** A pure outcome as a computation. *)
Definition lift {S E A} (m : outcome E A) : ST S E A := fun s => (s, m).
(** The [?] operator is the bind; [catch] is [match call { Ok.. Err.. }]:
    a panic is not caught. *)
Definition catch {S E F A} (m : ST S E A) : ST S F (outcome E A) := fun s =>
  match m s with
  | (s', Panic) => (s', Panic)
  | (s', r) => (s', Ok r)
  end.
Definition assert {S E} (b : bool) : ST S E unit := if b then mret tt else panic.

(** A call on a field of the state: [self.field.method()]. *)
Definition zoom {S T E A} (prj : S -> T) (upd : T -> S -> S) (m : ST T E A) : ST S E A :=
  fun s => let '(t, r) := m (prj s) in (upd t s, r).

(** [for x in l { f(x)? }]. *)
Fixpoint for_each {S E A} (f : A -> ST S E unit) (l : list A) : ST S E unit :=
  match l with
  | [] => mret tt
  | x :: l' => f x ;; for_each f l'
  end.

(** ** Machine integers: values in [Z], wrapped at their width *)

Definition wrap (w : Z) (z : Z) : Z := z mod 2 ^ w.
Abbreviation wrap8 := (wrap 8).
Abbreviation wrap16 := (wrap 16).
Abbreviation wrap32 := (wrap 32).
(** [u64] and [usize] (the 64-bit targets). *)
Abbreviation wrap64 := (wrap 64).

Definition is_u8 (z : Z) : Prop := 0 <= z < 256.
Definition is_u16 (z : Z) : Prop := 0 <= z < 65536.
Definition is_u64 (z : Z) : Prop := 0 <= z < 2 ^ 64.
(** Lengths and indices are [usize] values. *)
Definition zlen {A} (l : list A) : Z := Z.of_nat (length l).

Abbreviation bytes := (list Z).
Definition bytes_ok (l : bytes) : Prop := Forall is_u8 l.

#[global] Instance is_u8_dec z : Decision (is_u8 z).
Proof. unfold is_u8. apply _. Defined.
#[global] Instance is_u16_dec z : Decision (is_u16 z).
Proof. unfold is_u16. apply _. Defined.
#[global] Instance bytes_ok_dec l : Decision (bytes_ok l).
Proof. unfold bytes_ok. apply _. Defined.

(** ** Big-endian numbers ([to_be_bytes], [from_be_bytes] and byteorder's
    [NetworkEndian] reads and writes) *)

Fixpoint be_bytes (n : nat) (v : Z) : bytes :=
  match n with
  | O => []
  | S n' => Z.land (Z.shiftr v (8 * Z.of_nat n')) 255 :: be_bytes n' v
  end.

Definition be_value (l : bytes) : Z := fold_left (fun acc b => acc * 256 + b) l 0.

(** ** Readers: the [Read] trait

    [read_exact n r] is the [n] bytes read and the reader after them, [None]
    when it fails with [UnexpectedEof]. *)
Class Read (R : Type) := read_exact : nat -> R -> option (bytes * R).

(** [&[u8]] and [Cursor<&[u8]>]: the bytes not read yet. *)
#[global] Instance read_slice : Read bytes := fun n r =>
  if decide (n <= length r)%nat then Some (take n r, drop n r) else None.

(** [std::io::Take]: at most [take_limit] more bytes of the inner reader. *)
Record Take (R : Type) := mkTake { take_limit : nat; into_inner : R }.
Arguments mkTake {R} _ _.
Arguments take_limit {R} _.
Arguments into_inner {R} _.

#[global] Instance read_take {R} `{Read R} : Read (Take R) := fun n r =>
  if decide (n <= take_limit r)%nat then
    '(bs, i) ← read_exact n (into_inner r);
    Some (bs, mkTake (take_limit r - n)%nat i)
  else None.

Definition read_u8 {R} `{Read R} (r : R) : option (Z * R) :=
  '(bs, r') ← read_exact 1 r; Some (be_value bs, r').
Definition read_u16 {R} `{Read R} (r : R) : option (Z * R) :=
  '(bs, r') ← read_exact 2 r; Some (be_value bs, r').
Definition read_u64 {R} `{Read R} (r : R) : option (Z * R) :=
  '(bs, r') ← read_exact 8 r; Some (be_value bs, r').

(** ** Writers: the [Write] trait

    [write_all bs w] is the writer after all of [bs], [None] when it fails. *)
Class Write (W : Type) := write_all : bytes -> W -> option W.

(** A [Vec<u8>] grows. *)
#[global] Instance write_vec : Write bytes := fun bs w => Some (w ++ bs).

(** A [Cursor<&mut [u8]>] overwrites and fails at the end of the slice. *)
Record Cursor := mkCursor { cur_data : bytes; cur_pos : nat }.

(** Overwrite [l] from position [p] on with [bs] (which fits). *)
Definition splice (p : nat) (bs l : bytes) : bytes :=
  take p l ++ bs ++ drop (p + length bs) l.

#[global] Instance write_cursor : Write Cursor := fun bs c =>
  if decide (length bs <= length (cur_data c) - cur_pos c)%nat
  then Some (mkCursor (splice (cur_pos c) bs (cur_data c)) (cur_pos c + length bs))
  else None.

Definition write_u8 {W} `{Write W} (v : Z) (w : W) : option W := write_all (be_bytes 1 v) w.
Definition write_u16 {W} `{Write W} (v : Z) (w : W) : option W := write_all (be_bytes 2 v) w.
Definition write_u64 {W} `{Write W} (v : Z) (w : W) : option W := write_all (be_bytes 8 v) w.

(** Writing in pieces is writing the concatenation. *)
Class WriteLaws (W : Type) `{Write W} := {
  write_all_nil : forall w : W, write_all [] w = Some w;
  write_all_app : forall a b (w : W), write_all (a ++ b) w = write_all a w ≫= write_all b
}.

(** A reader stands for the bytes it will deliver: [prepend a r] delivers [a]
    and goes on as [r]. *)
Class ReadLaws (R : Type) `{Read R} := {
  prepend : bytes -> R -> R;
  read_exact_prepend : forall a r, read_exact (length a) (prepend a r) = Some (a, r);
  read_exact_inv : forall n r a r',
    read_exact n r = Some (a, r') -> length a = n /\ r = prepend a r';
  prepend_app : forall a b r, prepend (a ++ b) r = prepend a (prepend b r)
}.

(** Bitwise xor of bytes and the other [u8] operations of the source. *)
Definition leading_zeros8 (z : Z) : Z := if decide (z = 0) then 8 else 7 - Z.log2 z.

(** [&l[a..b]]: panics when [a > b] or [b] is out of range. *)
Definition slice {E} (a b : Z) (l : bytes) : outcome E bytes :=
  if decide (0 <= a <= b /\ b <= zlen l)
  then Ok (take (Z.to_nat (b - a)) (drop (Z.to_nat a) l)) else Panic.

(** [l[i]]: panics out of range. *)
Definition index {E A} (l : list A) (i : Z) : outcome E A :=
  if decide (0 <= i) then unwrap (l !! Z.to_nat i) else Panic.

(** ** Lemmas of the shared vocabulary *)

Create HintDb vpn discriminated.


(** One step of a computation whose first part is known. *)
Lemma outcome_bind_ok {E A B} (m : outcome E A) (f : A -> outcome E B) b : (m ≫= f) = Ok b -> exists a, m = Ok a /\ f a = Ok b.
Proof. destruct m; try done. by eexists. Qed.

Lemma bind_ok {S E A B} (m : ST S E A) (f : A -> ST S E B) s s' a :
  m s = (s', Ok a) -> (m ≫= f) s = f a s'.
Proof. intros H. unfold mbind, ST_bind. by rewrite H. Qed.

Lemma pair_snd {A B} (p : A * B) b : p.2 = b -> p = (p.1, b).
Proof. destruct p. simpl. congruence. Qed.

Lemma wrap_small w z : 0 <= z < 2 ^ w -> wrap w z = z.
Proof. apply Z.mod_small. Qed.

Lemma write_vec_laws : @WriteLaws bytes write_vec.
Proof.
  split; unfold write_all, write_vec; intros; simpl; [by rewrite app_nil_r|].
  by rewrite app_assoc.
Qed.
#[export] Existing Instance write_vec_laws.

Lemma length_splice p bs l :
  (p + length bs <= length l)%nat -> length (splice p bs l) = length l.
Proof. intros. unfold splice. rewrite !length_app, length_take, length_drop. lia. Qed.

(** What was written can be read back. *)
Lemma take_drop_splice n p bs l :
  n = length bs -> (p <= length l)%nat -> take n (drop p (splice p bs l)) = bs.
Proof.
  intros -> Hp. unfold splice. rewrite drop_app_length' by (rewrite length_take; lia).
  by rewrite take_app_length.
Qed.

Lemma bytes_ok_splice p bs l : bytes_ok bs -> bytes_ok l -> bytes_ok (splice p bs l).
Proof.
  intros Hb Hl. unfold splice, bytes_ok. rewrite !Forall_app.
  auto using Forall_take, Forall_drop.
Qed.

Lemma splice_nil p l : splice p [] l = l.
Proof. unfold splice. simpl. rewrite Nat.add_0_r. apply take_drop. Qed.

Lemma splice_app p a b l :
  (p + length a + length b <= length l)%nat ->
  splice p (a ++ b) l = splice (p + length a) b (splice p a l).
Proof.
  intros Hl. unfold splice. rewrite (assoc_L app (take p l) a).
  rewrite (take_app_length' (take p l ++ a)), drop_app_ge
    by (rewrite length_app, length_take; lia).
  rewrite drop_drop, !length_app, length_take, <-!(assoc_L app).
  do 4 f_equal. lia.
Qed.

#[export] Instance write_cursor_laws : @WriteLaws Cursor write_cursor.
Proof.
  split; unfold write_all, write_cursor.
  { intros [d p]. rewrite decide_True by (simpl; lia). cbn [cur_pos cur_data].
    simpl length. by rewrite splice_nil, Nat.add_0_r. }
  intros a b [d p]. simpl. rewrite length_app.
  destruct (decide (p <= length d)%nat).
  - repeat case_decide; simpl; try lia; repeat case_decide; simpl in *; try done;
      rewrite ?length_splice in * by lia; try lia.
    f_equal. f_equal; [|lia]. apply splice_app. lia.
  - destruct (decide (length a + length b = 0)%nat) as [Hz|Hz].
    + destruct a, b; simpl in Hz; try lia. unfold splice. simpl app.
      rewrite !decide_True by (simpl; lia). cbn [mbind option_bind cur_pos cur_data app length].
      rewrite !decide_True by lia. by rewrite !Nat.add_0_r, !take_drop.
    + rewrite decide_False by lia. case_decide; simpl; [|done].
      destruct a; simpl in *; [|lia]. rewrite decide_False; [done|].
      rewrite splice_nil. lia.
Qed.

#[export] Instance read_slice_laws : @ReadLaws bytes read_slice.
Proof.
  refine {| prepend := app |}; unfold read_exact, read_slice.
  - intros a r. rewrite length_app. case_decide; [|lia].
    by rewrite take_app_length, drop_app_length.
  - intros n r a r'. case_decide; [|done]. intros [= <- <-].
    rewrite length_take. split; [lia|]. by rewrite take_drop.
  - intros. by rewrite (assoc_L app).
Defined.

#[export] Instance read_take_laws {R} `{ReadLaws R} : @ReadLaws (Take R) read_take.
Proof.
  refine {| prepend a t := mkTake (length a + take_limit t) (prepend a (into_inner t)) |};
    unfold read_exact, read_take.
  - intros a [n i]. simpl. case_decide; [|lia]. rewrite read_exact_prepend. simpl.
    do 3 f_equal. lia.
  - intros n [l i] a r'. simpl. case_decide; [|done].
    destruct (read_exact n i) as [[bs i']|] eqn:E; simpl; [|done].
    intros [= <- <-]. apply read_exact_inv in E as [? ->]. simpl.
    split; [done|]. f_equal. lia.
  - intros a b [n i]. simpl. rewrite prepend_app, length_app. f_equal. lia.
Defined.

Lemma length_be_bytes n v : length (be_bytes n v) = n.
Proof. induction n; simpl; auto. Qed.

Lemma byte_of_land v : is_u8 (Z.land v 255).
Proof.
  unfold is_u8. change 255 with (Z.ones 8). rewrite Z.land_ones by lia.
  apply Z.mod_pos_bound. lia.
Qed.

Lemma be_bytes_ok n v : bytes_ok (be_bytes n v).
Proof. induction n; simpl; constructor; auto using byte_of_land. Qed.

Lemma be_value_acc l : forall acc,
  fold_left (fun acc b => acc * 256 + b) l acc = acc * 256 ^ zlen l + be_value l.
Proof.
  unfold be_value, zlen. induction l as [|b l IH]; intros acc; simpl length.
  - simpl. lia.
  - cbn [fold_left]. rewrite IH, (IH (0 * 256 + b)), Nat2Z.inj_succ, Z.pow_succ_r by lia. lia.
Qed.

Lemma be_value_cons b l : be_value (b :: l) = b * 256 ^ zlen l + be_value l.
Proof. unfold be_value at 1. cbn [fold_left]. by rewrite be_value_acc. Qed.

Lemma be_value_be_bytes n v : be_value (be_bytes n v) = v mod 256 ^ Z.of_nat n.
Proof.
  induction n as [|n IH]; simpl be_bytes; [by rewrite Z.mod_1_r|].
  rewrite be_value_cons, IH. unfold zlen. rewrite length_be_bytes.
  change 255 with (Z.ones 8). rewrite Z.land_ones, Z.shiftr_div_pow2 by lia.
  change 256 with (2 ^ 8). rewrite <- !Z.pow_mul_r by lia.
  rewrite Nat2Z.inj_succ, Z.mul_succ_r, Z.pow_add_r by lia.
  rewrite Z.rem_mul_r by (try apply Z.pow_nonzero; lia). lia.
Qed.

Lemma be_value_bounds l : bytes_ok l -> 0 <= be_value l < 256 ^ zlen l.
Proof.
  induction 1 as [|b l Hb Hl IH]; [by vm_compute|].
  rewrite be_value_cons. unfold is_u8, zlen in *. simpl length.
  rewrite Nat2Z.inj_succ, Z.pow_succ_r by lia. nia.
Qed.

Lemma be_bytes_mod n v k : be_bytes n (k * 256 ^ Z.of_nat n + v) = be_bytes n v.
Proof.
  revert k. induction n as [|n IH]; intros k; [done|]. simpl. f_equal.
  - change 255 with (Z.ones 8).
    rewrite !Z.land_ones, !Z.shiftr_div_pow2, Z.pow_mul_r by lia. change (2 ^ 8) with 256.
    rewrite Nat2Z.inj_succ, Z.pow_succ_r, Z.mul_assoc by lia.
    rewrite Z.div_add_l by (apply Z.pow_nonzero; lia).
    by rewrite (Z.add_comm _ (v / _)), Z.mod_add by lia.
  - rewrite Nat2Z.inj_succ, Z.pow_succ_r, Z.mul_assoc by lia. apply IH.
Qed.

Lemma be_bytes_be_value l : bytes_ok l -> be_bytes (length l) (be_value l) = l.
Proof.
  induction 1 as [|b l Hb Hl IH]; [done|]. simpl.
  pose proof (be_value_bounds _ Hl) as Hv. unfold is_u8, zlen in *.
  rewrite be_value_cons. unfold zlen. change 255 with (Z.ones 8).
  rewrite Z.land_ones, Z.shiftr_div_pow2, Z.pow_mul_r by lia. change (2 ^ 8) with 256.
  rewrite Z.div_add_l, (Z.div_small (be_value l)), Z.add_0_r, Z.mod_small by lia.
  f_equal. by rewrite be_bytes_mod.
Qed.

(** *** Readers deliver what was prepended *)

Lemma read_exact_prepend_n {R} `{ReadLaws R} n a (r : R) :
  length a = n -> read_exact n (prepend a r) = Some (a, r).
Proof. intros <-. apply read_exact_prepend. Qed.

Lemma read_exact_app n (a b : bytes) : length a = n -> read_exact n (a ++ b) = Some (a, b).
Proof. exact (read_exact_prepend_n (R := bytes) n a b). Qed.

Lemma be_value_be_bytes_small n v :
  0 <= v < 256 ^ Z.of_nat n -> be_value (be_bytes n v) = v.
Proof. intros. by rewrite be_value_be_bytes, Z.mod_small. Qed.

Lemma read_u8_prepend {R} `{ReadLaws R} v (r : R) :
  is_u8 v -> read_u8 (prepend (be_bytes 1 v) r) = Some (v, r).
Proof.
  intros Hv. unfold read_u8. rewrite read_exact_prepend_n by done.
  cbn [mbind option_bind]. by rewrite be_value_be_bytes_small.
Qed.
Lemma read_u16_prepend {R} `{ReadLaws R} v (r : R) :
  is_u16 v -> read_u16 (prepend (be_bytes 2 v) r) = Some (v, r).
Proof.
  intros Hv. unfold read_u16. rewrite read_exact_prepend_n by done.
  cbn [mbind option_bind]. by rewrite be_value_be_bytes_small.
Qed.
Lemma read_u64_prepend {R} `{ReadLaws R} v (r : R) :
  is_u64 v -> read_u64 (prepend (be_bytes 8 v) r) = Some (v, r).
Proof.
  intros Hv. unfold read_u64. rewrite read_exact_prepend_n by done.
  cbn [mbind option_bind]. by rewrite be_value_be_bytes_small.
Qed.

Lemma read_u8_app v (s : bytes) : is_u8 v -> read_u8 (be_bytes 1 v ++ s) = Some (v, s).
Proof. exact (read_u8_prepend (R := bytes) v s). Qed.
Lemma read_u16_app v (s : bytes) : is_u16 v -> read_u16 (be_bytes 2 v ++ s) = Some (v, s).
Proof. exact (read_u16_prepend (R := bytes) v s). Qed.
Lemma read_u64_app v (s : bytes) : is_u64 v -> read_u64 (be_bytes 8 v ++ s) = Some (v, s).
Proof. exact (read_u64_prepend (R := bytes) v s). Qed.

Lemma be_bytes_1 v : is_u8 v -> be_bytes 1 v = [v].
Proof.
  intros Hv. assert (bytes_ok [v]) as H by (repeat constructor; exact Hv || apply Hv).
  apply be_bytes_be_value in H. exact H.
Qed.

Lemma be_value_1 b : be_value [b] = b.
Proof. unfold be_value. simpl. lia. Qed.

(** *** Writers: a computation that writes exactly [bs] *)

Definition writes {W} `{Write W} (f : W -> option W) (bs : bytes) : Prop :=
  forall w, f w = write_all bs w.

Section writes.
Context {W : Type} `{WriteLaws W}.

Lemma writes_all bs : writes (write_all bs) bs.
Proof. done. Qed.
Lemma writes_u8 v : writes (write_u8 v) (be_bytes 1 v).
Proof. done. Qed.
Lemma writes_u16 v : writes (write_u16 v) (be_bytes 2 v).
Proof. done. Qed.
Lemma writes_u64 v : writes (write_u64 v) (be_bytes 8 v).
Proof. done. Qed.
Lemma writes_ret : writes (fun w => Some w) [].
Proof. intros w. by rewrite write_all_nil. Qed.
Lemma writes_bind f g a b :
  writes f a -> writes g b -> writes (fun w => f w ≫= g) (a ++ b).
Proof.
  intros Hf Hg w. rewrite write_all_app, (Hf w).
  destruct (write_all a w) as [w'|]; [apply (Hg w')|done].
Qed.
Lemma writes_foldl {A} (f : A -> W -> option W) (enc : A -> bytes) (l : list A) :
  (forall x, x ∈ l -> writes (f x) (enc x)) ->
  forall w, foldl (fun ow x => ow ≫= f x) (Some w) l = write_all (concat (enc <$> l)) w.
Proof.
  induction l as [|x l IH]; intros Hf w; simpl.
  - by rewrite write_all_nil.
  - rewrite write_all_app, (Hf x) by left.
    destruct (write_all (enc x) w) as [w'|]; simpl.
    + apply IH. intros y Hy. apply Hf. by right.
    + clear. induction l; simpl; auto.
Qed.
End writes.

#[export] Hint Resolve writes_all writes_u8 writes_u16 writes_u64 writes_ret writes_bind : vpn.
#[export] Hint Rewrite @length_be_bytes @length_app @length_splice @length_take @length_drop : vpn_rw.

(** *** Slices *)

Lemma slice_ok {E} a b l :
  0 <= a <= b -> b <= zlen l ->
  @slice E a b l = Ok (take (Z.to_nat (b - a)) (drop (Z.to_nat a) l)).
Proof. intros. unfold slice. rewrite decide_True; done. Qed.

(** Case split on the next [match] or [decide] of the goal or of a hypothesis. *)
Ltac step_case :=
  repeat first
    [ case_match | case_decide ]; simplify_eq/=.

#[global] Opaque be_bytes be_value.
#[global] Arguments wrap _ _ : simpl never.
