(* ===== verification/Errors.v ===== *)
(** * The error type of the program (src/src/error.rs)

    The enum [Error] with the source's variants. The [&'static str] payloads
    are kept; an [io::Error] source is reduced to its kind. *)

From S2P Require Import Prelude.

(** [std::io::ErrorKind], the kinds the source looks at or creates. *)
Inductive ErrorKind : Type :=
| UnexpectedEof
| AddrNotAvailable
| NotFound
| InvalidData
| WouldBlock
| PermissionDenied
| OtherKind.

Inductive Error : Type :=
| CryptoInit (s : string)
| CryptoInitFatal (s : string)
| Crypto (s : string)
| InvalidCryptoState (s : string)
| InvalidConfig (s : string)
| ESocket (s : string)
| SocketIo (s : string) (e : ErrorKind)
| EDevice (s : string)
| DeviceIo (s : string) (e : ErrorKind)
| FileIo (s : string) (e : ErrorKind)
| EMessage (s : string)
| BeaconIo (s : string) (e : ErrorKind)
| EParse (s : string)
| NameUnresolvable (s : string).

#[export] Instance ErrorKind_eq_dec : EqDecision ErrorKind.
Proof. solve_decision. Defined.
#[export] Instance Error_eq_dec : EqDecision Error.
Proof. solve_decision. Defined.

(** [Result<T, Error>], and a stateful operation that returns one. *)
Abbreviation Result := (outcome Error).
Abbreviation SM S := (ST S Error).
