(* ===== verification/Poll.v ===== *)
(** * Waiting for events (src/src/poll)

    [EpollWait] over the system calls of epoll, the class [Epoll]; what the kernel
    promises about them is [EpollLaws]. *)

From S2P Require Import Prelude Errors.

Inductive WaitResult : Type := WaitTimeout | WaitError (e : ErrorKind) | WaitSocket | WaitDevice.

#[export] Instance WaitResult_eq_dec : EqDecision WaitResult.
Proof. solve_decision. Defined.

(** [libc::epoll_event]: flags and data. *)
Record epoll_event : Type := mkEpollEvent { ep_events : Z; ep_u64 : Z }.

(** The system calls, with the results of C. [epoll_wait] waits for one event and
    may change the one it is given. *)
Class Epoll (K : Type) : Type := {
  epoll_create : Z -> K -> K * Z;
  epoll_ctl_add : Z -> Z -> epoll_event -> K -> K * Z;
  epoll_wait : Z -> epoll_event -> Z -> K -> K * (epoll_event * Z);
  last_os_error : K -> ErrorKind
}.

Definition EPOLLIN : Z := 1.
Definition EPOLLOUT : Z := 4.

Record EpollWait : Type := mkEpollWait {
  ew_poll_fd : Z;
  ew_event : epoll_event;
  ew_socket : Z;
  ew_device : Z;
  ew_timeout : Z
}.

Module EpollWait.
Section Epoll.
Context {K : Type} `{Epoll K}.

(** [fd as u64] sign-extends. *)
Definition fd_data (fd : Z) : Z := wrap64 fd.

Definition add (poll_fd flags fd : Z) : ST K ErrorKind epoll_event := fun k =>
  let event := mkEpollEvent flags (fd_data fd) in
  let '(k, res) := epoll_ctl_add poll_fd fd event k in
  (k, if decide (res = -1) then Err (last_os_error k) else Ok event).

Definition create (socket device timeout flags : Z) : ST K ErrorKind EpollWait :=
  poll_fd ← (fun k => let '(k, fd) := epoll_create 3 k in (k, if decide (fd = -1) then Err (last_os_error k) else Ok fd));
  add poll_fd flags socket ;;
  event ← add poll_fd flags device;
  mret (mkEpollWait poll_fd event socket device timeout).

Definition new (socket device timeout : Z) : ST K ErrorKind EpollWait := create socket device timeout EPOLLIN.
Definition testing (socket device timeout : Z) : ST K ErrorKind EpollWait := create socket device timeout (Z.lor EPOLLIN EPOLLOUT).

(** [Iterator::next] is never at its end. *)
Definition next : ST (K * EpollWait) ErrorKind WaitResult := fun '(k, w) =>
  let '(k, (event, res)) := epoll_wait (ew_poll_fd w) (ew_event w) (ew_timeout w) k in
  let w := mkEpollWait (ew_poll_fd w) event (ew_socket w) (ew_device w) (ew_timeout w) in
  (k, w,
   if decide (res = -1) then Ok (WaitError (last_os_error k))
   else if decide (res = 0) then Ok WaitTimeout
   else if decide (res = 1) then
     if decide (ep_u64 event = fd_data (ew_socket w)) then Ok WaitSocket
     else if decide (ep_u64 event = fd_data (ew_device w)) then Ok WaitDevice
     else Panic
   else Panic).

End Epoll.
End EpollWait.

(** ** What the kernel promises *)

(** The data registered with a poll descriptor; [epoll_wait] gives at most the one
    event it was asked for, with data that was registered, and is told apart by it. *)
Class EpollLaws (K : Type) `{Epoll K} : Type := {
  registered : K -> Z -> list Z;
  create_registers n k k' fd : epoll_create n k = (k', fd) -> fd <> -1 -> registered k' fd = [];
  ctl_registers fd f ev k k' res : epoll_ctl_add fd f ev k = (k', res) -> res <> -1 -> registered k' fd = ep_u64 ev :: registered k fd;
  wait_registered fd ev t k k' ev' res : epoll_wait fd ev t k = (k', (ev', res)) ->
    registered k' fd = registered k fd /\ (res = -1 \/ res = 0 \/ res = 1 /\ ep_u64 ev' ∈ registered k fd)
}.

Section Waiting.
Context {K : Type} `{EpollLaws K}.

Definition waits (k : K) (w : EpollWait) : Prop :=
  forall d, d ∈ registered k (ew_poll_fd w) -> d = EpollWait.fd_data (ew_socket w) \/ d = EpollWait.fd_data (ew_device w).

Lemma add_ok fd flags f k k' ev : EpollWait.add fd flags f k = (k', Ok ev) -> registered k' fd = EpollWait.fd_data f :: registered k fd.
Proof.
  unfold EpollWait.add. destruct (epoll_ctl_add fd f _ k) as [k1 res] eqn:Hc. case_decide; [done|]. intros [= <- _].
  by rewrite (ctl_registers _ _ _ _ _ _ Hc).
Qed.

Lemma create_waits s d t flags k k' w : EpollWait.create s d t flags k = (k', Ok w) -> waits k' w /\ ew_socket w = s /\ ew_device w = d.
Proof.
  unfold EpollWait.create. unfold mbind, ST_bind. destruct (epoll_create 3 k) as [k1 fd] eqn:Hc. case_decide; [done|].
  destruct (EpollWait.add fd flags s k1) as [k2 [e1|e|]] eqn:Ha1; [|done..].
  destruct (EpollWait.add fd flags d k2) as [k3 [e2|e|]] eqn:Ha2; [|done..]. intros [= <- <-].
  split; [|done]. intros x. cbn [ew_poll_fd ew_socket ew_device].
  rewrite (add_ok _ _ _ _ _ _ Ha2), (add_ok _ _ _ _ _ _ Ha1), (create_registers _ _ _ _ Hc) by done.
  rewrite !elem_of_cons. intros [->|[->|Hn]]; [by right|by left|by apply not_elem_of_nil in Hn].
Qed.

Lemma next_waits k w k' w' r : waits k w -> EpollWait.next (k, w) = (k', w', r) ->
  r <> Panic /\ waits k' w' /\ ew_socket w' = ew_socket w /\ ew_device w' = ew_device w.
Proof.
  intros Hw. unfold EpollWait.next. destruct (epoll_wait _ _ _ k) as [k1 [ev res]] eqn:He.
  destruct (wait_registered _ _ _ _ _ _ _ He) as [Hreg Hres]. intros [= <- <- <-]. cbn [ew_socket ew_device].
  split; [|split; [|done]].
  - case_decide; [done|]. case_decide; [done|]. destruct Hres as [?|[?|[-> Hin]]]; [done..|]. rewrite decide_True by done.
    case_decide; [done|]. case_decide; [done|]. by destruct (Hw _ Hin).
  - intros d. cbn [ew_poll_fd ew_socket ew_device]. rewrite Hreg. apply Hw.
Qed.

(** Waiting always tells what there is to do: from the creation of the poll
    descriptor on, each wait ends with an event of the socket or of the device, a
    timeout or an error, and never runs into the [unreachable!]s. *)
Theorem poll_never_panics socket device timeout k k0 w0 n :
  EpollWait.new socket device timeout k = (k0, Ok w0) ->
  exists k1 w1, Nat.iter n (fun kw => (EpollWait.next kw).1) (k0, w0) = (k1, w1) /\
    exists k2 w2 evt, EpollWait.next (k1, w1) = (k2, w2, Ok evt).
Proof.
  intros Hn. apply create_waits in Hn as (Hw & _).
  assert (exists k1 w1, Nat.iter n (fun kw => (EpollWait.next kw).1) (k0, w0) = (k1, w1) /\ waits k1 w1) as (k1 & w1 & Hit & Hw1).
  { induction n as [|n (k1 & w1 & Hit & Hw1)]; [by exists k0, w0|]. rewrite Nat.iter_succ, Hit.
    destruct (EpollWait.next (k1, w1)) as [[k2 w2] r] eqn:Hx. exists k2, w2. split; [done|]. by destruct (next_waits _ _ _ _ _ Hw1 Hx) as (_ & ? & _). }
  exists k1, w1. split; [exact Hit|]. destruct (EpollWait.next (k1, w1)) as [[k2 w2] r] eqn:Hx.
  destruct (next_waits _ _ _ _ _ Hw1 Hx) as (Hp & _). exists k2, w2. destruct r as [evt|e|]; [by exists evt| |done].
  exfalso. revert Hx. unfold EpollWait.next. destruct (epoll_wait _ _ _ k1) as [? [? ?]]. intros [= _ _ Hx]. by repeat case_decide.
Qed.

End Waiting.

(** A toy kernel: the registered data of each descriptor, and what happens next. *)
#[export] Instance toy_epoll : Epoll (list Z * list Z) := {|
  epoll_create _ k := (([], k.2), 5);
  epoll_ctl_add _ _ ev k := ((ep_u64 ev :: k.1, k.2), 0);
  epoll_wait _ ev _ k :=
    match k.2 with
    | [] => (k, (ev, 0))
    | d :: rest => if bool_decide (d ∈ k.1) then ((k.1, rest), (mkEpollEvent EPOLLIN d, 1)) else ((k.1, rest), (ev, -1))
    end;
  last_os_error _ := OtherKind
|}.

#[export] Instance toy_epoll_laws : EpollLaws (list Z * list Z).
Proof.
  refine {| registered k _ := k.1 |}.
  - by intros n k k' fd [= <- <-] _.
  - by intros fd f ev k k' res [= <- <-] _.
  - intros fd ev t [reg [|d rest]] k' ev' res; cbn; [intros [= <- <- <-]; auto|].
    case_bool_decide; intros [= <- <- <-]; (split; [done|]); auto.
Defined.

Lemma poll_never_panics_witness : exists k1 w1,
  Nat.iter 2 (fun kw => (EpollWait.next kw).1) (([4; 3], [4; 7; 3]), mkEpollWait 5 (mkEpollEvent EPOLLIN 4) 3 4 1000) = (k1, w1) /\
  exists k2 w2 evt, EpollWait.next (k1, w1) = (k2, w2, Ok evt).
Proof. apply (poll_never_panics 3 4 1000 ([], [4; 7; 3])). reflexivity. Defined.
