(* ===== verification/Util.v ===== *)
(** * Utilities (src/src/util.rs)

    The message buffer [MsgBuffer] with every operation, the byte [Encoder],
    hexadecimal and base-62 text, the statsd message builder, and the
    [std::net] address types the program shares.  [usize] arithmetic wraps at
    64 bits (release build); a slice out of range panics. *)

From S2P Require Import Prelude Errors.

(** ** Socket addresses ([std::net::SocketAddr])

    IP addresses are their octets. *)
Inductive SocketAddr : Type :=
| V4 (ip : bytes) (port : Z)
| V6 (ip : bytes) (port flowinfo scope_id : Z).

#[export] Instance SocketAddr_eq_dec : EqDecision SocketAddr.
Proof. solve_decision. Defined.

Definition sockaddr_enc (a : SocketAddr) : (bytes * Z) + (bytes * Z * Z * Z) :=
  match a with V4 i p => inl (i, p) | V6 i p f s => inr (i, p, f, s) end.
Definition sockaddr_dec (x : (bytes * Z) + (bytes * Z * Z * Z)) : SocketAddr :=
  match x with inl (i, p) => V4 i p | inr (i, p, f, s) => V6 i p f s end.
#[export] Instance SocketAddr_countable : Countable SocketAddr.
Proof. apply (inj_countable' sockaddr_enc sockaddr_dec). by intros []. Defined.

Definition port_of (a : SocketAddr) : Z :=
  match a with V4 _ p => p | V6 _ p _ _ => p end.

(** [Ipv6Addr::to_ipv4]: the IPv4-compatible and the IPv4-mapped addresses. *)
Definition to_ipv4 (ip : bytes) : option bytes :=
  if decide (take 10 ip = replicate 10 0 /\
             (take 2 (drop 10 ip) = [0; 0] \/ take 2 (drop 10 ip) = [255; 255]))
  then Some (drop 12 ip) else None.

Definition addr_nice (addr : SocketAddr) : SocketAddr :=
  match addr with
  | V6 ip port _ _ =>
      match to_ipv4 ip with
      | Some ip4 => V4 ip4 port
      | None => addr
      end
  | V4 _ _ => addr
  end.

(** ** The message buffer *)

Definition BUFFER_SIZE : Z := 65535.

Record MsgBuffer : Type := mkMsgBuffer {
  space_before : Z;
  buf_data : bytes;      (** the field [buffer: [u8; 65535]] *)
  buf_start : Z;
  buf_end : Z
}.

Module MsgBuffer.

Definition new (space_before : Z) : MsgBuffer :=
  mkMsgBuffer space_before (replicate (Z.to_nat BUFFER_SIZE) 0) space_before space_before.

Definition get_start (b : MsgBuffer) : Z := buf_start b.

Definition set_start (start : Z) (b : MsgBuffer) : MsgBuffer :=
  mkMsgBuffer (space_before b) (buf_data b) start (buf_end b).

Definition set_end (e : Z) (b : MsgBuffer) : MsgBuffer :=
  mkMsgBuffer (space_before b) (buf_data b) (buf_start b) e.

Definition set_data (d : bytes) (b : MsgBuffer) : MsgBuffer :=
  mkMsgBuffer (space_before b) d (buf_start b) (buf_end b).

(** [self.buffer[i] = byte]. *)
Definition store {E} (i byte : Z) : ST MsgBuffer E unit := fun b =>
  if decide (0 <= i < zlen (buf_data b))
  then (set_data (<[Z.to_nat i := byte]> (buf_data b)) b, Ok tt)
  else (b, Panic).

Definition prepend_byte {E} (byte : Z) : ST MsgBuffer E unit :=
  modify (fun b => set_start (wrap64 (buf_start b - 1)) b) ;;
  start ← gets buf_start;
  store start byte.

Definition take_prefix {E} : ST MsgBuffer E Z := fun b =>
  match index (buf_data b) (buf_start b) with
  | Ok byte => (set_start (wrap64 (buf_start b + 1)) b, Ok byte)
  | Err e => (b, Err e)
  | Panic => (b, Panic)
  end.

(** [buffer()]: everything from [start] to the end of the array. *)
Definition buffer {E} (b : MsgBuffer) : outcome E bytes :=
  slice (buf_start b) (zlen (buf_data b)) (buf_data b).

Definition message {E} (b : MsgBuffer) : outcome E bytes :=
  slice (buf_start b) (buf_end b) (buf_data b).

Definition take {E} : ST MsgBuffer E (option bytes) := fun b =>
  if decide (buf_start b = buf_end b) then (b, Ok None)
  else (set_end (buf_start b) b, Some <$> slice (buf_start b) (buf_end b) (buf_data b)).

(** [message_mut()] followed by a store of the whole slice
    ([copy_from_slice] panics unless the lengths agree). *)
Definition put_message {E} (bs : bytes) : ST MsgBuffer E unit := fun b =>
  match @message E b with
  | Ok m =>
      if decide (length m = length bs)
      then (set_data (splice (Z.to_nat (buf_start b)) bs (buf_data b)) b, Ok tt)
      else (b, Panic)
  | Err e => (b, Err e)
  | Panic => (b, Panic)
  end.

Definition set_length (length : Z) (b : MsgBuffer) : MsgBuffer :=
  set_end (wrap64 (buf_start b + length)) b.

Definition clone_from {E} (other : bytes) : ST MsgBuffer E unit :=
  modify (set_length (zlen other)) ;;
  put_message other.

Definition len (b : MsgBuffer) : Z := wrap64 (buf_end b - buf_start b).

Definition is_empty (b : MsgBuffer) : bool := bool_decide (buf_start b = buf_end b).

Definition clear (b : MsgBuffer) : MsgBuffer :=
  set_length 0 (set_start (space_before b) b).

(** A [Cursor] over [buffer()]: the position reached, [None] when a write failed
    (the bytes written before the failure are not modelled: every caller panics
    then). *)
Definition write_cursor {E} (f : Cursor -> option Cursor) : ST MsgBuffer E (option Z) := fun b =>
  match @buffer E b with
  | Ok view =>
      match f (mkCursor view 0) with
      | Some c =>
          (set_data (list.take (Z.to_nat (buf_start b)) (buf_data b) ++ cur_data c) b,
           Ok (Some (Z.of_nat (cur_pos c))))
      | None => (b, Ok None)
      end
  | Err e => (b, Err e)
  | Panic => (b, Panic)
  end.

(** The buffers the program works on: [start <= end] inside the array. *)
Definition wf (b : MsgBuffer) : Prop :=
  zlen (buf_data b) = BUFFER_SIZE /\ bytes_ok (buf_data b) /\
  0 <= space_before b <= BUFFER_SIZE /\
  0 <= buf_start b <= buf_end b /\ buf_end b <= BUFFER_SIZE.

(** What the buffer holds. *)
Definition contents (b : MsgBuffer) : bytes :=
  list.take (Z.to_nat (buf_end b - buf_start b)) (drop (Z.to_nat (buf_start b)) (buf_data b)).

End MsgBuffer.

(** ** Hexadecimal *)

Definition HEX_CHARS : list Ascii.ascii := String.list_ascii_of_string "0123456789abcdef".

Definition bytes_to_hex (bs : bytes) : string :=
  String.string_of_list_ascii
    (mjoin ((fun byte =>
       option_list (HEX_CHARS !! Z.to_nat (Z.shiftr byte 4)) ++
       option_list (HEX_CHARS !! Z.to_nat (Z.land byte 15))) <$> bs)).

(** ** The byte encoder *)

Module Encoder.

Definition read_u16 {E} (data : bytes) : outcome E Z :=
  d0 ← index data 0; d1 ← index data 1;
  Ok (Z.lor (Z.shiftl d0 8) d1).

(** Indexed stores [data[i] = v]. *)
Fixpoint stores {E} (i : nat) (vs : bytes) (data : bytes) : outcome E bytes :=
  match vs with
  | [] => Ok data
  | v :: vs' =>
      if decide (i < length data)%nat then stores (S i) vs' (<[i := v]> data) else Panic
  end.

Definition write_u16 {E} (val : Z) (data : bytes) : outcome E bytes :=
  stores 0 [Z.land (Z.shiftr val 8) 255; Z.land val 255] data.

Definition read_u32 {E} (data : bytes) : outcome E Z :=
  d0 ← index data 0; d1 ← index data 1; d2 ← index data 2; d3 ← index data 3;
  Ok (Z.lor (Z.lor (Z.lor (Z.shiftl d0 24) (Z.shiftl d1 16)) (Z.shiftl d2 8)) d3).

Definition write_u32 {E} (val : Z) (data : bytes) : outcome E bytes :=
  stores 0 [Z.land (Z.shiftr val 24) 255; Z.land (Z.shiftr val 16) 255;
            Z.land (Z.shiftr val 8) 255; Z.land val 255] data.

Definition read_u64 {E} (data : bytes) : outcome E Z :=
  d0 ← index data 0; d1 ← index data 1; d2 ← index data 2; d3 ← index data 3;
  d4 ← index data 4; d5 ← index data 5; d6 ← index data 6; d7 ← index data 7;
  Ok (Z.lor (Z.lor (Z.lor (Z.lor (Z.lor (Z.lor (Z.lor (Z.shiftl d0 56) (Z.shiftl d1 48))
        (Z.shiftl d2 40)) (Z.shiftl d3 32)) (Z.shiftl d4 24)) (Z.shiftl d5 16))
        (Z.shiftl d6 8)) d7).

Definition write_u64 {E} (val : Z) (data : bytes) : outcome E bytes :=
  stores 0 [Z.land (Z.shiftr val 56) 255; Z.land (Z.shiftr val 48) 255;
            Z.land (Z.shiftr val 40) 255; Z.land (Z.shiftr val 32) 255;
            Z.land (Z.shiftr val 24) 255; Z.land (Z.shiftr val 16) 255;
            Z.land (Z.shiftr val 8) 255; Z.land val 255] data.

End Encoder.

(** ** Name resolution results

    [to_socket_addrs] (DNS) is outside: [resolve] takes its answer. *)

Definition addr_key (a : SocketAddr) : Z := match a with V4 _ _ => 4 | V6 _ _ _ _ => 6 end.

(** [sort_by_key] is a stable sort. *)
Fixpoint insert_by_key {A} (key : A -> Z) (x : A) (l : list A) : list A :=
  match l with
  | [] => [x]
  | y :: l' => if decide (key x <= key y) then x :: l else y :: insert_by_key key x l'
  end.
Definition sort_by_key {A} (key : A -> Z) (l : list A) : list A :=
  foldr (insert_by_key key) [] l.

(** [dedup] removes consecutive repetitions. *)
Fixpoint dedup (l : list SocketAddr) : list SocketAddr :=
  match l with
  | x :: (y :: _) as l' => if decide (x = y) then dedup l' else x :: dedup l'
  | _ => l
  end.

Definition resolve (name : string) (to_socket_addrs : option (list SocketAddr))
    : Result (list SocketAddr) :=
  addrs ← ok_or to_socket_addrs (NameUnresolvable name);
  Ok (dedup (sort_by_key addr_key addrs)).

(** ** Statsd messages *)

Record StatsdMsg : Type := mkStatsdMsg { sd_entries : list string; sd_key : list string }.

Fixpoint join (sep : string) (l : list string) : string :=
  match l with
  | [] => ""
  | [x] => x
  | x :: l' => x +:+ sep +:+ join sep l'
  end.

Definition newline : string := String (Ascii.ascii_of_nat 10) EmptyString.

Module StatsdMsg.

Definition new : StatsdMsg := mkStatsdMsg [] [].

Definition add (key val type_ : string) (m : StatsdMsg) : StatsdMsg :=
  mkStatsdMsg (sd_entries m ++ [join "." (sd_key m) +:+ "." +:+ key +:+ ":" +:+ val +:+ "|" +:+ type_])
              (sd_key m).

Definition with_ns (ns : string) (f : StatsdMsg -> StatsdMsg) (m : StatsdMsg) : StatsdMsg :=
  let m' := f (mkStatsdMsg (sd_entries m) (sd_key m ++ [ns])) in
  mkStatsdMsg (sd_entries m') (take (length (sd_key m') - 1) (sd_key m')).

Definition build (m : StatsdMsg) : string := join newline (sd_entries m).

End StatsdMsg.

(** ** Lemmas *)

Section MsgBufferLemmas.
Import MsgBuffer.
Context {E : Type}.
Implicit Types b : MsgBuffer.

Lemma wrap64_small z : 0 <= z < 2 ^ 64 -> wrap64 z = z.
Proof. apply Z.mod_small. Qed.

Ltac bufs := unfold wf, set_length, set_start, set_end, set_data, clear, len, is_empty,
  contents, zlen, BUFFER_SIZE in *; simpl in *.

Lemma wf_bounds b : wf b -> 0 <= buf_start b < 2 ^ 64 /\ 0 <= buf_end b < 2 ^ 64.
Proof. bufs. lia. Qed.

Lemma message_wf b : wf b -> message (E:=E) b = Ok (contents b).
Proof. intros H. unfold message. rewrite slice_ok; [done|bufs; lia..]. Qed.

Lemma length_contents b : wf b -> zlen (contents b) = buf_end b - buf_start b.
Proof. bufs. intros. rewrite length_take, length_drop. lia. Qed.

Lemma len_wf b : wf b -> len b = buf_end b - buf_start b.
Proof. intros H. unfold len. apply wrap64_small. bufs; lia. Qed.

Lemma contents_bytes_ok b : wf b -> bytes_ok (contents b).
Proof.
  intros (_ & H & _). unfold contents, bytes_ok in *. by apply Forall_take, Forall_drop.
Qed.

Lemma set_length_wf b l :
  wf b -> 0 <= l <= BUFFER_SIZE - buf_start b -> wf (set_length l b).
Proof.
  intros H Hl. pose proof (wf_bounds b H). bufs. rewrite wrap64_small by lia. intuition lia.
Qed.

Lemma set_length_end b l :
  wf b -> 0 <= l <= BUFFER_SIZE - buf_start b -> buf_end (set_length l b) = buf_start b + l.
Proof. intros H Hl. bufs. rewrite wrap64_small; lia. Qed.

Lemma new_wf sb : 0 <= sb <= BUFFER_SIZE -> wf (new sb).
Proof.
  intros H. unfold wf, new, BUFFER_SIZE, zlen in *. cbn [buf_data buf_start buf_end space_before].
  rewrite length_replicate. split; [lia|]. split; [|lia].
  apply Forall_replicate. unfold is_u8. lia.
Qed.

Lemma clear_wf b : wf b -> wf (clear b).
Proof.
  intros H. bufs. rewrite wrap64_small by lia. intuition lia.
Qed.

Lemma clear_empty b : wf b -> is_empty (clear b) = true /\ buf_start (clear b) = space_before b.
Proof.
  intros H. bufs. rewrite wrap64_small by lia.
  split; [apply bool_decide_eq_true_2; lia|done].
Qed.

Lemma is_empty_contents b : wf b -> is_empty b = true <-> contents b = [].
Proof.
  intros H. pose proof (length_contents b H) as Hl. unfold is_empty, zlen in *.
  rewrite bool_decide_eq_true. split; intros.
  - apply nil_length_inv. lia.
  - rewrite H0 in Hl. simpl in Hl. lia.
Qed.

Lemma put_message_spec b bs :
  wf b -> bytes_ok bs -> zlen bs = buf_end b - buf_start b ->
  exists b', put_message (E:=E) bs b = (b', Ok tt) /\ wf b' /\ contents b' = bs /\
    buf_start b' = buf_start b /\ buf_end b' = buf_end b /\ space_before b' = space_before b.
Proof.
  intros H Hb Hl. pose proof (length_contents b H) as Hc. unfold put_message, zlen in *.
  rewrite message_wf by done. rewrite decide_True by lia.
  eexists. split; [done|]. bufs.
  assert (Z.to_nat (buf_start b) + length bs <= length (buf_data b))%nat by lia.
  rewrite length_splice by lia. split_and!; try (intuition lia).
  - apply bytes_ok_splice; [done|apply H].
  - apply take_drop_splice; lia.
Qed.

Lemma clone_from_spec b bs :
  wf b -> bytes_ok bs -> zlen bs <= BUFFER_SIZE - buf_start b ->
  exists b', clone_from (E:=E) bs b = (b', Ok tt) /\ wf b' /\ contents b' = bs /\
    buf_start b' = buf_start b /\ space_before b' = space_before b.
Proof.
  intros H Hb Hl. unfold clone_from, mbind, ST_bind, modify.
  destruct (put_message_spec (set_length (zlen bs) b) bs) as (b' & -> & Hb').
  - apply set_length_wf; unfold zlen in *; [done|lia].
  - done.
  - rewrite set_length_end by (unfold zlen in *; done || lia). simpl. lia.
  - exists b'. simpl in Hb'. intuition.
Qed.

(** The writer is only ever started at the front of the buffer. *)
Lemma write_cursor_front_spec f bs b :
  (forall view, f (mkCursor view 0) = write_all bs (mkCursor view 0)) -> wf b -> bytes_ok bs -> zlen bs <= BUFFER_SIZE - buf_start b ->
  exists b', write_cursor (E:=E) f b = (b', Ok (Some (zlen bs))) /\
    wf b' /\ buf_start b' = buf_start b /\ space_before b' = space_before b /\
    contents (set_length (zlen bs) b') = bs.
Proof.
  intros Hf H Hb Hl. unfold write_cursor, buffer. pose proof H as (H1 & H2 & H3 & H4 & H5).
  rewrite slice_ok by (unfold zlen in *; lia). rewrite Hf.
  set (view := list.take _ _).
  assert (length view = Z.to_nat (BUFFER_SIZE - buf_start b)) as Hv.
  { subst view. rewrite length_take, length_drop. unfold zlen in *. lia. }
  unfold write_all, Prelude.write_cursor. cbn [cur_pos cur_data].
  rewrite decide_True by (unfold zlen in *; lia).
  eexists. split; [reflexivity|]. cbn [cur_data].
  assert (length (splice 0 bs view) = length view) as Hsl
    by (apply length_splice; unfold zlen in *; lia).
  split_and!; try done.
  - bufs. rewrite length_app, length_take, Hsl. split_and!; try lia.
    apply Forall_app. split; [by apply Forall_take|].
    apply bytes_ok_splice; [done|]. subst view. by apply Forall_take, Forall_drop.
  - bufs. rewrite wrap64_small by lia.
    rewrite drop_app_length' by (rewrite length_take; lia).
    change (splice 0 bs view) with (drop 0 (splice 0 bs view)).
    apply take_drop_splice; lia.
Qed.

Lemma write_cursor_spec f bs b :
  writes f bs -> wf b -> bytes_ok bs -> zlen bs <= BUFFER_SIZE - buf_start b ->
  exists b', write_cursor (E:=E) f b = (b', Ok (Some (zlen bs))) /\
    wf b' /\ buf_start b' = buf_start b /\ space_before b' = space_before b /\
    contents (set_length (zlen bs) b') = bs.
Proof. intros Hf. apply write_cursor_front_spec. intros view. apply Hf. Qed.

Lemma prepend_byte_spec b byte :
  wf b -> is_u8 byte -> 0 < buf_start b ->
  exists b', prepend_byte (E:=E) byte b = (b', Ok tt) /\ wf b' /\
    contents b' = byte :: contents b /\
    buf_start b' = buf_start b - 1 /\ buf_end b' = buf_end b /\
    space_before b' = space_before b.
Proof.
  intros H Hu Hs. pose proof H as (H1 & H2 & H3 & H4 & H5).
  unfold prepend_byte, mbind, ST_bind, modify, gets, store. cbn [set_start buf_start buf_data].
  rewrite wrap64_small by (unfold BUFFER_SIZE in *; lia).
  rewrite decide_True by lia. eexists. split; [done|].
  bufs. rewrite length_insert. split_and!; try lia.
  - apply Forall_insert; done.
  - rewrite (drop_S _ byte).
    + replace (Z.to_nat (buf_end b - (buf_start b - 1)))
        with (S (Z.to_nat (buf_end b - buf_start b))) by lia. simpl. f_equal.
      replace (S (Z.to_nat (buf_start b - 1))) with (Z.to_nat (buf_start b)) by lia.
      by rewrite drop_insert_lt by lia.
    + apply list_lookup_insert_eq. lia.
Qed.

Lemma take_prefix_spec b byte rest :
  wf b -> contents b = byte :: rest ->
  take_prefix (E:=E) b = (set_start (buf_start b + 1) b, Ok byte) /\
  wf (set_start (buf_start b + 1) b) /\ contents (set_start (buf_start b + 1) b) = rest.
Proof.
  intros H Hc. pose proof (length_contents b H) as Hl. rewrite Hc in Hl.
  pose proof H as (H1 & H2 & H3 & H4 & H5).
  unfold zlen in Hl. simpl in Hl.
  assert (buf_data b !! Z.to_nat (buf_start b) = Some byte) as Hi.
  { assert (contents b !! 0%nat = Some byte) as Hk by (by rewrite Hc).
    unfold contents in Hk. rewrite lookup_take, lookup_drop in Hk by lia.
    rewrite Nat.add_0_r in Hk. by case_decide. }
  unfold take_prefix, index. rewrite decide_True by lia. rewrite Hi. simpl.
  rewrite wrap64_small by (unfold BUFFER_SIZE in *; lia).
  split; [done|]. split; [bufs; intuition lia|].
  unfold contents in *. cbn [set_start buf_start buf_end buf_data].
  rewrite (drop_S _ byte) in Hc by done.
  replace (Z.to_nat (buf_end b - buf_start b))
    with (S (Z.to_nat (buf_end b - (buf_start b + 1)))) in Hc by lia.
  simpl in Hc. injection Hc as Hc.
  by replace (Z.to_nat (buf_start b + 1)) with (S (Z.to_nat (buf_start b))) by lia.
Qed.
End MsgBufferLemmas.
