(* ===== verification/Types.v ===== *)
(** * Addresses, ranges and modes (src/src/types.rs)

    [Address] with its wire format, comparison and text form, [Range] with the
    prefix match that routes packets, and the node modes. *)

From S2P Require Import Prelude Errors Util.

Definition NODE_ID_BYTES : nat := 16.
Abbreviation NodeId := (list Z).

(** [data: [u8; 16]] and [len: u8]. *)
Record Address : Type := mkAddress { addr_data : bytes; addr_len : Z }.

#[export] Instance Address_eq_dec : EqDecision Address.
Proof. solve_decision. Defined.

Record Range : Type := mkRange { base : Address; prefix_len : Z }.
Abbreviation RangeList := (list Range).

#[export] Instance Range_eq_dec : EqDecision Range.
Proof. solve_decision. Defined.

Inductive Mode : Type := Normal | Hub | Switch | Router.

#[export] Instance Mode_eq_dec : EqDecision Mode.
Proof. solve_decision. Defined.

Module Address.

(** [&self.data[..self.len as usize]]: the part that is compared and hashed.
    [HashMap]s with [Address] keys are keyed by it. *)
Definition key (a : Address) : bytes := take (Z.to_nat (addr_len a)) (addr_data a).

(** The array behind [let mut data = [0; 16]] after its first bytes are read. *)
Definition pad (bs : bytes) : bytes := bs ++ replicate (16 - length bs) 0.

(** Addresses as the program builds them. *)
Definition wf (a : Address) : Prop :=
  length (addr_data a) = 16%nat /\ bytes_ok (addr_data a) /\ 0 <= addr_len a <= 16.
(** ... with nothing behind the address proper. *)
Definition canonical (a : Address) : Prop := wf a /\ addr_data a = pad (key a).

Definition read_from_fixed {R} `{Read R} (r : R) (len : Z) : Result (Address * R) :=
  if decide (16 < len) then Err (EParse "Invalid address, too long")
  else
    '(bs, r') ← ok_or (read_exact (Z.to_nat len) r) (EParse "Address too short");
    Ok (mkAddress (pad bs) len, r').

Definition read_from {R} `{Read R} (r : R) : Result (Address * R) :=
  '(len, r') ← ok_or (read_u8 r) (EParse "Address too short");
  read_from_fixed r' len.

(** [None] is the [expect("Buffer too small")] panic of the caller's writer. *)
Definition write_to {W} `{Write W} (a : Address) (w : W) : option W :=
  w' ← write_u8 (addr_len a) w;
  write_all (key a) w'.

Definition from_ipv4 (ip : bytes) : Address := mkAddress (pad ip) 4.

Definition eqb (a b : Address) : bool :=
  bool_decide (addr_len a = addr_len b) && bool_decide (key a = key b).

(** The bytes [write_to] produces. *)
Definition enc (a : Address) : bytes := be_bytes 1 (addr_len a) ++ key a.

(** *** Text *)

Definition dec_digit (d : Z) : Ascii.ascii := Ascii.ascii_of_nat (48 + Z.to_nat d).

(** [{}] of an unsigned integer below 100000. *)
Definition fmt_u16 (n : Z) : string :=
  let d k := dec_digit (n / k mod 10) in
  String.string_of_list_ascii
    (if n <? 10 then [d 1]
     else if n <? 100 then [d 10; d 1]
     else if n <? 1000 then [d 100; d 10; d 1]
     else if n <? 10000 then [d 1000; d 100; d 10; d 1]
     else [d 10000; d 1000; d 100; d 10; d 1]).

(** [{:02x}] of a byte. *)
Definition fmt_02x (b : Z) : string := bytes_to_hex [b].

Definition colons (l : list string) : string := join ":" l.

(** [Display for Address]. *)
Definition fmt (a : Address) : string :=
  let d i := nth i (addr_data a) 0 in
  if decide (addr_len a = 4) then join "." [fmt_u16 (d 0%nat); fmt_u16 (d 1%nat); fmt_u16 (d 2%nat); fmt_u16 (d 3%nat)]
  else if decide (addr_len a = 6) then
    colons (fmt_02x <$> [d 0%nat; d 1%nat; d 2%nat; d 3%nat; d 4%nat; d 5%nat])
  else if decide (addr_len a = 8) then
    "vlan" +:+ fmt_u16 (Z.lor (Z.shiftl (d 0%nat) 8) (d 1%nat)) +:+ "/" +:+
    colons (fmt_02x <$> [d 2%nat; d 3%nat; d 4%nat; d 5%nat; d 6%nat; d 7%nat])
  else if decide (addr_len a = 16) then
    colons ((fun i => fmt_02x (d (2 * i)%nat) +:+ fmt_02x (d (2 * i + 1)%nat)) <$> seq 0 8)
  else bytes_to_hex (key a).

(** [str::split] at a character. *)
Fixpoint split_at (c : Ascii.ascii) (s : string) : list string :=
  match s with
  | EmptyString => [EmptyString]
  | String x s' =>
      match split_at c s' with
      | [] => []
      | p :: ps => if decide (x = c) then EmptyString :: p :: ps else String x p :: ps
      end
  end.

Definition hex_digit (c : Ascii.ascii) : option Z :=
  let n := Z.of_nat (Ascii.nat_of_ascii c) in
  if decide (48 <= n <= 57) then Some (n - 48)
  else if decide (97 <= n <= 102) then Some (n - 87)
  else if decide (65 <= n <= 70) then Some (n - 55)
  else None.

(** [u8::from_str_radix(s, 16)]: an optional [+], then at least one digit, no
    overflow. *)
Fixpoint hex_digits (acc : Z) (s : string) : option Z :=
  match s with
  | EmptyString => Some acc
  | String c s' => d ← hex_digit c; let v := acc * 16 + d in
                   if decide (v < 256) then hex_digits v s' else None
  end.
Definition u8_from_hex (s : string) : option Z :=
  match s with
  | EmptyString => None
  | String "+"%char EmptyString => None
  | String "+"%char s' => hex_digits 0 s'
  | _ => hex_digits 0 s
  end.

(** The standard library's IP address parsers, which the model leaves open. *)
Class IpParsers : Type := {
  ipv4_from_str : string -> option bytes;
  ipv6_from_str : string -> option bytes
}.

Definition from_str `{IpParsers} (text : string) : Result Address :=
  match ipv4_from_str text with
  | Some ip => Ok (mkAddress (pad ip) 4)
  | None =>
    match ipv6_from_str text with
    | Some ip => Ok (mkAddress (pad ip) 16)
    | None =>
      let parts := split_at ":"%char text in
      if decide (length parts = 6%nat) then
        match mapM u8_from_hex parts with
        | Some bs => Ok (mkAddress (pad bs) 6)
        | None => Err (EParse "Failed to parse mac")
        end
      else Err (EParse "Failed to parse address")
    end
  end.

End Address.

Module Range.

(** The loop of [matches]: [match_len] grows until the first differing byte. *)
Fixpoint match_loop (n : nat) (data base : bytes) (match_len : Z) : Z :=
  match n, data, base with
  | S n', d :: data', b :: base' =>
      let m := Z.lxor d b in
      let match_len' := wrap8 (match_len + leading_zeros8 m) in
      if decide (m = 0) then match_loop n' data' base' match_len' else match_len'
  | _, _, _ => match_len
  end.

Definition matches (r : Range) (addr : Address) : bool :=
  if decide (addr_len (base r) = addr_len addr) then
    bool_decide (prefix_len r <=
      match_loop (Z.to_nat (addr_len addr)) (addr_data addr) (addr_data (base r)) 0)
  else false.

Definition read_from {R} `{Read R} (r : R) : Result (Range * R) :=
  '(base, r1) ← Address.read_from r;
  '(prefix_len, r2) ← ok_or (read_u8 r1) (EParse "Address too short");
  Ok (mkRange base prefix_len, r2).

Definition write_to {W} `{Write W} (r : Range) (w : W) : option W :=
  w' ← Address.write_to (base r) w;
  write_u8 (prefix_len r) w'.

(** Derived [PartialEq]: on the address as [Address::eq], on the length. *)
Definition eqb (r s : Range) : bool :=
  Address.eqb (base r) (base s) && bool_decide (prefix_len r = prefix_len s).

Definition enc (r : Range) : bytes := Address.enc (base r) ++ be_bytes 1 (prefix_len r).

Definition wf (r : Range) : Prop := Address.wf (base r) /\ is_u8 (prefix_len r).
Definition canonical (r : Range) : Prop := Address.canonical (base r) /\ is_u8 (prefix_len r).

(** Bit [i] of an address, from the most significant bit of its first byte. *)
Definition addr_bit (data : bytes) (i : Z) : bool :=
  match data !! Z.to_nat (i / 8) with
  | Some b => Z.testbit b (7 - i mod 8)
  | None => false
  end.

Definition fmt (r : Range) : string :=
  Address.fmt (base r) +:+ "/" +:+ Address.fmt_u16 (prefix_len r).

(** [str::find] of a character: the text before and behind its first occurrence. *)
Fixpoint split_once (c : Ascii.ascii) (s : string) : option (string * string) :=
  match s with
  | EmptyString => None
  | String x s' =>
      if decide (x = c) then Some (EmptyString, s')
      else '(a, b) ← split_once c s'; Some (String x a, b)
  end.

(** [u8::from_str]. *)
Fixpoint dec_digits (bound acc : Z) (s : string) : option Z :=
  match s with
  | EmptyString => Some acc
  | String c s' =>
      let n := Z.of_nat (Ascii.nat_of_ascii c) in
      if decide (48 <= n <= 57) then
        let v := acc * 10 + (n - 48) in
        if decide (v < bound) then dec_digits bound v s' else None
      else None
  end.
Definition uint_from_str (bound : Z) (s : string) : option Z :=
  match s with
  | EmptyString => None
  | String "+"%char EmptyString => None
  | String "+"%char s' => dec_digits bound 0 s'
  | _ => dec_digits bound 0 s
  end.

Definition from_str `{Address.IpParsers} (text : string) : Result Range :=
  match split_once "/"%char text with
  | None => Err (EParse "Invalid range format")
  | Some (before, after) =>
      prefix_len ← ok_or (uint_from_str 256 after) (EParse "Failed to parse prefix length");
      base ← Address.from_str before;
      Ok (mkRange base prefix_len)
  end.

End Range.

Module Mode.

Definition fmt (m : Mode) : string :=
  match m with
  | Normal => "normal"
  | Hub => "hub"
  | Switch => "switch"
  | Router => "router"
  end.

(** [to_lowercase] on the ASCII range: no character outside it lowers to one of
    the four names or a part of one. *)
Definition to_lower (c : Ascii.ascii) : Ascii.ascii :=
  let n := Ascii.nat_of_ascii c in
  if decide (65 <= n <= 90)%nat then Ascii.ascii_of_nat (n + 32) else c.
Fixpoint to_lowercase (s : string) : string :=
  match s with
  | EmptyString => EmptyString
  | String c s' => String (to_lower c) (to_lowercase s')
  end.

(** The error is the [&'static str] of the source. *)
Definition from_str (text : string) : outcome string Mode :=
  let t := to_lowercase text in
  if decide (t = "normal") then Ok Normal
  else if decide (t = "hub") then Ok Hub
  else if decide (t = "switch") then Ok Switch
  else if decide (t = "router") then Ok Router
  else Err "Unknown mode".

End Mode.

(** ** Lemmas *)

Lemma length_pad bs : (length bs <= 16)%nat -> length (Address.pad bs) = 16%nat.
Proof. intros. unfold Address.pad. rewrite length_app, length_replicate. lia. Qed.

Lemma pad_ok bs : bytes_ok bs -> bytes_ok (Address.pad bs).
Proof.
  intros. apply Forall_app. split; [done|]. apply Forall_replicate. unfold is_u8. lia.
Qed.

Lemma key_pad bs len :
  Z.to_nat len = length bs -> Address.key (mkAddress (Address.pad bs) len) = bs.
Proof. intros H. unfold Address.key, Address.pad. simpl. by rewrite take_app_length'. Qed.

Lemma length_key a : Address.wf a -> length (Address.key a) = Z.to_nat (addr_len a).
Proof. intros (H1 & _ & H2). unfold Address.key. rewrite length_take. lia. Qed.

Lemma key_ok a : Address.wf a -> bytes_ok (Address.key a).
Proof. intros (_ & H & _). by apply Forall_take. Qed.

Lemma addr_len_u8 a : Address.wf a -> is_u8 (addr_len a).
Proof. intros (_ & _ & H). unfold is_u8. lia. Qed.

Lemma canonical_pad bs len :
  Z.to_nat len = length bs -> 0 <= len <= 16 -> bytes_ok bs ->
  Address.canonical (mkAddress (Address.pad bs) len).
Proof.
  intros H1 H2 H3. split; [split_and!|]; simpl.
  - apply length_pad. lia.
  - by apply pad_ok.
  - lia.
  - lia.
  - by rewrite key_pad.
Qed.

Lemma canonical_eta a : Address.canonical a -> mkAddress (Address.pad (Address.key a)) (addr_len a) = a.
Proof. intros [_ H]. rewrite <- H. by destruct a. Qed.

#[export] Hint Resolve key_ok addr_len_u8 : vpn.

Lemma address_enc_ok a : Address.wf a -> bytes_ok (Address.enc a).
Proof. intros. apply Forall_app. split; [apply be_bytes_ok|by apply key_ok]. Qed.

Lemma address_write_spec {W} `{WriteLaws W} a : writes (W:=W) (Address.write_to a) (Address.enc a).
Proof. intros w. unfold Address.write_to, Address.enc. apply writes_bind; auto with vpn. Qed.

Lemma address_read_fixed_prepend {R} `{ReadLaws R} a (r : R) :
  Address.canonical a ->
  Address.read_from_fixed (prepend (Address.key a) r) (addr_len a) = Ok (a, r).
Proof.
  intros Hc. pose proof Hc as [Hw _]. unfold Address.read_from_fixed.
  rewrite decide_False by (destruct Hw as (_ & _ & ?); lia).
  rewrite read_exact_prepend_n by (by apply length_key). simpl. by rewrite canonical_eta.
Qed.

Lemma address_read_prepend {R} `{ReadLaws R} a (r : R) :
  Address.canonical a -> Address.read_from (prepend (Address.enc a) r) = Ok (a, r).
Proof.
  intros Hc. unfold Address.read_from, Address.enc.
  rewrite prepend_app, read_u8_prepend by (apply addr_len_u8, Hc).
  by apply address_read_fixed_prepend.
Qed.

Lemma range_write_spec {W} `{WriteLaws W} r : writes (W:=W) (Range.write_to r) (Range.enc r).
Proof.
  intros w. unfold Range.write_to, Range.enc.
  apply writes_bind; [apply address_write_spec|auto with vpn].
Qed.

Lemma range_read_prepend {R} `{ReadLaws R} g (r : R) :
  Range.canonical g -> Range.read_from (prepend (Range.enc g) r) = Ok (g, r).
Proof.
  intros [Hc Hp]. unfold Range.read_from, Range.enc.
  rewrite prepend_app, address_read_prepend by done. cbn [mbind outcome_bind].
  rewrite read_u8_prepend by done. simpl. by destruct g.
Qed.

Lemma read_u8_slice s v s' :
  bytes_ok s -> read_u8 s = Some (v, s') -> is_u8 v /\ s = v :: s' /\ bytes_ok s'.
Proof.
  unfold read_u8. intros Hs. destruct (read_exact 1 s) as [[bs r]|] eqn:E; [|done].
  intros [= <- <-]. apply read_exact_inv in E as [Hl ->].
  apply Forall_app in Hs as [Hb Hr]. destruct bs as [|b []]; try done.
  rewrite be_value_1. apply Forall_cons_1 in Hb as [Hb _]. auto.
Qed.

(** What a reader accepts is what the writer wrote. *)
Lemma address_read_inv s a s' :
  bytes_ok s -> Address.read_from s = Ok (a, s') ->
  Address.canonical a /\ s = Address.enc a ++ s' /\ bytes_ok s'.
Proof.
  unfold Address.read_from, Address.read_from_fixed. intros Hs.
  destruct (read_u8 s) as [[len r]|] eqn:E; simpl; [|done].
  apply read_u8_slice in E as (Hu & -> & Hr); [|done].
  case_decide; [done|]. destruct (read_exact _ r) as [[bs r']|] eqn:E; simpl; [|done].
  intros [= <- <-]. apply read_exact_inv in E as [Hl ->].
  apply Forall_app in Hr as [Hb Hr']. split; [|split]; [| |done].
  - unfold is_u8 in Hu. apply canonical_pad; [lia|lia|done].
  - unfold Address.enc. unfold is_u8 in Hu. rewrite key_pad by lia.
    cbn [addr_len]. by rewrite be_bytes_1.
Qed.

Lemma range_read_inv s g s' :
  bytes_ok s -> Range.read_from s = Ok (g, s') ->
  Range.canonical g /\ s = Range.enc g ++ s' /\ bytes_ok s'.
Proof.
  unfold Range.read_from. intros Hs.
  destruct (Address.read_from s) as [[a r]| |] eqn:E; simpl; [|done..].
  apply address_read_inv in E as (Hc & -> & Hr); [|done].
  destruct (read_u8 r) as [[p r']|] eqn:E; simpl; [|done]. intros [= <- <-].
  apply read_u8_slice in E as (Hu & -> & Hr'); [|done].
  split; [by split|split; [|done]]. unfold Range.enc. cbn [base prefix_len].
  by rewrite be_bytes_1, <-(assoc_L app).
Qed.

(** *** The bits of a prefix *)

Lemma addr_bit_head b l i : 0 <= i < 8 -> Range.addr_bit (b :: l) i = Z.testbit b (7 - i).
Proof. intros. unfold Range.addr_bit. by rewrite Z.div_small, Z.mod_small. Qed.

Lemma addr_bit_tail b l i : 8 <= i -> Range.addr_bit (b :: l) i = Range.addr_bit l (i - 8).
Proof.
  intros. unfold Range.addr_bit.
  assert (i / 8 = (i - 8) / 8 + 1) as -> by
    (replace i with ((i - 8) + 1 * 8) at 1 by lia; apply Z.div_add; lia).
  assert (i mod 8 = (i - 8) mod 8) as -> by
    (replace i with ((i - 8) + 1 * 8) at 1 by lia; apply Z.mod_add; lia).
  assert (0 <= (i - 8) / 8) by (apply Z.div_pos; lia).
  by rewrite Z2Nat.inj_add, Nat.add_1_r by lia.
Qed.

(** Two different bytes agree exactly on the leading zeros of their xor. *)
Lemma byte_prefix d b :
  is_u8 d -> is_u8 b -> Z.lxor d b <> 0 ->
  0 <= leading_zeros8 (Z.lxor d b) < 8 /\
  (forall i, 0 <= i < leading_zeros8 (Z.lxor d b) -> Z.testbit d (7 - i) = Z.testbit b (7 - i)) /\
  Z.testbit d (7 - leading_zeros8 (Z.lxor d b)) <> Z.testbit b (7 - leading_zeros8 (Z.lxor d b)).
Proof.
  intros Hd Hb Hx. unfold leading_zeros8. rewrite decide_False by done.
  set (m := Z.lxor d b) in *. unfold is_u8 in *.
  assert (0 <= m) as Hm by (apply Z.lxor_nonneg; lia).
  assert (Z.log2 m < 8) as Hlog.
  { apply Z.log2_lt_pow2; [lia|]. change (2 ^ 8) with 256.
    destruct (Z.eq_dec d 0) as [->|]; [unfold m; rewrite Z.lxor_0_l; lia|].
    destruct (Z.eq_dec b 0) as [->|]; [unfold m; rewrite Z.lxor_0_r; lia|].
    pose proof (Z.log2_lxor d b ltac:(lia) ltac:(lia)) as Hl. fold m in Hl.
    assert (Z.log2 d < 8 /\ Z.log2 b < 8) by (split; apply Z.log2_lt_pow2; lia).
    change 256 with (2 ^ 8). apply Z.log2_lt_pow2; lia. }
  pose proof (Z.log2_nonneg m). split_and!; [lia|lia|..].
  - intros i Hi. pose proof (Z.bits_above_log2 m (7 - i) Hm ltac:(lia)) as Hz.
    unfold m in Hz. rewrite Z.lxor_spec in Hz.
    by destruct (Z.testbit d (7 - i)), (Z.testbit b (7 - i)).
  - pose proof (Z.bit_log2 m ltac:(lia)) as Hz. unfold m in Hz at 1. rewrite Z.lxor_spec in Hz.
    replace (7 - (7 - Z.log2 m)) with (Z.log2 m) by lia.
    by destruct (Z.testbit d (Z.log2 m)), (Z.testbit b (Z.log2 m)).
Qed.

Lemma match_loop_spec n : forall data base acc p,
  (n <= length data)%nat -> (n <= length base)%nat ->
  bytes_ok data -> bytes_ok base -> 0 <= acc -> acc + 8 * Z.of_nat n < 256 -> 0 <= p ->
  p <= Range.match_loop n data base acc - acc <->
  p <= 8 * Z.of_nat n /\
  forall i, 0 <= i < p -> Range.addr_bit data i = Range.addr_bit base i.
Proof.
  induction n as [|n IH]; intros data base acc p Hl1 Hl2 Hd Hb Ha Hn Hp; simpl.
  { split; [intros; split; [lia|intros; lia]|intros; lia]. }
  destruct data as [|d data], base as [|b base]; simpl in *; try lia.
  apply Forall_cons_1 in Hd as [Hd Hds], Hb as [Hb Hbs].
  case_decide as Hx.
  - apply Z.lxor_eq in Hx as ->. rewrite Z.lxor_nilpotent. unfold leading_zeros8. simpl decide.
    rewrite decide_True by done. unfold wrap. rewrite (Z.mod_small (acc + 8)) by lia.
    destruct (decide (p <= 8)) as [H8|H8].
    + split.
      * intros _. split; [lia|]. intros i Hi. by rewrite !addr_bit_head by lia.
      * intros _. destruct (IH data base (acc + 8) 0) as [_ I0]; try done; try lia.
        enough (0 <= Range.match_loop n data base (acc + 8) - (acc + 8)) by lia.
        apply I0. split; [lia|]. intros; lia.
    + pose proof (IH data base (acc + 8) (p - 8) ltac:(lia) ltac:(lia) Hds Hbs
          ltac:(lia) ltac:(lia) ltac:(lia)) as [I1 I2]. split.
      * intros Hle. destruct I1 as [I1 I1']; [lia|]. split; [lia|]. intros i Hi.
        destruct (decide (i < 8)); [by rewrite !addr_bit_head by lia|].
        rewrite !addr_bit_tail by lia. apply I1'. lia.
      * intros [Hle Hbits]. enough (p - 8 <= Range.match_loop n data base (acc + 8) - (acc + 8)) by lia.
        apply I2. split; [lia|]. intros i Hi.
        specialize (Hbits (i + 8)). rewrite !addr_bit_tail in Hbits by lia.
        replace (i + 8 - 8) with i in Hbits by lia. apply Hbits. lia.
  - destruct (byte_prefix d b Hd Hb Hx) as (Hz & Heq & Hne).
    unfold wrap. rewrite Z.mod_small by lia. split.
    + intros Hle. split; [lia|]. intros i Hi. rewrite !addr_bit_head by lia. apply Heq. lia.
    + intros [_ Hbits]. destruct (decide (p <= leading_zeros8 (Z.lxor d b))); [lia|].
      exfalso. apply Hne. rewrite <- (addr_bit_head d data), <- (addr_bit_head b base) by lia.
      apply Hbits. lia.
Qed.

(** ** Properties *)

(** C33: a range claims exactly the addresses of its own length that agree with
    its base on the first [prefix_len] bits; a prefix longer than the address
    claims nothing. *)
Theorem range_matches_spec (g : Range) (a : Address) :
  Range.wf g -> Address.wf a ->
  Range.matches g a = true <->
  addr_len (base g) = addr_len a /\ prefix_len g <= 8 * addr_len a /\
  forall i, 0 <= i < prefix_len g ->
    Range.addr_bit (addr_data a) i = Range.addr_bit (addr_data (base g)) i.
Proof.
  intros [(Hl1 & Hb1 & Hn1) Hp] (Hl2 & Hb2 & Hn2). unfold Range.matches, is_u8 in *.
  case_decide as Hlen; [|split; [done|intros [? _]; done]].
  rewrite bool_decide_eq_true.
  pose proof (match_loop_spec (Z.to_nat (addr_len a)) (addr_data a) (addr_data (base g)) 0
    (prefix_len g)) as Hspec.
  rewrite Z.sub_0_r, Z2Nat.id in Hspec by lia. rewrite Hspec by (done || lia). tauto.
Qed.

(** The /24 of 10.1.2.0 and an address inside it. *)
Definition sample_range : Range := mkRange (mkAddress (Address.pad [10; 1; 2; 0]) 4) 24.
Definition sample_addr : Address := mkAddress (Address.pad [10; 1; 2; 77]) 4.

Lemma sample_range_canonical : Range.canonical sample_range.
Proof.
  split; [|by vm_compute]. apply canonical_pad; [done|lia|].
  by apply (bool_decide_unpack _).
Qed.
Lemma sample_addr_wf : Address.wf sample_addr.
Proof. by apply (canonical_pad [10; 1; 2; 77] 4); [| |apply (bool_decide_unpack _)]. Qed.

Lemma range_matches_spec_witness :
  Range.matches sample_range sample_addr = true /\
  forall i, 0 <= i < 24 ->
    Range.addr_bit (addr_data sample_addr) i = Range.addr_bit (addr_data (base sample_range)) i.
Proof.
  destruct sample_range_canonical as [[Hw _] Hp].
  split; [reflexivity|].
  exact (proj2 (proj2 (proj1 (range_matches_spec sample_range sample_addr
    (conj Hw Hp) sample_addr_wf) eq_refl))).
Defined.

(** What [Range::write_to] writes, [Range::read_from] reads back, leaving the
    rest of the input; and whatever [Range::read_from] accepts is exactly the
    encoding of the range it returns. *)
Theorem range_wire_roundtrip (g : Range) (rest s : bytes) :
  Range.canonical g -> bytes_ok s ->
  (exists bs, Range.write_to g ([] : bytes) = Some bs /\ Range.read_from (bs ++ rest) = Ok (g, rest)) /\
  (forall g' s', Range.read_from s = Ok (g', s') ->
     Range.canonical g' /\ Some s = (fun bs => bs ++ s') <$> Range.write_to g' ([] : bytes)).
Proof.
  intros Hc Hs. split.
  - exists (Range.enc g). split; [by rewrite (range_write_spec g [])|].
    exact (range_read_prepend (R := bytes) g rest Hc).
  - intros g' s' Hr. apply range_read_inv in Hr as (Hg & -> & _); [|done].
    split; [done|]. by rewrite (range_write_spec g' []).
Qed.

Lemma range_wire_roundtrip_witness :
  exists bs, Range.write_to sample_range ([] : bytes) = Some bs /\
    Range.read_from (bs ++ [9]) = Ok (sample_range, [9]).
Proof.
  exact (proj1 (range_wire_roundtrip sample_range [9] [] sample_range_canonical
    (List.Forall_nil _))).
Defined.

Lemma u8_hex_roundtrip b : is_u8 b -> Address.u8_from_hex (Address.fmt_02x b) = Some b.
Proof.
  intros Hb. unfold is_u8 in Hb.
  assert (Forall (fun n => Address.u8_from_hex (Address.fmt_02x (Z.of_nat n)) = Some (Z.of_nat n))
    (seq 0 256)) as H by (apply (bool_decide_unpack _); vm_compute; exact I).
  rewrite Forall_forall in H. specialize (H (Z.to_nat b)). rewrite Z2Nat.id in H by lia.
  apply H. apply elem_of_seq. lia.
Qed.

Lemma hex_no_colon b : is_u8 b -> Address.split_at ":"%char (Address.fmt_02x b) = [Address.fmt_02x b].
Proof.
  intros Hb. unfold is_u8 in Hb.
  assert (Forall (fun n => Address.split_at ":"%char (Address.fmt_02x (Z.of_nat n)) =
    [Address.fmt_02x (Z.of_nat n)]) (seq 0 256)) as H
    by (apply (bool_decide_unpack _); vm_compute; exact I).
  rewrite Forall_forall in H. specialize (H (Z.to_nat b)). rewrite Z2Nat.id in H by lia.
  apply H. apply elem_of_seq. lia.
Qed.

Lemma split_at_nonnil c s : Address.split_at c s <> [].
Proof.
  induction s as [|x s IH]; simpl; [done|].
  destruct (Address.split_at c s); [done|]. by case_decide.
Qed.

Lemma split_at_join c p s :
  Address.split_at c p = [p] ->
  Address.split_at c (p +:+ String c s) = p :: Address.split_at c s.
Proof.
  induction p as [|x p IH]; intros Hp; simpl.
  - pose proof (split_at_nonnil c s). destruct (Address.split_at c s); [done|].
    by rewrite decide_True.
  - simpl in Hp. pose proof (split_at_nonnil c p).
    destruct (Address.split_at c p) as [|q qs]; [done|].
    case_decide; simplify_eq. by rewrite IH.
Qed.

Lemma split_at_join_sep c p s :
  Address.split_at c p = [p] ->
  Address.split_at c (p +:+ String c EmptyString +:+ s) = p :: Address.split_at c s.
Proof. apply split_at_join. Qed.

(** The text form of a MAC address parses back to the same address (when it is
    not also the text of an IP address). *)
Theorem mac_text_roundtrip `{Address.IpParsers} (a : Address) :
  Address.canonical a -> addr_len a = 6 ->
  Address.ipv4_from_str (Address.fmt a) = None ->
  Address.ipv6_from_str (Address.fmt a) = None ->
  Address.from_str (Address.fmt a) = Ok a.
Proof.
  intros Hc Hl H4 H6. unfold Address.from_str. rewrite H4, H6.
  pose proof (length_key a (proj1 Hc)) as Hk. pose proof (key_ok a (proj1 Hc)) as Hok.
  rewrite Hl in Hk.
  pose proof (canonical_eta a Hc) as Ha. unfold Address.fmt. rewrite Hl.
  rewrite (decide_False (P := 6 = 4)), (decide_True (P := 6 = 6)) by lia.
  destruct Hc as [_ ->].
  destruct (Address.key a) as [|b0 [|b1 [|b2 [|b3 [|b4 [|b5 []]]]]]]; try done.
  unfold bytes_ok in Hok. rewrite !Forall_cons_iff in Hok. destruct Hok as (?&?&?&?&?&?&_).
  cbn [Address.pad app nth fmap list_fmap Address.colons join].
  rewrite !split_at_join_sep, !hex_no_colon by (done || by apply hex_no_colon).
  rewrite decide_True by done.
  cbn [mapM option_bind mbind]. rewrite !u8_hex_roundtrip by done. simpl.
  by rewrite <- Ha, Hl.
Qed.

(** Parsers that know no IP address. *)
Definition no_ip_parsers : Address.IpParsers :=
  {| Address.ipv4_from_str _ := None; Address.ipv6_from_str _ := None |}.

Lemma mac_text_roundtrip_witness :
  @Address.from_str no_ip_parsers "78:2d:16:05:01:02" =
    Ok (mkAddress (Address.pad [120; 45; 22; 5; 1; 2]) 6).
Proof.
  refine (@mac_text_roundtrip no_ip_parsers (mkAddress (Address.pad [120; 45; 22; 5; 1; 2]) 6)
    _ eq_refl eq_refl eq_refl).
  by apply canonical_pad; [| |apply (bool_decide_unpack _)].
Defined.
