(* ===== verification/Table.v ===== *)
(** * The forwarding table (src/src/table.rs)

    [ClaimTable]: the claims the peers announced and the cache of single
    addresses, with expiry.  The clock value [TS::now()] is the parameter [now]
    of each operation (it is read once per operation); times are [i64] seconds
    far from the bounds of the type and are plain integers. *)

From S2P Require Import Prelude Errors Util Types.

Record CacheValue : Type := mkCacheValue { cv_peer : SocketAddr; cv_timeout : Z }.

Record ClaimEntry : Type := mkClaimEntry {
  ce_peer : SocketAddr;
  ce_claim : Range;
  ce_timeout : Z
}.

(** The cache is a [HashMap] keyed by [Address]: by the bytes [Address::eq] and
    [Address::hash] look at. *)
Record ClaimTable : Type := mkClaimTable {
  ct_cache : gmap bytes CacheValue;
  cache_timeout : Z;
  ct_claims : list ClaimEntry;
  claim_timeout : Z
}.

Module ClaimTable.

Definition new (cache_timeout claim_timeout : Z) : ClaimTable :=
  mkClaimTable ∅ cache_timeout [] claim_timeout.

Definition set_cache (c : gmap bytes CacheValue) (t : ClaimTable) : ClaimTable :=
  mkClaimTable c (cache_timeout t) (ct_claims t) (claim_timeout t).
Definition with_claims (l : list ClaimEntry) (t : ClaimTable) : ClaimTable :=
  mkClaimTable (ct_cache t) (cache_timeout t) l (claim_timeout t).

Definition cache (now : Z) (addr : Address) (peer : SocketAddr) (t : ClaimTable) : ClaimTable :=
  set_cache (<[Address.key addr := mkCacheValue peer (now + cache_timeout t)]> (ct_cache t)) t.

Definition clear_cache (t : ClaimTable) : ClaimTable := set_cache ∅ t.

Definition housekeep (now : Z) (t : ClaimTable) : ClaimTable :=
  with_claims (filter (fun e => now <= ce_timeout e) (ct_claims t))
    (set_cache (filter (fun kv => now <= cv_timeout kv.2) (ct_cache t)) t).

(** [claims.iter().position(|r| r == claim)]. *)
Fixpoint position (claim : Range) (claims : RangeList) : option nat :=
  match claims with
  | [] => None
  | r :: rs => if Range.eqb r claim then Some 0%nat else S <$> position claim rs
  end.

(** [SmallVec::swap_remove]: the last element takes the place of element [i]. *)
Definition swap_remove {A} (i : nat) (l : list A) : list A :=
  match last l with
  | Some x => take (length l - 1) (<[i := x]> l)
  | None => l
  end.

Definition zero_claim (e : ClaimEntry) : ClaimEntry := mkClaimEntry (ce_peer e) (ce_claim e) 0.
Definition refresh_claim (t : Z) (e : ClaimEntry) : ClaimEntry :=
  mkClaimEntry (ce_peer e) (ce_claim e) t.

(** The first loop of [set_claims], [break] included: the entries after it and
    the announced claims that were not found. *)
Fixpoint refresh_loop (timeout : Z) (peer : SocketAddr) (claims : RangeList)
    (entries : list ClaimEntry) : list ClaimEntry * RangeList :=
  match entries with
  | [] => ([], claims)
  | e :: es =>
      if decide (ce_peer e = peer) then
        match position (ce_claim e) claims with
        | Some pos =>
            let claims' := swap_remove pos claims in
            if decide (claims' = []) then (refresh_claim timeout e :: es, claims')
            else
              let '(es', rest) := refresh_loop timeout peer claims' es in
              (refresh_claim timeout e :: es', rest)
        | None =>
            let '(es', rest) := refresh_loop timeout peer claims es in
            (zero_claim e :: es', rest)
        end
      else
        let '(es', rest) := refresh_loop timeout peer claims es in (e :: es', rest)
  end.

Definition zero_cache (peer : SocketAddr) (c : gmap bytes CacheValue) : gmap bytes CacheValue :=
  (fun v => if decide (cv_peer v = peer) then mkCacheValue (cv_peer v) 0 else v) <$> c.

Definition set_claims (now : Z) (peer : SocketAddr) (claims : RangeList) (t : ClaimTable) : ClaimTable :=
  let timeout := now + claim_timeout t in
  let '(entries, rest) := refresh_loop timeout peer claims (ct_claims t) in
  let entries := entries ++ ((fun claim => mkClaimEntry peer claim timeout) <$> rest) in
  housekeep now (set_cache (zero_cache peer (ct_cache t)) (with_claims entries t)).

Definition remove_claims (now : Z) (peer : SocketAddr) (t : ClaimTable) : ClaimTable :=
  let entries := (fun e => if decide (ce_peer e = peer) then zero_claim e else e) <$> ct_claims t in
  housekeep now (set_cache (zero_cache peer (ct_cache t)) (with_claims entries t)).

(** The loop of [lookup]: [found] and [prefix_len] so far. *)
Fixpoint lookup_loop (addr : Address) (entries : list ClaimEntry)
    (found : option ClaimEntry) (prefix : Z) : option ClaimEntry :=
  match entries with
  | [] => found
  | e :: es =>
      if (prefix <? prefix_len (ce_claim e)) && Range.matches (ce_claim e) addr
      then lookup_loop addr es (Some e) (prefix_len (ce_claim e))
      else lookup_loop addr es found prefix
  end.

Definition lookup (now : Z) (addr : Address) (t : ClaimTable) : ClaimTable * option SocketAddr :=
  match ct_cache t !! Address.key addr with
  | Some entry => (t, Some (cv_peer entry))
  | None =>
      match lookup_loop addr (ct_claims t) None (-1) with
      | Some entry =>
          (set_cache (<[Address.key addr :=
              mkCacheValue (ce_peer entry) (Z.min (now + cache_timeout t) (ce_timeout entry))]>
              (ct_cache t)) t,
           Some (ce_peer entry))
      | None => (t, None)
      end
  end.

Definition cache_len (t : ClaimTable) : Z := Z.of_nat (size (ct_cache t)).
Definition claim_len (t : ClaimTable) : Z := zlen (ct_claims t).

End ClaimTable.

Import ClaimTable.

(** ** Lemmas *)

Lemma claim_in_housekeep now t e :
  e ∈ ct_claims (housekeep now t) <-> e ∈ ct_claims t /\ now <= ce_timeout e.
Proof. unfold housekeep. simpl. rewrite list_elem_of_filter. tauto. Qed.

Lemma cache_in_housekeep now t k v :
  ct_cache (housekeep now t) !! k = Some v <->
  ct_cache t !! k = Some v /\ now <= cv_timeout v.
Proof. unfold housekeep. simpl. apply map_lookup_filter_Some. Qed.

Lemma cache_in_zero peer c k v :
  zero_cache peer c !! k = Some v <->
  exists v0, c !! k = Some v0 /\
    v = if decide (cv_peer v0 = peer) then mkCacheValue (cv_peer v0) 0 else v0.
Proof.
  unfold zero_cache. rewrite lookup_fmap. destruct (c !! k) as [v0|]; simpl.
  - split; [intros [= <-]; eauto|intros (? & [= <-] & ->); done].
  - split; [done|intros (? & ? & _); done].
Qed.

(** Entries of the other peers, and of this peer, through the refresh loop. *)
Lemma refresh_loop_other timeout peer claims entries e :
  ce_peer e <> peer ->
  e ∈ (refresh_loop timeout peer claims entries).1 <-> e ∈ entries.
Proof.
  intros Hp. revert claims. induction entries as [|x es IH]; intros claims; simpl; [done|].
  case_decide as Hx.
  - destruct (position _ _); [case_decide|]; simpl.
    + rewrite !elem_of_cons. split; intros [->|]; auto; exfalso; apply Hp; done.
    + specialize (IH (swap_remove n claims)). destruct (refresh_loop _ _ _ _); simpl in *.
      rewrite !elem_of_cons, IH. split; intros [->|]; auto; exfalso; apply Hp; done.
    + specialize (IH claims). destruct (refresh_loop _ _ _ _); simpl in *.
      rewrite !elem_of_cons, IH. split; intros [->|]; auto; exfalso; apply Hp; done.
  - specialize (IH claims). destruct (refresh_loop _ _ _ _); simpl in *.
    by rewrite !elem_of_cons, IH.
Qed.

(** Every entry after the loop comes from one before it, with its timeout kept,
    refreshed or zeroed. *)
Lemma refresh_loop_origin timeout peer claims entries e :
  e ∈ (refresh_loop timeout peer claims entries).1 ->
  exists e0, e0 ∈ entries /\ ce_peer e = ce_peer e0 /\ ce_claim e = ce_claim e0 /\
    (e = e0 \/ (ce_peer e = peer /\ (ce_timeout e = timeout \/ ce_timeout e = 0))).
Proof.
  revert claims. induction entries as [|x es IH]; intros claims; simpl; [by intros ?%elem_of_nil|].
  assert (forall cl l, (refresh_loop timeout peer cl es).1 = l -> e ∈ l ->
    exists e0, e0 ∈ x :: es /\ ce_peer e = ce_peer e0 /\ ce_claim e = ce_claim e0 /\
    (e = e0 \/ (ce_peer e = peer /\ (ce_timeout e = timeout \/ ce_timeout e = 0)))) as Hrec.
  { intros cl l <- He. destruct (IH cl He) as (e0 & ? & ?). exists e0. rewrite elem_of_cons. auto. }
  case_decide as Hx; [destruct (position _ _); [case_decide|]|]; simpl.
  - intros [->|He]%elem_of_cons; [exists x|exists e]; rewrite elem_of_cons; simpl; auto 10.
  - specialize (Hrec (swap_remove n claims)). destruct (refresh_loop _ _ _ _); simpl in *.
    intros [->|He]%elem_of_cons; [exists x; rewrite elem_of_cons; simpl; auto 10|eauto].
  - specialize (Hrec claims). destruct (refresh_loop _ _ _ _); simpl in *.
    intros [->|He]%elem_of_cons; [exists x; rewrite elem_of_cons; simpl; auto 10|eauto].
  - specialize (Hrec claims). destruct (refresh_loop _ _ _ _); simpl in *.
    intros [->|He]%elem_of_cons; [exists x; rewrite elem_of_cons; simpl; auto 10|eauto].
Qed.

Lemma swap_remove_elem {A} (l : list A) i y z :
  l !! i = Some y -> z ∈ l -> z = y \/ z ∈ swap_remove i l.
Proof.
  intros Hi Hz. unfold swap_remove.
  destruct (last l) as [x|] eqn:El; [|by apply last_None in El as ->].
  apply last_Some in El as [l' ->]. rewrite length_app. simpl.
  replace (length l' + 1 - 1)%nat with (length l') by lia.
  apply list_elem_of_lookup in Hz as [j Hj].
  destruct (decide (i < length l')%nat) as [Hil|Hil].
  - rewrite insert_app_l by done. rewrite take_app_length' by (by rewrite length_insert).
    destruct (decide (j = i)) as [->|Hji]; [left; congruence|right].
    destruct (decide (j < length l')%nat).
    + apply list_elem_of_lookup. exists j. rewrite list_lookup_insert_ne by done.
      by rewrite lookup_app_l in Hj.
    + rewrite lookup_app_r in Hj by lia. destruct (j - length l')%nat; simplify_eq/=.
      apply list_elem_of_lookup. exists i. by rewrite list_lookup_insert_eq.
  - rewrite lookup_app_r in Hi by lia.
    destruct (i - length l')%nat as [|k] eqn:Hk; [|done]. simplify_eq/=.
    rewrite insert_app_r_alt by lia. rewrite Hk. simpl.
    rewrite take_app_length.
    destruct (decide (j < length l')%nat).
    + right. apply list_elem_of_lookup. exists j. by rewrite lookup_app_l in Hj.
    + left. rewrite lookup_app_r in Hj by lia. destruct (j - length l')%nat; by simplify_eq/=.
Qed.

Lemma position_Some claim claims n :
  position claim claims = Some n -> exists r, claims !! n = Some r /\ Range.eqb r claim = true.
Proof.
  revert n. induction claims as [|r rs IH]; intros n; simpl; [done|].
  destruct (Range.eqb r claim) eqn:E; [intros [= <-]; eauto|].
  destruct (position claim rs); simpl; [|done]. intros [= <-]. by apply IH.
Qed.

(** Every announced claim is refreshed in place or left over for insertion. *)
Lemma refresh_loop_announced timeout peer claims entries r :
  r ∈ claims ->
  r ∈ (refresh_loop timeout peer claims entries).2 \/
  exists e, e ∈ (refresh_loop timeout peer claims entries).1 /\
    ce_peer e = peer /\ ce_timeout e = timeout /\ Range.eqb r (ce_claim e) = true.
Proof.
  revert claims. induction entries as [|x es IH]; intros claims Hr; simpl; [by left|].
  case_decide as Hx.
  - destruct (position (ce_claim x) claims) as [n|] eqn:Hn.
    + apply position_Some in Hn as (r' & Hr' & Heq).
      destruct (swap_remove_elem claims n r' r Hr' Hr) as [->|Hin].
      * right. exists (refresh_claim timeout x).
        case_decide; [|destruct (refresh_loop _ _ _ es)]; simpl; (split; [by left|done]).
      * case_decide as Hc; [rewrite Hc in Hin; by apply elem_of_nil in Hin|].
        specialize (IH _ Hin). destruct (refresh_loop _ _ _ es); simpl in *.
        destruct IH as [|(e & ? & ?)]; [by left|right; exists e; split; [by right|done]].
    + specialize (IH _ Hr). destruct (refresh_loop _ _ _ es); simpl in *.
      destruct IH as [|(e & ? & ?)]; [by left|right; exists e; split; [by right|done]].
  - specialize (IH _ Hr). destruct (refresh_loop _ _ _ es); simpl in *.
    destruct IH as [|(e & ? & ?)]; [by left|right; exists e; split; [by right|done]].
Qed.

Lemma swap_remove_subset {A} (l : list A) i z : z ∈ swap_remove i l -> z ∈ l.
Proof.
  unfold swap_remove. destruct (last l) as [x|] eqn:El; [|done].
  intros Hz. apply list_elem_of_lookup in Hz as [j Hj].
  apply lookup_take_Some in Hj as [Hj _].
  apply list_lookup_insert_Some in Hj as [(-> & -> & _)|[_ Hj]].
  - apply last_Some in El as [l' ->]. apply elem_of_app. right. by left.
  - apply list_elem_of_lookup. eauto.
Qed.

Lemma refresh_loop_rest timeout peer claims entries r :
  r ∈ (refresh_loop timeout peer claims entries).2 -> r ∈ claims.
Proof.
  revert claims. induction entries as [|x es IH]; intros claims; simpl; [done|].
  case_decide; [destruct (position _ _); [case_decide|]|]; simpl.
  - apply swap_remove_subset.
  - specialize (IH (swap_remove n claims)). destruct (refresh_loop _ _ _ es); simpl in *.
    intros ?%IH. eapply swap_remove_subset; eauto.
  - specialize (IH claims). destruct (refresh_loop _ _ _ es); simpl in *. done.
  - specialize (IH claims). destruct (refresh_loop _ _ _ es); simpl in *. done.
Qed.

(** [matches] looks at the address bytes proper only. *)
Lemma match_loop_take n : forall data b acc,
  Range.match_loop n data b acc = Range.match_loop n (take n data) b acc.
Proof.
  induction n as [|n IH]; intros [|d data] [|x b] acc; simpl; try done.
  case_decide; [apply IH|done].
Qed.

Lemma matches_key g a a' :
  Address.wf a -> Address.wf a' -> Address.key a = Address.key a' ->
  Range.matches g a = Range.matches g a'.
Proof.
  intros Ha Ha' Hk. pose proof (length_key a Ha) as L. pose proof (length_key a' Ha') as L'.
  assert (addr_len a = addr_len a') as Hl.
  { rewrite Hk in L. destruct Ha as (_ & _ & ?), Ha' as (_ & _ & ?). lia. }
  unfold Range.matches. rewrite Hl.
  rewrite (match_loop_take _ (addr_data a)), (match_loop_take _ (addr_data a')).
  unfold Address.key in Hk. rewrite Hl in Hk. by rewrite Hk.
Qed.

Lemma lookup_loop_spec addr entries : forall found p,
  match lookup_loop addr entries found p with
  | r => (r = found /\ forall x, x ∈ entries -> Range.matches (ce_claim x) addr = true ->
            prefix_len (ce_claim x) <= p) \/
         exists pre e suf, r = Some e /\ entries = pre ++ e :: suf /\
           Range.matches (ce_claim e) addr = true /\ p < prefix_len (ce_claim e) /\
           (forall x, x ∈ pre -> Range.matches (ce_claim x) addr = true ->
              prefix_len (ce_claim x) < prefix_len (ce_claim e)) /\
           (forall x, x ∈ suf -> Range.matches (ce_claim x) addr = true ->
              prefix_len (ce_claim x) <= prefix_len (ce_claim e))
  end.
Proof.
  induction entries as [|x es IH]; intros found p; simpl.
  { left. split; [done|]. by intros ? ?%elem_of_nil. }
  destruct (_ && _) eqn:E.
  - apply andb_true_iff in E as [Hp%Z.ltb_lt Hm].
    destruct (IH (Some x) (prefix_len (ce_claim x))) as [[-> Hx]|(pre & e & suf & -> & -> & ? & ? & Hpre & Hsuf)].
    + right. exists [], x, es. split_and!; try done. by intros ? ?%elem_of_nil.
    + right. exists (x :: pre), e, suf. split_and!; try done; [lia|].
      intros y [->|Hy]%elem_of_cons ?; [lia|auto].
  - assert (Range.matches (ce_claim x) addr = true -> prefix_len (ce_claim x) <= p) as Hx.
    { intros Hm. rewrite Hm, andb_true_r in E. apply Z.ltb_ge in E. done. }
    destruct (IH found p) as [[-> Hes]|(pre & e & suf & -> & -> & ? & ? & Hpre & Hsuf)].
    + left. split; [done|]. intros y [->|Hy]%elem_of_cons ?; auto.
    + right. exists (x :: pre), e, suf. split_and!; try done.
      intros y [->|Hy]%elem_of_cons Hm; [specialize (Hx Hm); lia|auto].
Qed.

Lemma set_claims_entries now peer claims t e :
  0 < now -> 0 <= claim_timeout t ->
  e ∈ ct_claims (set_claims now peer claims t) <->
  now <= ce_timeout e /\
  (e ∈ (refresh_loop (now + claim_timeout t) peer claims (ct_claims t)).1 \/
   exists r, r ∈ (refresh_loop (now + claim_timeout t) peer claims (ct_claims t)).2 /\
     e = mkClaimEntry peer r (now + claim_timeout t)).
Proof.
  intros. unfold set_claims. destruct (refresh_loop _ _ _ _) as [es rest]. simpl fst. simpl snd.
  rewrite claim_in_housekeep. simpl. rewrite elem_of_app, list_elem_of_fmap.
  firstorder.
Qed.

Lemma set_claims_cache now peer claims t k v :
  0 < now ->
  ct_cache (set_claims now peer claims t) !! k = Some v <->
  ct_cache t !! k = Some v /\ cv_peer v <> peer /\ now <= cv_timeout v.
Proof.
  intros. unfold set_claims. destruct (refresh_loop _ _ _ _) as [es rest].
  rewrite cache_in_housekeep. simpl. rewrite cache_in_zero. split.
  - intros [(v0 & Hv & ->) Ht]. case_decide; simpl in *; [lia|done].
  - intros (Hv & Hp & Ht). split; [|done]. exists v. by rewrite decide_False.
Qed.

Lemma remove_claims_entries now peer t e :
  0 < now ->
  e ∈ ct_claims (remove_claims now peer t) <->
  e ∈ ct_claims t /\ ce_peer e <> peer /\ now <= ce_timeout e.
Proof.
  intros. unfold remove_claims. rewrite claim_in_housekeep. simpl. rewrite list_elem_of_fmap.
  split.
  - intros [(e0 & -> & He) Ht]. case_decide; simpl in *; [lia|done].
  - intros (He & Hp & Ht). split; [|done]. exists e. by rewrite decide_False.
Qed.

Lemma remove_claims_cache now peer t k v :
  0 < now ->
  ct_cache (remove_claims now peer t) !! k = Some v <->
  ct_cache t !! k = Some v /\ cv_peer v <> peer /\ now <= cv_timeout v.
Proof.
  intros. unfold remove_claims. rewrite cache_in_housekeep. simpl. rewrite cache_in_zero. split.
  - intros [(v0 & Hv & ->) Ht]. case_decide; simpl in *; [lia|done].
  - intros (Hv & Hp & Ht). split; [|done]. exists v. by rewrite decide_False.
Qed.

(** ** The table over time

    What a node does with its table, in any order: [OpCache] is what a node that
    learns addresses calls with the source of a payload. *)
Inductive table_op : Type :=
| OpCache (addr : Address) (peer : SocketAddr)
| OpSetClaims (peer : SocketAddr) (claims : RangeList)
| OpRemoveClaims (peer : SocketAddr)
| OpLookup (addr : Address)
| OpHousekeep.

Definition run_op (now : Z) (op : table_op) (t : ClaimTable) : ClaimTable :=
  match op with
  | OpCache addr peer => cache now addr peer t
  | OpSetClaims peer claims => set_claims now peer claims t
  | OpRemoveClaims peer => remove_claims now peer t
  | OpLookup addr => (lookup now addr t).1
  | OpHousekeep => housekeep now t
  end.

Definition op_wf (op : table_op) : Prop :=
  match op with OpCache addr _ | OpLookup addr => Address.wf addr | _ => True end.

(** What has been done with a table, and when; the latest first. *)
Abbreviation history := (list (Z * table_op)).

(** Tables reachable at time [now] by operations at non-decreasing times. *)
Inductive reachable (cache_to claim_to : Z) : Z -> history -> ClaimTable -> Prop :=
| reach_new now : reachable cache_to claim_to now [] (new cache_to claim_to)
| reach_op now now' op past t :
    reachable cache_to claim_to now past t -> now <= now' -> 0 < now' -> op_wf op ->
    reachable cache_to claim_to now' ((now', op) :: past) (run_op now' op t).

(** An operation after which it does not count any more that [peer] was seen with the
    address of key [k], which was to be kept until [expiry]: the address was seen at
    another peer, the peer has announced its claims anew or is gone, or the table was
    cleaned up after it. *)
Definition forgets (expiry : Z) (k : bytes) (peer : SocketAddr) (event : Z * table_op) : bool :=
  match event.2 with
  | OpCache addr _ => bool_decide (Address.key addr = k)
  | OpSetClaims p _ | OpRemoveClaims p => bool_decide (p = peer) || (expiry <? event.1)
  | OpHousekeep => expiry <? event.1
  | OpLookup _ => false
  end.

(** At [tm] the address of key [k] was seen at [peer], and nothing has happened since
    after which that does not count any more. *)
Definition learned (cache_to : Z) (past : history) (k : bytes) (peer : SocketAddr) (expiry : Z) : Prop :=
  exists later tm addr before, past = later ++ (tm, OpCache addr peer) :: before /\ Address.key addr = k /\
    expiry = tm + cache_to /\ Forall (fun event => forgets expiry k peer event = false) later.

(** [peer] has claimed a range with [addr], and the claim lives until [expiry] or longer. *)
Definition claimed (t : ClaimTable) (addr : Address) (peer : SocketAddr) (expiry : Z) : Prop :=
  exists e, e ∈ ct_claims t /\ ce_peer e = peer /\ Range.matches (ce_claim e) addr = true /\ expiry <= ce_timeout e.

(** Every cached address is covered by a live claim of the cached peer, or was learned. *)
Definition covered (cache_to : Z) (past : history) (t : ClaimTable) : Prop :=
  forall addr v, Address.wf addr -> ct_cache t !! Address.key addr = Some v ->
    claimed t addr (cv_peer v) (cv_timeout v) \/ learned cache_to past (Address.key addr) (cv_peer v) (cv_timeout v).

Lemma learned_later cache_to past k peer expiry event :
  forgets expiry k peer event = false -> learned cache_to past k peer expiry -> learned cache_to (event :: past) k peer expiry.
Proof.
  intros Hf (later & tm & addr & before & -> & Hk & He & Hl). exists (event :: later), tm, addr, before.
  split_and!; try done. by constructor.
Qed.

(** What an operation keeps of the cache is covered after it, too. *)
Lemma covered_keep cache_to past event t t' :
  covered cache_to past t ->
  (forall k v, ct_cache t' !! k = Some v -> ct_cache t !! k = Some v /\ forgets (cv_timeout v) k (cv_peer v) event = false /\
     forall e, ce_peer e = cv_peer v -> cv_timeout v <= ce_timeout e -> e ∈ ct_claims t -> e ∈ ct_claims t') ->
  covered cache_to (event :: past) t'.
Proof.
  intros Hc Hk addr v Ha (Hv & Hf & He)%Hk. destruct (Hc addr v Ha Hv) as [(e & Hin & Hp & Hm & Ht)|Hl].
  - left. exists e. split_and!; auto.
  - right. by apply learned_later.
Qed.

Lemma covered_housekeep cache_to past now t : covered cache_to past t -> covered cache_to ((now, OpHousekeep) :: past) (housekeep now t).
Proof.
  intros Hc. eapply covered_keep; [exact Hc|]. intros k v [Hv Ht]%cache_in_housekeep. split; [done|].
  split; [by apply Z.ltb_ge|]. intros e _ He Hin. rewrite claim_in_housekeep. split; [done|lia].
Qed.

Lemma covered_set_claims cache_to past now peer claims t :
  0 < now -> 0 <= claim_timeout t -> covered cache_to past t ->
  covered cache_to ((now, OpSetClaims peer claims) :: past) (set_claims now peer claims t).
Proof.
  intros Hn Hto Hc. eapply covered_keep; [exact Hc|]. intros k v (Hv & Hp & Ht)%set_claims_cache; [|done]. split; [done|]. split.
  - cbn. rewrite bool_decide_eq_false_2 by congruence. by apply Z.ltb_ge.
  - intros e Hpe He Hin. rewrite set_claims_entries by done. split; [lia|]. left. apply refresh_loop_other; [congruence|done].
Qed.

Lemma covered_remove_claims cache_to past now peer t :
  0 < now -> covered cache_to past t -> covered cache_to ((now, OpRemoveClaims peer) :: past) (remove_claims now peer t).
Proof.
  intros Hn Hc. eapply covered_keep; [exact Hc|]. intros k v (Hv & Hp & Ht)%remove_claims_cache; [|done]. split; [done|]. split.
  - cbn. rewrite bool_decide_eq_false_2 by congruence. by apply Z.ltb_ge.
  - intros e Hpe He Hin. rewrite remove_claims_entries by done. split_and!; [done|congruence|lia].
Qed.

Lemma covered_cache past now addr peer t :
  covered (cache_timeout t) past t -> covered (cache_timeout t) ((now, OpCache addr peer) :: past) (cache now addr peer t).
Proof.
  intros Hc addr' v Ha' Hv. cbn [cache set_cache ct_cache] in Hv. apply lookup_insert_Some in Hv as [[Hk <-]|[Hne Hv]].
  - right. exists [], now, addr, past. split_and!; [done..|apply Forall_nil_2].
  - destruct (Hc addr' v Ha' Hv) as [Hl|Hl]; [by left|right]. apply learned_later; [|done].
    cbn. by apply bool_decide_eq_false_2.
Qed.

Lemma covered_lookup cache_to past now addr t :
  Address.wf addr -> covered cache_to past t -> covered cache_to ((now, OpLookup addr) :: past) (lookup now addr t).1.
Proof.
  intros Ha Hc.
  assert (covered cache_to ((now, OpLookup addr) :: past) t) as Hc' by (eapply covered_keep; [exact Hc|]; auto).
  unfold lookup. destruct (ct_cache t !! Address.key addr); [done|].
  pose proof (lookup_loop_spec addr (ct_claims t) None (-1)) as Hl.
  destruct (lookup_loop _ _ _ _) as [e|]; [|done].
  destruct Hl as [[? _]|(pre & e' & suf & [= <-] & Hes & Hm & _)]; [done|].
  simpl. intros addr' v Ha' Hv. simpl in *.
  apply lookup_insert_Some in Hv as [[Hk <-]|[_ Hv]]; [|by apply Hc'].
  left. exists e. split_and!; simpl; try done; [|by erewrite <- matches_key|lia].
  rewrite Hes. apply elem_of_app. right. by left.
Qed.

Lemma run_op_timeouts now op t : claim_timeout (run_op now op t) = claim_timeout t /\ cache_timeout (run_op now op t) = cache_timeout t.
Proof.
  destruct op; simpl; try done.
  - unfold set_claims. by destruct (refresh_loop _ _ _ _).
  - unfold lookup. destruct (_ !! _); [done|]. by destruct (lookup_loop _ _ _ _).
Qed.

Lemma reachable_covered cache_to claim_to now past t :
  0 <= claim_to -> reachable cache_to claim_to now past t ->
  covered cache_to past t /\ claim_timeout t = claim_to /\ cache_timeout t = cache_to.
Proof.
  intros Hto. induction 1 as [|now now' op past t Hr (Hc & Ht & <-) Hn Hn' Hop].
  { split; [|done]. intros addr v _. simpl. by rewrite lookup_empty. }
  destruct (run_op_timeouts now' op t) as [-> ->]. split; [|done]. destruct op; simpl.
  - by apply covered_cache.
  - apply covered_set_claims; [done|lia|done].
  - by apply covered_remove_claims.
  - by apply covered_lookup.
  - by apply covered_housekeep.
Qed.

(** ** Properties *)

(** C17: a lookup that misses the cache returns the peer of the first claim with the
    longest prefix among the claims that match the address, caches it no longer
    than the claim lives, and returns nothing exactly when no claim matches. *)
Theorem lookup_longest_prefix (now : Z) (addr : Address) (t : ClaimTable) :
  Forall (fun e => 0 <= prefix_len (ce_claim e)) (ct_claims t) ->
  ct_cache t !! Address.key addr = None ->
  match lookup now addr t with
  | (t', Some peer) =>
      exists pre e suf, ct_claims t = pre ++ e :: suf /\ ce_peer e = peer /\
        Range.matches (ce_claim e) addr = true /\
        (forall x, x ∈ pre -> Range.matches (ce_claim x) addr = true ->
           prefix_len (ce_claim x) < prefix_len (ce_claim e)) /\
        (forall x, x ∈ suf -> Range.matches (ce_claim x) addr = true ->
           prefix_len (ce_claim x) <= prefix_len (ce_claim e)) /\
        ct_claims t' = ct_claims t /\
        exists v, ct_cache t' = <[Address.key addr := v]> (ct_cache t) /\
          cv_peer v = peer /\ cv_timeout v <= ce_timeout e /\
          cv_timeout v <= now + cache_timeout t
  | (t', None) =>
      t' = t /\ forall x, x ∈ ct_claims t -> Range.matches (ce_claim x) addr = false
  end.
Proof.
  intros Hp Hc. unfold lookup. rewrite Hc.
  pose proof (lookup_loop_spec addr (ct_claims t) None (-1)) as Hl.
  destruct (lookup_loop _ _ _ _) as [e|].
  - destruct Hl as [[? _]|(pre & e' & suf & [= <-] & Hes & Hm & _ & Hpre & Hsuf)]; [done|].
    exists pre, e, suf. split_and!; try done. eexists. split; [done|]. simpl. split_and!; lia || done.
  - split; [done|]. intros x Hx. destruct Hl as [[_ Hl]|(?&?&?&?&_)]; [|done].
    destruct (Range.matches _ _) eqn:Hm; [|done]. specialize (Hl x Hx Hm).
    rewrite Forall_forall in Hp. specialize (Hp x Hx). simpl in Hp. lia.
Qed.

(** Two peers; the second claims the more specific range. *)
Definition peer_a : SocketAddr := V4 [1; 1; 1; 1] 3210.
Definition peer_b : SocketAddr := V4 [2; 2; 2; 2] 3210.
Definition wide_range : Range := mkRange (mkAddress (Address.pad [10; 1; 0; 0]) 4) 16.
Definition sample_table : ClaimTable :=
  mkClaimTable ∅ 300
    [mkClaimEntry peer_a wide_range 1000; mkClaimEntry peer_b sample_range 1000] 300.

Lemma lookup_longest_prefix_witness :
  (lookup 10 sample_addr sample_table).2 = Some peer_b /\
  exists pre e suf, ct_claims sample_table = pre ++ e :: suf /\ ce_peer e = peer_b.
Proof.
  split; [reflexivity|].
  assert (Forall (fun e => 0 <= prefix_len (ce_claim e)) (ct_claims sample_table)) as Hp
    by (repeat constructor; simpl; lia).
  pose proof (lookup_longest_prefix 10 sample_addr sample_table Hp eq_refl) as H.
  destruct H as (pre & e & suf & H1 & H2 & _). exists pre, e, suf. exact (conj H1 H2).
Defined.

(** After a peer announces its claims, each of them is in the table with a fresh
    timeout, the claims and cached addresses of the other peers are untouched but
    for expiry, and nothing is cached for the peer any more. *)
Theorem set_claims_spec (now : Z) (peer : SocketAddr) (claims : RangeList) (t : ClaimTable) :
  0 < now -> 0 <= claim_timeout t ->
  let t' := set_claims now peer claims t in
  (forall r, r ∈ claims -> exists e, e ∈ ct_claims t' /\ ce_peer e = peer /\
     Range.eqb r (ce_claim e) = true /\ ce_timeout e = now + claim_timeout t) /\
  (forall e, ce_peer e <> peer ->
     e ∈ ct_claims t' <-> e ∈ ct_claims t /\ now <= ce_timeout e) /\
  (forall k v, ct_cache t' !! k = Some v <->
     ct_cache t !! k = Some v /\ cv_peer v <> peer /\ now <= cv_timeout v).
Proof.
  intros Hn Hto t'. split_and!.
  - intros r Hr.
    destruct (refresh_loop_announced (now + claim_timeout t) peer claims (ct_claims t) r Hr)
      as [Hrest|(e & He & Hp & Ht & Heq)].
    + exists (mkClaimEntry peer r (now + claim_timeout t)). split_and!; try done.
      * apply set_claims_entries; [done..|]. split; [simpl; lia|]. right. eauto.
      * simpl. unfold Range.eqb, Address.eqb. by rewrite !bool_decide_eq_true_2.
    + exists e. split_and!; try done. apply set_claims_entries; [done..|]. split; [lia|]. by left.
  - intros e Hp. unfold t'. rewrite set_claims_entries by done.
    split.
    + intros [? [He|(r & _ & ->)]]; [|done]. by apply refresh_loop_other in He.
    + intros [? ?]. split; [done|]. left. by apply refresh_loop_other.
  - intros k v. by apply set_claims_cache.
Qed.

Lemma set_claims_spec_witness :
  exists e, e ∈ ct_claims (set_claims 10 peer_a [sample_range] sample_table) /\
    ce_peer e = peer_a /\ ce_timeout e = 310.
Proof.
  destruct (set_claims_spec 10 peer_a [sample_range] sample_table
    ltac:(lia) ltac:(simpl; lia)) as [H _].
  destruct (H sample_range ltac:(left)) as (e & He & Hp & _ & Ht).
  exists e. exact (conj He (conj Hp Ht)).
Defined.

(** Removing a peer's claims leaves no claim and no cached address of the peer
    and keeps the live entries of every other peer. *)
Theorem remove_claims_spec (now : Z) (peer : SocketAddr) (t : ClaimTable) :
  0 < now ->
  (forall e, e ∈ ct_claims (remove_claims now peer t) <->
     e ∈ ct_claims t /\ ce_peer e <> peer /\ now <= ce_timeout e) /\
  (forall k v, ct_cache (remove_claims now peer t) !! k = Some v <->
     ct_cache t !! k = Some v /\ cv_peer v <> peer /\ now <= cv_timeout v).
Proof.
  intros Hn. split; intros; [by apply remove_claims_entries|by apply remove_claims_cache].
Qed.

Lemma remove_claims_spec_witness :
  mkClaimEntry peer_b sample_range 1000 ∈ ct_claims (remove_claims 10 peer_a sample_table) /\
  ~ mkClaimEntry peer_a wide_range 1000 ∈ ct_claims (remove_claims 10 peer_a sample_table).
Proof.
  destruct (remove_claims_spec 10 peer_a sample_table ltac:(lia)) as [H _]. split.
  - apply H. split_and!; [right; left|discriminate|simpl; lia].
  - intros (_ & Hp & _)%H. by apply Hp.
Defined.

(** C18: a lookup only ever answers with a peer that claims a range holding the address,
    or at which the address was learned: whatever was announced, removed, learned,
    looked up and cleaned up before and in whatever order, an answer, cached or not,
    is the peer of a claim in the table that matches the address, or the address was
    last seen at that peer, and since then the peer has neither announced claims nor
    been removed, and no cleanup took place after the entry expired. A node that does
    not learn addresses answers with claims only. *)
Theorem lookup_only_claimed (cache_to claim_to now now' : Z) (past : history) (t : ClaimTable)
    (addr : Address) (peer : SocketAddr) :
  0 <= claim_to -> reachable cache_to claim_to now past t -> Address.wf addr ->
  (lookup now' addr t).2 = Some peer ->
  (exists e, e ∈ ct_claims t /\ ce_peer e = peer /\ Range.matches (ce_claim e) addr = true) \/
  (exists later tm seen before, past = later ++ (tm, OpCache seen peer) :: before /\ Address.key seen = Address.key addr /\
     Forall (fun event => forgets (tm + cache_to) (Address.key addr) peer event = false) later).
Proof.
  intros Hto Hr Ha Hl. destruct (reachable_covered _ _ _ _ _ Hto Hr) as [Hc _].
  unfold lookup in Hl. destruct (ct_cache t !! Address.key addr) as [v|] eqn:Hv.
  - simpl in Hl. injection Hl as <-. destruct (Hc addr v Ha Hv) as [(e & ? & ? & ? & _)|(later & tm & seen & before & ? & ? & He & ?)].
    + left. by exists e.
    + right. exists later, tm, seen, before. by rewrite <- He.
  - left. pose proof (lookup_loop_spec addr (ct_claims t) None (-1)) as Hs.
    destruct (lookup_loop _ _ _ _) as [e|]; simpl in Hl; [|done].
    destruct Hs as [[? _]|(pre & e' & suf & [= <-] & Hes & Hm & _)]; [done|].
    exists e. split_and!; [|congruence|done]. rewrite Hes. apply elem_of_app. right. by left.
Qed.

(** A claim, a lookup that caches its answer, then the address seen at another peer. *)
Definition routed_past : history := [(15, OpCache sample_addr peer_a); (10, OpLookup sample_addr); (5, OpSetClaims peer_b [sample_range])].
Definition routed_table : ClaimTable := foldr (fun event t => run_op event.1 event.2 t) (new 300 300) routed_past.

(** No claim of the peer that the lookup answers with is in the table: it was learned. *)
Lemma lookup_only_claimed_witness :
  (lookup 20 sample_addr routed_table).2 = Some peer_a /\
  exists later tm seen before, routed_past = later ++ (tm, OpCache seen peer_a) :: before /\ Address.key seen = Address.key sample_addr.
Proof.
  split; [reflexivity|].
  assert (reachable 300 300 15 routed_past routed_table) as Hr.
  { refine (reach_op 300 300 10 15 (OpCache sample_addr peer_a) _ _ (reach_op 300 300 5 10 (OpLookup sample_addr) _ _
      (reach_op 300 300 5 5 (OpSetClaims peer_b [sample_range]) _ _ (reach_new 300 300 5) _ _ _) _ _ _) _ _ _);
      first [lia|exact sample_addr_wf|exact I]. }
  destruct (lookup_only_claimed 300 300 15 20 routed_past routed_table sample_addr peer_a ltac:(lia) Hr sample_addr_wf eq_refl)
    as [(e & He & Hp & _)|(later & tm & seen & before & Hpast & Hk & _)].
  - assert (ct_claims routed_table = [mkClaimEntry peer_b sample_range 305]) as Hl by reflexivity. rewrite Hl in He.
    apply list_elem_of_singleton in He as ->. discriminate Hp.
  - exists later, tm, seen, before. exact (conj Hpast Hk).
Defined.

(** A claim that a peer no longer announces can stay in the table: the refresh
    loop stops as soon as the last announced claim is found, so a withdrawn claim
    stored behind it keeps its old timeout and still routes. *)
Theorem withdrawn_claim_survives :
  exists t now, 0 < now /\
    (exists e, e ∈ ct_claims (set_claims now peer_a [wide_range] t) /\
       ce_peer e = peer_a /\ ce_claim e = sample_range) /\
    (lookup now sample_addr (set_claims now peer_a [wide_range] t)).2 = Some peer_a /\
    ct_claims t = ct_claims (set_claims 5 peer_a [wide_range; sample_range] (new 300 300)).
Proof.
  exists (set_claims 5 peer_a [wide_range; sample_range] (new 300 300)), 10.
  split; [lia|]. split; [|by split; vm_compute].
  exists (mkClaimEntry peer_a sample_range 305). split; [|done].
  apply list_elem_of_In. vm_compute. tauto.
Qed.
