(* ===== verification/Traffic.v ===== *)
(** * Traffic statistics (src/src/traffic.rs)

    Counters per peer and per address pair, their periodic roll-over and the
    clean-up of idle entries.  Counters are [u64]/[usize] and wrap. *)

From S2P Require Import Prelude Errors Util Types.

Record TrafficEntry : Type := mkTrafficEntry {
  out_bytes_total : Z;
  out_packets_total : Z;
  out_bytes : Z;
  out_packets : Z;
  in_bytes_total : Z;
  in_packets_total : Z;
  in_bytes : Z;
  in_packets : Z;
  idle_periods : Z
}.

Module TrafficEntry.

Definition default : TrafficEntry := mkTrafficEntry 0 0 0 0 0 0 0 0 0.

Definition add_assign (a b : TrafficEntry) : TrafficEntry :=
  mkTrafficEntry
    (wrap64 (out_bytes_total a + out_bytes_total b))
    (wrap64 (out_packets_total a + out_packets_total b))
    (wrap64 (out_bytes a + out_bytes b))
    (wrap64 (out_packets a + out_packets b))
    (wrap64 (in_bytes_total a + in_bytes_total b))
    (wrap64 (in_packets_total a + in_packets_total b))
    (wrap64 (in_bytes a + in_bytes b))
    (wrap64 (in_packets a + in_packets b))
    (idle_periods a).

Definition count_out (n : Z) (e : TrafficEntry) : TrafficEntry :=
  mkTrafficEntry (out_bytes_total e) (out_packets_total e)
    (wrap64 (out_bytes e + n)) (wrap64 (out_packets e + 1))
    (in_bytes_total e) (in_packets_total e) (in_bytes e) (in_packets e) (idle_periods e).

Definition count_in (n : Z) (e : TrafficEntry) : TrafficEntry :=
  mkTrafficEntry (out_bytes_total e) (out_packets_total e) (out_bytes e) (out_packets e)
    (in_bytes_total e) (in_packets_total e)
    (wrap64 (in_bytes e + n)) (wrap64 (in_packets e + 1)) (idle_periods e).

Definition period (e : TrafficEntry) : TrafficEntry :=
  mkTrafficEntry
    (wrap64 (out_bytes_total e + out_bytes e))
    (wrap64 (out_packets_total e + out_packets e))
    0 0
    (wrap64 (in_bytes_total e + in_bytes e))
    (wrap64 (in_packets_total e + in_packets e))
    0 0
    (if decide (in_packets e = 0 /\ out_packets e = 0) then wrap64 (idle_periods e + 1) else 0).

(** Everything an entry has ever counted. *)
Definition grand_out_bytes (e : TrafficEntry) : Z := wrap64 (out_bytes_total e + out_bytes e).
Definition grand_in_bytes (e : TrafficEntry) : Z := wrap64 (in_bytes_total e + in_bytes e).
Definition grand_out_packets (e : TrafficEntry) : Z := wrap64 (out_packets_total e + out_packets e).
Definition grand_in_packets (e : TrafficEntry) : Z := wrap64 (in_packets_total e + in_packets e).

End TrafficEntry.

(** The payload map is keyed by the compared bytes of the two addresses. *)
Record TrafficStats : Type := mkTrafficStats {
  ts_peers : gmap SocketAddr TrafficEntry;
  ts_payload : gmap (bytes * bytes) TrafficEntry;
  ts_dropped : TrafficEntry
}.

Module TrafficStats.

Definition default : TrafficStats := mkTrafficStats ∅ ∅ TrafficEntry.default.

(** [entry(k).or_insert_with(default)] followed by the update of the entry. *)
Definition entry_update {K} `{Countable K} (k : K) (f : TrafficEntry -> TrafficEntry)
    (m : gmap K TrafficEntry) : gmap K TrafficEntry :=
  <[k := f (from_option id TrafficEntry.default (m !! k))]> m.

Definition count_out_traffic (peer : SocketAddr) (n : Z) (t : TrafficStats) : TrafficStats :=
  mkTrafficStats (entry_update peer (TrafficEntry.count_out n) (ts_peers t)) (ts_payload t) (ts_dropped t).
Definition count_in_traffic (peer : SocketAddr) (n : Z) (t : TrafficStats) : TrafficStats :=
  mkTrafficStats (entry_update peer (TrafficEntry.count_in n) (ts_peers t)) (ts_payload t) (ts_dropped t).
Definition count_out_payload (remote local : Address) (n : Z) (t : TrafficStats) : TrafficStats :=
  mkTrafficStats (ts_peers t)
    (entry_update (Address.key remote, Address.key local) (TrafficEntry.count_out n) (ts_payload t))
    (ts_dropped t).
Definition count_in_payload (remote local : Address) (n : Z) (t : TrafficStats) : TrafficStats :=
  mkTrafficStats (ts_peers t)
    (entry_update (Address.key remote, Address.key local) (TrafficEntry.count_in n) (ts_payload t))
    (ts_dropped t).
Definition count_invalid_protocol (n : Z) (t : TrafficStats) : TrafficStats :=
  mkTrafficStats (ts_peers t) (ts_payload t) (TrafficEntry.count_in n (ts_dropped t)).
Definition count_dropped_payload (n : Z) (t : TrafficStats) : TrafficStats :=
  mkTrafficStats (ts_peers t) (ts_payload t) (TrafficEntry.count_out n (ts_dropped t)).

Definition period (cleanup_idle : option Z) (t : TrafficStats) : TrafficStats :=
  let peers := TrafficEntry.period <$> ts_peers t in
  let payload := TrafficEntry.period <$> ts_payload t in
  let dropped := TrafficEntry.period (ts_dropped t) in
  match cleanup_idle with
  | Some periods =>
      mkTrafficStats (filter (fun kv => idle_periods kv.2 < periods) peers)
                     (filter (fun kv => idle_periods kv.2 < periods) payload) dropped
  | None => mkTrafficStats peers payload dropped
  end.

Definition get_peer_traffic (t : TrafficStats) : list (SocketAddr * TrafficEntry) :=
  map_to_list (ts_peers t).
Definition get_payload_traffic (t : TrafficStats) : list ((bytes * bytes) * TrafficEntry) :=
  map_to_list (ts_payload t).

(** [for e in map.values() { total += e }]. *)
Definition total {K} `{Countable K} (m : gmap K TrafficEntry) : TrafficEntry :=
  foldl TrafficEntry.add_assign TrafficEntry.default (map_to_list m).*2.
Definition total_peer_traffic (t : TrafficStats) : TrafficEntry := total (ts_peers t).
Definition total_payload_traffic (t : TrafficStats) : TrafficEntry := total (ts_payload t).

End TrafficStats.

(** ** Lemmas *)

Lemma wrap_idemp_l w a b : 0 < w -> wrap w (wrap w a + b) = wrap w (a + b).
Proof. intros. unfold wrap. rewrite Z.add_mod_idemp_l; [done|]. apply Z.pow_nonzero; lia. Qed.
Lemma wrap_idemp_r w a b : 0 < w -> wrap w (a + wrap w b) = wrap w (a + b).
Proof. intros. rewrite Z.add_comm, wrap_idemp_l, Z.add_comm by done. done. Qed.
#[export] Hint Rewrite wrap_idemp_l wrap_idemp_r using lia : vpn_rw.

(** ** Properties *)

(** Rolling over a period loses nothing that was counted: each counter moves
    into its total, and an entry idles exactly when it saw no packet. *)
Theorem period_conserves (e : TrafficEntry) :
  let e' := TrafficEntry.period e in
  out_bytes_total e' = TrafficEntry.grand_out_bytes e /\
  in_bytes_total e' = TrafficEntry.grand_in_bytes e /\
  out_packets_total e' = TrafficEntry.grand_out_packets e /\
  in_packets_total e' = TrafficEntry.grand_in_packets e /\
  TrafficEntry.grand_out_bytes e' = TrafficEntry.grand_out_bytes e /\
  TrafficEntry.grand_in_bytes e' = TrafficEntry.grand_in_bytes e /\
  (forall n, TrafficEntry.grand_in_bytes (TrafficEntry.count_in n e) =
     wrap64 (TrafficEntry.grand_in_bytes e + n)) /\
  (forall n, idle_periods (TrafficEntry.period (TrafficEntry.count_in n (TrafficEntry.period e))) = 0).
Proof.
  unfold TrafficEntry.grand_out_bytes, TrafficEntry.grand_in_bytes,
    TrafficEntry.grand_out_packets, TrafficEntry.grand_in_packets. simpl.
  split_and!; try done; intros; rewrite ?Z.add_0_r.
  1,2: unfold wrap; rewrite Z.mod_mod; done.
  rewrite wrap_idemp_r, wrap_idemp_l by lia. by rewrite Z.add_assoc.
Qed.

(** The clean-up of a period drops exactly the entries that have been idle for
    the given number of periods and rolls the others over. *)
Theorem period_cleanup (periods : Z) (t : TrafficStats) (p : SocketAddr) (e' : TrafficEntry) :
  ts_peers (TrafficStats.period (Some periods) t) !! p = Some e' <->
  exists e, ts_peers t !! p = Some e /\ e' = TrafficEntry.period e /\ idle_periods e' < periods.
Proof.
  unfold TrafficStats.period. simpl. rewrite map_lookup_filter_Some, lookup_fmap. simpl.
  destruct (ts_peers t !! p) as [e|]; simpl.
  - split; [intros [[= <-] ?]; eauto|intros (? & [= <-] & -> & ?); done].
  - split; [intros [? _]; done|intros (? & ? & _); done].
Qed.
