(* ===== verification/Report.v ===== *)
(** * The text of the statistics file (util.rs, table.rs, traffic.rs under src/src)

    What [write_out] of the table and of the counters write, with numbers of bytes
    shortened by [Bytes]. How socket addresses are printed is the argument
    [show_addr]. *)

From S2P Require Import Prelude Errors Util Types Table Traffic.
From stdpp Require Import pretty sorting.
#[local] Open Scope Z_scope.

(** The interval of the statistics (cloud.rs). *)
Definition STATS_INTERVAL : Z := 60.

Definition nl : string := String "010"%char EmptyString.
Definition quoted (s : string) : string := String "034"%char s +:+ String "034"%char EmptyString.

(** ** [Bytes] *)

Module Bytes.

(** Division rounded to the nearest, ties to the even one. *)
Definition div_nearest (a b : Z) : Z :=
  let q := a / b in
  let r := a mod b in
  if 2 * r <? b then q else if b <? 2 * r then q + 1 else if Z.even q then q else q + 1.

(** [n as f32] of a [u64]: 24 binary digits. *)
Definition as_f32 (n : Z) : Z :=
  if n <? 2 ^ 24 then n else let unit := 2 ^ (Z.log2 n - 23) in div_nearest n unit * unit.

(** [{:.1}] of [size / unit]. *)
Definition one_digit (size unit : Z) : string :=
  let tenths := div_nearest (10 * size) unit in
  pretty (tenths / 10) +:+ "." +:+ pretty (tenths mod 10).

(** Dividing by 1024 is exact. *)
Definition fmt (n : Z) : string :=
  let size := as_f32 n in
  if size <? 512 then pretty size +:+ " B"
  else if size <? 512 * 1024 then one_digit size 1024 +:+ " KiB"
  else if size <? 512 * 1024 ^ 2 then one_digit size (1024 ^ 2) +:+ " MiB"
  else if size <? 512 * 1024 ^ 3 then one_digit size (1024 ^ 3) +:+ " GiB"
  else one_digit size (1024 ^ 4) +:+ " TiB".

End Bytes.

(** ** The table *)

Section Report.
Variable show_addr : SocketAddr -> string.

Definition lines (l : list string) : string := String.concat "" ((fun s => s +:+ nl) <$> l).

(** The address a key of a map stands for. *)
Definition key_addr (key : bytes) : Address := mkAddress (Address.pad key) (zlen key).

Definition entry_line (what : string) (peer : SocketAddr) (left : Z) : string :=
  "    - " +:+ quoted what +:+ ": { peer: " +:+ quoted (show_addr (addr_nice peer)) +:+ ", timeout: " +:+ pretty left +:+ " }".

(** [ClaimTable::write_out]. *)
Definition table_lines (now : Z) (t : ClaimTable) : list string :=
  ["forwarding_table:"; "  claims:"]%string ++
  ((fun e => entry_line (Range.fmt (ce_claim e)) (ce_peer e) (ce_timeout e - now)) <$> ct_claims t) ++
  ["  cache:"]%string ++
  ((fun kv => entry_line (Address.fmt (key_addr kv.1)) (cv_peer kv.2) (cv_timeout kv.2 - now)) <$> map_to_list (ct_cache t)).

(** ** The counters *)

(** [sort_unstable_by_key(out_bytes + in_bytes)], from the last to the first. The
    order of entries with equal keys is left open by the source. *)
Definition traffic_load (e : TrafficEntry) : Z := wrap64 (out_bytes e + in_bytes e).
Definition lighter {K} (x y : K * TrafficEntry) : Prop := traffic_load x.2 <= traffic_load y.2.
#[global] Instance lighter_dec {K} : RelDecision (lighter (K := K)) := fun x y => decide (traffic_load x.2 <= traffic_load y.2).
Definition busiest_first {K} (l : list (K * TrafficEntry)) : list (K * TrafficEntry) := reverse (merge_sort lighter l).

Definition count_text (bytes packets : Z) : string :=
  "{ display: " +:+ quoted (Bytes.fmt (bytes / STATS_INTERVAL) +:+ "/s") +:+ ", bytes: " +:+ pretty bytes +:+ ", packets: " +:+ pretty packets +:+ " }".

Definition entry_lines (head : string) (e : TrafficEntry) : list string :=
  [head; "    in: " +:+ count_text (in_bytes e) (in_packets e); "    out: " +:+ count_text (out_bytes e) (out_packets e)]%string.

(** [TrafficStats::write_out]. *)
Definition traffic_lines (t : TrafficStats) : list string :=
  ["peer_traffic:"]%string ++
  concat ((fun kv => entry_lines ("  - peer: " +:+ quoted (show_addr (addr_nice kv.1))) kv.2) <$> busiest_first (TrafficStats.get_peer_traffic t)) ++
  [""; "payload_traffic:"]%string ++
  concat ((fun kv => entry_lines ("  - addrs: [" +:+ quoted (Address.fmt (key_addr kv.1.1)) +:+ ", " +:+ quoted (Address.fmt (key_addr kv.1.2)) +:+ "]") kv.2)
    <$> busiest_first (TrafficStats.get_payload_traffic t)) ++
  [""; "invalid_protocol_traffic: " +:+ count_text (in_bytes (ts_dropped t)) (in_packets (ts_dropped t));
   "dropped_payload_traffic: " +:+ count_text (out_bytes (ts_dropped t)) (out_packets (ts_dropped t))]%string.

End Report.

(** ** What the report says *)

(** Who moves the most comes first. *)
Lemma busiest_first_spec {K} (l : list (K * TrafficEntry)) :
  busiest_first l ≡ₚ l /\ StronglySorted (fun x y => traffic_load y.2 <= traffic_load x.2) (busiest_first l).
Proof.
  unfold busiest_first. split; [by rewrite reverse_Permutation, merge_sort_Permutation|].
  assert (Transitive (lighter (K := K))) as Htr by (intros x y z; unfold lighter; lia).
  assert (Total (lighter (K := K))) as Htot by (intros x y; unfold lighter; lia).
  pose proof (StronglySorted_merge_sort lighter l) as Hs. revert Hs. generalize (merge_sort lighter l). intros k Hs.
  induction Hs as [|x k Hs IH Hx]; [constructor|]. rewrite reverse_cons.
  apply StronglySorted_app_2; [|exact IH|repeat constructor].
  intros y z Hy ->%list_elem_of_singleton. rewrite elem_of_reverse in Hy. rewrite Forall_forall in Hx. exact (Hx y Hy).
Qed.

Lemma div_nearest_spec a b : 0 < b -> 2 * Z.abs (Bytes.div_nearest a b * b - a) <= b.
Proof.
  intros Hb. unfold Bytes.div_nearest. pose proof (Z.div_mod a b ltac:(lia)) as Hd. pose proof (Z.mod_pos_bound a b Hb).
  destruct (2 * (a mod b) <? b) eqn:E1; [apply Z.ltb_lt in E1|apply Z.ltb_ge in E1; destruct (b <? 2 * (a mod b)) eqn:E2; [apply Z.ltb_lt in E2|apply Z.ltb_ge in E2]]; try nia.
  destruct (Z.even (a / b)); nia.
Qed.

(** A [u64] becomes a float off by at most one part in 2^24. *)
Lemma as_f32_spec n : 0 <= n -> 2 ^ 24 * Z.abs (Bytes.as_f32 n - n) <= n.
Proof.
  intros Hn. unfold Bytes.as_f32. destruct (n <? 2 ^ 24) eqn:E; [lia|]. apply Z.ltb_ge in E.
  pose proof (Z.log2_spec n ltac:(lia)) as [Hlo _].
  assert (24 <= Z.log2 n) as H24 by (apply Z.log2_le_pow2; lia).
  set (unit := 2 ^ (Z.log2 n - 23)). assert (2 ^ Z.log2 n = unit * 2 ^ 23) as Hu by (unfold unit; rewrite <- Z.pow_add_r by lia; f_equal; lia).
  assert (0 < unit) as Hpos by (apply Z.pow_pos_nonneg; lia).
  pose proof (div_nearest_spec n unit Hpos). cbn zeta. lia.
Qed.

Lemma text_assoc (a b c : string) : (a +:+ b) +:+ c = a +:+ b +:+ c.
Proof. induction a as [|x a IH]; [done|]. exact (f_equal (String x) IH). Qed.

(** A number of bytes is shown in full below 512, and from there on with one digit
    after the point in a unit of which there is at least a half; it is off by half a
    tenth of the unit and by what a float cannot hold. *)
Theorem bytes_shown (n : Z) : 0 <= n < 2 ^ 64 ->
  (n < 512 -> Bytes.fmt n = pretty n +:+ " B") /\
  (512 <= n -> exists i t unit, (i, unit) ∈ [(1, " KiB"); (2, " MiB"); (3, " GiB"); (4, " TiB")]%string /\
     Bytes.fmt n = pretty (t / 10) +:+ "." +:+ pretty (t mod 10) +:+ unit /\ 5 <= t /\
     2 * Z.abs (t * 1024 ^ i - 10 * n) <= 1024 ^ i + 20 * n / 2 ^ 24).
Proof.
  intros Hn. pose proof (as_f32_spec n ltac:(lia)) as Hf. unfold Bytes.fmt. cbn zeta.
  assert (n < 512 -> Bytes.as_f32 n = n) as Hsmall by (intros Hs; unfold Bytes.as_f32; case_match; [done|lia]).
  split; [intros Hs; rewrite (Hsmall Hs); by rewrite (proj2 (Z.ltb_lt _ _) Hs)|]. intros Hbig. set (size := Bytes.as_f32 n) in *.
  assert (512 <= size) as Hsize.
  { unfold size, Bytes.as_f32 in *. destruct (n <? 2 ^ 24) eqn:E; [lia|]. apply Z.ltb_ge in E. cbn zeta in *. lia. }
  rewrite (proj2 (Z.ltb_ge _ _) Hsize).
  assert (forall i, 512 * 1024 ^ (i - 1) <= size -> 1 <= i <= 4 -> let t := Bytes.div_nearest (10 * size) (1024 ^ i) in
    5 <= t /\ 2 * Z.abs (t * 1024 ^ i - 10 * n) <= 1024 ^ i + 20 * n / 2 ^ 24) as Hall.
  { intros i Hi Hr t. assert (1024 ^ i = 1024 * 1024 ^ (i - 1)) as Hp by (rewrite <- Z.pow_succ_r by lia; f_equal; lia).
    assert (0 < 1024 ^ (i - 1)) as H0 by (apply Z.pow_pos_nonneg; lia). pose proof (div_nearest_spec (10 * size) (1024 ^ i) ltac:(lia)) as Hd.
    fold t in Hd. rewrite Hp in *. set (u := 1024 ^ (i - 1)) in *. split; [nia|].
    assert (20 * Z.abs (size - n) <= 20 * n / 2 ^ 24) by (apply Z.div_le_lower_bound; lia). lia. }
  destruct (size <? 512 * 1024) eqn:E1; [|apply Z.ltb_ge in E1; destruct (size <? 512 * 1024 ^ 2) eqn:E2;
    [|apply Z.ltb_ge in E2; destruct (size <? 512 * 1024 ^ 3) eqn:E3; [|apply Z.ltb_ge in E3]]];
    [exists 1|exists 2|exists 3|exists 4]; eexists _, _; (split; [by repeat first [left|right]|]);
    (split; [unfold Bytes.one_digit; by rewrite !text_assoc|]); first [apply (Hall 1); lia|apply (Hall 2); lia|apply (Hall 3); lia|apply (Hall 4); lia].
Qed.
