(* ===== verification/Payload.v ===== *)
(** * Payload dissectors (src/src/payload.rs)

    [Protocol::parse]: the source and destination address of an Ethernet frame
    ([Frame]) and of an IP packet ([Packet]); and the layout of the headers of IP
    packets, which the parser of packets is compared with. *)

From S2P Require Import Prelude Errors Util Types.

(** The trait [Protocol]; an implementing type is a tag. *)
Class Protocol (P : Type) : Type := parse : bytes -> Result (Address * Address).

Inductive Frame : Type := frame_tag.
Inductive Packet : Type := packet_tag.

(** [l.copy_within(a..a+n, b)] on a [16]-byte array. *)
Definition copy_within (a n b : nat) (l : bytes) : bytes := splice b (take n (drop a l)) l.

(** [src[0..1] == [0, 0]]: slices are equal when they have the same length and
    elements. *)
Definition slice_eqb (a b : bytes) : bool := bool_decide (a = b).

Definition zeros16 : bytes := replicate 16 0.

#[export] Instance parse_frame : Protocol Frame := fun data =>
  match
    ('(d, c) ← read_exact 6 data;
     '(s, c) ← read_exact 6 c;
     '(proto, c) ← read_exact 2 c;
     Some (d, s, proto, c))
  with
  | None => Err (EParse "Frame is too short")
  | Some (d, s, proto, c) =>
      let dst := splice 0 d zeros16 in
      let src := splice 0 s zeros16 in
      if slice_eqb proto [129; 0] then
        let src := copy_within 0 6 2 src in
        let dst := copy_within 0 6 2 dst in
        match read_exact 2 c with
        | None => Err (EParse "Vlan frame is too short")
        | Some (tag, _) =>
            let src := splice 0 tag src in
            let src := <[0%nat := Z.land (nth 0 src 0) 15]> src in
            let dst := splice 0 (take 2 src) dst in
            if slice_eqb (take 1 src) [0; 0] then
              let src := copy_within 2 6 0 src in
              let dst := copy_within 2 6 0 dst in
              Ok (mkAddress src 6, mkAddress dst 6)
            else Ok (mkAddress src 8, mkAddress dst 8)
        end
      else Ok (mkAddress src 6, mkAddress dst 6)
  end.

#[export] Instance parse_packet : Protocol Packet := fun data =>
  match data with
  | [] => Err (EParse "Empty header")
  | d0 :: _ =>
      let version := Z.shiftr d0 4 in
      if decide (version = 4) then
        if decide (length data < 20)%nat then Err (EParse "Truncated IPv4 header")
        else
          '(src, _) ← Address.read_from_fixed (drop 12 data) 4;
          '(dst, _) ← Address.read_from_fixed (drop 16 data) 4;
          Ok (src, dst)
      else if decide (version = 6) then
        if decide (length data < 40)%nat then Err (EParse "Truncated IPv6 header")
        else
          '(src, _) ← Address.read_from_fixed (drop 8 data) 16;
          '(dst, _) ← Address.read_from_fixed (drop 24 data) 16;
          Ok (src, dst)
      else Err (EParse "Invalid IP protocol version")
  end.

(** ** The headers of IP packets

    As the standards lay them out (RFC 791 and RFC 8200), apart from the parser. *)

(** The address of a header, as the program keeps it. *)
Definition ip_address (bs : bytes) : Address := mkAddress (Address.pad bs) (zlen bs).

Record Ipv4Header : Type := mkIpv4Header {
  ihl : Z; tos : Z; total_length : Z; identification : Z; fragment : Z; ttl : Z; protocol : Z; checksum : Z;
  v4_source : bytes; v4_destination : bytes
}.

Record Ipv6Header : Type := mkIpv6Header {
  traffic_class : Z; flow_label : Z; payload_length : Z; next_header : Z; hop_limit : Z;
  v6_source : bytes; v6_destination : bytes
}.

Definition v4_wf (h : Ipv4Header) : Prop :=
  0 <= ihl h < 16 /\ is_u8 (tos h) /\ is_u16 (total_length h) /\ is_u16 (identification h) /\ is_u16 (fragment h) /\ is_u8 (ttl h) /\
  is_u8 (protocol h) /\ is_u16 (checksum h) /\ length (v4_source h) = 4%nat /\ length (v4_destination h) = 4%nat.

Definition v6_wf (h : Ipv6Header) : Prop :=
  is_u8 (traffic_class h) /\ 0 <= flow_label h < 2 ^ 20 /\ is_u16 (payload_length h) /\ is_u8 (next_header h) /\ is_u8 (hop_limit h) /\
  length (v6_source h) = 16%nat /\ length (v6_destination h) = 16%nat.

(** The version shares a byte with the header length, and a word with the traffic class and
    the flow label. Options are part of what follows the header. *)
Definition v4_encode (h : Ipv4Header) : bytes :=
  be_bytes 1 (4 * 2 ^ 4 + ihl h) ++ be_bytes 1 (tos h) ++ be_bytes 2 (total_length h) ++ be_bytes 2 (identification h) ++ be_bytes 2 (fragment h) ++
  be_bytes 1 (ttl h) ++ be_bytes 1 (protocol h) ++ be_bytes 2 (checksum h) ++ v4_source h ++ v4_destination h.
Definition v6_encode (h : Ipv6Header) : bytes :=
  be_bytes 4 (6 * 2 ^ 28 + traffic_class h * 2 ^ 20 + flow_label h) ++ be_bytes 2 (payload_length h) ++ be_bytes 1 (next_header h) ++
  be_bytes 1 (hop_limit h) ++ v6_source h ++ v6_destination h.

(** The bytes are a packet from one address to another. *)
Inductive ip_packet : bytes -> Address -> Address -> Prop :=
| packet_v4 h payload : v4_wf h -> ip_packet (v4_encode h ++ payload) (ip_address (v4_source h)) (ip_address (v4_destination h))
| packet_v6 h payload : v6_wf h -> ip_packet (v6_encode h ++ payload) (ip_address (v6_source h)) (ip_address (v6_destination h)).

(** ** Lemmas *)

Lemma read_exact_slice n l :
  read_exact (R := bytes) n l = if decide (n <= length l)%nat then Some (take n l, drop n l) else None.
Proof. done. Qed.

Lemma read_fixed_slice l len :
  0 <= len <= 16 -> (Z.to_nat len <= length l)%nat ->
  Address.read_from_fixed (R := bytes) l len =
    Ok (mkAddress (Address.pad (take (Z.to_nat len) l)) len, drop (Z.to_nat len) l).
Proof.
  intros. unfold Address.read_from_fixed. rewrite decide_False by lia.
  rewrite read_exact_slice, decide_True by done. done.
Qed.

Lemma splice_pad bs : (length bs <= 16)%nat -> splice 0 bs zeros16 = Address.pad bs.
Proof. intros. unfold splice, zeros16, Address.pad. rewrite drop_replicate. done. Qed.

Lemma parse_frame_header (d s proto rest : bytes) :
  length d = 6%nat -> length s = 6%nat -> length proto = 2%nat ->
  parse (P := Frame) (d ++ s ++ proto ++ rest) =
    (if decide (proto = [129; 0]) then
       match rest with
       | t0 :: t1 :: _ =>
           Ok (mkAddress (Address.pad ([Z.land t0 15; t1] ++ s)) 8,
               mkAddress (Address.pad ([Z.land t0 15; t1] ++ d)) 8)
       | _ => Err (EParse "Vlan frame is too short")
       end
     else Ok (mkAddress (Address.pad s) 6, mkAddress (Address.pad d) 6)).
Proof.
  intros Hd Hs Hp. unfold parse, parse_frame.
  rewrite (read_exact_app 6 d) by done. simpl. rewrite (read_exact_app 6 s) by done. simpl.
  rewrite (read_exact_app 2 proto) by done. simpl. unfold slice_eqb.
  rewrite !splice_pad by lia.
  case_bool_decide; [rewrite decide_True by done|by rewrite decide_False].
  destruct rest as [|t0 [|t1 rest]]; try done.
  change (t0 :: t1 :: rest) with ([t0; t1] ++ rest). rewrite read_exact_app by done.
  do 7 (destruct s as [|? s]; try done). do 7 (destruct d as [|? d]; try done).
  unfold Address.pad, copy_within, splice. simpl. by rewrite bool_decide_eq_false_2.
Qed.

(** The branches of the parser. *)
Lemma parse_packet_cases (data : bytes) :
  parse (P := Packet) data =
    match data with
    | [] => Err (EParse "Empty header")
    | d0 :: _ =>
        if d0 / 16 =? 4 then
          if (length data <? 20)%nat then Err (EParse "Truncated IPv4 header")
          else Ok (mkAddress (Address.pad (take 4 (drop 12 data))) 4,
                   mkAddress (Address.pad (take 4 (drop 16 data))) 4)
        else if d0 / 16 =? 6 then
          if (length data <? 40)%nat then Err (EParse "Truncated IPv6 header")
          else Ok (mkAddress (Address.pad (take 16 (drop 8 data))) 16,
                   mkAddress (Address.pad (take 16 (drop 24 data))) 16)
        else Err (EParse "Invalid IP protocol version")
    end.
Proof.
  unfold parse, parse_packet. destruct data as [|d0 data]; [done|].
  rewrite Z.shiftr_div_pow2 by lia. change (2 ^ 4) with 16.
  destruct (Z.eqb_spec (d0 / 16) 4); [rewrite decide_True by done|rewrite decide_False by done].
  - destruct (Nat.ltb_spec (length (d0 :: data)) 20);
      [by rewrite decide_True|rewrite decide_False by lia].
    rewrite !read_fixed_slice by (rewrite ?length_drop; simpl in *; lia). done.
  - destruct (Z.eqb_spec (d0 / 16) 6); [rewrite decide_True by done|by rewrite decide_False].
    destruct (Nat.ltb_spec (length (d0 :: data)) 40);
      [by rewrite decide_True|rewrite decide_False by lia].
    rewrite !read_fixed_slice by (rewrite ?length_drop; simpl in *; lia). done.
Qed.

(** What precedes the addresses of a header does not matter but for the version. *)
Lemma parse_v4 (d0 : Z) (l s d rest : bytes) : d0 / 16 = 4 -> length l = 11%nat -> length s = 4%nat -> length d = 4%nat ->
  parse (P := Packet) (d0 :: l ++ s ++ d ++ rest) = Ok (ip_address s, ip_address d).
Proof.
  intros Hv Hl Hs Hd. rewrite parse_packet_cases, Hv. cbn [Z.eqb Pos.eqb].
  destruct (Nat.ltb_spec (length (d0 :: l ++ s ++ d ++ rest)) 20); [cbn [length] in *; rewrite !length_app in *; lia|].
  unfold ip_address, zlen. rewrite Hs, Hd. change (d0 :: l ++ s ++ d ++ rest) with ((d0 :: l) ++ s ++ d ++ rest).
  rewrite (drop_app_length' (d0 :: l) _ 12), take_app_length' by (cbn [length]; lia).
  rewrite (assoc_L app (d0 :: l)), (drop_app_length' ((d0 :: l) ++ s) _ 16), take_app_length' by (rewrite ?length_app; cbn [length]; lia). done.
Qed.

Lemma parse_v6 (d0 : Z) (l s d rest : bytes) : d0 / 16 = 6 -> length l = 7%nat -> length s = 16%nat -> length d = 16%nat ->
  parse (P := Packet) (d0 :: l ++ s ++ d ++ rest) = Ok (ip_address s, ip_address d).
Proof.
  intros Hv Hl Hs Hd. rewrite parse_packet_cases, Hv. cbn [Z.eqb Pos.eqb].
  destruct (Nat.ltb_spec (length (d0 :: l ++ s ++ d ++ rest)) 40); [cbn [length] in *; rewrite !length_app in *; lia|].
  unfold ip_address, zlen. rewrite Hs, Hd. change (d0 :: l ++ s ++ d ++ rest) with ((d0 :: l) ++ s ++ d ++ rest).
  rewrite (drop_app_length' (d0 :: l) _ 8), take_app_length' by (cbn [length]; lia).
  rewrite (assoc_L app (d0 :: l)), (drop_app_length' ((d0 :: l) ++ s) _ 24), take_app_length' by (rewrite ?length_app; cbn [length]; lia). done.
Qed.

Lemma parse_encoded data s d : ip_packet data s d -> parse (P := Packet) data = Ok (s, d).
Proof.
  intros [h payload (Hi & _ & _ & _ & _ & _ & _ & _ & Hs & Hd)|h payload (Ht & Hf & _ & _ & _ & Hs & Hd)].
  - unfold v4_encode. rewrite (be_bytes_1 (4 * 2 ^ 4 + ihl h)) by (unfold is_u8; lia).
    pose proof (parse_v4 (4 * 2 ^ 4 + ihl h) (be_bytes 1 (tos h) ++ be_bytes 2 (total_length h) ++ be_bytes 2 (identification h) ++
      be_bytes 2 (fragment h) ++ be_bytes 1 (ttl h) ++ be_bytes 1 (protocol h) ++ be_bytes 2 (checksum h)) _ _ payload
      ltac:(Z.div_mod_to_equations; lia) ltac:(by rewrite !length_app, !length_be_bytes) Hs Hd) as Hp.
    cbn [app]. rewrite <- !app_assoc in Hp. rewrite <- !app_assoc. exact Hp.
  - unfold v6_encode. set (v := 6 * 2 ^ 28 + _ + _). pose proof (be_value_be_bytes_small 4 v) as Hv.
    pose proof (be_bytes_ok 4 v) as Hok. pose proof (length_be_bytes 4 v) as Hl. destruct (be_bytes 4 v) as [|d0 l]; [done|].
    apply Forall_cons in Hok as [_ Hok]. pose proof (be_value_bounds l Hok) as Hb. rewrite be_value_cons in Hv.
    assert (zlen l = 3) as Hz by (unfold zlen; cbn [length] in Hl; lia). rewrite Hz in *. unfold is_u8 in *.
    specialize (Hv ltac:(subst v; lia)). assert (d0 / 16 = 6) as Hd0 by (subst v; Z.div_mod_to_equations; lia).
    pose proof (parse_v6 d0 (l ++ be_bytes 2 (payload_length h) ++ be_bytes 1 (next_header h) ++ be_bytes 1 (hop_limit h)) _ _ payload
      Hd0 ltac:(rewrite !length_app, !length_be_bytes; cbn [length] in Hl; lia) Hs Hd) as Hp.
    cbn [app]. rewrite <- !app_assoc in Hp. rewrite <- !app_assoc. exact Hp.
Qed.

(** All of the bytes of a written-out list are known to be bytes. *)
Ltac listed := repeat (apply Forall_cons; split; [assumption|]); apply Forall_nil_2.

(** The fields of a header, from its bytes. *)
Lemma field_bytes (l : bytes) : bytes_ok l -> be_bytes (length l) (be_value l) = l /\ 0 <= be_value l < 256 ^ zlen l.
Proof. intros Hl. split; [by apply be_bytes_be_value|by apply be_value_bounds]. Qed.

Lemma field_u8 a : is_u8 a -> be_bytes 1 a = [a].
Proof. apply be_bytes_1. Qed.

Lemma field_u16 a b : is_u8 a -> is_u8 b -> be_bytes 2 (be_value [a; b]) = [a; b] /\ is_u16 (be_value [a; b]).
Proof.
  intros Ha Hb. destruct (field_bytes [a; b]) as [H1 H2]; [listed|]. split; [exact H1|]. unfold is_u16. exact H2.
Qed.

Lemma parsed_v4 (data : bytes) : bytes_ok data -> (20 <= length data)%nat -> hd 0 data / 16 = 4 ->
  ip_packet data (ip_address (take 4 (drop 12 data))) (ip_address (take 4 (drop 16 data))).
Proof.
  intros Hok Hl Hv. unfold bytes_ok in Hok. do 20 (destruct data as [|? data]; [cbn [length] in Hl; lia|]).
  repeat match goal with H : Forall _ (_ :: _) |- _ => apply Forall_cons in H as [? H] end.
  cbn [hd] in Hv. match goal with |- ip_packet (?b0 :: ?b1 :: ?b2 :: ?b3 :: ?b4 :: ?b5 :: ?b6 :: ?b7 :: ?b8 :: ?b9 :: ?b10 :: ?b11 :: ?rest) _ _ =>
    pose (h := mkIpv4Header (b0 mod 16) b1 (be_value [b2; b3]) (be_value [b4; b5]) (be_value [b6; b7]) b8 b9 (be_value [b10; b11])
      (take 4 rest) (take 4 (drop 4 rest)));
    assert (4 * 2 ^ 4 + b0 mod 16 = b0) as Hb0 by (Z.div_mod_to_equations; lia);
    assert (0 <= b0 mod 16 < 16) as Hn by (Z.div_mod_to_equations; lia);
    destruct (field_u16 b2 b3) as [E1 W1]; [done..|]; destruct (field_u16 b4 b5) as [E2 W2]; [done..|];
    destruct (field_u16 b6 b7) as [E3 W3]; [done..|]; destruct (field_u16 b10 b11) as [E4 W4]; [done..|] end.
  pose proof (packet_v4 h data) as Hp. unfold v4_encode in Hp. cbn [h ihl tos total_length identification fragment ttl protocol checksum v4_source v4_destination] in Hp.
  rewrite Hb0, E1, E2, E3, E4, !field_u8 in Hp by done. apply Hp. unfold v4_wf. split_and!; first [done|apply Hn].
Qed.

Lemma parsed_v6 (data : bytes) : bytes_ok data -> (40 <= length data)%nat -> hd 0 data / 16 = 6 ->
  ip_packet data (ip_address (take 16 (drop 8 data))) (ip_address (take 16 (drop 24 data))).
Proof.
  intros Hok Hl Hv. unfold bytes_ok in Hok. do 40 (destruct data as [|? data]; [cbn [length] in Hl; lia|]).
  repeat match goal with H : Forall _ (_ :: _) |- _ => apply Forall_cons in H as [? H] end.
  cbn [hd] in Hv. match goal with |- ip_packet (?b0 :: ?b1 :: ?b2 :: ?b3 :: ?b4 :: ?b5 :: ?b6 :: ?b7 :: ?rest) _ _ =>
    set (w := be_value [b0; b1; b2; b3]);
    pose (h := mkIpv6Header ((w / 2 ^ 20) mod 256) (w mod 2 ^ 20) (be_value [b4; b5]) b6 b7 (take 16 rest) (take 16 (drop 16 rest)));
    destruct (field_bytes [b0; b1; b2; b3]) as [E0 _]; [listed|];
    destruct (field_u16 b4 b5) as [E1 W1]; [done..|];
    destruct (field_bytes [b1; b2; b3]) as [_ W0]; [listed|];
    assert (w = b0 * 2 ^ 24 + be_value [b1; b2; b3]) as Hw by (subst w; by rewrite be_value_cons);
    change (256 ^ zlen [b1; b2; b3]) with (2 ^ 24) in W0; change (length [b0; b1; b2; b3]) with 4%nat in E0; fold w in E0 end.
  assert (6 * 2 ^ 28 + ((w / 2 ^ 20) mod 256) * 2 ^ 20 + w mod 2 ^ 20 = w) as Hb0 by (Z.div_mod_to_equations; lia).
  pose proof (packet_v6 h data) as Hp. unfold v6_encode in Hp. cbn [h traffic_class flow_label payload_length next_header hop_limit v6_source v6_destination] in Hp.
  rewrite Hb0, E0, E1, !field_u8 in Hp by done. apply Hp. unfold v6_wf. split_and!; first [done|unfold is_u8; apply Z.mod_pos_bound; lia|apply Z.mod_pos_bound; lia].
Qed.

Lemma parsed_packet data s d : bytes_ok data -> parse (P := Packet) data = Ok (s, d) -> ip_packet data s d.
Proof.
  intros Hok Hp. rewrite parse_packet_cases in Hp. destruct data as [|d0 l] eqn:Hd; [done|]. rewrite <- Hd in *.
  destruct (Z.eqb_spec (d0 / 16) 4) as [H4|_].
  - destruct (Nat.ltb_spec (length data) 20) as [|Hl]; [done|]. injection Hp as <- <-.
    pose proof (parsed_v4 data Hok Hl) as Hv. rewrite Hd in Hv at 1. specialize (Hv H4). unfold ip_address, zlen in Hv.
    rewrite !length_take, !length_drop, !(min_l 4) in Hv by lia. exact Hv.
  - destruct (Z.eqb_spec (d0 / 16) 6) as [H6|_]; [|done]. destruct (Nat.ltb_spec (length data) 40) as [|Hl]; [done|]. injection Hp as <- <-.
    pose proof (parsed_v6 data Hok Hl) as Hv. rewrite Hd in Hv at 1. specialize (Hv H6). unfold ip_address, zlen in Hv.
    rewrite !length_take, !length_drop, !(min_l 16) in Hv by lia. exact Hv.
Qed.

(** ** Properties *)

(** C34: the parser of IP packets reads what the standards say, whatever the bytes are:
    it finds two addresses exactly if the bytes are an IPv4 or an IPv6 header, of any
    values of the other fields, and a payload, and they are the source and the
    destination of that header; to all other bytes it answers with an error. *)
Theorem parse_packet_spec (data : bytes) :
  bytes_ok data ->
  (forall s d, parse (P := Packet) data = Ok (s, d) <-> ip_packet data s d) /\
  ((forall s d, ~ ip_packet data s d) -> exists text, parse (P := Packet) data = Err (EParse text)).
Proof.
  intros Hok. assert (forall s d, parse (P := Packet) data = Ok (s, d) <-> ip_packet data s d) as Hiff.
  { intros s d. split; [by apply parsed_packet|apply parse_encoded]. }
  split; [exact Hiff|]. intros Hno.
  assert (forall r, parse (P := Packet) data = Ok r -> False) as Herr by (intros [s d] Hr; by apply (Hno s d), Hiff).
  rewrite parse_packet_cases in Herr |- *. destruct data as [|d0 data]; [by eexists|].
  repeat case_match; try (by eexists); exfalso; by eapply Herr.
Qed.

Definition sample_v4 : Ipv4Header := mkIpv4Header 5 0 21 7 0 64 17 0 [10; 0; 0; 1] [10; 0; 0; 2].

Lemma parse_packet_spec_witness :
  parse (P := Packet) (v4_encode sample_v4 ++ [9]) = Ok (ip_address [10; 0; 0; 1], ip_address [10; 0; 0; 2]) /\
  ~ ip_packet (take 19 (v4_encode sample_v4)) (ip_address [10; 0; 0; 1]) (ip_address [10; 0; 0; 2]).
Proof.
  split.
  - apply (parse_packet_spec (v4_encode sample_v4 ++ [9])); [apply (bool_decide_unpack _); vm_compute; exact I|].
    apply (packet_v4 sample_v4). repeat split; vm_compute; congruence.
  - intros Hp. apply (parse_packet_spec (take 19 (v4_encode sample_v4))) in Hp; [vm_compute in Hp; discriminate Hp|].
    apply (bool_decide_unpack _). vm_compute. exact I.
Defined.

(** An Ethernet frame parses to its MAC addresses, prefixed with the 12-bit
    VLAN id when the frame is tagged, and a frame cut inside the header or the tag
    is refused: every branch. *)
Theorem parse_frame_spec (d s proto rest : bytes) (data : bytes) :
  length d = 6%nat -> length s = 6%nat -> length proto = 2%nat ->
  parse (P := Frame) (d ++ s ++ proto ++ rest) =
    (if decide (proto = [129; 0]) then
       match rest with
       | t0 :: t1 :: _ =>
           Ok (mkAddress (Address.pad ([Z.land t0 15; t1] ++ s)) 8,
               mkAddress (Address.pad ([Z.land t0 15; t1] ++ d)) 8)
       | _ => Err (EParse "Vlan frame is too short")
       end
     else Ok (mkAddress (Address.pad s) 6, mkAddress (Address.pad d) 6)) /\
  ((length data < 14)%nat -> parse (P := Frame) data = Err (EParse "Frame is too short")).
Proof.
  intros Hd Hs Hp. split.
  - by apply parse_frame_header.
  - intros Hl. unfold parse, parse_frame. rewrite !read_exact_slice.
    repeat (case_decide; simpl; [rewrite ?read_exact_slice|done]).
    rewrite ?length_drop in *. lia.
Qed.

Lemma parse_frame_spec_witness :
  parse (P := Frame) [6; 5; 4; 3; 2; 1; 1; 2; 3; 4; 5; 6; 129; 0; 4; 210; 1; 2; 3] =
    Ok (mkAddress [4; 210; 1; 2; 3; 4; 5; 6; 0; 0; 0; 0; 0; 0; 0; 0] 8,
        mkAddress [4; 210; 6; 5; 4; 3; 2; 1; 0; 0; 0; 0; 0; 0; 0; 0] 8).
Proof.
  exact (proj1 (parse_frame_spec [6; 5; 4; 3; 2; 1] [1; 2; 3; 4; 5; 6] [129; 0] [4; 210; 1; 2; 3] []
    eq_refl eq_refl eq_refl)).
Defined.

(** A frame tagged with VLAN id 0 is not treated as untagged: the test that
    should recognise it compares one byte with two and never holds, so such a frame
    and its untagged twin have different addresses. *)
Theorem vlan_zero_not_untagged (d s rest : bytes) :
  length d = 6%nat -> length s = 6%nat ->
  parse (P := Frame) (d ++ s ++ [129; 0] ++ [0; 0] ++ rest) =
    Ok (mkAddress (Address.pad ([0; 0] ++ s)) 8, mkAddress (Address.pad ([0; 0] ++ d)) 8).
Proof.
  intros Hd Hs. exact (parse_frame_header d s [129; 0] ([0; 0] ++ rest) Hd Hs eq_refl).
Qed.

Lemma vlan_zero_not_untagged_witness :
  parse (P := Frame) ([6; 5; 4; 3; 2; 1] ++ [1; 2; 3; 4; 5; 6] ++ [129; 0] ++ [0; 0] ++ []) =
    Ok (mkAddress [0; 0; 1; 2; 3; 4; 5; 6; 0; 0; 0; 0; 0; 0; 0; 0] 8,
        mkAddress [0; 0; 6; 5; 4; 3; 2; 1; 0; 0; 0; 0; 0; 0; 0; 0] 8).
Proof.
  exact (vlan_zero_not_untagged [6; 5; 4; 3; 2; 1] [1; 2; 3; 4; 5; 6] [] eq_refl eq_refl).
Defined.
