(* ===== verification/Base62.v ===== *)
(** * Base-62 text (src/src/util.rs)

    [to_base62] and [from_base62], used for keys and beacons, with the digit
    arithmetic of the source and a reference specification: the text is the
    base-62 numeral of the big-endian number, without leading zeros. *)

From S2P Require Import Prelude Errors Util.

Module Base62.

(** One pass over little-endian digits: multiply by [k], add [d], in base [b];
    the digits and the carry left at the end. *)
Fixpoint carry_loop (b k : Z) (items : bytes) (d : Z) : bytes * Z :=
  match items with
  | [] => ([], d)
  | item :: items' =>
      let d := d + item * k in
      let '(rest, d') := carry_loop b k items' (d / b) in
      (wrap8 (d mod b) :: rest, d')
  end.

(** [base62_add_mult_16(buf, buflen, m)]: the new buffer and length. *)
Definition base62_add_mult_16 {E} (buf : bytes) (buflen : nat) (m : Z) : outcome E (bytes * nat) :=
  let '(digits, d) := carry_loop 62 16 (take buflen buf) m in
  let buf := digits ++ drop buflen buf in
  if decide (d < 62) then
    if decide (0 < d) then
      if decide (buflen < length buf)%nat then Ok (<[buflen := wrap8 d]> buf, S buflen) else Panic
    else Ok (buf, buflen)
  else Panic.

Definition BASE62 : list ascii :=
  String.list_ascii_of_string "0123456789ABCDEFGHIJKLMNOPQRSTUVWXYZabcdefghijklmnopqrstuvwxyz".

(** The loop of [to_base62] over the bytes. *)
Fixpoint to_base62_loop {E} (data : bytes) (buf : bytes) (buflen : nat) : outcome E (bytes * nat) :=
  match data with
  | [] => Ok (buf, buflen)
  | b :: data' =>
      '(buf, buflen) ← base62_add_mult_16 buf buflen (b / 16);
      '(buf, buflen) ← base62_add_mult_16 buf buflen (b mod 16);
      to_base62_loop data' buf buflen
  end.

Definition to_base62 {E} (data : bytes) : outcome E string :=
  '(buf, buflen) ← to_base62_loop data (replicate (length data * 2) 0) 0;
  chars ← unwrap (mapM (fun d => BASE62 !! Z.to_nat d) (reverse (take buflen buf)));
  Ok (String.string_of_list_ascii chars).

(** The [match c] of [from_base62]. *)
Definition digit_value (c : ascii) : option Z :=
  let n := Z.of_nat (nat_of_ascii c) in
  if decide (48 <= n <= 57) then Some (n mod 48)
  else if decide (65 <= n <= 90) then Some (n mod 65 + 10)
  else if decide (97 <= n <= 122) then Some (n mod 97 + 36)
  else None.

(** One character: the digits in base 256, little endian. *)
Definition from_base62_step (buf : bytes) (val : Z) : bytes :=
  let '(digits, val) := carry_loop 256 62 buf val in
  if decide (0 < val) then digits ++ [wrap8 val] else digits.

(** The loop over [data.chars()]; the error is the offending character (of a
    non-ASCII character, its first byte). *)
Fixpoint from_base62_loop (data : list ascii) (buf : bytes) : outcome ascii bytes :=
  match data with
  | [] => Ok buf
  | c :: data' =>
      match digit_value c with
      | Some val => from_base62_loop data' (from_base62_step buf val)
      | None => Err c
      end
  end.

Definition from_base62 (data : string) : outcome ascii bytes :=
  buf ← from_base62_loop (String.list_ascii_of_string data) [];
  Ok (reverse buf).

(** ** Specification *)

(** The number of a little-endian digit list. *)
Fixpoint le_num (b : Z) (l : list Z) : Z :=
  match l with [] => 0 | d :: l' => d + b * le_num b l' end.

(** Digits below the base, the most significant one not zero. *)
Definition canonical (b : Z) (l : list Z) : Prop :=
  Forall (fun d => 0 <= d < b) l /\ forall d, last l = Some d -> d <> 0.

(** The bytes without leading zeros. *)
Fixpoint strip_zeros (l : bytes) : bytes :=
  match l with
  | d :: l' => if decide (d = 0) then strip_zeros l' else l
  | [] => []
  end.

(** The big-endian number of a byte string. *)
Definition num (l : bytes) : Z := le_num 256 (reverse l).

End Base62.

Import Base62.

(** ** Lemmas *)

Lemma le_num_bound b l : 1 < b -> Forall (fun d => 0 <= d < b) l -> 0 <= le_num b l < b ^ zlen l.
Proof.
  intros Hb. unfold zlen. induction 1 as [|d l Hd Hl IH]; [simpl; lia|].
  cbn [le_num length]. rewrite Nat2Z.inj_succ, Z.pow_succ_r by lia. nia.
Qed.

Lemma le_num_snoc b l d : 1 < b -> le_num b (l ++ [d]) = le_num b l + d * b ^ zlen l.
Proof.
  intros Hb. unfold zlen. induction l as [|x l IH]; cbn [le_num length app]; [simpl; lia|].
  rewrite IH, Nat2Z.inj_succ, Z.pow_succ_r by lia. lia.
Qed.

Lemma canonical_cons b d l : canonical b (d :: l) -> canonical b l /\ 0 <= d < b /\ (l = [] -> d <> 0).
Proof.
  intros [H Hl]. apply Forall_cons in H as [Hd H]. split_and!; try done; try lia.
  - split; [done|]. intros x Hx. apply Hl. destruct l; [done|]. exact Hx.
  - intros ->. by apply Hl.
Qed.

Lemma canonical_zero b l : 1 < b -> canonical b l -> le_num b l = 0 -> l = [].
Proof.
  intros Hb. induction l as [|d l IH]; [done|]. intros Hc Hz.
  apply canonical_cons in Hc as (Hl & Hd & Hn). cbn [le_num] in Hz.
  pose proof (le_num_bound b l Hb (proj1 Hl)).
  assert (d = 0 /\ le_num b l = 0) as [-> Hl0] by nia. exfalso. apply Hn; auto.
Qed.

(** A number has one canonical numeral. *)
Lemma canonical_unique b l l' :
  1 < b -> canonical b l -> canonical b l' -> le_num b l = le_num b l' -> l = l'.
Proof.
  intros Hb. revert l'. induction l as [|d l IH]; intros l' Hl Hl' He.
  - symmetry. by apply (canonical_zero b).
  - destruct l' as [|d' l'].
    { exfalso. pose proof (canonical_zero b (d :: l) Hb Hl He). done. }
    apply canonical_cons in Hl as (Hl & Hd & _), Hl' as (Hl' & Hd' & _). cbn [le_num] in He.
    assert (d = d') as ->.
    { rewrite <- (Z.mod_small d b), <- (Z.mod_small d' b) by done.
      rewrite <- (Z.mod_add d (le_num b l)), <- (Z.mod_add d' (le_num b l')) by lia.
      f_equal. lia. }
    f_equal. apply IH; try done. nia.
Qed.

(** The carry loop computes [k * number + d]. *)
Lemma carry_loop_spec b k items d :
  1 < b <= 256 -> 0 < k -> 0 <= d < b -> d <= k -> k * (b - 1) + k < b * b ->
  Forall (fun x => 0 <= x < b) items ->
  let '(digits, d') := carry_loop b k items d in
  length digits = length items /\ Forall (fun x => 0 <= x < b) digits /\
  0 <= d' <= k /\
  le_num b digits + d' * b ^ zlen items = k * le_num b items + d.
Proof.
  intros Hb Hk Hd Hdk Hkb Hi. revert d Hd Hdk. unfold zlen.
  induction Hi as [|x items Hx Hi IH]; intros d Hd Hdk; cbn [carry_loop].
  { split_and!; try done; try lia. simpl. lia. }
  assert (0 <= (d + x * k) / b <= k).
  { split; [apply Z.div_pos; nia|]. 
    enough ((d + x * k) / b < k + 1) by lia. apply Z.div_lt_upper_bound; nia. }
  assert ((d + x * k) / b < b) by (apply Z.div_lt_upper_bound; nia).
  specialize (IH ((d + x * k) / b) ltac:(lia) ltac:(lia)).
  destruct (carry_loop b k items ((d + x * k) / b)) as [digits d'].
  destruct IH as (Hlen & Hdig & Hd' & Heq).
  pose proof (Z.mod_pos_bound (d + x * k) b ltac:(lia)).
  unfold wrap. rewrite (Z.mod_small ((d + x * k) mod b)) by lia.
  split_and!; simpl length; try lia.
  - by constructor.
  - cbn [le_num]. rewrite Nat2Z.inj_succ, Z.pow_succ_r by lia.
    pose proof (Z.div_mod (d + x * k) b ltac:(lia)). nia.
Qed.

(** A digit list is canonical when its number needs all its digits. *)
Lemma canonical_ge b l x : 1 < b -> canonical b (l ++ [x]) -> b ^ zlen l <= le_num b (l ++ [x]).
Proof.
  intros Hb [Hd Hl]. rewrite le_num_snoc by done. apply Forall_app in Hd as [Hd Hx].
  apply Forall_inv in Hx. specialize (Hl x (last_snoc x l)).
  pose proof (le_num_bound b l Hb Hd). unfold zlen in *.
  pose proof (Z.pow_nonneg b (Z.of_nat (length l)) ltac:(lia)). nia.
Qed.

Lemma ge_canonical b l x :
  1 < b -> Forall (fun d => 0 <= d < b) (l ++ [x]) -> b ^ zlen l <= le_num b (l ++ [x]) ->
  canonical b (l ++ [x]).
Proof.
  intros Hb Hd Hge. split; [done|]. intros y. rewrite last_snoc. intros [= <-] ->.
  rewrite le_num_snoc in Hge by done. apply Forall_app in Hd as [Hd _].
  pose proof (le_num_bound b l Hb Hd). lia.
Qed.

Lemma canonical_snoc b l d : 0 < d < b -> Forall (fun d => 0 <= d < b) l -> canonical b (l ++ [d]).
Proof.
  intros Hd Hl. split.
  - apply Forall_app. split; [done|]. apply Forall_singleton. lia.
  - intros x. rewrite last_snoc. intros [= <-]. lia.
Qed.

(** A pass with its carry appended: multiply and add, canonically. *)
Lemma carry_step b k items d digits d' :
  1 < b <= 256 -> 0 < k < b -> 0 <= d < b -> d <= k -> k * (b - 1) + k < b * b ->
  canonical b items -> carry_loop b k items d = (digits, d') ->
  length digits = length items /\ 0 <= d' < b /\
  let r := if decide (0 < d') then digits ++ [d'] else digits in
  canonical b r /\ le_num b r = k * le_num b items + d.
Proof.
  intros Hb Hk Hd Hdk Hkb Hc Hcl.
  pose proof (carry_loop_spec b k items d Hb ltac:(lia) Hd Hdk Hkb (proj1 Hc)) as H.
  rewrite Hcl in H. destruct H as (Hlen & Hdig & Hd' & Heq).
  split; [done|]. split; [lia|]. unfold zlen in Heq. rewrite <- Hlen in Heq. destruct (decide _) as [Hp|Hp]; cbn zeta.
  - split; [apply canonical_snoc; [lia|done]|]. rewrite le_num_snoc by lia. exact Heq.
  - replace d' with 0 in Heq by lia. split; [|lia].
    destruct digits as [|x digits _] using rev_ind.
    { split; [done|]. done. }
    apply ge_canonical; [lia|done|].
    destruct items as [|y items _] using rev_ind; [by rewrite length_app in Hlen; simpl in Hlen; lia|].
    pose proof (canonical_ge b items y ltac:(lia) Hc) as Hge.
    rewrite !length_app in Hlen. unfold zlen in *. replace (length digits) with (length items) by (simpl in Hlen; lia).
    pose proof (Z.pow_nonneg b (Z.of_nat (length items)) ltac:(lia)). nia.
Qed.

Lemma base62_add_mult_16_spec {E} buf buflen m :
  canonical 62 (take buflen buf) -> (buflen < length buf)%nat -> 0 <= m < 16 ->
  exists buf' buflen',
    base62_add_mult_16 (E := E) buf buflen m = Ok (buf', buflen') /\
    length buf' = length buf /\ (buflen' <= S buflen)%nat /\
    canonical 62 (take buflen' buf') /\
    le_num 62 (take buflen' buf') = 16 * le_num 62 (take buflen buf) + m.
Proof.
  intros Hc Hlt Hm. unfold base62_add_mult_16.
  destruct (carry_loop 62 16 (take buflen buf) m) as [digits d] eqn:Hcl.
  destruct (carry_step 62 16 _ m _ _ ltac:(lia) ltac:(lia) ltac:(lia) ltac:(lia) ltac:(lia) Hc Hcl)
    as (Hlen & Hd & Hr).
  rewrite length_take, Nat.min_l in Hlen by lia.
  rewrite decide_True by lia. cbn zeta in Hr. destruct (decide (0 < d)) as [Hp|Hp].
  - rewrite decide_True by (rewrite length_app, length_drop; lia).
    rewrite (wrap_small 8 d) by (simpl; lia).
    eexists _, _. split; [done|]. rewrite length_insert, length_app, length_drop.
    split; [lia|]. split; [lia|].
    replace (take (S buflen) _) with (digits ++ [d]); [done|].
    destruct (drop buflen buf) as [|y rest] eqn:Hdr.
    { apply (f_equal length) in Hdr. rewrite length_drop in Hdr. simpl in Hdr. lia. }
    rewrite <- Hlen, insert_app_r_alt, Nat.sub_diag by lia. simpl.
    rewrite take_app_ge by lia. replace (S (length digits) - length digits)%nat with 1%nat by lia. done.
  - eexists _, _. split; [done|]. rewrite length_app, length_drop. split; [lia|]. split; [lia|].
    rewrite <- Hlen in Hr |- *. rewrite take_app_length. done.
Qed.

Lemma num_cons_nibbles n b data :
  le_num 256 (reverse (b :: data)) + n * 256 ^ zlen (b :: data) =
  num data + (n * 256 + b) * 256 ^ zlen data.
Proof.
  unfold num. rewrite reverse_cons, le_num_snoc by lia. unfold zlen.
  rewrite length_reverse. cbn [length]. rewrite Nat2Z.inj_succ, Z.pow_succ_r by lia. lia.
Qed.

Lemma to_base62_loop_spec {E} data buf buflen :
  bytes_ok data -> canonical 62 (take buflen buf) -> (buflen + 2 * length data <= length buf)%nat ->
  exists buf' buflen',
    to_base62_loop (E := E) data buf buflen = Ok (buf', buflen') /\
    canonical 62 (take buflen' buf') /\
    le_num 62 (take buflen' buf') = le_num 62 (take buflen buf) * 256 ^ zlen data + num data.
Proof.
  intros Hd. revert buf buflen. induction Hd as [|b data Hb Hd IH]; intros buf buflen Hc Hl.
  { exists buf, buflen. split; [done|]. split; [done|]. unfold num, zlen. simpl. lia. }
  cbn [to_base62_loop length] in *. unfold is_u8 in Hb.
  pose proof (Z.div_mod b 16 ltac:(lia)). pose proof (Z.mod_pos_bound b 16 ltac:(lia)).
  destruct (base62_add_mult_16_spec (E := E) buf buflen (b / 16) Hc ltac:(lia) ltac:(lia))
    as (buf1 & n1 & -> & Hl1 & Hn1 & Hc1 & Hv1).
  destruct (base62_add_mult_16_spec (E := E) buf1 n1 (b mod 16) Hc1 ltac:(lia) ltac:(lia))
    as (buf2 & n2 & Heq2 & Hl2 & Hn2 & Hc2 & Hv2). cbn. rewrite Heq2. cbn.
  destruct (IH buf2 n2 Hc2 ltac:(lia)) as (buf3 & n3 & -> & Hc3 & Hv3).
  eexists _, _. split; [done|]. split; [done|]. rewrite Hv3, Hv2, Hv1.
  pose proof (num_cons_nibbles (le_num 62 (take buflen buf)) b data) as Hn. fold (num (b :: data)) in Hn.
  rewrite (Z.add_comm _ (num (b :: data))), Hn. set (p := 256 ^ zlen data). nia.
Qed.

Lemma digit_value_spec d : 0 <= d < 62 -> exists c, BASE62 !! Z.to_nat d = Some c /\ digit_value c = Some d.
Proof.
  intros Hd.
  assert (Forall (fun n => BASE62 !! n ≫= digit_value = Some (Z.of_nat n)) (seq 0 62)) as H by (apply (bool_decide_unpack _); vm_compute; exact I).
  rewrite Forall_forall in H. specialize (H (Z.to_nat d)). rewrite elem_of_seq in H. specialize (H ltac:(lia)).
  destruct (BASE62 !! Z.to_nat d) as [c|]; [|done]. exists c. rewrite Z2Nat.id in H by lia. done.
Qed.

Lemma digits_to_chars l :
  Forall (fun d => 0 <= d < 62) l ->
  exists cs, mapM (fun d => BASE62 !! Z.to_nat d) l = Some cs /\ Forall2 (fun c d => digit_value c = Some d) cs l.
Proof.
  induction 1 as [|d l Hd Hl (cs & Hcs & IH)]; [by exists []|].
  destruct (digit_value_spec d Hd) as (c & Hc & Hv). exists (c :: cs).
  rewrite mapM_Some in Hcs |- *. split; by constructor.
Qed.

Lemma from_base62_step_spec buf val :
  canonical 256 buf -> 0 <= val < 62 ->
  canonical 256 (from_base62_step buf val) /\ le_num 256 (from_base62_step buf val) = 62 * le_num 256 buf + val.
Proof.
  intros Hc Hv. unfold from_base62_step.
  destruct (carry_loop 256 62 buf val) as [digits d] eqn:Hcl.
  destruct (carry_step 256 62 _ val _ _ ltac:(lia) ltac:(lia) ltac:(lia) ltac:(lia) ltac:(lia) Hc Hcl)
    as (_ & Hd & Hr). cbn zeta in Hr. rewrite (wrap_small 8 d) by lia. exact Hr.
Qed.

(** Reading most significant digits first. *)
Lemma from_base62_loop_spec cs ds buf :
  Forall2 (fun c d => digit_value c = Some d) cs ds -> Forall (fun d => 0 <= d < 62) ds -> canonical 256 buf ->
  exists buf', from_base62_loop cs buf = Ok buf' /\ canonical 256 buf' /\
    le_num 256 buf' = le_num 256 buf * 62 ^ zlen ds + le_num 62 (reverse ds).
Proof.
  intros H. revert buf. induction H as [|c d cs ds Hc H IH]; intros buf Hds Hb.
  { exists buf. split; [done|]. split; [done|]. unfold zlen. simpl. lia. }
  apply Forall_cons in Hds as [Hd Hds]. cbn [from_base62_loop]. rewrite Hc.
  destruct (from_base62_step_spec buf d Hb Hd) as [Hb1 Hv1].
  destruct (IH _ Hds Hb1) as (buf' & -> & Hb' & Hv'). exists buf'. split; [done|]. split; [done|].
  rewrite Hv', Hv1, reverse_cons, le_num_snoc by lia. unfold zlen. rewrite length_reverse. cbn [length].
  rewrite Nat2Z.inj_succ, Z.pow_succ_r by lia. nia.
Qed.

Lemma num_strip_zeros l : num (strip_zeros l) = num l.
Proof.
  induction l as [|d l IH]; [done|]. cbn [strip_zeros]. case_decide as Hd; [|done]. subst.
  rewrite IH. unfold num. rewrite reverse_cons, le_num_snoc by lia. lia.
Qed.

Lemma strip_zeros_canonical l : bytes_ok l -> canonical 256 (reverse (strip_zeros l)).
Proof.
  induction 1 as [|d l Hd Hl IH]; [done|]. cbn [strip_zeros]. case_decide as Hz; [done|].
  unfold is_u8 in Hd. rewrite reverse_cons. apply canonical_snoc; [lia|]. by apply Forall_reverse.
Qed.

(** The text of a byte string: the base-62 numeral of its number, most
    significant digit first. *)
Lemma to_base62_spec {E} data :
  bytes_ok data ->
  exists cs ds, to_base62 (E := E) data = Ok (String.string_of_list_ascii cs) /\
    Forall2 (fun c d => digit_value c = Some d) cs ds /\ canonical 62 (reverse ds) /\
    le_num 62 (reverse ds) = num data.
Proof.
  intros Hd. unfold to_base62.
  destruct (to_base62_loop_spec (E := E) data (replicate (length data * 2) 0) 0 Hd) as (buf & n & -> & Hc & Hv);
    [done|rewrite length_replicate; lia|].
  destruct (digits_to_chars (reverse (take n buf))) as (cs & Hcs & H2).
  { apply Forall_reverse. apply Hc. }
  exists cs, (reverse (take n buf)). cbn -[mapM BASE62]. rewrite Hcs. cbn. rewrite reverse_involutive. done.
Qed.

(** The text of a byte string reads back without its leading zeros. *)
Lemma base62_decode {E} data :
  bytes_ok data ->
  exists s, to_base62 (E := E) data = Ok s /\ from_base62 s = Ok (strip_zeros data).
Proof.
  intros Hd. destruct (to_base62_spec (E := E) data Hd) as (cs & ds & -> & H2 & Hc & Hv).
  eexists. split; [done|]. unfold from_base62. rewrite String.list_ascii_of_string_of_list_ascii.
  destruct (from_base62_loop_spec cs ds [] H2) as (buf & -> & Hb & Hn); [|done|].
  { rewrite <- (reverse_involutive ds). apply Forall_reverse. apply Hc. }
  cbn. f_equal. rewrite <- (reverse_involutive (strip_zeros data)). f_equal.
  apply (canonical_unique 256); [lia|done|by apply strip_zeros_canonical|].
  fold (num (strip_zeros data)). rewrite num_strip_zeros, Hn, Hv. done.
Qed.

Lemma strip_zeros_len l : (length (strip_zeros l) <= length l)%nat.
Proof. induction l as [|d l IH]; [done|]. cbn [strip_zeros length]. case_decide; cbn [length]; lia. Qed.

(** Base-62 text is a faithful encoding of the bytes up to leading zeros:
    for every byte string [data], [to_base62 data] succeeds (no assertion or
    index of it fails) and [from_base62] of the text is [data] without its
    leading zero bytes. *)
Theorem base62_roundtrip data :
  bytes_ok data ->
  exists s, to_base62 (E := Error) data = Ok s /\ from_base62 s = Ok (strip_zeros data).
Proof. apply base62_decode. Qed.

Lemma base62_roundtrip_witness :
  exists s, to_base62 (E := Error) [84; 101; 115; 116] = Ok s /\ from_base62 s = Ok (strip_zeros [84; 101; 115; 116]).
Proof. apply base62_roundtrip. apply (bool_decide_unpack _). vm_compute. exact I. Defined.
