(* ===== verification/Messages.v ===== *)
(** * The node information message (src/src/messages.rs)

    [NodeInfo] and its tag-length-value coding: the encoder writes through a
    cursor and patches every part's length in afterwards, the decoder reads each
    part through a [Take]. [enc] is the layout as a byte list; the theorems
    relate the two directions through it. *)

From S2P Require Import Prelude Errors Util Types.

Definition MESSAGE_TYPE_DATA : Z := 0.
Definition MESSAGE_TYPE_NODE_INFO : Z := 1.
Definition MESSAGE_TYPE_KEEPALIVE : Z := 2.
Definition MESSAGE_TYPE_CLOSE : Z := 255.

Abbreviation AddrList := (list SocketAddr).

Record PeerInfo : Type := mkPeerInfo { pi_node_id : option NodeId; pi_addrs : AddrList }.

Record NodeInfo : Type := mkNodeInfo {
  ni_node_id : NodeId;
  ni_peers : list PeerInfo;
  ni_claims : RangeList;
  ni_peer_timeout : option Z;
  ni_addrs : AddrList
}.

Module NodeInfo.

Definition PART_CLAIMS : Z := 2.
Definition PART_END : Z := 0.
Definition PART_NODEID : Z := 4.
Definition PART_PEERS : Z := 1.
Definition PART_PEER_TIMEOUT : Z := 3.
Definition PART_ADDRS : Z := 5.

(** ** Decoding

    An [io::Error] is [Err tt] here (every caller drops it); running out of
    fuel is [Panic], and [node_info_decode_total] shows it does not happen. *)

Definition io {A} (o : option A) : outcome unit A := ok_or o ().

Section Read.
Context {R : Type} `{Read R}.

(** One address: [octets] bytes and a port. *)
Definition read_v6 (r : Take R) : outcome unit (SocketAddr * Take R) :=
  '(ip, r) ← io (read_exact 16 r);
  '(port, r) ← io (read_u16 r);
  Ok (V6 ip port 0 0, r).
Definition read_v4 (r : Take R) : outcome unit (SocketAddr * Take R) :=
  '(ip, r) ← io (read_exact 4 r);
  '(port, r) ← io (read_u16 r);
  Ok (V4 ip port, r).

(** [for _ in 0..n { addrs.push(rd(r)?) }]. *)
Fixpoint read_n {A} (rd : Take R -> outcome unit (A * Take R)) (n : nat) (r : Take R) (addrs : list A)
    : outcome unit (list A * Take R) :=
  match n with
  | O => Ok (addrs, r)
  | S n' => '(a, r) ← rd r; read_n rd n' r (addrs ++ [a])
  end.

Definition read_addr_list_inner (r : Take R) (flags : Z) : outcome unit (AddrList * Take R) :=
  let num_ipv4_addrs := Z.to_nat (Z.land flags 7) in
  let num_ipv6_addrs := Z.to_nat (Z.land flags 56 / 8) in
  '(addrs, r) ← read_n read_v6 num_ipv6_addrs r [];
  read_n read_v4 num_ipv4_addrs r addrs.

Definition read_addr_list (r : Take R) : outcome unit (AddrList * Take R) :=
  '(flags, r) ← io (read_u8 r);
  read_addr_list_inner r flags.

Definition read_peer (r : Take R) : outcome unit (PeerInfo * Take R) :=
  '(flags, r) ← io (read_u8 r);
  '(node_id, r) ← (if decide (Z.land flags 128 <> 0)
                   then '(id, r) ← io (read_exact NODE_ID_BYTES r); Ok (Some id, r)
                   else Ok (None, r));
  '(addrs, r) ← read_addr_list_inner r flags;
  Ok (mkPeerInfo node_id addrs, r).

(** [while r.limit() > 0 { l.push(rd(r)?) }]. *)
Fixpoint while_limit {E A} (rd : Take R -> outcome E (A * Take R)) (fuel : nat) (r : Take R) (l : list A)
    : outcome E (list A * Take R) :=
  if decide (0 < take_limit r)%nat then
    match fuel with
    | O => Panic
    | S fuel' => '(a, r) ← rd r; while_limit rd fuel' r (l ++ [a])
    end
  else Ok (l, r).

Definition decode_peer_list_part (r : Take R) : outcome unit (list PeerInfo * Take R) :=
  while_limit read_peer (take_limit r) r [].

Definition decode_claims_part (r : Take R) : Result (RangeList * Take R) :=
  while_limit Range.read_from (take_limit r) r [].

(** The variables of the decoding loop. *)
Record parts : Type := mkParts {
  p_peers : list PeerInfo; p_claims : RangeList; p_peer_timeout : option Z;
  p_node_id : option NodeId; p_addrs : AddrList
}.
Definition no_parts : parts := mkParts [] [] None None [].

Definition truncated {E A} (m : outcome E A) : Result A := map_err (fun _ => EMessage "Truncated message") m.

(** The [match part]. *)
Definition decode_part (part part_len : Z) (rp : Take R) (p : parts) : Result (parts * Take R) :=
  if decide (part = PART_PEERS) then
    '(peers, rp) ← truncated (decode_peer_list_part rp);
    Ok (mkParts peers (p_claims p) (p_peer_timeout p) (p_node_id p) (p_addrs p), rp)
  else if decide (part = PART_CLAIMS) then
    '(claims, rp) ← decode_claims_part rp;
    Ok (mkParts (p_peers p) claims (p_peer_timeout p) (p_node_id p) (p_addrs p), rp)
  else if decide (part = PART_PEER_TIMEOUT) then
    '(t, rp) ← truncated (io (read_u16 rp));
    Ok (mkParts (p_peers p) (p_claims p) (Some t) (p_node_id p) (p_addrs p), rp)
  else if decide (part = PART_NODEID) then
    '(data, rp) ← truncated (io (read_exact NODE_ID_BYTES rp));
    Ok (mkParts (p_peers p) (p_claims p) (p_peer_timeout p) (Some data) (p_addrs p), rp)
  else if decide (part = PART_ADDRS) then
    '(addrs, rp) ← truncated (read_addr_list rp);
    Ok (mkParts (p_peers p) (p_claims p) (p_peer_timeout p) (p_node_id p) addrs, rp)
  else
    '(_, rp) ← truncated (io (read_exact (Z.to_nat part_len) rp));
    Ok (p, rp).

(** The [loop]; what a part leaves unread stays in the stream. *)
Fixpoint decode_loop (fuel : nat) (r : R) (p : parts) : Result parts :=
  match fuel with
  | O => Panic
  | S fuel' =>
      '(part, r) ← truncated (io (read_u8 r));
      if decide (part = PART_END) then Ok p
      else
        '(part_len, r) ← truncated (io (read_u16 r));
        '(p, rp) ← decode_part part part_len (mkTake (Z.to_nat part_len) r) p;
        decode_loop fuel' (into_inner rp) p
  end.

Definition decode_internal (fuel : nat) (r : R) : Result NodeInfo :=
  p ← decode_loop fuel r no_parts;
  match p_node_id p with
  | Some node_id => Ok (mkNodeInfo node_id (p_peers p) (p_claims p) (p_peer_timeout p) (p_addrs p))
  | None => Err (EMessage "Payload without node_id")
  end.

End Read.

Definition decode (r : bytes) : Result NodeInfo :=
  map_err (fun _ => EMessage "Input data too short") (decode_internal (S (length r)) r).

(** ** Encoding *)

(** [while l.len() >= 8 { l.pop(); }]. *)
Fixpoint pop_to_seven {A} (fuel : nat) (l : list A) : list A :=
  match fuel with
  | O => l
  | S fuel' => if decide (8 <= length l)%nat then pop_to_seven fuel' (removelast l) else l
  end.

Definition addrs_v4 (l : AddrList) : list (bytes * Z) :=
  let v4 := omap (fun a => match a with V4 ip port => Some (ip, port) | V6 _ _ _ _ => None end) l in
  pop_to_seven (length v4) v4.
Definition addrs_v6 (l : AddrList) : list (bytes * Z) :=
  let v6 := omap (fun a => match a with V6 ip port _ _ => Some (ip, port) | V4 _ _ => None end) l in
  pop_to_seven (length v6) v6.

Section Write.
Context {W : Type} `{Write W}.

Definition write_addr (a : bytes * Z) (out : W) : option W :=
  out ← write_all (a.1) out; write_u16 (a.2) out.

Definition write_each {A} (f : A -> W -> option W) (l : list A) (out : W) : option W :=
  foldl (fun ow x => ow ≫= f x) (Some out) l.

Definition encode_peer (p : PeerInfo) (out : W) : option W :=
  let addr_ipv4 := addrs_v4 (pi_addrs p) in
  let addr_ipv6 := addrs_v6 (pi_addrs p) in
  let flags := wrap8 (zlen addr_ipv6 * 8 + zlen addr_ipv4) in
  let flags := match pi_node_id p with Some _ => wrap8 (flags + 128) | None => flags end in
  out ← write_u8 flags out;
  out ← match pi_node_id p with Some node_id => write_all node_id out | None => Some out end;
  out ← write_each write_addr addr_ipv6 out;
  write_each write_addr addr_ipv4 out.

Definition encode_peer_list_part (n : NodeInfo) (out : W) : option W :=
  write_each encode_peer (ni_peers n) out.

Definition encode_addrs_part (n : NodeInfo) (out : W) : option W :=
  let addr_ipv4 := addrs_v4 (ni_addrs n) in
  let addr_ipv6 := addrs_v6 (ni_addrs n) in
  let flags := wrap8 (zlen addr_ipv6 * 8 + zlen addr_ipv4) in
  out ← write_u8 flags out;
  out ← write_each write_addr addr_ipv6 out;
  write_each write_addr addr_ipv4 out.

End Write.

(** [Cursor::seek(SeekFrom::Start(p))]. *)
Definition seek (p : nat) (c : Cursor) : Cursor := mkCursor (cur_data c) p.

Definition encode_part (part : Z) (f : Cursor -> option Cursor) (cursor : Cursor) : option Cursor :=
  cursor ← write_u8 part cursor;
  cursor ← write_u16 0 cursor;
  let part_start := cur_pos cursor in
  cursor ← f cursor;
  let part_end := cur_pos cursor in
  let len := Z.of_nat part_end - Z.of_nat part_start in
  cursor ← write_u16 (wrap16 len) (seek (part_start - 2) cursor);
  Some (seek part_end cursor).

Definition encode_cursor (n : NodeInfo) (cursor : Cursor) : option Cursor :=
  cursor ← encode_part PART_NODEID (write_all (ni_node_id n)) cursor;
  cursor ← encode_part PART_PEERS (encode_peer_list_part n) cursor;
  cursor ← encode_part PART_CLAIMS (write_each Range.write_to (ni_claims n)) cursor;
  cursor ← match ni_peer_timeout n with
           | Some timeout => encode_part PART_PEER_TIMEOUT (write_u16 timeout) cursor
           | None => Some cursor
           end;
  cursor ← encode_part PART_ADDRS (encode_addrs_part n) cursor;
  write_u8 PART_END cursor.

(** [Ok None] is the [io::Error] of [encode_internal]. *)
Definition encode_internal {E} (n : NodeInfo) : ST MsgBuffer E (option unit) :=
  len ← MsgBuffer.write_cursor (encode_cursor n);
  match len with
  | Some len => modify (MsgBuffer.set_length len) ;; mret (Some ())
  | None => mret None
  end.

(** [encode], and [Payload::write_to]: panics when the buffer is too small. *)
Definition encode {E} (n : NodeInfo) : ST MsgBuffer E unit :=
  r ← encode_internal n;
  lift (unwrap r).

(** ** The layout *)

Definition enc_addr (a : bytes * Z) : bytes := a.1 ++ be_bytes 2 (a.2).
Definition enc_addrs (l : AddrList) : bytes :=
  concat (enc_addr <$> addrs_v6 l) ++ concat (enc_addr <$> addrs_v4 l).
Definition flags_of (l : AddrList) : Z := zlen (addrs_v6 l) * 8 + zlen (addrs_v4 l).
Definition enc_peer (p : PeerInfo) : bytes :=
  match pi_node_id p with
  | Some id => be_bytes 1 (flags_of (pi_addrs p) + 128) ++ id
  | None => be_bytes 1 (flags_of (pi_addrs p))
  end ++ enc_addrs (pi_addrs p).
Definition enc_part (part : Z) (bs : bytes) : bytes := be_bytes 1 part ++ be_bytes 2 (zlen bs) ++ bs.
Definition body (n : NodeInfo) : list (Z * bytes) :=
  [(PART_NODEID, ni_node_id n);
   (PART_PEERS, concat (enc_peer <$> ni_peers n));
   (PART_CLAIMS, concat (Range.enc <$> ni_claims n))] ++
  match ni_peer_timeout n with Some t => [(PART_PEER_TIMEOUT, be_bytes 2 t)] | None => [] end ++
  [(PART_ADDRS, be_bytes 1 (flags_of (ni_addrs n)) ++ enc_addrs (ni_addrs n))].
Definition enc (n : NodeInfo) : bytes :=
  concat ((fun p => enc_part p.1 p.2) <$> body n) ++ be_bytes 1 PART_END.

(** What the layout keeps of an address list: IPv6 before IPv4, at most seven
    of each, without flow information and scope. *)
Definition keep_addrs (l : AddrList) : AddrList :=
  ((fun a => V6 (a.1) (a.2) 0 0) <$> addrs_v6 l) ++ ((fun a => V4 (a.1) (a.2)) <$> addrs_v4 l).
Definition keep (n : NodeInfo) : NodeInfo :=
  mkNodeInfo (ni_node_id n)
    ((fun p => mkPeerInfo (pi_node_id p) (keep_addrs (pi_addrs p))) <$> ni_peers n)
    (ni_claims n) (ni_peer_timeout n) (keep_addrs (ni_addrs n)).

Definition id_wf (id : NodeId) : Prop := length id = NODE_ID_BYTES /\ bytes_ok id.
Definition addr_wf (a : SocketAddr) : Prop :=
  match a with
  | V4 ip port => length ip = 4%nat /\ bytes_ok ip /\ is_u16 port
  | V6 ip port _ _ => length ip = 16%nat /\ bytes_ok ip /\ is_u16 port
  end.
Definition wf (n : NodeInfo) : Prop :=
  id_wf (ni_node_id n) /\
  Forall (fun p => (forall id, pi_node_id p = Some id -> id_wf id) /\ Forall addr_wf (pi_addrs p)) (ni_peers n) /\
  Forall Range.canonical (ni_claims n) /\
  (forall t, ni_peer_timeout n = Some t -> is_u16 t) /\
  Forall addr_wf (ni_addrs n).

End NodeInfo.

Import NodeInfo.

(** ** The encoder writes the layout *)

Lemma lookup_splice p bs l i :
  (p + length bs <= length l)%nat ->
  splice p bs l !! i = if decide (p <= i < p + length bs)%nat then bs !! (i - p)%nat else l !! i.
Proof.
  intros Hl. unfold splice. case_decide as Hi.
  - rewrite lookup_app_r by (rewrite length_take; lia).
    rewrite length_take, Nat.min_l by lia. by rewrite lookup_app_l by lia.
  - destruct (decide (i < p)%nat).
    + rewrite lookup_app_l by (rewrite length_take; lia). by rewrite lookup_take_lt by lia.
    + rewrite lookup_app_r, length_take, Nat.min_l by (rewrite ?length_take; lia).
      rewrite lookup_app_r by lia. rewrite lookup_drop. f_equal. lia.
Qed.

(** Overwriting [b] by [b'] after more was written. *)
Lemma splice_patch p b b' c l :
  length b = length b' -> (p + length b + length c <= length l)%nat ->
  splice p b' (splice (p + length b) c (splice p b l)) = splice (p + length b) c (splice p b' l).
Proof.
  intros Hb Hl. apply list_eq. intros i.
  rewrite !lookup_splice by (rewrite ?length_splice; rewrite ?length_splice; lia).
  rewrite <- Hb. repeat case_decide; done || lia.
Qed.

Lemma write_cursor_eq bs c :
  write_all bs c = if decide (length bs <= length (cur_data c) - cur_pos c)%nat
    then Some (mkCursor (splice (cur_pos c) bs (cur_data c)) (cur_pos c + length bs)) else None.
Proof. done. Qed.

Lemma writes_part part f bs :
  writes f bs -> zlen bs < 65536 -> writes (encode_part part f) (enc_part part bs).
Proof.
  intros Hf Hl [d p]. unfold encode_part, enc_part, write_u8, write_u16.
  rewrite write_all_app. destruct (write_all (be_bytes 1 part) _) as [[d1 p1]|]; [|done].
  cbn [mbind option_bind]. rewrite write_all_app, !write_cursor_eq. cbn [cur_data cur_pos].
  rewrite !length_be_bytes. case_decide as H2; [|done]. cbn [mbind option_bind].
  rewrite Hf, !write_cursor_eq. cbn [cur_data cur_pos].
  rewrite !length_splice by (rewrite length_be_bytes; lia).
  case_decide as Hb; [|done]. cbn [mbind option_bind seek cur_pos cur_data].
  replace (wrap16 _) with (zlen bs) by (rewrite wrap_small; unfold zlen in *; lia).
  unfold seek. cbn [cur_data cur_pos]. rewrite write_cursor_eq. cbn [cur_data cur_pos].
  rewrite length_be_bytes, !length_splice by (rewrite ?length_splice; rewrite ?length_be_bytes; lia).
  rewrite decide_True by lia. cbn [mbind option_bind cur_data cur_pos]. do 2 f_equal.
  replace (p1 + 2 - 2)%nat with p1 by lia.
  rewrite <- (length_be_bytes 2 0) at 2.
  rewrite splice_patch by (rewrite !length_be_bytes; lia). by rewrite length_be_bytes.
Qed.

Lemma pop_to_seven_take {A} fuel (l : list A) :
  (length l <= fuel + 7)%nat -> pop_to_seven fuel l = take 7 l.
Proof.
  revert l. induction fuel as [|fuel IH]; intros l Hl; simpl.
  - by rewrite take_ge by lia.
  - case_decide; [|by rewrite take_ge by lia].
    destruct l as [|x l _] using rev_ind; [simpl in *; lia|].
    rewrite length_app in *. simpl in *. rewrite removelast_last, IH by lia.
    by rewrite take_app_le by lia.
Qed.

Lemma addrs_v4_short l : (length (addrs_v4 l) <= 7)%nat.
Proof. unfold addrs_v4. rewrite pop_to_seven_take, length_take by lia. lia. Qed.
Lemma addrs_v6_short l : (length (addrs_v6 l) <= 7)%nat.
Proof. unfold addrs_v6. rewrite pop_to_seven_take, length_take by lia. lia. Qed.

Lemma addrs_v4_wf l : Forall addr_wf l -> Forall (fun a => length a.1 = 4%nat /\ bytes_ok a.1 /\ is_u16 a.2) (addrs_v4 l).
Proof.
  intros Hl. unfold addrs_v4. rewrite pop_to_seven_take by lia. apply Forall_take.
  induction Hl as [|[] l Ha Hl IH]; simpl; [constructor| |done]. by constructor.
Qed.
Lemma addrs_v6_wf l : Forall addr_wf l -> Forall (fun a => length a.1 = 16%nat /\ bytes_ok a.1 /\ is_u16 a.2) (addrs_v6 l).
Proof.
  intros Hl. unfold addrs_v6. rewrite pop_to_seven_take by lia. apply Forall_take.
  induction Hl as [|[] l Ha Hl IH]; simpl; [constructor|done|]. by constructor.
Qed.

Lemma flags_small l : 0 <= flags_of l < 64.
Proof. pose proof (addrs_v4_short l). pose proof (addrs_v6_short l). unfold flags_of, zlen. lia. Qed.

Section WriteSpec.
Context {W : Type} `{WriteLaws W}.

Lemma writes_addr a : writes (W := W) (write_addr a) (enc_addr a).
Proof. intros w. apply writes_bind; auto with vpn. Qed.

Lemma writes_each {A} (f : A -> W -> option W) enc l :
  (forall x, writes (f x) (enc x)) -> writes (write_each f l) (concat (enc <$> l)).
Proof. intros Hf w. apply (writes_foldl f enc). auto. Qed.

Lemma writes_addrs l :
  writes (W := W) (fun out => out ← write_each write_addr (addrs_v6 l) out; write_each write_addr (addrs_v4 l) out)
    (enc_addrs l).
Proof. intros w. apply writes_bind; intros w'; apply writes_each; intros; apply writes_addr. Qed.

Lemma writes_peer p : writes (W := W) (encode_peer p) (enc_peer p).
Proof.
  intros w. unfold encode_peer, enc_peer. pose proof (flags_small (pi_addrs p)) as Hf.
  fold (flags_of (pi_addrs p)). rewrite (wrap_small 8 (flags_of _)) by lia.
  destruct (pi_node_id p) as [id|].
  - rewrite wrap_small by lia. rewrite <- (assoc_L app). apply (writes_bind _ _ _ _); [auto with vpn|].
    intros w'. apply writes_bind; [auto with vpn|apply writes_addrs].
  - apply (writes_bind _ _ _ _); [auto with vpn|]. cbn [mbind option_bind]. apply writes_addrs.
Qed.

Lemma writes_addrs_part n :
  writes (W := W) (encode_addrs_part n) (be_bytes 1 (flags_of (ni_addrs n)) ++ enc_addrs (ni_addrs n)).
Proof.
  intros w. unfold encode_addrs_part. pose proof (flags_small (ni_addrs n)) as Hf.
  fold (flags_of (ni_addrs n)). rewrite wrap_small by lia.
  apply writes_bind; [auto with vpn|apply writes_addrs].
Qed.
End WriteSpec.

(** Every part fits its 16-bit length field. *)
Definition parts_fit (n : NodeInfo) : Prop := Forall (fun p => zlen p.2 < 65536) (body n).

Lemma writes_node_info n : parts_fit n -> writes (encode_cursor n) (enc n).
Proof.
  intros Hp w. unfold encode_cursor, enc, parts_fit, body in *.
  rewrite fmap_app, concat_app. cbn [fmap list_fmap concat fst snd app] in *.
  rewrite <- !(assoc_L app). simpl app at 1.
  apply Forall_cons_1 in Hp as [H1 Hp]. apply Forall_cons_1 in Hp as [H2 Hp]. apply Forall_cons_1 in Hp as [H3 Hp].
  apply writes_bind; [apply writes_part; auto with vpn|].
  intros w1. apply writes_bind.
  { apply writes_part; [|done]. intros c. apply writes_each. intros x. apply writes_peer. }
  intros w2. apply writes_bind.
  { apply writes_part; [|done]. intros c. apply writes_each. intros x. apply range_write_spec. }
  rewrite fmap_app, concat_app, <- (assoc_L app). apply Forall_app in Hp as [H4 H5].
  apply Forall_cons_1 in H5 as [H5 _].
  intros w3. apply (writes_bind (fun c => match ni_peer_timeout n with
      Some timeout => encode_part PART_PEER_TIMEOUT (write_u16 timeout) c | None => Some c end)).
  { destruct (ni_peer_timeout n); cbn [fmap list_fmap concat fst snd app].
    - rewrite app_nil_r. apply Forall_cons_1 in H4 as [H4 _]. apply writes_part; auto with vpn.
    - apply writes_ret. }
  cbn [fmap list_fmap concat fst snd app]. rewrite app_nil_r.
  intros w4. apply writes_bind; [|auto with vpn].
  apply writes_part; [apply writes_addrs_part|done].
Qed.

(** ** The decoder reads the layout *)

Lemma flags_bits l :
  Z.land (flags_of l) 7 = zlen (addrs_v4 l) /\ Z.land (flags_of l) 56 / 8 = zlen (addrs_v6 l) /\
  Z.land (flags_of l) 128 = 0 /\
  Z.land (flags_of l + 128) 7 = zlen (addrs_v4 l) /\ Z.land (flags_of l + 128) 56 / 8 = zlen (addrs_v6 l) /\
  Z.land (flags_of l + 128) 128 = 128.
Proof.
  set (bits f := (Z.land f 7, Z.land f 56 / 8, Z.land f 128)).
  assert (Forall (fun a => Forall (fun b =>
    bits (Z.of_nat a * 8 + Z.of_nat b) = (Z.of_nat b, Z.of_nat a, 0) /\
    bits (Z.of_nat a * 8 + Z.of_nat b + 128) = (Z.of_nat b, Z.of_nat a, 128))
    (seq 0 8)) (seq 0 8)) as H by (apply (bool_decide_unpack _); vm_compute; exact I).
  rewrite Forall_forall in H. specialize (H (length (addrs_v6 l))).
  rewrite elem_of_seq in H. specialize (H ltac:(pose proof (addrs_v6_short l); lia)).
  rewrite Forall_forall in H. specialize (H (length (addrs_v4 l))).
  rewrite elem_of_seq in H. specialize (H ltac:(pose proof (addrs_v4_short l); lia)).
  fold (zlen (addrs_v6 l)) (zlen (addrs_v4 l)) in H. fold (flags_of l) in H.
  subst bits. destruct H as [[= H1 H2 H3] [= H4 H5 H6]]. by split_and!.
Qed.

Section ReadSpec.
Implicit Types r : Take bytes.

Lemma prepend_nil r : prepend [] r = r.
Proof. by destruct r. Qed.

Lemma read_n_prepend {A B} (rd : Take bytes -> outcome unit (B * Take bytes)) (e : A -> bytes) (g : A -> B) l r acc :
  Forall (fun x => forall r', rd (prepend (e x) r') = Ok (g x, r')) l ->
  read_n rd (length l) (prepend (concat (e <$> l)) r) acc = Ok (acc ++ (g <$> l), r).
Proof.
  intros Hl. revert acc. induction Hl as [|x l Hx Hl IH]; intros acc; cbn [fmap list_fmap concat length read_n].
  - by rewrite app_nil_r, prepend_nil.
  - rewrite prepend_app, Hx. cbn [mbind outcome_bind]. by rewrite IH, <- (assoc_L app).
Qed.

Lemma while_limit_prepend {E A B} (rd : Take bytes -> outcome E (B * Take bytes)) (e : A -> bytes) (g : A -> B) l s :
  Forall (fun x => e x <> [] /\ forall r', rd (prepend (e x) r') = Ok (g x, r')) l ->
  forall fuel acc, (length (concat (e <$> l)) <= fuel)%nat ->
  while_limit rd fuel (prepend (concat (e <$> l)) (mkTake 0 s)) acc = Ok (acc ++ (g <$> l), mkTake 0 s).
Proof.
  induction 1 as [|x l [Hn Hx] Hl IH]; intros fuel acc Hf; cbn [fmap list_fmap concat] in *.
  - rewrite app_nil_r, prepend_nil. by destruct fuel.
  - assert (length (e x) <> 0%nat) by (by destruct (e x)). rewrite length_app in Hf.
    destruct fuel as [|fuel]; [lia|]. cbn [while_limit]. rewrite decide_True by (simpl; rewrite length_app; lia).
    rewrite prepend_app, Hx. cbn [mbind outcome_bind]. rewrite IH by lia. by rewrite <- (assoc_L app).
Qed.

Lemma read_v6_prepend a r :
  length a.1 = 16%nat /\ bytes_ok a.1 /\ is_u16 a.2 -> read_v6 (prepend (enc_addr a) r) = Ok (V6 a.1 a.2 0 0, r).
Proof.
  intros (Hl & _ & Hp). unfold read_v6, enc_addr. rewrite prepend_app, read_exact_prepend_n by done.
  cbn [io ok_or mbind outcome_bind]. by rewrite read_u16_prepend.
Qed.
Lemma read_v4_prepend a r :
  length a.1 = 4%nat /\ bytes_ok a.1 /\ is_u16 a.2 -> read_v4 (prepend (enc_addr a) r) = Ok (V4 a.1 a.2, r).
Proof.
  intros (Hl & _ & Hp). unfold read_v4, enc_addr. rewrite prepend_app, read_exact_prepend_n by done.
  cbn [io ok_or mbind outcome_bind]. by rewrite read_u16_prepend.
Qed.

Lemma read_addrs_prepend l r flags :
  Forall addr_wf l -> Z.land flags 7 = zlen (addrs_v4 l) -> Z.land flags 56 / 8 = zlen (addrs_v6 l) ->
  read_addr_list_inner (prepend (enc_addrs l) r) flags = Ok (keep_addrs l, r).
Proof.
  intros Hl H4 H6. unfold read_addr_list_inner, enc_addrs. rewrite H4, H6. unfold zlen. rewrite !Nat2Z.id, prepend_app.
  rewrite (read_n_prepend read_v6 enc_addr (fun a => V6 a.1 a.2 0 0)).
  2: { eapply Forall_impl; [by apply addrs_v6_wf|]. intros a Ha r'. by apply read_v6_prepend. }
  cbn [mbind outcome_bind]. rewrite (read_n_prepend read_v4 enc_addr (fun a => V4 a.1 a.2)); [done|].
  eapply Forall_impl; [by apply addrs_v4_wf|]. intros a Ha r'. by apply read_v4_prepend.
Qed.

Lemma read_peer_prepend p r :
  (forall id, pi_node_id p = Some id -> id_wf id) -> Forall addr_wf (pi_addrs p) ->
  read_peer (prepend (enc_peer p) r) = Ok (mkPeerInfo (pi_node_id p) (keep_addrs (pi_addrs p)), r).
Proof.
  intros Hid Ha. unfold read_peer, enc_peer. pose proof (flags_small (pi_addrs p)) as Hs.
  destruct (flags_bits (pi_addrs p)) as (B1 & B2 & B3 & B4 & B5 & B6).
  destruct (pi_node_id p) as [id|].
  - rewrite <- (assoc_L app), prepend_app, read_u8_prepend by (unfold is_u8; lia).
    cbn [io ok_or mbind outcome_bind]. rewrite decide_True by lia.
    destruct (Hid id eq_refl) as [Hl _]. rewrite prepend_app, read_exact_prepend_n by done.
    cbn [io ok_or mbind outcome_bind]. by rewrite read_addrs_prepend.
  - rewrite prepend_app, read_u8_prepend by (unfold is_u8; lia).
    cbn [io ok_or mbind outcome_bind]. rewrite decide_False by lia.
    cbn [mbind outcome_bind]. by rewrite read_addrs_prepend.
Qed.

Lemma enc_peer_nonempty p : enc_peer p <> [].
Proof.
  intros H. apply (f_equal length) in H. unfold enc_peer in H. rewrite length_app in H.
  destruct (pi_node_id p); rewrite ?length_app, length_be_bytes in H; simpl in H; lia.
Qed.
Lemma range_enc_nonempty g : Range.enc g <> [].
Proof. intros H. apply (f_equal length) in H. unfold Range.enc in H. rewrite length_app, length_be_bytes in H. simpl in H. lia. Qed.

(** A part decodes to what it was made from, with nothing left in its window. *)
Definition part_sets (part : Z) (bs : bytes) (f : parts -> parts) : Prop :=
  forall s p, decode_part part (zlen bs) (mkTake (length bs) (bs ++ s)) p = Ok (f p, mkTake 0 s).

Lemma window bs s : mkTake (length bs) (bs ++ s) = prepend bs (mkTake 0 s).
Proof. cbn. by rewrite Nat.add_0_r. Qed.

Lemma decode_loop_part part bs f fuel s p :
  part_sets part bs f -> is_u8 part -> part <> PART_END -> zlen bs < 65536 ->
  decode_loop (S fuel) (enc_part part bs ++ s) p = decode_loop fuel s (f p).
Proof.
  intros Hp Hu He Hl. cbn [decode_loop]. unfold enc_part. rewrite <- !(assoc_L app).
  rewrite read_u8_app by done. cbn [io ok_or map_err truncated mbind outcome_bind].
  rewrite decide_False by done.
  rewrite read_u16_app by (unfold is_u16, zlen in *; lia).
  cbn [io ok_or map_err truncated mbind outcome_bind].
  unfold zlen at 2. rewrite Nat2Z.id, Hp. done.
Qed.

Lemma sets_node_id id : id_wf id ->
  part_sets PART_NODEID id (fun p => mkParts (p_peers p) (p_claims p) (p_peer_timeout p) (Some id) (p_addrs p)).
Proof. intros [Hl _] s p. rewrite window. unfold decode_part. simpl decide. cbn -[read_exact prepend NODE_ID_BYTES]. by rewrite read_exact_prepend_n. Qed.

Lemma sets_timeout t : is_u16 t ->
  part_sets PART_PEER_TIMEOUT (be_bytes 2 t)
    (fun p => mkParts (p_peers p) (p_claims p) (Some t) (p_node_id p) (p_addrs p)).
Proof. intros Ht s p. rewrite window. unfold decode_part. cbn -[read_u16 prepend]. by rewrite read_u16_prepend. Qed.

Lemma sets_peers l :
  Forall (fun p => (forall id, pi_node_id p = Some id -> id_wf id) /\ Forall addr_wf (pi_addrs p)) l ->
  part_sets PART_PEERS (concat (enc_peer <$> l))
    (fun p => mkParts ((fun p => mkPeerInfo (pi_node_id p) (keep_addrs (pi_addrs p))) <$> l)
       (p_claims p) (p_peer_timeout p) (p_node_id p) (p_addrs p)).
Proof.
  intros Hl s p. unfold decode_part. cbn -[decode_peer_list_part]. unfold decode_peer_list_part.
  rewrite window.
  rewrite (while_limit_prepend read_peer enc_peer (fun p => mkPeerInfo (pi_node_id p) (keep_addrs (pi_addrs p)))).
  - done.
  - eapply Forall_impl; [exact Hl|]. intros x [Hi Ha]. split; [apply enc_peer_nonempty|].
    intros r'. by apply read_peer_prepend.
  - simpl. lia.
Qed.

Lemma sets_claims l :
  Forall Range.canonical l ->
  part_sets PART_CLAIMS (concat (Range.enc <$> l))
    (fun p => mkParts (p_peers p) l (p_peer_timeout p) (p_node_id p) (p_addrs p)).
Proof.
  intros Hl s p. unfold decode_part. cbn -[decode_claims_part]. unfold decode_claims_part.
  rewrite window, (while_limit_prepend Range.read_from Range.enc id).
  - cbn. by rewrite list_fmap_id.
  - eapply Forall_impl; [exact Hl|]. intros x Hx. split; [apply range_enc_nonempty|].
    intros r'. by apply range_read_prepend.
  - simpl. lia.
Qed.

Lemma sets_addrs l :
  Forall addr_wf l ->
  part_sets PART_ADDRS (be_bytes 1 (flags_of l) ++ enc_addrs l)
    (fun p => mkParts (p_peers p) (p_claims p) (p_peer_timeout p) (p_node_id p) (keep_addrs l)).
Proof.
  intros Hl s p. pose proof (flags_small l). destruct (flags_bits l) as (B1 & B2 & _).
  rewrite window. unfold decode_part. cbn -[read_addr_list prepend be_bytes]. unfold read_addr_list.
  rewrite prepend_app, read_u8_prepend by (unfold is_u8; lia). cbn [io ok_or mbind outcome_bind].
  by rewrite read_addrs_prepend.
Qed.

Lemma decode_enc n rest : wf n -> parts_fit n -> decode (enc n ++ rest) = Ok (keep n).
Proof.
  intros (Hid & Hpe & Hc & Ht & Ha) Hp. unfold decode, decode_internal.
  assert (exists fuel, S (length (enc n ++ rest)) = (6 + fuel)%nat) as [fuel ->].
  { exists (length (enc n ++ rest) - 5)%nat. unfold enc, body. rewrite !fmap_app, !concat_app, !length_app.
    simpl. unfold enc_part. rewrite !length_app, !length_be_bytes. lia. }
  unfold enc, parts_fit, body in *. rewrite !fmap_app, !concat_app, <- !(assoc_L app).
  cbn [fmap list_fmap concat fst snd]. rewrite <- !(assoc_L app).
  apply Forall_app in Hp as [H1 Hp]. apply Forall_app in Hp as [Hp H5].
  apply Forall_cons_1 in H1 as [H1 H2]. apply Forall_cons_1 in H2 as [H2 H3]. apply Forall_cons_1 in H3 as [H3 _].
  apply Forall_cons_1 in H5 as [H5 _]. cbn [snd] in *.
  change (6 + fuel)%nat with (S (S (S (S (S (S fuel)))))).
  rewrite (decode_loop_part PART_NODEID _ _ _ _ _ (sets_node_id _ Hid)) by (done || unfold is_u8; done).
  rewrite (decode_loop_part PART_PEERS _ _ _ _ _ (sets_peers _ Hpe)) by (done || unfold is_u8; done).
  rewrite (decode_loop_part PART_CLAIMS _ _ _ _ _ (sets_claims _ Hc)) by (done || unfold is_u8; done).
  assert (forall f s p, decode_loop (S f) (be_bytes 1 PART_END ++ s) p = Ok p) as Hend.
  { intros f s p. cbn [decode_loop]. by rewrite read_u8_app. }
  unfold keep. destruct (ni_peer_timeout n) as [t|]; cbn [fmap list_fmap concat fst snd app].
  - rewrite app_nil_r. apply Forall_cons_1 in Hp as [H4 _].
    rewrite (decode_loop_part PART_PEER_TIMEOUT _ _ _ _ _ (sets_timeout _ (Ht t eq_refl))) by (done || unfold is_u8; done).
    rewrite (decode_loop_part PART_ADDRS _ _ _ _ _ (sets_addrs _ Ha)) by (done || unfold is_u8; done).
    by rewrite Hend.
  - rewrite (decode_loop_part PART_ADDRS _ _ _ _ _ (sets_addrs _ Ha)) by (done || unfold is_u8; done).
    by rewrite Hend.
Qed.
End ReadSpec.

(** ** What the decoder does on arbitrary input *)

(** A reading step that cannot panic, consumes [a] with [Q a] and gives a [P]. *)
Definition reads_as {E A} (P : A -> Prop) (Q : bytes -> Prop) (rd : Take bytes -> outcome E (A * Take bytes)) : Prop :=
  forall r, bytes_ok (into_inner r) ->
    match rd r with
    | Ok (x, r') => P x /\ exists a, Q a /\ r = prepend a r'
    | Err _ => True
    | Panic => False
    end.

Lemma prepend_ok a (r : Take bytes) : bytes_ok (into_inner (prepend a r)) -> bytes_ok a /\ bytes_ok (into_inner r).
Proof. cbn. intros H. by apply Forall_app in H. Qed.

(** The two loops of the readers, once for all. *)
Lemma read_n_reads {A} (P : A -> Prop) rd n :
  reads_as P (fun _ => True) rd ->
  forall acc, reads_as (fun l => exists k, l = acc ++ k /\ length k = n /\ Forall P k) (fun _ => True)
    (fun r => read_n rd n r acc).
Proof.
  intros Hrd. induction n as [|n IH]; intros acc r Hr; cbn [read_n].
  - split; [exists []; by rewrite app_nil_r|]. exists []. by rewrite prepend_nil.
  - specialize (Hrd r Hr). destruct (rd r) as [[x r1]|e|]; cbn [mbind outcome_bind]; [|done..].
    destruct Hrd as (Hx & a & _ & ->). apply prepend_ok in Hr as [_ Hr].
    specialize (IH (acc ++ [x]) r1 Hr). cbn beta in IH. destruct (read_n rd n r1 _) as [[l r2]|e|]; [|done..].
    destruct IH as ((k & -> & Hl & Hk) & a' & _ & ->). split.
    + exists (x :: k). rewrite <- (assoc_L app). split; [done|]. split; [simpl; lia|by constructor].
    + exists (a ++ a'). by rewrite prepend_app.
Qed.

Lemma while_limit_reads {E A} (P : A -> Prop) (rd : Take bytes -> outcome E (A * Take bytes)) :
  reads_as P (fun a => a <> []) rd ->
  forall fuel acc r, bytes_ok (into_inner r) -> (take_limit r <= fuel)%nat ->
    match while_limit rd fuel r acc with
    | Ok (l, r') => (exists k, l = acc ++ k /\ Forall P k) /\ exists a, r = prepend a r'
    | Err _ => True
    | Panic => False
    end.
Proof.
  intros Hrd. induction fuel as [|fuel IH]; intros acc r Hr Hf; cbn [while_limit]; case_decide as Hl.
  - lia.
  - split; [exists []; by rewrite app_nil_r|]. exists []. by rewrite prepend_nil.
  - specialize (Hrd r Hr). destruct (rd r) as [[x r1]|e|]; cbn [mbind outcome_bind]; [|done..].
    destruct Hrd as (Hx & a & Ha & ->). apply prepend_ok in Hr as [_ Hr].
    assert (length a <> 0%nat) by (by destruct a). simpl in Hf.
    specialize (IH (acc ++ [x]) r1 Hr ltac:(lia)). destruct (while_limit rd fuel r1 _) as [[l r2]|e'|]; [|done..].
    destruct IH as ((k & -> & Hk) & a' & ->). split.
    + exists (x :: k). rewrite <- (assoc_L app). split; [done|by constructor].
    + exists (a ++ a'). by rewrite prepend_app.
  - split; [exists []; by rewrite app_nil_r|]. exists []. by rewrite prepend_nil.
Qed.

Lemma read_exact_reads n :
  reads_as (fun bs => length bs = n /\ bytes_ok bs) (fun a => length a = n) (fun r => io (read_exact n r)).
Proof.
  intros r Hr. destruct (read_exact n r) as [[bs r']|] eqn:E; cbn [io ok_or]; [|done].
  apply read_exact_inv in E as [Hl ->]. apply prepend_ok in Hr as [Hb _]. eauto.
Qed.

Lemma be_value_range bs n : length bs = n -> bytes_ok bs -> 0 <= be_value bs < 256 ^ Z.of_nat n.
Proof. intros <- Hb. apply (be_value_bounds bs Hb). Qed.

Lemma read_u8_reads : reads_as is_u8 (fun a => a <> []) (fun r => io (read_u8 r)).
Proof.
  intros r Hr. pose proof (read_exact_reads 1 r Hr) as H. cbn beta in H. unfold read_u8.
  destruct (read_exact 1 r) as [[bs r']|]; [|done]. cbn in *. destruct H as ([Hl Hb] & a & Ha & ->).
  split; [apply (be_value_range _ 1 Hl Hb)|]. exists a. split; [by destruct a|done].
Qed.
Lemma read_u16_reads : reads_as is_u16 (fun a => a <> []) (fun r => io (read_u16 r)).
Proof.
  intros r Hr. pose proof (read_exact_reads 2 r Hr) as H. cbn beta in H. unfold read_u16.
  destruct (read_exact 2 r) as [[bs r']|]; [|done]. cbn in *. destruct H as ([Hl Hb] & a & Ha & ->).
  split; [apply (be_value_range _ 2 Hl Hb)|]. exists a. split; [by destruct a|done].
Qed.

(** Sequencing. *)
Lemma reads_bind {E A B} (P : A -> Prop) (P' : B -> Prop) Q Q'
    (m : Take bytes -> outcome E (A * Take bytes)) (k : A -> Take bytes -> outcome E (B * Take bytes)) :
  reads_as P Q m -> (forall x, P x -> reads_as P' Q' (k x)) ->
  reads_as P' (fun a => exists b c, a = b ++ c /\ Q b /\ Q' c) (fun r => '(x, r) ← m r; k x r).
Proof.
  intros Hm Hk r Hr. specialize (Hm r Hr). destruct (m r) as [[x r1]|e|]; cbn [mbind outcome_bind]; [|done..].
  destruct Hm as (Hx & a & Ha & ->). apply prepend_ok in Hr as [_ Hr]. specialize (Hk x Hx r1 Hr). cbn beta in Hk.
  destruct (k x r1) as [[y r2]|e|]; [|done..]. destruct Hk as (Hy & c & Hc & ->).
  split; [done|]. exists (a ++ c). rewrite prepend_app. eauto 10.
Qed.

Lemma reads_ret {E A} (P : A -> Prop) x : P x -> reads_as (E := E) P (fun a => a = []) (fun r => Ok (x, r)).
Proof. intros Hx r Hr. split; [done|]. exists []. by rewrite prepend_nil. Qed.

Lemma reads_weaken {E A} (P P' : A -> Prop) (Q Q' : bytes -> Prop) (m : Take bytes -> outcome E (A * Take bytes)) :
  reads_as P Q m -> (forall x, P x -> P' x) -> (forall a, Q a -> Q' a) -> reads_as P' Q' m.
Proof.
  intros Hm HP HQ r Hr. specialize (Hm r Hr). destruct (m r) as [[x r1]|e|]; [|done..].
  destruct Hm as (Hx & a & Ha & ->). eauto 10.
Qed.

(** Address lists as the decoder builds them. *)
Definition kept (l : AddrList) : Prop :=
  exists l6 l4 : list (bytes * Z), l = ((fun a => V6 a.1 a.2 0 0) <$> l6) ++ ((fun a => V4 a.1 a.2) <$> l4) /\
    (length l6 <= 7)%nat /\ (length l4 <= 7)%nat.

Lemma kept_keep l : kept l -> keep_addrs l = l.
Proof.
  intros (l6 & l4 & -> & H6 & H4). unfold keep_addrs. f_equal; f_equal.
  - unfold addrs_v6. rewrite pop_to_seven_take by lia. rewrite omap_app.
    assert (forall l : list (bytes * Z), omap (fun a => match a with V6 ip port _ _ => Some (ip, port) | V4 _ _ => None end)
      ((fun a => V6 a.1 a.2 0 0) <$> l) = l) as -> by (intros l; induction l as [|[] l IH]; [done|]; first [exact (f_equal (cons _) IH)|exact IH]).
    assert (forall l : list (bytes * Z), omap (fun a => match a with V6 ip port _ _ => Some (ip, port) | V4 _ _ => None end)
      ((fun a => V4 a.1 a.2) <$> l) = []) as -> by (intros l; induction l as [|[] l IH]; [done|]; first [exact (f_equal (cons _) IH)|exact IH]).
    rewrite app_nil_r. by apply take_ge.
  - unfold addrs_v4. rewrite pop_to_seven_take by lia. rewrite omap_app.
    assert (forall l : list (bytes * Z), omap (fun a => match a with V4 ip port => Some (ip, port) | V6 _ _ _ _ => None end)
      ((fun a => V4 a.1 a.2) <$> l) = l) as -> by (intros l; induction l as [|[] l IH]; [done|]; first [exact (f_equal (cons _) IH)|exact IH]).
    assert (forall l : list (bytes * Z), omap (fun a => match a with V4 ip port => Some (ip, port) | V6 _ _ _ _ => None end)
      ((fun a => V6 a.1 a.2 0 0) <$> l) = []) as -> by (intros l; induction l as [|[] l IH]; [done|]; first [exact (f_equal (cons _) IH)|exact IH]).
    by apply take_ge.
Qed.
(** Read with [m], go on with the rest. *)
Ltac reads_then m := eapply reads_weaken; [eapply reads_bind; [apply m|]|exact (fun _ H => H)|done].

Lemma flags_limits flags :
  is_u8 flags -> (Z.to_nat (Z.land flags 7) <= 7)%nat /\ (Z.to_nat (Z.land flags 56 / 8) <= 7)%nat.
Proof.
  intros Hf. assert (Forall (fun n => Z.land (Z.of_nat n) 7 <= 7 /\ Z.land (Z.of_nat n) 56 / 8 <= 7) (seq 0 256)) as H
    by (apply (bool_decide_unpack _); vm_compute; exact I).
  rewrite Forall_forall in H. specialize (H (Z.to_nat flags)). unfold is_u8 in Hf. rewrite elem_of_seq in H.
  specialize (H ltac:(lia)). rewrite Z2Nat.id in H by lia. lia.
Qed.

Definition v6_of (a : SocketAddr) : Prop := exists ip port, a = V6 ip port 0 0 /\ addr_wf a.
Definition v4_of (a : SocketAddr) : Prop := exists ip port, a = V4 ip port /\ addr_wf a.

Lemma read_v6_reads : reads_as v6_of (fun _ => True) read_v6.
Proof.
  reads_then (read_exact_reads 16). intros ip [Hl Hi]. reads_then read_u16_reads. intros port Hp.
  apply reads_ret. exists ip, port. split; [done|]. simpl. auto.
Qed.
Lemma read_v4_reads : reads_as v4_of (fun _ => True) read_v4.
Proof.
  reads_then (read_exact_reads 4). intros ip [Hl Hi]. reads_then read_u16_reads. intros port Hp.
  apply reads_ret. exists ip, port. split; [done|]. simpl. auto.
Qed.

Lemma of_list {P} (f : bytes * Z -> SocketAddr) l :
  (forall a, P a -> exists x, a = f x /\ addr_wf a) ->
  Forall P l -> exists k, l = f <$> k /\ length k = length l /\ Forall addr_wf l.
Proof.
  intros HP. induction 1 as [|x l Hx Hl (k & -> & Hk & Hw)]; [by exists []|].
  apply HP in Hx as (y & -> & Hx). exists (y :: k). split; [done|]. split; [simpl; lia|by constructor].
Qed.

Definition addrs_ok (l : AddrList) : Prop := kept l /\ Forall addr_wf l.

Lemma read_addrs_reads flags :
  is_u8 flags -> reads_as addrs_ok (fun _ => True) (fun r => read_addr_list_inner r flags).
Proof.
  intros Hf. destruct (flags_limits flags Hf) as [H4 H6].
  reads_then (read_n_reads v6_of _ (Z.to_nat (Z.land flags 56 / 8)) read_v6_reads []). intros l (k6 & -> & Hl6 & Hk6).
  eapply reads_weaken; [apply (read_n_reads v4_of _ _ read_v4_reads)| |done].
  intros l (k4 & -> & Hl4 & Hk4).
  apply (of_list (fun a => V6 a.1 a.2 0 0)) in Hk6 as (a6 & -> & Ha6 & Hw6).
  2: { intros a (ip & port & -> & H). by exists (ip, port). }
  apply (of_list (fun a => V4 a.1 a.2)) in Hk4 as (a4 & -> & Ha4 & Hw4).
  2: { intros a (ip & port & -> & H). by exists (ip, port). }
  split; [|by apply Forall_app]. exists a6, a4. rewrite !length_fmap in *. split; [done|]. lia.
Qed.

Definition peer_ok (p : PeerInfo) : Prop :=
  (forall id, pi_node_id p = Some id -> id_wf id) /\ addrs_ok (pi_addrs p).

Lemma read_peer_reads : reads_as peer_ok (fun a => a <> []) read_peer.
Proof.
  eapply reads_weaken; [eapply reads_bind; [apply read_u8_reads|]|done|].
  2: { intros a (b & c & -> & Hb & Hc). destruct b; [done|]. done. }
  intros flags Hf.
  eapply (reads_bind (fun o : option NodeId => forall id, o = Some id -> id_wf id) _ (fun _ => True) (fun _ => True)).
  - destruct (decide (Z.land flags 128 <> 0)).
    + reads_then (read_exact_reads NODE_ID_BYTES). intros id Hid. apply reads_ret. by intros ? [= <-].
    + eapply reads_weaken; [by apply (reads_ret (fun o : option NodeId => forall id, o = Some id -> id_wf id) None)|done|done].
  - intros o Ho. reads_then (read_addrs_reads flags Hf). intros addrs Ha. apply reads_ret. by split.
Qed.

Lemma reads_ok_or {E A} (P : A -> Prop) Q (f : Take bytes -> option (A * Take bytes)) (e : E) :
  reads_as P Q (fun r => io (f r)) -> reads_as P Q (fun r => ok_or (f r) e).
Proof. intros H r Hr. specialize (H r Hr). cbn beta in H. by destruct (f r) as [[x r']|]. Qed.

Lemma reads_map_err {E F A} (P : A -> Prop) Q (g : E -> F) (m : Take bytes -> outcome E (A * Take bytes)) :
  reads_as P Q m -> reads_as P Q (fun r => map_err g (m r)).
Proof. intros H r Hr. specialize (H r Hr). by destruct (m r) as [[x r']| |]. Qed.

Lemma address_fixed_reads len :
  is_u8 len -> reads_as Address.canonical (fun _ => True) (fun r : Take bytes => Address.read_from_fixed r len).
Proof.
  intros Hlen r Hr. unfold Address.read_from_fixed. case_decide; [done|].
  pose proof (reads_ok_or (E := Error) _ _ _ (EParse "Address too short") (read_exact_reads (Z.to_nat len)) r Hr) as H0.
  cbn beta in H0. destruct (ok_or _ _) as [[bs r']|e|]; cbn [mbind outcome_bind]; [|done..].
  destruct H0 as ([Hl Hb] & a & _ & ->). split; [|by exists a].
  unfold is_u8 in Hlen. apply canonical_pad; [lia|lia|done].
Qed.

Lemma address_reads : reads_as Address.canonical (fun a => a <> []) (fun r : Take bytes => Address.read_from r).
Proof.
  eapply reads_weaken; [eapply reads_bind; [apply reads_ok_or, read_u8_reads|]|exact (fun _ H => H)|].
  - exact address_fixed_reads.
  - intros a (b & c & -> & Hb & _). by destruct b.
Qed.

Lemma claim_reads : reads_as Range.canonical (fun a => a <> []) (fun r : Take bytes => Range.read_from r).
Proof.
  eapply reads_weaken; [eapply reads_bind; [apply address_reads|]|exact (fun _ H => H)|].
  - intros a Ha. reads_then (reads_ok_or (E := Error) _ _ _ (EParse "Address too short") read_u8_reads).
    intros p Hp. apply reads_ret. by split.
  - intros a (b & c & -> & Hb & _). by destruct b.
Qed.

(** ** Parts *)

Definition parts_ok (p : parts) : Prop :=
  Forall peer_ok (p_peers p) /\ Forall Range.canonical (p_claims p) /\
  (forall t, p_peer_timeout p = Some t -> is_u16 t) /\
  (forall id, p_node_id p = Some id -> id_wf id) /\ addrs_ok (p_addrs p).

Lemma all_reads {E A} (P : A -> Prop) (rd : Take bytes -> outcome E (A * Take bytes)) :
  reads_as P (fun a => a <> []) rd ->
  reads_as (Forall P) (fun _ => True) (fun r => while_limit rd (take_limit r) r []).
Proof.
  intros H r Hr. pose proof (while_limit_reads P rd H (take_limit r) [] r Hr ltac:(lia)) as W.
  destruct (while_limit _ _ _ _) as [[l r']|e|]; [|done..].
  destruct W as ((k & -> & Hk) & a & ->). eauto.
Qed.

Lemma decode_part_reads part part_len p :
  parts_ok p -> reads_as parts_ok (fun _ => True) (fun rp => decode_part part part_len rp p).
Proof.
  intros (H1 & H2 & H3 & H4 & H5). unfold decode_part.
  destruct (decide (part = PART_PEERS)).
  { reads_then (reads_map_err _ _ (fun _ => EMessage "Truncated message") _ (all_reads _ _ read_peer_reads)).
    intros l Hl. apply reads_ret. unfold parts_ok; cbn; auto 10. }
  destruct (decide (part = PART_CLAIMS)).
  { reads_then (all_reads _ _ claim_reads). intros l Hl. apply reads_ret. unfold parts_ok; cbn; auto 10. }
  destruct (decide (part = PART_PEER_TIMEOUT)).
  { reads_then (reads_map_err _ _ (fun _ => EMessage "Truncated message") _ read_u16_reads).
    intros t Ht. apply reads_ret. unfold parts_ok; cbn. split_and!; try done. by intros ? [= <-]. }
  destruct (decide (part = PART_NODEID)).
  { reads_then (reads_map_err _ _ (fun _ => EMessage "Truncated message") _ (read_exact_reads NODE_ID_BYTES)).
    intros id Hid. apply reads_ret. unfold parts_ok; cbn. split_and!; try done. by intros ? [= <-]. }
  destruct (decide (part = PART_ADDRS)).
  { eapply reads_weaken; [eapply (reads_bind addrs_ok); [apply reads_map_err|]|done|done].
    - unfold read_addr_list. reads_then read_u8_reads. intros flags Hf. by apply read_addrs_reads.
    - intros l Hl. apply reads_ret. unfold parts_ok; cbn; auto 10. }
  reads_then (reads_map_err _ _ (fun _ => EMessage "Truncated message") _ (read_exact_reads (Z.to_nat part_len))).
  intros l Hl. apply reads_ret. unfold parts_ok; cbn; auto 10.
Qed.

Lemma decode_loop_safe fuel : forall r p, (length r < fuel)%nat -> bytes_ok r -> parts_ok p ->
  match decode_loop fuel r p with Ok q => parts_ok q | Err _ => True | Panic => False end.
Proof.
  induction fuel as [|fuel IH]; intros r p Hl Hr Hp; [lia|]. cbn [decode_loop].
  destruct (read_u8 r) as [[part r1]|] eqn:E1; [|done]. apply read_u8_slice in E1 as (Hu & -> & Hr1); [|done].
  cbn [io ok_or map_err truncated mbind outcome_bind]. case_decide; [done|].
  unfold read_u16. destruct (read_exact 2 r1) as [[bs r2]|] eqn:E2; [|done].
  apply read_exact_inv in E2 as [Hbs ->]. apply Forall_app in Hr1 as [Hb Hr2].
  cbn [io ok_or map_err truncated mbind option_bind outcome_bind].
  pose proof (decode_part_reads part (be_value bs) p Hp (mkTake (Z.to_nat (be_value bs)) r2) Hr2) as Hd. cbn beta in Hd.
  destruct (decode_part _ _ _ _) as [[p' rp]|e|]; [|done..]. destruct Hd as (Hp' & a & _ & Heq).
  destruct rp as [lim s]. cbn in Heq. injection Heq as _ ->. cbn [into_inner].
  apply Forall_app in Hr2 as [_ Hs]. apply IH; [|done|done].
  cbn in Hl |- *. rewrite !length_app in Hl. lia.
Qed.

Lemma no_parts_ok : parts_ok no_parts.
Proof. unfold parts_ok. split_and!; try done. split; [|constructor]. exists [], []. split; [done|]. simpl; lia. Qed.

(** ** Properties *)

(** C27: decoding is total and safe: on every byte string the decoder
    terminates without panicking; it either rejects the message with the one
    error the caller sees, or yields node information all of whose fields are
    well formed (node ids of 16 bytes, valid addresses and ranges, 16-bit
    timeouts), and whose address lists are already in wire order. *)
Theorem node_info_decode_safe (s : bytes) :
  bytes_ok s ->
  match decode s with
  | Ok n => wf n /\ keep n = n
  | Err e => e = EMessage "Input data too short"
  | Panic => False
  end.
Proof.
  intros Hs. unfold decode, decode_internal.
  pose proof (decode_loop_safe (S (length s)) s no_parts ltac:(lia) Hs no_parts_ok) as H.
  destruct (decode_loop _ _ _) as [p| |]; cbn [mbind outcome_bind map_err];
    [|done|done].
  destruct (p_node_id p) as [id|] eqn:Hid; cbn [map_err]; [|done].
  destruct H as (H1 & H2 & H3 & H4 & H5 & H6).
  split.
  - split; [apply (H4 id Hid)|]. split; [|done].
    eapply Forall_impl; [exact H1|]. intros q (Hq & _ & Hw). done.
  - unfold keep. cbn [ni_node_id ni_peers ni_claims ni_peer_timeout ni_addrs]. f_equal.
    + rewrite <- (list_fmap_id (p_peers p)) at 2. apply list_fmap_ext. intros i q Hq.
      rewrite Forall_lookup in H1. apply H1 in Hq as (_ & Hk & _). rewrite kept_keep by done. by destruct q.
    + by apply kept_keep.
Qed.

Lemma part_fits n p : p ∈ body n -> zlen p.2 < zlen (enc n).
Proof.
  unfold enc, zlen. rewrite length_app, length_be_bytes. intros Hp.
  enough (length p.2 <= length (concat ((fun p => enc_part p.1 p.2) <$> body n)))%nat by lia.
  induction Hp as [q l|q q' l Hq IH]; cbn [fmap list_fmap concat]; rewrite length_app; [|lia].
  unfold enc_part. rewrite !length_app. lia.
Qed.

Lemma fits_parts n : zlen (enc n) <= BUFFER_SIZE -> parts_fit n.
Proof.
  intros Hn. unfold parts_fit. rewrite Forall_forall. intros p Hp. apply part_fits in Hp.
  unfold BUFFER_SIZE in Hn. lia.
Qed.

Lemma concat_ok {A} (P : A -> Prop) (e : A -> bytes) l :
  (forall x, P x -> bytes_ok (e x)) -> Forall P l -> bytes_ok (concat (e <$> l)).
Proof. intros He. induction 1; [constructor|]. apply Forall_app. split; [by apply He|done]. Qed.

Lemma enc_addrs_ok l : Forall addr_wf l -> bytes_ok (enc_addrs l).
Proof.
  intros Hl. apply Forall_app. split.
  - eapply concat_ok; [|by apply addrs_v6_wf]. intros x (_ & Hx & _). apply Forall_app. split; [done|apply be_bytes_ok].
  - eapply concat_ok; [|by apply addrs_v4_wf]. intros x (_ & Hx & _). apply Forall_app. split; [done|apply be_bytes_ok].
Qed.

Lemma enc_ok n : wf n -> bytes_ok (enc n).
Proof.
  intros (Hid & Hpe & Hc & Ht & Ha). apply Forall_app. split; [|apply be_bytes_ok].
  apply (concat_ok (fun p => bytes_ok p.2)).
  { intros p Hp. repeat (apply Forall_app; split); done || apply be_bytes_ok. }
  unfold body. repeat (apply Forall_app; split).
  - apply Forall_cons; split; [apply Hid|]. apply Forall_cons; split; [|apply Forall_cons; split; [|constructor]].
    + eapply concat_ok; [|exact Hpe]. intros x [Hi Hx]. apply Forall_app. split; [|by apply enc_addrs_ok].
      destruct (pi_node_id x); [|apply be_bytes_ok]. apply Forall_app. split; [apply be_bytes_ok|by apply Hi].
    + eapply concat_ok; [|exact Hc]. intros x [[Hx _] _].
      apply Forall_app. split; [by apply address_enc_ok|apply be_bytes_ok].
  - destruct (ni_peer_timeout n); [|constructor]. apply Forall_cons; split; [apply be_bytes_ok|constructor].
  - apply Forall_cons; split; [|constructor]. cbn [snd]. apply Forall_app. split; [apply be_bytes_ok|by apply enc_addrs_ok].
Qed.

Lemma encode_spec {E} (n : NodeInfo) (b : MsgBuffer) :
  wf n -> MsgBuffer.wf b -> zlen (enc n) <= BUFFER_SIZE - buf_start b ->
  exists b', encode (E := E) n b = (b', Ok ()) /\ MsgBuffer.wf b' /\ buf_start b' = buf_start b /\
    MsgBuffer.contents b' = enc n.
Proof.
  intros Hn Hb Hl. pose proof Hb as (_ & _ & _ & Hs & _).
  assert (parts_fit n) as Hp by (apply fits_parts; lia).
  destruct (write_cursor_spec (E := E) _ _ b (writes_node_info n Hp) Hb (enc_ok n Hn) Hl)
    as (b' & Hw & Hb' & Hst & _ & Hc).
  exists (MsgBuffer.set_length (zlen (enc n)) b').
  unfold encode, encode_internal, mbind, ST_bind. rewrite Hw. split; [done|].
  assert (0 <= zlen (enc n)) by (unfold zlen; lia).
  split; [apply set_length_wf; [done|rewrite Hst; lia]|]. done.
Qed.

(** C26: node information survives the wire: encoding well-formed information
    into a buffer with enough room succeeds and decoding the buffer's contents
    gives it back, but for what the format does not carry (at most seven IPv4
    and seven IPv6 addresses of each list, IPv6 first, without flow information
    and scope). *)
Theorem node_info_roundtrip (n : NodeInfo) (b : MsgBuffer) :
  wf n -> MsgBuffer.wf b -> zlen (enc n) <= BUFFER_SIZE - buf_start b ->
  exists b', encode (E := Error) n b = (b', Ok ()) /\ MsgBuffer.wf b' /\ buf_start b' = buf_start b /\
    decode (MsgBuffer.contents b') = Ok (keep n).
Proof.
  intros Hn Hb Hl. destruct (encode_spec (E := Error) n b Hn Hb Hl) as (b' & He & Hb' & Hs & Hc).
  exists b'. split; [done|]. split; [done|]. split; [done|].
  pose proof Hb as (_ & _ & _ & Hst & _). rewrite Hc, <- (app_nil_r (enc n)). apply decode_enc; [done|].
  apply fits_parts. lia.
Qed.

Definition sample_info : NodeInfo :=
  mkNodeInfo (replicate 16 7)
    [mkPeerInfo (Some (replicate 16 9)) [V4 [10; 0; 0; 2] 3210; V6 (replicate 16 1) 3210 0 0]]
    [sample_range] (Some 300) [V4 [192; 168; 1; 1] 3210].

Lemma sample_info_wf : wf sample_info.
Proof.
  split_and!.
  - split; [done|]. apply (bool_decide_unpack _). vm_compute. exact I.
  - constructor; [|constructor]. split.
    + intros id [= <-]. split; [done|]. apply (bool_decide_unpack _). vm_compute. exact I.
    + repeat constructor; apply (bool_decide_unpack _); vm_compute; exact I.
  - constructor; [exact sample_range_canonical|constructor].
  - intros t [= <-]. apply (bool_decide_unpack _). vm_compute. exact I.
  - repeat constructor; apply (bool_decide_unpack _); vm_compute; exact I.
Qed.

Lemma node_info_roundtrip_witness :
  exists b', encode (E := Error) sample_info (MsgBuffer.new 100) = (b', Ok ()) /\ MsgBuffer.wf b' /\
    buf_start b' = buf_start (MsgBuffer.new 100) /\ decode (MsgBuffer.contents b') = Ok (keep sample_info).
Proof.
  apply (node_info_roundtrip sample_info (MsgBuffer.new 100) sample_info_wf).
  - apply new_wf. unfold BUFFER_SIZE. lia.
  - apply (bool_decide_unpack _). vm_compute. exact I.
Defined.

Lemma node_info_decode_safe_witness :
  match decode [4; 0; 2; 1; 1] with
  | Ok n => wf n /\ keep n = n
  | Err e => e = EMessage "Input data too short"
  | Panic => False
  end.
Proof. apply node_info_decode_safe. apply (bool_decide_unpack _). vm_compute. exact I. Defined.
