(* ===== verification/Ring.v ===== *)
(** * Cryptographic primitives

    The crate [ring] is not part of the repository. [Ring] lists what the
    source calls of it, [RingLaws] the documented behaviour the theorems rely
    on, and [toy_ring] is an instance of both, for the witnesses. [SystemRandom]
    is a source [Rng] of random bytes threaded through the operations. *)

From S2P Require Import Prelude Errors Util.

(** [ring::aead::Algorithm]: the three the program names. *)
Inductive Algorithm : Type := AES_128_GCM | AES_256_GCM | CHACHA20_POLY1305.

#[export] Instance Algorithm_eq_dec : EqDecision Algorithm.
Proof. solve_decision. Defined.

Definition TAG_LEN : Z := 16.

Class Ring : Type := {
  (** [SystemRandom] and [SecureRandom::fill] of [n] bytes. *)
  Rng : Type;
  fill : nat -> Rng -> bytes * Rng;
  (** [Algorithm::key_len]. *)
  key_len : Algorithm -> nat;
  (** [seal_in_place_separate_tag] (no additional data): ciphertext and tag. *)
  seal : Algorithm -> bytes -> bytes -> bytes -> bytes * bytes;
  (** [open_in_place]: the buffer afterwards and whether it authenticated. *)
  open_in_place : Algorithm -> bytes -> bytes -> bytes -> bytes * bool;
  (** X25519: [EphemeralPrivateKey::generate], [compute_public_key] and
      [agree_ephemeral], which refuses some peer keys. *)
  EcdhPrivateKey : Type;
  ecdh_generate : Rng -> EcdhPrivateKey * Rng;
  compute_public_key : EcdhPrivateKey -> bytes;
  agree_ephemeral : EcdhPrivateKey -> bytes -> option bytes;
  (** [digest::digest] for SHA256 and SHA512. *)
  sha256 : bytes -> bytes;
  sha512 : bytes -> bytes;
  (** [Ed25519KeyPair] and [signature::UnparsedPublicKey::verify]. *)
  Ed25519KeyPair : Type;
  from_seed_unchecked : bytes -> option Ed25519KeyPair;
  from_seed_and_public_key : bytes -> bytes -> option Ed25519KeyPair;
  ed25519_public_key : Ed25519KeyPair -> bytes;
  sign : Ed25519KeyPair -> bytes -> bytes;
  verify : bytes -> bytes -> bytes -> bool;
  (** [pbkdf2::derive] with HMAC-SHA256: iterations, salt, password; 32 bytes. *)
  pbkdf2_derive : Z -> bytes -> bytes -> bytes
}.

Class RingLaws `{Ring} : Prop := {
  fill_len n r : length (fill n r).1 = n;
  fill_ok n r : bytes_ok (fill n r).1;
  key_len_max a : (key_len a <= 32)%nat;
  seal_len a k n p : length (seal a k n p).1 = length p /\ zlen (seal a k n p).2 = TAG_LEN;
  seal_ok a k n p : bytes_ok p -> bytes_ok (seal a k n p).1 /\ bytes_ok (seal a k n p).2;
  open_len a k n c : length (open_in_place a k n c).1 = length c;
  open_ok a k n c : bytes_ok c -> bytes_ok (open_in_place a k n c).1;
  (** What was sealed opens under the same key and nonce. *)
  open_seal a k n p :
    let '(c, t) := seal a k n p in
    exists rest, open_in_place a k n (c ++ t) = (p ++ rest, true);
  (** Key agreement agrees. *)
  public_len p : length (compute_public_key p) = 32%nat;
  public_ok p : bytes_ok (compute_public_key p);
  agree_sym p q : exists k, agree_ephemeral p (compute_public_key q) = Some k /\
    agree_ephemeral q (compute_public_key p) = Some k;
  agree_len p q k : agree_ephemeral p q = Some k -> length k = 32%nat;
  sha256_len m : length (sha256 m) = 32%nat;
  sha256_ok m : bytes_ok (sha256 m);
  sha512_len m : length (sha512 m) = 64%nat;
  sha512_ok m : bytes_ok (sha512 m);
  (** A seed is 32 bytes. *)
  from_seed_len s : from_seed_unchecked s = None <-> length s <> 32%nat;
  pbkdf2_len n salt pw : length (pbkdf2_derive n salt pw) = 32%nat;
  pbkdf2_ok n salt pw : bytes_ok (pbkdf2_derive n salt pw);
  ed25519_public_len k : length (ed25519_public_key k) = 32%nat;
  ed25519_public_ok k : bytes_ok (ed25519_public_key k);
  sign_len k m : (length (sign k m) = 64)%nat;
  sign_ok k m : bytes_ok (sign k m);
  verify_sign k m : verify (ed25519_public_key k) m (sign k m) = true
}.

(** [LessSafeKey] over an [UnboundKey]: an algorithm and a key of its length. *)
Record LessSafeKey : Type := mkLessSafeKey { algorithm_of : Algorithm; key_bytes : bytes }.

(** ** The mutable surroundings of an operation

    [&mut self], the message buffer passed along with it and the random source. *)
Record Env `{Ring} (A : Type) : Type := mkEnv { self : A; out : MsgBuffer; rng : Rng }.
Arguments mkEnv {_ A} _ _ _.
Arguments self {_ A} _.
Arguments out {_ A} _.
Arguments rng {_ A} _.

Section Env.
Context `{Ring}.

Definition on_self {A E X} (m : ST A E X) : ST (Env A) E X :=
  zoom self (fun a e => mkEnv a (out e) (rng e)) m.
Definition on_out {A E X} (m : ST MsgBuffer E X) : ST (Env A) E X :=
  zoom out (fun o e => mkEnv (self e) o (rng e)) m.
Definition on_rng {A E X} (m : ST Rng E X) : ST (Env A) E X :=
  zoom rng (fun r e => mkEnv (self e) (out e) r) m.
(** An operation of a part [B] of [A], with the same buffer and random source. *)
Definition on_part {A B E X} (get : A -> B) (set : B -> A -> A) (m : ST (Env B) E X) : ST (Env A) E X :=
  zoom (fun e => mkEnv (get (self e)) (out e) (rng e))
       (fun b e => mkEnv (set (self b) (self e)) (out b) (rng b)) m.

(** A random source on its own. *)
Definition random {E} (n : nat) : ST Rng E bytes := fun r =>
  let '(bs, r') := fill n r in (r', Ok bs).

(** [UnboundKey::new(algo, bytes).unwrap()] in a [LessSafeKey]. *)
Definition unbound_key {E} (algo : Algorithm) (bs : bytes) : outcome E LessSafeKey :=
  if decide (length bs = key_len algo) then Ok (mkLessSafeKey algo bs) else Panic.

End Env.

(** ** A toy instance *)

#[export] Instance toy_ring : Ring := {|
  Rng := Z;
  fill n r := (replicate n (r mod 256), r + 1);
  key_len a := match a with AES_128_GCM => 16%nat | _ => 32%nat end;
  seal a k n p := (p, replicate 16 (be_value (k ++ n) mod 256));
  open_in_place a k n c :=
    (c, bool_decide (drop (length c - 16) c = replicate 16 (be_value (k ++ n) mod 256)));
  EcdhPrivateKey := Z;
  ecdh_generate r := (r, r + 1);
  compute_public_key p := replicate 32 (p mod 256);
  agree_ephemeral p q := Some (replicate 32 ((p + hd 0 q) mod 256));
  sha256 m := replicate 32 (be_value m mod 256);
  sha512 m := replicate 64 (foldr Z.add 5 m mod 256);
  Ed25519KeyPair := bytes;
  from_seed_unchecked s := if decide (length s = 32%nat) then Some s else None;
  from_seed_and_public_key s p := if decide (length s = 32%nat /\ s = p) then Some s else None;
  ed25519_public_key k := replicate 32 (be_value k mod 256);
  sign k m := replicate 64 (be_value m mod 256);
  verify p m s := bool_decide (s = replicate 64 (be_value m mod 256));
  pbkdf2_derive n salt pw := replicate 32 (be_value pw mod 256)
|}.

Lemma replicate_mod_ok n z : bytes_ok (replicate n (z mod 256)).
Proof. apply Forall_replicate. apply Z.mod_pos_bound. lia. Qed.

#[export] Instance toy_ring_laws : @RingLaws toy_ring.
Proof.
  split; intros; cbn -[replicate be_value "mod"] in *; rewrite ?length_replicate;
    try done; try apply replicate_mod_ok.
  - destruct a; cbn -[Nat.le]; lia.
  - split; [done|apply replicate_mod_ok].
  - exists (replicate 16 (be_value (k ++ n) mod 256)). f_equal. apply bool_decide_eq_true_2.
    rewrite length_app, length_replicate, Nat.add_sub. by rewrite drop_app_length.
  - eexists. split; [done|]. cbn [hd replicate]. rewrite !Zplus_mod_idemp_r, (Z.add_comm q p). done.
  - by injection H as <-.
  - case_decide; by split.
  - by apply bool_decide_eq_true_2.
Qed.

Definition toy_rng (seed : Z) : @Rng toy_ring := seed.
