(* ===== verification/Core.v ===== *)
(** * The crypto core (src/src/crypto/core.rs)

    Nonces, the four key slots, encryption and decryption in the message
    buffer, and nonce pinning against replay. Primitives are those of [Ring]. *)

From S2P Require Import Prelude Errors Util Ring.

Definition NONCE_LEN : nat := 12.
Definition EXTRA_LEN : Z := 8.

(** [random_data(size)]. *)
Definition random_data `{Ring} {E} (size : nat) : ST Rng E bytes := random size.

(** ** [struct Nonce([u8; NONCE_LEN])] *)
Module Nonce.

Definition zero : bytes := replicate NONCE_LEN 0.

(** [nonce.0[from..]] overwritten with [bs]. *)
Definition set_from (from : nat) (bs n : bytes) : bytes := take from n ++ bs.

Definition random `{Ring} {E} : ST Rng E bytes :=
  bs ← Ring.random 6;
  mret (set_from 6 bs zero).

Definition set_msb (val : Z) (n : bytes) : bytes := <[0%nat := val]> n.

(** The loop of [increment], index [i] counting down. *)
Fixpoint increment_loop (i : nat) (n : bytes) : bytes :=
  match i with
  | O => n
  | S i' =>
      let num := wrap8 (nth i' n 0 + 1) in
      let n := <[i' := num]> n in
      if decide (0 < num) then n else increment_loop i' n
  end.
Definition increment (n : bytes) : bytes := increment_loop NONCE_LEN n.

(** The derived order: lexicographic on the bytes. *)
Fixpoint ltb (a b : bytes) : bool :=
  match a, b with
  | x :: a', y :: b' => if decide (x < y) then true else if decide (x = y) then ltb a' b' else false
  | [], _ :: _ => true
  | _, [] => false
  end.

End Nonce.

(** ** [struct CryptoKey] *)
Record CryptoKey : Type := mkCryptoKey {
  ck_key : LessSafeKey;
  send_nonce : bytes;
  min_nonce : bytes;
  next_min_nonce : bytes;
  seen_nonce : bytes
}.

Module CryptoKey.

Definition new `{Ring} {E} (key : LessSafeKey) (nonce_half : bool) : ST Rng E CryptoKey :=
  n ← Nonce.random;
  let send_nonce := Nonce.set_msb (if nonce_half then 128 else 0) n in
  mret (mkCryptoKey key send_nonce Nonce.zero Nonce.zero Nonce.zero).

(** [mem::swap], then the overwrite of what was the minimum. *)
Definition update_min_nonce (k : CryptoKey) : CryptoKey :=
  mkCryptoKey (ck_key k) (send_nonce k) (next_min_nonce k) (Nonce.increment (seen_nonce k)) (seen_nonce k).

Definition set_send_nonce (n : bytes) (k : CryptoKey) : CryptoKey :=
  mkCryptoKey (ck_key k) n (min_nonce k) (next_min_nonce k) (seen_nonce k).
Definition set_seen_nonce (n : bytes) (k : CryptoKey) : CryptoKey :=
  mkCryptoKey (ck_key k) (send_nonce k) (min_nonce k) (next_min_nonce k) n.

End CryptoKey.

(** ** [struct CryptoCore]

    [rand] is the random source of the environment; [keys] has four slots. *)
Record CryptoCore : Type := mkCryptoCore {
  keys : list CryptoKey;
  current_key : Z;
  nonce_half : bool
}.

Module CryptoCore.

Definition set_keys (k : list CryptoKey) (c : CryptoCore) : CryptoCore :=
  mkCryptoCore k (current_key c) (nonce_half c).
Definition set_key (i : Z) (k : CryptoKey) (c : CryptoCore) : CryptoCore :=
  set_keys (<[Z.to_nat i := k]> (keys c)) c.
Definition set_current_key (i : Z) (c : CryptoCore) : CryptoCore :=
  mkCryptoCore (keys c) i (nonce_half c).

Section Core.
Context `{Ring}.
Context {E : Type}.

Definition new (key : LessSafeKey) (nonce_half : bool) : ST Rng E CryptoCore :=
  dummy_key_data ← random_data (key_len (algorithm_of key));
  dummy_key1 ← lift (unbound_key (algorithm_of key) dummy_key_data);
  dummy_key2 ← lift (unbound_key (algorithm_of key) dummy_key_data);
  dummy_key3 ← lift (unbound_key (algorithm_of key) dummy_key_data);
  k0 ← CryptoKey.new key nonce_half;
  k1 ← CryptoKey.new dummy_key1 nonce_half;
  k2 ← CryptoKey.new dummy_key2 nonce_half;
  k3 ← CryptoKey.new dummy_key3 nonce_half;
  mret (mkCryptoCore [k0; k1; k2; k3] 0 nonce_half).

Definition encrypt : ST (Env CryptoCore) E unit :=
  data_start ← on_out (gets MsgBuffer.get_start);
  data_length ← on_out (gets MsgBuffer.len);
  assert (bool_decide (EXTRA_LEN <= data_start)) ;;
  on_out (modify (MsgBuffer.set_start (wrap64 (data_start - EXTRA_LEN)))) ;;
  on_out (modify (MsgBuffer.set_length (wrap64 (data_length + EXTRA_LEN + TAG_LEN)))) ;;
  msg ← on_out (fun b => (b, MsgBuffer.message b));
  data ← lift (slice EXTRA_LEN (EXTRA_LEN + data_length) msg);
  current ← on_self (gets current_key);
  ks ← on_self (gets keys);
  key ← lift (index ks current);
  let key := CryptoKey.set_send_nonce (Nonce.increment (send_nonce key)) key in
  on_self (modify (set_key current key)) ;;
  let extra := wrap8 current :: drop 5 (send_nonce key) in
  let '(data, tag) := seal (algorithm_of (ck_key key)) (key_bytes (ck_key key)) (send_nonce key) data in
  on_out (MsgBuffer.put_message (extra ++ data ++ tag)).

(** [decrypt_with_key]: the key, the data afterwards, the result. *)
Definition decrypt_with_key (key : CryptoKey) (nonce data_and_tag : bytes)
    : CryptoKey * bytes * Result unit :=
  if Nonce.ltb nonce (min_nonce key) then (key, data_and_tag, Err (Crypto "Old nonce rejected"))
  else
    let '(data_and_tag, ok) :=
      open_in_place (algorithm_of (ck_key key)) (key_bytes (ck_key key)) nonce data_and_tag in
    if ok then
      ((if Nonce.ltb (seen_nonce key) nonce then CryptoKey.set_seen_nonce nonce key else key),
       data_and_tag, Ok ())
    else (key, data_and_tag, Err (Crypto "Failed to decrypt data")).

(** The key id and the nonce a message's first bytes stand for. *)
Definition extra_key_id (msg : bytes) : Z := nth 0 msg 0 mod 4.
Definition extra_nonce (nonce_half : bool) (msg : bytes) : bytes :=
  Nonce.set_msb (if nonce_half then 0 else 128) (Nonce.set_from 5 (take 7 (drop 1 msg)) Nonce.zero).

Definition decrypt : ST (Env CryptoCore) Error unit :=
  len ← on_out (gets MsgBuffer.len);
  assert (bool_decide (EXTRA_LEN + TAG_LEN <= len)) ;;
  msg ← on_out (fun b => (b, MsgBuffer.message b));
  half ← on_self (gets nonce_half);
  let key_id := extra_key_id msg in
  let nonce := extra_nonce half msg in
  ks ← on_self (gets keys);
  key ← lift (index ks key_id);
  let '(key, data_and_tag, result) := decrypt_with_key key nonce (drop (Z.to_nat EXTRA_LEN) msg) in
  on_self (modify (set_key key_id key)) ;;
  on_out (MsgBuffer.put_message (take (Z.to_nat EXTRA_LEN) msg ++ data_and_tag)) ;;
  on_out (modify (fun b => MsgBuffer.set_start (wrap64 (MsgBuffer.get_start b + EXTRA_LEN)) b)) ;;
  on_out (modify (fun b => MsgBuffer.set_length (wrap64 (MsgBuffer.len b - TAG_LEN)) b)) ;;
  lift result.

Definition rotate_key (key : LessSafeKey) (id : Z) (use_for_sending : bool) : ST (Env CryptoCore) E unit :=
  let id := id mod 4 in
  half ← on_self (gets nonce_half);
  k ← on_rng (CryptoKey.new key half);
  on_self (modify (set_key id k)) ;;
  if use_for_sending then on_self (modify (set_current_key id)) else mret ().

(** Panics when the current slot does not exist. *)
Definition algorithm (c : CryptoCore) : outcome E Algorithm :=
  k ← index (keys c) (current_key c);
  Ok (algorithm_of (ck_key k)).

Definition every_second (c : CryptoCore) : CryptoCore :=
  set_keys (CryptoKey.update_min_nonce <$> keys c) c.

(** [create_dummy_pair(algo)]. *)
Definition create_dummy_pair (algo : Algorithm) : ST Rng E (CryptoCore * CryptoCore) :=
  key_data ← random_data (key_len algo);
  k1 ← lift (unbound_key algo key_data);
  sender ← new k1 true;
  k2 ← lift (unbound_key algo key_data);
  receiver ← new k2 false;
  mret (sender, receiver).

End Core.
End CryptoCore.

Import CryptoCore.

(** ** Nonces as 96-bit numbers *)

Lemma be_value_snoc l b : be_value (l ++ [b]) = be_value l * 256 + b.
Proof.
  induction l as [|x l IH]; cbn [app].
  { pose proof (be_value_cons b []) as H. rewrite be_value_1 in H |- *. unfold zlen in H. simpl in H. lia. }
  rewrite !be_value_cons, IH. unfold zlen. rewrite length_app. cbn [length].
  rewrite Nat.add_1_r, Nat2Z.inj_succ, Z.pow_succ_r by lia. lia.
Qed.

(** The big-endian coding of a number, with its bytes in range. *)
Lemma be_bytes_unique n v l : length l = n -> bytes_ok l -> be_value l = v mod 256 ^ Z.of_nat n -> be_bytes n v = l.
Proof.
  intros Hl Hb Hv. rewrite <- (be_bytes_be_value l Hb), Hl, Hv.
  rewrite (Z.div_mod v (256 ^ Z.of_nat n)) at 1 by (apply Z.pow_nonzero; lia).
  rewrite (Z.mul_comm _ (v / _)). apply be_bytes_mod.
Qed.

Lemma be_bytes_snoc n v : be_bytes (S n) v = be_bytes n (v / 256) ++ [v mod 256].
Proof.
  apply be_bytes_unique.
  - rewrite length_app, length_be_bytes. simpl. lia.
  - apply Forall_app. split; [apply be_bytes_ok|]. constructor; [|constructor].
    apply Z.mod_pos_bound. lia.
  - rewrite be_value_snoc, be_value_be_bytes, Nat2Z.inj_succ, Z.pow_succ_r by lia.
    rewrite Z.rem_mul_r by (try apply Z.pow_nonzero; lia). lia.
Qed.

Definition nonce_wf (n : bytes) : Prop := length n = NONCE_LEN /\ bytes_ok n.

(** Counting down over the bytes adds one to the number they stand for. *)
Lemma increment_loop_spec i n :
  (i <= length n)%nat -> bytes_ok n ->
  Nonce.increment_loop i n = be_bytes i (be_value (take i n) + 1) ++ drop i n.
Proof.
  revert n. induction i as [|i IH]; intros n Hi Hn; [done|]. cbn [Nonce.increment_loop].
  destruct (lookup_lt_is_Some_2 n i Hi) as [b Hb].
  rewrite (nth_lookup_Some n i 0 b Hb).
  rewrite (take_S_r n i b Hb), be_value_snoc.
  assert (is_u8 b) as Hu by (eapply Forall_lookup_1; [exact Hn|exact Hb]). unfold is_u8 in Hu.
  replace (be_value (take i n) * 256 + b + 1) with ((b + 1) + be_value (take i n) * 256) by lia.
  rewrite be_bytes_snoc, Z.mod_add, Z.div_add by lia.
  assert (be_bytes i (be_value (take i n)) = take i n) as Ht.
  { rewrite <- (length_take_le n i) at 1 by lia. by apply be_bytes_be_value, Forall_take. }
  case_decide as Hp.
  - assert (b <> 255) by (intros ->; by vm_compute in Hp).
    rewrite Z.div_small, Z.add_0_l, Ht, (Z.mod_small (b + 1)), wrap_small by lia.
    rewrite <- (assoc_L app). cbn [app]. by apply insert_take_drop.
  - assert (b = 255) as -> by (unfold wrap in Hp; destruct (decide (b = 255)); [done|rewrite Z.mod_small in Hp; lia]).
    change (wrap8 (255 + 1)) with 0. rewrite IH.
    + rewrite take_insert_ge, <- (assoc_L app) by lia. f_equal; [f_equal; change ((255 + 1) / 256) with 1; lia|].
      rewrite (drop_S _ 0) by (apply list_lookup_insert_eq; lia). cbn. f_equal.
      by rewrite drop_insert_lt by lia.
    + rewrite length_insert. lia.
    + apply Forall_insert; [done|]. unfold is_u8. lia.
Qed.

Lemma increment_spec n : nonce_wf n -> Nonce.increment n = be_bytes NONCE_LEN (be_value n + 1).
Proof.
  intros [Hl Hn]. unfold Nonce.increment. rewrite increment_loop_spec by (rewrite ?Hl; done).
  rewrite take_ge, drop_ge by (rewrite Hl; done). apply app_nil_r.
Qed.

Lemma increment_wf n : nonce_wf n -> nonce_wf (Nonce.increment n).
Proof.
  intros Hn. rewrite increment_spec by done. split; [by apply length_be_bytes|apply be_bytes_ok].
Qed.

Lemma increment_value n :
  nonce_wf n -> be_value n < 2 ^ 96 - 1 -> be_value (Nonce.increment n) = be_value n + 1.
Proof.
  intros Hn Hv. rewrite increment_spec, be_value_be_bytes by done. apply Z.mod_small.
  pose proof (be_value_bounds n (proj2 Hn)). change (256 ^ Z.of_nat NONCE_LEN) with (2 ^ 96). lia.
Qed.

Lemma nonce_bound n : nonce_wf n -> 0 <= be_value n < 2 ^ 96.
Proof.
  intros [Hl Hn]. pose proof (be_value_bounds n Hn) as H. unfold zlen in H. by rewrite Hl in H.
Qed.

Lemma ltb_spec a b : length a = length b -> bytes_ok a -> bytes_ok b ->
  Nonce.ltb a b = true <-> be_value a < be_value b.
Proof.
  intros Hl Ha. revert b Hl. induction Ha as [|x a Hx Ha IH]; intros [|y b] Hl Hb; try done.
  apply Forall_cons_1 in Hb as [Hy Hb]. cbn [Nonce.ltb]. injection Hl as Hl.
  rewrite !be_value_cons. unfold zlen. rewrite Hl.
  pose proof (be_value_bounds a Ha) as HA. pose proof (be_value_bounds b Hb) as HB.
  unfold zlen in *. rewrite Hl in HA. case_decide; [split; [nia|done]|].
  case_decide as He; [subst; rewrite IH by done; lia|]. split; [done|nia].
Qed.

Lemma ltb_nonce a b : nonce_wf a -> nonce_wf b -> Nonce.ltb a b = true <-> be_value a < be_value b.
Proof. intros [Ha ?] [Hb ?]. apply ltb_spec; [congruence|done..]. Qed.

Lemma zero_wf : nonce_wf Nonce.zero.
Proof. split; [done|]. apply Forall_replicate. unfold is_u8. lia. Qed.

(** ** Key slots and the core: invariants *)

(** The nonces of a slot: the minimum trails the one to come, which is at most
    one past what was seen; nothing seen is near the end of the nonce space. *)
Definition key_wf (k : CryptoKey) : Prop :=
  nonce_wf (send_nonce k) /\ nonce_wf (min_nonce k) /\ nonce_wf (next_min_nonce k) /\ nonce_wf (seen_nonce k) /\
  be_value (min_nonce k) <= be_value (next_min_nonce k) <= be_value (seen_nonce k) + 1 /\
  be_value (seen_nonce k) < 2 ^ 96 - 1.

Definition core_wf (c : CryptoCore) : Prop :=
  length (keys c) = 4%nat /\ 0 <= current_key c < 4 /\ Forall key_wf (keys c).

Lemma update_min_nonce_wf k : key_wf k -> key_wf (CryptoKey.update_min_nonce k).
Proof.
  intros (H1 & H2 & H3 & H4 & H5 & H6). unfold key_wf, CryptoKey.update_min_nonce. cbn [ck_key send_nonce min_nonce next_min_nonce seen_nonce].
  pose proof (increment_value _ H4 H6). pose proof (increment_wf _ H4). split_and!; done || lia.
Qed.

Lemma set_send_nonce_wf n k : nonce_wf n -> key_wf k -> key_wf (CryptoKey.set_send_nonce n k).
Proof. intros Hn (H1 & H2 & H3 & H4 & H5 & H6). unfold key_wf, CryptoKey.set_send_nonce. cbn [ck_key send_nonce min_nonce next_min_nonce seen_nonce]. split_and!; done || lia. Qed.

Lemma core_wf_key c i k : core_wf c -> keys c !! i = Some k -> key_wf k.
Proof. intros (_ & _ & H) Hi. by eapply Forall_lookup_1. Qed.

Lemma core_wf_index c i : core_wf c -> 0 <= i < 4 ->
  exists k, keys c !! Z.to_nat i = Some k /\ key_wf k /\ forall E, index (E := E) (keys c) i = Ok k.
Proof.
  intros Hc Hi. pose proof Hc as (Hl & _ & _).
  destruct (lookup_lt_is_Some_2 (keys c) (Z.to_nat i)) as [k Hk]; [lia|].
  exists k. split; [done|]. split; [by eapply core_wf_key|]. intros E. unfold index.
  by rewrite decide_True, Hk by lia.
Qed.

Lemma set_key_wf i k c : core_wf c -> key_wf k -> core_wf (set_key i k c).
Proof.
  intros (H1 & H2 & H3) Hk. split; [cbn [set_key set_keys keys]; by rewrite length_insert|]. split; [done|]. by apply Forall_insert.
Qed.

Lemma every_second_wf c : core_wf c -> core_wf (every_second c).
Proof.
  intros (H1 & H2 & H3). split; [cbn [every_second set_keys keys]; by rewrite length_fmap|]. split; [done|].
  apply Forall_fmap. eapply Forall_impl; [exact H3|]. apply update_min_nonce_wf.
Qed.

Lemma zero_value : be_value Nonce.zero = 0.
Proof. by vm_compute. Qed.

(** ** What the operations do *)

Section Specs.
Context `{RingLaws}.

Lemma open_sealed a k n p :
  exists rest, open_in_place a k n ((seal a k n p).1 ++ (seal a k n p).2) = (p ++ rest, true).
Proof. pose proof (open_seal a k n p) as Hos. by destruct (seal a k n p). Qed.

Lemma random_nonce_spec {E} r :
  exists bs, length bs = 6%nat /\ bytes_ok bs /\
    Nonce.random (E := E) r = ((fill 6 r).2, Ok (replicate 6 0 ++ bs)).
Proof.
  exists (fill 6 r).1. split; [apply fill_len|]. split; [apply fill_ok|].
  unfold Nonce.random, Ring.random, mbind, ST_bind. by destruct (fill 6 r).
Qed.

(** A fresh slot: it has seen nothing, and sends in its half from a random
    48-bit number on. *)
Lemma key_new_spec {E} key (half : bool) r :
  exists k bs, length bs = 6%nat /\ bytes_ok bs /\
    CryptoKey.new (E := E) key half r = ((fill 6 r).2, Ok k) /\ key_wf k /\ ck_key k = key /\
    send_nonce k = (if half then 128 else 0) :: replicate 5 0 ++ bs /\
    min_nonce k = Nonce.zero /\ next_min_nonce k = Nonce.zero /\ seen_nonce k = Nonce.zero.
Proof.
  destruct (random_nonce_spec (E := E) r) as (bs & Hl & Hb & Hr).
  unfold CryptoKey.new, mbind, ST_bind. rewrite Hr. eexists _, bs. split; [done|]. split; [done|].
  split; [reflexivity|]. split; [|done]. unfold key_wf. cbn [ck_key send_nonce min_nonce next_min_nonce seen_nonce]. pose proof zero_wf.
  split_and!; try done.
  - change (nonce_wf ((if half then 128 else 0) :: replicate 5 0 ++ bs)).
    split; [cbn [length app replicate]; rewrite Hl; done|]. apply (Forall_cons_2 is_u8); [destruct half; unfold is_u8; lia|].
    repeat (apply (Forall_cons_2 is_u8); [unfold is_u8; lia|]). done.
Qed.

Lemma encrypt_spec {E} (e : Env CryptoCore) :
  core_wf (self e) -> MsgBuffer.wf (out e) -> EXTRA_LEN <= buf_start (out e) ->
  buf_end (out e) + TAG_LEN <= BUFFER_SIZE ->
  exists k b', keys (self e) !! Z.to_nat (current_key (self e)) = Some k /\
    let n := Nonce.increment (send_nonce k) in
    let s := seal (algorithm_of (ck_key k)) (key_bytes (ck_key k)) n (MsgBuffer.contents (out e)) in
    encrypt (E := E) e = (mkEnv (set_key (current_key (self e)) (CryptoKey.set_send_nonce n k) (self e)) b' (rng e), Ok ()) /\
    MsgBuffer.wf b' /\
    MsgBuffer.contents b' = current_key (self e) :: drop 5 n ++ s.1 ++ s.2 /\
    buf_start b' = buf_start (out e) - EXTRA_LEN /\ buf_end b' = buf_end (out e) + TAG_LEN /\
    space_before b' = space_before (out e).
Proof.
  destruct e as [c b r]. cbn [self out rng]. intros Hc Hb Hs He.
  destruct (core_wf_index c (current_key c) Hc) as (k & Hk & Hkw & Hi); [apply Hc|].
  pose proof Hc as (_ & Hcur & _). pose proof Hkw as (Hsn & _).
  pose proof (increment_wf _ Hsn) as Hn.
  set (n := Nonce.increment (send_nonce k)) in *.
  set (s := seal (algorithm_of (ck_key k)) (key_bytes (ck_key k)) n (MsgBuffer.contents b)).
  destruct (seal_len (algorithm_of (ck_key k)) (key_bytes (ck_key k)) n (MsgBuffer.contents b)) as [Hl1 Hl2].
  destruct (seal_ok (algorithm_of (ck_key k)) (key_bytes (ck_key k)) n (MsgBuffer.contents b)
    (contents_bytes_ok b Hb)) as [Ho1 Ho2]. fold s in Hl1, Hl2, Ho1, Ho2.
  pose proof (length_contents b Hb) as Hlc. pose proof Hb as (Hb1 & Hb2 & Hb3 & Hb4 & Hb5).
  unfold EXTRA_LEN, TAG_LEN, BUFFER_SIZE in *.
  (* the widened buffer *)
  set (bw := mkMsgBuffer (space_before b) (buf_data b) (buf_start b - 8) (buf_end b + 16)).
  assert (MsgBuffer.wf bw) as Hw by (unfold MsgBuffer.wf, bw, BUFFER_SIZE; cbn; split_and!; done || lia).
  destruct (put_message_spec (E := E) bw (current_key c :: drop 5 n ++ s.1 ++ s.2) Hw) as (b' & Hp & Hw' & Hc' & Hs' & He' & Hsp').
  { constructor; [unfold is_u8; lia|]. repeat (apply Forall_app; split; [|done || (apply Forall_app; split)]); try done.
    apply Forall_drop, Hn. }
  { unfold zlen in *. cbn [length]. rewrite !length_app, length_drop, (proj1 Hn), Hl1. cbn. unfold NONCE_LEN. lia. }
  exists k, b'. split; [done|]. cbn zeta. split; [|by rewrite Hs', He', Hsp'].
  unfold encrypt, mbind, ST_bind, on_out, on_self, zoom, gets, modify, assert, lift, mret, ST_ret.
  cbn -[wrap slice index seal drop MsgBuffer.put_message MsgBuffer.message set_key MsgBuffer.len Nonce.increment].
  rewrite len_wf by done. change (MsgBuffer.get_start b) with (buf_start b).
  rewrite bool_decide_true by (unfold EXTRA_LEN; lia).
  cbn -[wrap slice index seal drop MsgBuffer.put_message MsgBuffer.message set_key Nonce.increment].
  unfold EXTRA_LEN, TAG_LEN in *.
  replace (MsgBuffer.set_length _ _) with bw.
  2: { unfold MsgBuffer.set_length, MsgBuffer.set_start, MsgBuffer.set_end, bw. cbn [buf_start buf_end buf_data space_before].
       rewrite !wrap_small by (rewrite ?wrap_small; lia). f_equal. lia. }
  rewrite message_wf by done.
  rewrite slice_ok by (rewrite ?length_contents by done; cbn; lia). rewrite Hi.
  cbn -[wrap seal drop MsgBuffer.put_message set_key take Nonce.increment]. fold n.
  replace (take _ (drop _ (MsgBuffer.contents bw))) with (MsgBuffer.contents b).
  - fold s. rewrite wrap_small by lia. destruct s as [s1 s2]. cbn [fst snd app out self rng] in *. by rewrite Hp.
  - unfold MsgBuffer.contents, bw. cbn [buf_start buf_end buf_data].
    rewrite !skipn_firstn_comm, drop_drop, take_take. f_equal; [lia|]. f_equal. lia.
Qed.

Lemma extra_key_id_range msg : 0 <= extra_key_id msg < 4.
Proof. apply Z.mod_pos_bound. lia. Qed.

Lemma extra_nonce_shape (half : bool) msg :
  (8 <= length msg)%nat ->
  extra_nonce half msg = (if half then 0 else 128) :: replicate 4 0 ++ take 7 (drop 1 msg).
Proof. done. Qed.

Lemma extra_nonce_wf (half : bool) msg :
  (8 <= length msg)%nat -> bytes_ok msg ->
  nonce_wf (extra_nonce half msg) /\ be_value (extra_nonce half msg) < 2 ^ 96 - 1.
Proof.
  intros Hl Hb. rewrite extra_nonce_shape by done. set (t := take 7 (drop 1 msg)).
  assert (length t = 7%nat) as Ht by (subst t; rewrite length_take, length_drop; lia).
  assert (bytes_ok t) as Hbt by (by apply Forall_take, Forall_drop).
  split.
  - split; [cbn [length app replicate]; by rewrite Ht|].
    apply (Forall_cons_2 is_u8); [destruct half; unfold is_u8; lia|].
    repeat (apply (Forall_cons_2 is_u8); [unfold is_u8; lia|]). done.
  - rewrite be_value_cons. cbn [replicate app]. rewrite !be_value_cons. unfold zlen. cbn [length]. rewrite Ht.
    pose proof (be_value_bounds t Hbt) as Hv. unfold zlen in Hv. rewrite Ht in Hv.
    cbn in Hv |- *. destruct half; lia.
Qed.

Lemma decrypt_with_key_spec k nonce d :
  key_wf k -> nonce_wf nonce -> be_value nonce < 2 ^ 96 - 1 -> bytes_ok d ->
  let '(k', d', res) := decrypt_with_key k nonce d in
  key_wf k' /\ ck_key k' = ck_key k /\ send_nonce k' = send_nonce k /\
  min_nonce k' = min_nonce k /\ next_min_nonce k' = next_min_nonce k /\
  be_value (seen_nonce k) <= be_value (seen_nonce k') /\
  (res = Ok () -> be_value nonce <= be_value (seen_nonce k')) /\
  (be_value (seen_nonce k') = be_value (seen_nonce k) \/ be_value (seen_nonce k') = be_value nonce) /\
  length d' = length d /\ bytes_ok d' /\ res <> Panic.
Proof.
  intros Hk Hn Hv Hd. pose proof Hk as (H1 & H2 & H3 & H4 & H5 & H6). unfold decrypt_with_key.
  destruct (Nonce.ltb nonce (min_nonce k)); [by split_and!; auto with lia|].
  pose proof (open_len (algorithm_of (ck_key k)) (key_bytes (ck_key k)) nonce d) as Hl.
  pose proof (open_ok (algorithm_of (ck_key k)) (key_bytes (ck_key k)) nonce d Hd) as Ho.
  destruct (open_in_place _ _ _ _) as [d' []]; cbn [fst] in *; [|by split_and!; auto with lia].
  pose proof (ltb_nonce _ _ H4 Hn) as Hlt. destruct (Nonce.ltb (seen_nonce k) nonce).
  - assert (be_value (seen_nonce k) < be_value nonce) by (by apply Hlt).
    unfold key_wf, CryptoKey.set_seen_nonce. cbn [ck_key send_nonce min_nonce next_min_nonce seen_nonce].
    split_and!; auto; try done; try lia.
  - assert (~ be_value (seen_nonce k) < be_value nonce) by (intros ?%Hlt; done).
    split_and!; auto; try done; try lia.
Qed.

Lemma decrypt_short e :
  MsgBuffer.wf (out e) -> buf_end (out e) - buf_start (out e) < EXTRA_LEN + TAG_LEN -> decrypt e = (e, Panic).
Proof.
  destruct e as [c b r]. cbn [self out rng]. intros Hb Hl. unfold decrypt, mbind, ST_bind, on_out, zoom, gets, assert.
  cbn -[MsgBuffer.len]. rewrite len_wf by done. rewrite bool_decide_false by lia. done.
Qed.

(** The data keeps its length, and stays bytes, whatever the key is. *)
Lemma decrypt_with_key_data k nonce d : bytes_ok d ->
  length (decrypt_with_key k nonce d).1.2 = length d /\ bytes_ok (decrypt_with_key k nonce d).1.2.
Proof.
  intros Hd. unfold decrypt_with_key. destruct (Nonce.ltb nonce (min_nonce k)); [done|].
  pose proof (open_len (algorithm_of (ck_key k)) (key_bytes (ck_key k)) nonce d) as Hl.
  pose proof (open_ok (algorithm_of (ck_key k)) (key_bytes (ck_key k)) nonce d Hd) as Ho.
  by destruct (open_in_place _ _ _ _) as [d' []].
Qed.

(** What [decrypt] does with a message of sufficient length; nothing is asked of the core but
    that it has four slots, which is its type. *)
Lemma decrypt_eq (e : Env CryptoCore) :
  length (keys (self e)) = 4%nat -> MsgBuffer.wf (out e) ->
  EXTRA_LEN + TAG_LEN <= buf_end (out e) - buf_start (out e) ->
  exists k, keys (self e) !! Z.to_nat (extra_key_id (MsgBuffer.contents (out e))) = Some k /\
    let msg := MsgBuffer.contents (out e) in
    let '(k', d, res) := decrypt_with_key k (extra_nonce (nonce_half (self e)) msg) (drop 8 msg) in
    exists b', decrypt e = (mkEnv (set_key (extra_key_id msg) k' (self e)) b' (rng e), res) /\
      MsgBuffer.wf b' /\ MsgBuffer.contents b' = take (length msg - 24) d /\
      buf_start b' = buf_start (out e) + EXTRA_LEN /\ buf_end b' = buf_end (out e) - TAG_LEN /\
      space_before b' = space_before (out e).
Proof.
  destruct e as [c b r]. cbn [self out rng]. intros Hc Hb Hl.
  set (msg := MsgBuffer.contents b).
  pose proof (extra_key_id_range msg) as Hid.
  destruct (lookup_lt_is_Some_2 (keys c) (Z.to_nat (extra_key_id msg))) as [k Hk]; [lia|].
  assert (forall E, index (E := E) (keys c) (extra_key_id msg) = Ok k) as Hi.
  { intros E. unfold index. by rewrite decide_True, Hk by lia. }
  exists k. split; [done|]. cbn zeta.
  pose proof (length_contents b Hb) as Hlc. pose proof (contents_bytes_ok b Hb) as Hob. fold msg in Hlc, Hob.
  pose proof Hb as (Hb1 & Hb2 & Hb3 & Hb4 & Hb5). unfold EXTRA_LEN, TAG_LEN, BUFFER_SIZE, zlen in *.
  pose proof (decrypt_with_key_data k (extra_nonce (nonce_half c) msg) (drop 8 msg) (Forall_drop _ _ _ Hob)) as Hd.
  unfold decrypt, mbind, ST_bind, on_out, on_self, zoom, gets, modify, assert, lift, mret, ST_ret.
  cbn -[wrap index decrypt_with_key drop MsgBuffer.put_message MsgBuffer.message set_key MsgBuffer.len extra_nonce extra_key_id].
  rewrite len_wf by done. rewrite bool_decide_true by (unfold EXTRA_LEN, TAG_LEN; lia).
  cbn -[wrap index decrypt_with_key drop MsgBuffer.put_message MsgBuffer.message set_key MsgBuffer.len extra_nonce extra_key_id].
  rewrite message_wf by done. fold msg.
  cbn -[wrap index decrypt_with_key drop MsgBuffer.put_message MsgBuffer.message set_key MsgBuffer.len extra_nonce extra_key_id].
  rewrite Hi. change (Z.to_nat EXTRA_LEN) with 8%nat.
  destruct (decrypt_with_key k _ (drop 8 msg)) as [[k' d] res].
  destruct Hd as [Hdl Hdo]. cbn [fst snd] in Hdl, Hdo. rewrite length_drop in Hdl.
  destruct (put_message_spec (E := Error) b (take 8 msg ++ d) Hb) as (b1 & Hp & Hw1 & Hc1 & Hs1 & He1 & Hsp1).
  { apply Forall_app. split; [by apply Forall_take|done]. }
  { unfold zlen. rewrite length_app, length_take. lia. }
  cbn [out self rng]. rewrite Hp.
  set (b2 := mkMsgBuffer (space_before b1) (buf_data b1) (buf_start b1 + 8) (buf_end b1 - 16)).
  assert (MsgBuffer.wf b2) as Hw2.
  { pose proof Hw1 as (? & ? & ? & ? & ?). unfold MsgBuffer.wf, b2, BUFFER_SIZE. cbn. split_and!; done || lia. }
  exists b2. split; [|split; [done|]].
  - cbn -[wrap set_key]. do 2 f_equal.
    unfold MsgBuffer.set_length, MsgBuffer.set_start, MsgBuffer.set_end, MsgBuffer.get_start, MsgBuffer.len, EXTRA_LEN, TAG_LEN, b2.
    cbn [buf_start buf_end buf_data space_before]. rewrite !wrap_small by (rewrite ?wrap_small; rewrite ?wrap_small; lia).
    f_equal. lia.
  - split; [|unfold EXTRA_LEN, TAG_LEN, b2; cbn; lia].
    unfold MsgBuffer.contents in Hc1 |- *. unfold b2. cbn [buf_start buf_end buf_data].
    replace (drop (Z.to_nat (buf_start b1 + 8)) (buf_data b1)) with (drop 8 (drop (Z.to_nat (buf_start b1)) (buf_data b1))).
    2: { rewrite drop_drop. f_equal. lia. }
    replace d with (drop 8 (take 8 msg ++ d)).
    2: { rewrite drop_app_ge, length_take by (rewrite length_take; lia). by replace (8 - 8 `min` length msg)%nat with 0%nat by lia. }
    rewrite <- Hc1, skipn_firstn_comm, take_take. f_equal. lia.
Qed.

Lemma decrypt_spec (e : Env CryptoCore) :
  core_wf (self e) -> MsgBuffer.wf (out e) ->
  EXTRA_LEN + TAG_LEN <= buf_end (out e) - buf_start (out e) ->
  exists k, keys (self e) !! Z.to_nat (extra_key_id (MsgBuffer.contents (out e))) = Some k /\ key_wf k /\
    let msg := MsgBuffer.contents (out e) in
    let '(k', d, res) := decrypt_with_key k (extra_nonce (nonce_half (self e)) msg) (drop 8 msg) in
    exists b', decrypt e = (mkEnv (set_key (extra_key_id msg) k' (self e)) b' (rng e), res) /\
      key_wf k' /\ MsgBuffer.wf b' /\ MsgBuffer.contents b' = take (length msg - 24) d /\
      buf_start b' = buf_start (out e) + EXTRA_LEN /\ buf_end b' = buf_end (out e) - TAG_LEN /\
      space_before b' = space_before (out e).
Proof.
  intros Hc Hb Hl. destruct (decrypt_eq e) as (k & Hk & Hd); [apply Hc|done..|].
  pose proof (core_wf_key _ _ _ Hc Hk) as Hkw. exists k. split; [done|]. split; [done|]. cbn zeta in Hd |- *.
  set (msg := MsgBuffer.contents (out e)) in *.
  pose proof (length_contents _ Hb) as Hlc. pose proof (contents_bytes_ok _ Hb) as Hob. fold msg in Hlc, Hob.
  unfold EXTRA_LEN, TAG_LEN, zlen in Hl, Hlc. destruct (extra_nonce_wf (nonce_half (self e)) msg ltac:(lia) Hob) as [Hn Hnv].
  pose proof (decrypt_with_key_spec k _ (drop 8 msg) Hkw Hn Hnv (Forall_drop _ _ _ Hob)) as Hs.
  destruct (decrypt_with_key k _ (drop 8 msg)) as [[k' d] res]. destruct Hs as (Hk' & _).
  destruct Hd as (b' & He & Hrest). exists b'. exact (conj He (conj Hk' Hrest)).
Qed.
End Specs.

(** ** Runs of operations on one core *)

Section Runs.
Context `{RingLaws}.

Inductive core_op : Type :=
| OpEncrypt (buffer : MsgBuffer)
| OpDecrypt (buffer : MsgBuffer)
| OpRotate (key : LessSafeKey) (id : Z) (use_for_sending : bool)
| OpSecond.

(** The core and the random source after one call, whatever it returned. *)
Definition run_core_op (s : CryptoCore * Rng) (op : core_op) : CryptoCore * Rng :=
  match op with
  | OpEncrypt b => let e := (encrypt (E := Error) (mkEnv s.1 b s.2)).1 in (self e, rng e)
  | OpDecrypt b => let e := (decrypt (mkEnv s.1 b s.2)).1 in (self e, rng e)
  | OpRotate key id u => let e := (rotate_key (E := Error) key id u (mkEnv s.1 (MsgBuffer.new 0) s.2)).1 in (self e, rng e)
  | OpSecond => (every_second s.1, s.2)
  end.
Definition run_core (s : CryptoCore * Rng) (ops : list core_op) : CryptoCore * Rng := foldl run_core_op s ops.

(** Well-formed buffers, with room where it is asserted. *)
Definition core_op_wf (op : core_op) : Prop :=
  match op with
  | OpEncrypt b => MsgBuffer.wf b /\ EXTRA_LEN <= buf_start b /\ buf_end b + TAG_LEN <= BUFFER_SIZE
  | OpDecrypt b => MsgBuffer.wf b
  | OpRotate _ id _ => 0 <= id
  | OpSecond => True
  end.

(** The operation leaves the key of a slot in place. *)
Definition keeps_slot (i : Z) (op : core_op) : Prop :=
  match op with OpRotate _ id _ => id mod 4 <> i | _ => True end.

Fixpoint seconds (ops : list core_op) : nat :=
  match ops with
  | [] => 0
  | OpSecond :: ops' => S (seconds ops')
  | _ :: ops' => seconds ops'
  end.

(** How far a nonce [n] is from being refused: seen; about to be; refused. *)
Definition pinned (j : nat) (n : Z) (k : CryptoKey) : Prop :=
  n <= be_value (seen_nonce k) /\
  ((1 <= j)%nat -> n < be_value (next_min_nonce k)) /\
  ((2 <= j)%nat -> n < be_value (min_nonce k)).

Lemma pinned_second j n k : key_wf k -> pinned j n k -> pinned (S j) n (CryptoKey.update_min_nonce k).
Proof.
  intros (H1 & H2 & H3 & H4 & H5 & H6) (Hs & Hj1 & Hj2). unfold pinned, CryptoKey.update_min_nonce.
  cbn [seen_nonce next_min_nonce min_nonce]. rewrite increment_value by done.
  split; [done|]. split; [lia|]. intros ?. apply Hj1. lia.
Qed.

Lemma set_key_lookup i j k c :
  core_wf c -> 0 <= i < 4 -> 0 <= j < 4 ->
  keys (set_key i k c) !! Z.to_nat j = if decide (i = j) then Some k else keys c !! Z.to_nat j.
Proof.
  intros (Hl & _ & _) Hi Hj. cbn [set_key set_keys keys]. case_decide as Hd; subst.
  - apply list_lookup_insert_eq. lia.
  - apply list_lookup_insert_ne. lia.
Qed.

(** One operation keeps the core well formed, and a slot it keeps changes only
    in ways that leave nonces pinned. *)
Lemma run_core_op_slot s op i :
  core_wf s.1 -> core_op_wf op -> keeps_slot i op -> 0 <= i < 4 ->
  (core_wf (run_core_op s op).1 /\ nonce_half (run_core_op s op).1 = nonce_half s.1) /\
  forall k, keys s.1 !! Z.to_nat i = Some k ->
    exists k', keys (run_core_op s op).1 !! Z.to_nat i = Some k' /\
      match op with
      | OpSecond => k' = CryptoKey.update_min_nonce k
      | _ => forall j n, pinned j n k -> pinned j n k'
      end.
Proof.
  destruct s as [c r]. cbn [fst]. intros Hc Hop Hki Hi.
  destruct op as [b|b|key id u|]; cbn [run_core_op core_op_wf keeps_slot fst snd] in *.
  - destruct Hop as (Hb & Hs & He).
    destruct (encrypt_spec (E := Error) (mkEnv c b r) Hc Hb Hs He) as (k & b' & Hk & Heq & _). cbn zeta in Heq.
    rewrite Heq. cbn [self out rng fst] in *. pose proof Hc as (_ & Hcur & _).
    pose proof (core_wf_key c _ k Hc Hk) as Hkw. split.
    + split; [|done]. apply set_key_wf; [done|]. apply set_send_nonce_wf; [|done]. apply increment_wf, Hkw.
    + intros k0 Hk0. rewrite set_key_lookup by done. case_decide as Hd; [|by exists k0].
      subst i. rewrite Hk in Hk0. injection Hk0 as <-. eexists. split; [done|]. by intros j n Hp.
  - destruct (decide (EXTRA_LEN + TAG_LEN <= buf_end b - buf_start b)) as [Hl|Hl].
    2: { rewrite (decrypt_short (mkEnv c b r)) by (cbn [out]; done || lia). cbn. split; [done|]. intros k Hk. by exists k. }
    destruct (decrypt_spec (mkEnv c b r) Hc Hop Hl) as (k & Hk & Hkw & Hd). cbn [self out rng] in *. cbn zeta in Hd.
    set (msg := MsgBuffer.contents b) in *. pose proof (extra_key_id_range msg) as Hr.
    pose proof (length_contents b Hop) as Hlc. fold msg in Hlc. unfold zlen, EXTRA_LEN, TAG_LEN in *.
    destruct (extra_nonce_wf (nonce_half c) msg ltac:(lia) (contents_bytes_ok b Hop)) as [Hn Hnv].
    pose proof (decrypt_with_key_spec k _ (drop 8 msg) Hkw Hn Hnv (Forall_drop _ _ _ (contents_bytes_ok b Hop))) as Hs.
    destruct (decrypt_with_key k _ (drop 8 msg)) as [[k' d] res]. destruct Hd as (b' & -> & Hkw' & _).
    cbn [self out rng fst]. destruct Hs as (_ & _ & _ & Hm & Hnm & Hseen & _). split; [split; [by apply set_key_wf|done]|].
    intros k0 Hk0. rewrite set_key_lookup by done. case_decide as Hdi; [|by exists k0].
    subst i. rewrite Hk in Hk0. injection Hk0 as <-. exists k'. split; [done|].
    intros j n (Hp1 & Hp2 & Hp3). unfold pinned. rewrite Hm, Hnm. split; [lia|done].
  - unfold rotate_key, on_self, on_rng, zoom, gets, modify, mbind, ST_bind, mret, ST_ret. cbn [self out rng].
    destruct (key_new_spec (E := Error) key (nonce_half c) r) as (k & bs & _ & _ & Hnew & Hkw & _).
    rewrite Hnew. pose proof (Z.mod_pos_bound id 4 ltac:(lia)).
    assert (core_wf (set_key (id mod 4) k c)) as Hw by (by apply set_key_wf).
    assert (forall k0, keys c !! Z.to_nat i = Some k0 -> keys (set_key (id mod 4) k c) !! Z.to_nat i = Some k0) as Hl.
    { intros k0 Hk0. rewrite set_key_lookup by done. by rewrite decide_False. }
    destruct u; cbn -[set_key Z.modulo]; (split; [|intros k0 Hk0; exists k0; split; [by apply Hl|done]]); [|done].
    split; [|done]. destruct Hw as (? & ? & ?). split; [done|]. cbn [set_current_key current_key keys] in *. split; [lia|done].
  - split; [split; [by apply every_second_wf|done]|]. intros k Hk. exists (CryptoKey.update_min_nonce k). split; [|done].
    cbn [every_second set_keys keys]. by rewrite list_lookup_fmap, Hk.
Qed.

Lemma run_core_pins ops i n : forall s j k,
  core_wf s.1 -> 0 <= i < 4 -> Forall core_op_wf ops -> Forall (keeps_slot i) ops ->
  keys s.1 !! Z.to_nat i = Some k -> pinned j n k ->
  (core_wf (run_core s ops).1 /\ nonce_half (run_core s ops).1 = nonce_half s.1) /\
  exists k', keys (run_core s ops).1 !! Z.to_nat i = Some k' /\ pinned (j + seconds ops) n k'.
Proof.
  induction ops as [|op ops IH]; intros s j k Hc Hi Hw Hs Hk Hp.
  { cbn. split; [done|]. exists k. by rewrite Nat.add_0_r. }
  apply Forall_cons_1 in Hw as [Hw1 Hw], Hs as [Hs1 Hs]. cbn [run_core foldl].
  destruct (run_core_op_slot s op i Hc Hw1 Hs1 Hi) as [[Hc' Hh'] Hk'].
  rewrite <- Hh'. destruct (Hk' k Hk) as (k' & Hkk & Hop).
  destruct op; cbn [run_core_op seconds] in *.
  4: { subst k'. rewrite Nat.add_succ_r, <- Nat.add_succ_l.
       eapply (IH _ (S j)); [done..|]. apply pinned_second; [exact (core_wf_key _ _ _ Hc Hk)|done]. }
  all: eapply IH; [done..|by apply Hop].
Qed.
End Runs.

(** ** Two cores and the network between them *)

Section Channel.
Context `{RingLaws}.

(** The first nonce of a half, as a number. *)
Definition half_base (half : bool) : Z := if half then 2 ^ 95 else 0.

Lemma be_value_inj a b : length a = length b -> bytes_ok a -> bytes_ok b -> be_value a = be_value b -> a = b.
Proof.
  intros Hl Ha Hb Hv. rewrite <- (be_bytes_be_value a Ha), <- (be_bytes_be_value b Hb), Hl. by rewrite Hv.
Qed.

(** The nonces that fit a message: five fixed bytes and seven transferred. *)
Lemma transferable (half : bool) n :
  nonce_wf n -> half_base half <= be_value n < half_base half + 2 ^ 56 ->
  n = (if half then 128 else 0) :: replicate 4 0 ++ drop 5 n.
Proof.
  intros [Hl Hn] Hv. unfold NONCE_LEN in Hl.
  enough (take 5 n = (if half then 128 else 0) :: replicate 4 0) as Ht by (rewrite <- (take_drop 5 n) at 1; by rewrite Ht).
  assert (be_value n = be_value (take 5 n) * 2 ^ 56 + be_value (drop 5 n)) as Hs.
  { rewrite <- (take_drop 5 n) at 1. generalize (take 5 n). intros t. induction t as [|x t IH]; cbn [app].
    - pose proof (be_value_cons 0 []) as Hz. rewrite be_value_1 in Hz. unfold zlen in Hz. simpl in Hz. lia.
    - rewrite !be_value_cons, IH. unfold zlen. rewrite length_app, length_drop, Hl.
      replace (Z.of_nat (length t + (12 - 5))) with (Z.of_nat (length t) + 7) by lia. rewrite Z.pow_add_r by lia. lia. }
  pose proof (be_value_bounds (drop 5 n) (Forall_drop _ _ _ Hn)) as Hd. unfold zlen in Hd.
  rewrite length_drop, Hl in Hd. change (256 ^ Z.of_nat (12 - 5)) with (2 ^ 56) in Hd.
  apply be_value_inj; [rewrite length_take, Hl; done|by apply Forall_take| |].
  - apply (Forall_cons_2 is_u8); [destruct half; unfold is_u8; lia|].
    apply Forall_replicate. unfold is_u8. lia.
  - unfold half_base in Hv. destruct half.
    + transitivity (2 ^ 39); [lia|by vm_compute].
    + transitivity 0; [lia|by vm_compute].
Qed.

(** [s] sends to [r]: the same key in [s]'s current slot, opposite halves, and
    [r] has seen no nonce [s] has not used. *)
Definition linked (s r : CryptoCore) : Prop :=
  core_wf s /\ core_wf r /\ nonce_half r = negb (nonce_half s) /\
  exists ks kr, keys s !! Z.to_nat (current_key s) = Some ks /\ keys r !! Z.to_nat (current_key s) = Some kr /\
    ck_key ks = ck_key kr /\ be_value (seen_nonce kr) <= be_value (send_nonce ks) /\
    half_base (nonce_half s) <= be_value (send_nonce ks).

(** The next nonce of [s] can still be transferred. *)
Definition nonce_left (s : CryptoCore) : Prop :=
  forall ks, keys s !! Z.to_nat (current_key s) = Some ks ->
    be_value (send_nonce ks) < half_base (nonce_half s) + 2 ^ 56 - 1.

(** A message [s] has sent: which slot and which nonce it names. *)
Definition sent_by (s : CryptoCore) (half_r : bool) (m : MsgBuffer) : Prop :=
  MsgBuffer.wf m /\ EXTRA_LEN + TAG_LEN <= buf_end m - buf_start m /\
  extra_key_id (MsgBuffer.contents m) = current_key s /\
  forall ks, keys s !! Z.to_nat (current_key s) = Some ks ->
    be_value (extra_nonce half_r (MsgBuffer.contents m)) <= be_value (send_nonce ks).

(** Encrypting advances the link by one nonce; the message names it. *)
Lemma encrypt_linked s r b rs :
  linked s r -> nonce_left s -> MsgBuffer.wf b -> EXTRA_LEN <= buf_start b -> buf_end b + TAG_LEN <= BUFFER_SIZE ->
  exists s' b', encrypt (E := Error) (mkEnv s b rs) = (mkEnv s' b' rs, Ok ()) /\
    linked s' r /\ sent_by s' (nonce_half r) b' /\ current_key s' = current_key s /\
    (forall m, sent_by s (nonce_half r) m -> sent_by s' (nonce_half r) m) /\
    buf_start b' = buf_start b - EXTRA_LEN /\ buf_end b' = buf_end b + TAG_LEN /\ MsgBuffer.wf b' /\
    exists k, keys s' !! Z.to_nat (current_key s) = Some k /\
      (forall kr, keys r !! Z.to_nat (current_key s) = Some kr ->
         ck_key k = ck_key kr /\ be_value (seen_nonce kr) < be_value (send_nonce k)) /\
      extra_nonce (nonce_half r) (MsgBuffer.contents b') = send_nonce k /\
      drop 8 (MsgBuffer.contents b') =
        (seal (algorithm_of (ck_key k)) (key_bytes (ck_key k)) (send_nonce k) (MsgBuffer.contents b)).1 ++
        (seal (algorithm_of (ck_key k)) (key_bytes (ck_key k)) (send_nonce k) (MsgBuffer.contents b)).2.
Proof.
  intros (Hs & Hr & Hh & ks & kr & Hks & Hkr & Hkey & Hseen & Hbase) Hleft Hb Hst Hen. specialize (Hleft ks Hks).
  destruct (encrypt_spec (E := Error) (mkEnv s b rs) Hs Hb Hst Hen) as (k & b' & Hk & Henc). cbn [self out rng] in *.
  rewrite Hks in Hk. injection Hk as <-. cbn zeta in Henc. destruct Henc as (Henc & Hb' & Hc' & Hs' & He' & _).
  pose proof (core_wf_key _ _ _ Hs Hks) as Hkw. pose proof Hkw as (Hsn & _).
  pose proof (increment_wf _ Hsn) as Hn. pose proof Hs as (_ & Hcur & _).
  assert (be_value (Nonce.increment (send_nonce ks)) = be_value (send_nonce ks) + 1) as Hv.
  { apply increment_value; [done|]. unfold half_base in *. destruct (nonce_half s); lia. }
  set (n := Nonce.increment (send_nonce ks)) in *.
  clearbody n. set (k := CryptoKey.set_send_nonce n ks) in *.
  assert (8 <= length (MsgBuffer.contents b'))%nat as Hlen8.
  { rewrite Hc'. cbn [length]. rewrite length_app, length_drop, (proj1 Hn). unfold NONCE_LEN. lia. }
  assert (keys (set_key (current_key s) k s) !! Z.to_nat (current_key s) = Some k) as Hk'.
  { rewrite set_key_lookup by done. by rewrite decide_True. }
  assert (extra_nonce (nonce_half r) (MsgBuffer.contents b') = n) as Hex.
  { rewrite (extra_nonce_shape (nonce_half r) _ Hlen8), Hh, Hc'.
    transitivity ((if nonce_half s then 128 else 0) :: replicate 4 0 ++ drop 5 n);
      [|symmetry; apply transferable; [done|lia]].
    f_equal; [by destruct (nonce_half s)|]. f_equal.
    apply take_app_length'. by rewrite length_drop, (proj1 Hn). }
  exists (set_key (current_key s) k s), b'. split; [done|]. split_and!; try done.
  - split; [apply set_key_wf; [done|by apply set_send_nonce_wf]|]. split; [done|]. split; [done|].
    exists k, kr. cbn [current_key set_key set_keys nonce_half] in *. split; [done|]. subst k. cbn [ck_key send_nonce CryptoKey.set_send_nonce]. split_and!; done || lia.
  - split; [done|]. split; [unfold EXTRA_LEN, TAG_LEN in *; pose proof Hb as (? & ? & ? & ? & ?); lia|]. split.
    + cbn [current_key set_key set_keys]. rewrite Hc'. unfold extra_key_id. cbn [nth]. apply Z.mod_small. lia.
    + intros ks' Hks'.
      change (keys (set_key (current_key s) k s) !! Z.to_nat (current_key s) = Some ks') in Hks'.
      rewrite Hk' in Hks'. injection Hks' as <-. rewrite Hex. done.
  - intros m (Hm1 & Hm2 & Hm3 & Hm4). split; [done|]. split; [done|]. split; [done|].
    intros ks' Hks'.
    change (keys (set_key (current_key s) k s) !! Z.to_nat (current_key s) = Some ks') in Hks'.
    rewrite Hk' in Hks'. injection Hks' as <-. specialize (Hm4 ks Hks). subst k. cbn [send_nonce CryptoKey.set_send_nonce]. lia.
  - exists k. split; [done|]. split; [|split; [done|]].
    { intros kr' Hkr'. rewrite Hkr in Hkr'. injection Hkr' as <-. split; [done|].
      change (send_nonce k) with n. lia. }
    rewrite Hc'.
    exact (drop_app_length' (drop 5 n) _ 7 ltac:(by rewrite length_drop, (proj1 Hn))).
Qed.
End Channel.

Section Session.
Context `{RingLaws}.

(** A new core: four fresh slots, the given key in the first, which sends. *)
Lemma core_new_spec {E} key (half : bool) r :
  exists c r' k, CryptoCore.new (E := E) key half r = (r', Ok c) /\ core_wf c /\
    current_key c = 0 /\ nonce_half c = half /\ keys c !! 0%nat = Some k /\ ck_key k = key /\
    seen_nonce k = Nonce.zero /\
    exists bs, length bs = 6%nat /\ bytes_ok bs /\ send_nonce k = (if half then 128 else 0) :: replicate 5 0 ++ bs.
Proof.
  unfold CryptoCore.new, random_data, random, mbind, ST_bind, lift, unbound_key.
  pose proof (fill_len (key_len (algorithm_of key)) r) as Hl.
  destruct (fill (key_len (algorithm_of key)) r) as [d r0]. cbn [fst] in Hl.
  rewrite decide_True by done.
  destruct (key_new_spec (E := E) key half r0) as (k0 & bs & Hbs & Hob & -> & Hw0 & Hk0 & Hs0 & _ & _ & Hz).
  destruct (key_new_spec (E := E) (mkLessSafeKey (algorithm_of key) d) half (fill 6 r0).2) as (k1 & b1 & _ & _ & -> & Hw1 & _).
  destruct (key_new_spec (E := E) (mkLessSafeKey (algorithm_of key) d) half (fill 6 (fill 6 r0).2).2) as (k2 & b2 & _ & _ & -> & Hw2 & _).
  destruct (key_new_spec (E := E) (mkLessSafeKey (algorithm_of key) d) half (fill 6 (fill 6 (fill 6 r0).2).2).2)
    as (k3 & b3 & _ & _ & -> & Hw3 & _).
  eexists _, _, k0. split; [reflexivity|]. split; [|split_and!; eauto].
  split; [done|]. split; [cbn; lia|]. cbn [keys]. repeat (apply Forall_cons; split; [done|]). constructor.
Qed.

(** A slot that has seen nothing and sends from the low end of its half on. *)
Definition fresh_key (half : bool) k : Prop :=
  key_wf k /\ be_value (seen_nonce k) = 0 /\ half_base half <= be_value (send_nonce k) < half_base half + 2 ^ 48.

Lemma key_new_fresh {E} key half r : exists k r', CryptoKey.new (E := E) key half r = (r', Ok k) /\ ck_key k = key /\ fresh_key half k.
Proof.
  destruct (key_new_spec (E := E) key half r) as (k & bs & Hl & Hb & Hn & Hw & Hk & Hs & _ & _ & Hseen).
  exists k, (fill 6 r).2. split; [exact Hn|]. split; [exact Hk|]. split; [exact Hw|]. rewrite Hseen, zero_value. split; [done|].
  rewrite Hs, be_value_cons. cbn [replicate app]. rewrite !be_value_cons. unfold zlen. cbn [length]. rewrite Hl.
  pose proof (be_value_bounds bs Hb) as Hv. unfold zlen in Hv. rewrite Hl in Hv. unfold half_base. cbn in Hv |- *. destruct half; lia.
Qed.

(** What a new core holds: nothing seen, nothing sent, and keys of one algorithm. *)
Lemma new_core_fresh key half r r' c : CryptoCore.new (E := Error) key half r = (r', Ok c) ->
  core_wf c /\ nonce_half c = half /\ current_key c = 0 /\ forall j k, keys c !! j = Some k -> fresh_key half k /\
    algorithm_of (ck_key k) = algorithm_of key /\ (ck_key k = key \/ length (key_bytes (ck_key k)) = key_len (algorithm_of key)).
Proof.
  unfold CryptoCore.new, random_data, random, mbind, ST_bind, lift, unbound_key.
  pose proof (fill_len (key_len (algorithm_of key)) r) as Hl. destruct (fill (key_len (algorithm_of key)) r) as [d r0]. cbn [fst] in Hl.
  rewrite decide_True by done. set (dummy := mkLessSafeKey (algorithm_of key) d).
  destruct (key_new_fresh (E := Error) key half r0) as (k0 & r1 & -> & E0 & H0k).
  destruct (key_new_fresh (E := Error) dummy half r1) as (k1 & r2 & -> & E1 & H1k).
  destruct (key_new_fresh (E := Error) dummy half r2) as (k2 & r3 & -> & E2 & H2k).
  destruct (key_new_fresh (E := Error) dummy half r3) as (k3 & r4 & -> & E3 & H3k).
  intros [= _ <-].
  assert (Forall (fun k => fresh_key half k /\ algorithm_of (ck_key k) = algorithm_of key /\
    (ck_key k = key \/ length (key_bytes (ck_key k)) = key_len (algorithm_of key))) [k0; k1; k2; k3]) as Hall.
  { repeat (apply Forall_cons; split; [split; [done|]; rewrite ?E0, ?E1, ?E2, ?E3; split; [done|first [by left|by right]]|]). by apply Forall_nil. }
  split; [|split; [done|split; [done|intros j k Hk; exact (Forall_lookup_1 _ _ _ _ Hall Hk)]]].
  split; [done|]. split; [cbn; lia|]. eapply Forall_impl; [exact Hall|]. by intros k [[Hk _] _].
Qed.

Inductive session : CryptoCore -> CryptoCore -> list MsgBuffer -> Prop :=
| ses_new key half r1 r2 s r r1' r2' :
    CryptoCore.new (E := Error) key half r1 = (r1', Ok s) ->
    CryptoCore.new (E := Error) key (negb half) r2 = (r2', Ok r) ->
    session s r []
| ses_send s r sent b rs e' :
    session s r sent -> nonce_left s ->
    MsgBuffer.wf b -> EXTRA_LEN <= buf_start b -> buf_end b + TAG_LEN <= BUFFER_SIZE ->
    encrypt (E := Error) (mkEnv s b rs) = (e', Ok ()) ->
    session (self e') r (out e' :: sent)
| ses_deliver s r sent m rr e' res :
    session s r sent -> m ∈ sent -> decrypt (mkEnv r m rr) = (e', res) -> session s (self e') sent
| ses_second_sender s r sent : session s r sent -> session (every_second s) r sent
| ses_second_receiver s r sent : session s r sent -> session s (every_second r) sent.

Lemma linked_new key half r1 r2 s r r1' r2' :
  CryptoCore.new (E := Error) key half r1 = (r1', Ok s) ->
  CryptoCore.new (E := Error) key (negb half) r2 = (r2', Ok r) -> linked s r.
Proof.
  intros H1 H2. destruct (core_new_spec (E := Error) key half r1) as (c & r' & ks & Hn & Hw & Hc & Hh & Hk & Hkey & _ & bs & Hbs & Hob & Hsend).
  rewrite H1 in Hn. injection Hn as -> ->.
  destruct (core_new_spec (E := Error) key (negb half) r2) as (c2 & r'2 & kr & Hn2 & Hw2 & Hc2 & Hh2 & Hk2 & Hkey2 & Hseen & _).
  rewrite H2 in Hn2. injection Hn2 as -> ->.
  split; [done|]. split; [done|]. split; [congruence|]. exists ks, kr. rewrite Hc, Hh. change (Z.to_nat 0) with 0%nat.
  split; [done|]. split; [done|]. split; [congruence|]. rewrite Hseen, zero_value.
  assert (half_base half <= be_value (send_nonce ks)); [|split; [|done]; unfold half_base in *; destruct half; lia].
  rewrite Hsend, be_value_cons. unfold zlen. rewrite length_app, length_replicate, Hbs.
  assert (bytes_ok (replicate 5 0 ++ bs)) as Hr by (apply Forall_app; split; [apply Forall_replicate; unfold is_u8; lia|done]).
  pose proof (be_value_bounds _ Hr). unfold half_base. change (256 ^ Z.of_nat (5 + 6)) with (2 ^ 88). destruct half; lia.
Qed.

Lemma linked_deliver s r m rr :
  linked s r -> sent_by s (nonce_half r) m ->
  linked s (self (decrypt (mkEnv r m rr)).1) /\ nonce_half (self (decrypt (mkEnv r m rr)).1) = nonce_half r.
Proof.
  intros (Hs & Hr & Hh & ks & kr & Hks & Hkr & Hkey & Hseen & Hbase) (Hm & Hlen & Hid & Hnm).
  destruct (decrypt_spec (mkEnv r m rr) Hr Hm Hlen) as (k & Hk & Hkw & Hd). cbn [self out rng] in *. cbn zeta in Hd.
  pose proof (length_contents m Hm) as Hlc. unfold zlen, EXTRA_LEN, TAG_LEN in *.
  destruct (extra_nonce_wf (nonce_half r) (MsgBuffer.contents m) ltac:(lia) (contents_bytes_ok m Hm)) as [Hn Hnv].
  pose proof (decrypt_with_key_spec k _ (drop 8 (MsgBuffer.contents m)) Hkw Hn Hnv (Forall_drop _ _ _ (contents_bytes_ok m Hm))) as Hsp.
  rewrite Hid in *. rewrite Hkr in Hk. injection Hk as <-.
  destruct (decrypt_with_key kr _ _) as [[k' d] res]. destruct Hd as (b' & -> & Hkw' & _). cbn [self fst].
  destruct Hsp as (_ & Hck & _ & _ & _ & _ & _ & Hor & _). specialize (Hnm ks Hks).
  split; [|done]. split; [done|]. split; [by apply set_key_wf|]. split; [done|]. pose proof Hs as (_ & Hcur & _).
  exists ks, k'. split; [done|]. split; [rewrite set_key_lookup by done; by rewrite decide_True|].
  split; [congruence|]. split; [lia|done].
Qed.

Lemma linked_second_sender s r : linked s r -> linked (every_second s) r.
Proof.
  intros (Hs & Hr & Hh & ks & kr & Hks & Hkr & Hkey & Hseen & Hbase).
  split; [by apply every_second_wf|]. split; [done|]. split; [done|].
  exists (CryptoKey.update_min_nonce ks), kr. cbn [every_second set_keys keys current_key nonce_half].
  by rewrite list_lookup_fmap, Hks.
Qed.
Lemma linked_second_receiver s r : linked s r -> linked s (every_second r).
Proof.
  intros (Hs & Hr & Hh & ks & kr & Hks & Hkr & Hkey & Hseen & Hbase).
  split; [done|]. split; [by apply every_second_wf|]. split; [done|].
  exists ks, (CryptoKey.update_min_nonce kr). cbn [every_second set_keys keys current_key nonce_half].
  by rewrite list_lookup_fmap, Hkr.
Qed.

Lemma sent_by_second s half m : sent_by s half m -> sent_by (every_second s) half m.
Proof.
  intros (H1 & H2 & H3 & H4). split; [done|]. split; [done|]. split; [done|]. intros ks Hks.
  cbn [every_second set_keys keys current_key] in Hks. rewrite list_lookup_fmap in Hks.
  destruct (keys s !! Z.to_nat (current_key s)) as [k|] eqn:Hk; [|done]. injection Hks as <-. exact (H4 k eq_refl).
Qed.

Lemma session_linked s r sent : session s r sent -> linked s r /\ Forall (sent_by s (nonce_half r)) sent.
Proof.
  induction 1 as [key half r1 r2 s r r1' r2' H1 H2|s r sent b rs e' Hses [IHl IHs] Hleft Hb Hst Hen Henc
    |s r sent m rr e' res Hses [IHl IHs] Hm Hd|s r sent Hses [IHl IHs]|s r sent Hses [IHl IHs]].
  - split; [by eapply linked_new|constructor].
  - destruct (encrypt_linked s r b rs IHl Hleft Hb Hst Hen) as (s' & b' & He & Hl & Hsent & _ & Hkeep & _).
    rewrite He in Henc. injection Henc as <-. cbn [self out]. split; [done|]. constructor; [done|].
    eapply Forall_impl; [exact IHs|]. exact Hkeep.
  - rewrite Forall_forall in IHs. destruct (linked_deliver s r m rr IHl (IHs m Hm)) as [Hl Hh]. rewrite Hd in Hl, Hh. cbn [fst] in *.
    split; [done|]. rewrite Hh. by apply Forall_forall.
  - split; [by apply linked_second_sender|]. eapply Forall_impl; [exact IHs|]. intros m. apply sent_by_second.
  - split; [by apply linked_second_receiver|done].
Qed.

Lemma new_nonce_left key half r r' c :
  CryptoCore.new (E := Error) key half r = (r', Ok c) -> nonce_left c.
Proof.
  intros Hn. destruct (core_new_spec (E := Error) key half r) as (c' & r2 & k & Hn' & _ & Hc & Hh & Hk & _ & _ & bs & Hbs & Hob & Hsend).
  rewrite Hn in Hn'. injection Hn' as -> ->. intros ks Hks. rewrite Hc in Hks. change (Z.to_nat 0) with 0%nat in Hks.
  rewrite Hk in Hks. injection Hks as <-. rewrite Hh, Hsend. cbn [replicate app]. rewrite !be_value_cons. unfold zlen.
  cbn [length]. rewrite Hbs. pose proof (be_value_bounds bs Hob) as Hv. unfold zlen in Hv. rewrite Hbs in Hv.
  unfold half_base. cbn in Hv |- *. destruct half; lia.
Qed.

(** What a link looks at: the sender's keys and send nonces, the receiver's keys
    and seen nonces. *)
Lemma linked_slots s r s' r' :
  linked s r -> core_wf s' -> core_wf r' -> current_key s' = current_key s ->
  nonce_half s' = nonce_half s -> nonce_half r' = nonce_half r ->
  (forall i k, keys s !! i = Some k -> exists k', keys s' !! i = Some k' /\ ck_key k' = ck_key k /\ send_nonce k' = send_nonce k) ->
  (forall i k, keys r !! i = Some k -> exists k', keys r' !! i = Some k' /\ ck_key k' = ck_key k /\ seen_nonce k' = seen_nonce k) ->
  linked s' r'.
Proof.
  intros (Hs & Hr & Hh & ks & kr & Hks & Hkr & Hkey & Hseen & Hbase) Hs' Hr' Hc Hhs Hhr Hks' Hkr'.
  split; [done|]. split; [done|]. split; [congruence|].
  destruct (Hks' _ _ Hks) as (ks' & Hl1 & He1 & He2). destruct (Hkr' _ _ Hkr) as (kr' & Hl2 & He3 & He4).
  exists ks', kr'. rewrite Hc, Hhs, He2, He4. split_and!; done || congruence.
Qed.

Lemma set_key_slots c i k0 (P : CryptoKey -> CryptoKey -> Prop) :
  core_wf c -> 0 <= i < 4 -> (forall k, P k k) -> (forall k, keys c !! Z.to_nat i = Some k -> P k0 k) ->
  forall j k, keys c !! j = Some k -> exists k', keys (set_key i k0 c) !! j = Some k' /\ P k' k.
Proof.
  intros Hc Hi Hrefl Hk0 j k Hk. cbn [set_key set_keys keys]. destruct (decide (j = Z.to_nat i)) as [->|Hne].
  - exists k0. split; [|by apply Hk0]. apply list_lookup_insert_eq. by apply lookup_lt_Some in Hk.
  - exists k. split; [|done]. by rewrite list_lookup_insert_ne.
Qed.

(** A message just encrypted opens at the receiver, from any buffer that holds
    it, and both directions stay linked. *)
Lemma transfer s r b rs :
  linked s r -> nonce_left s -> MsgBuffer.wf b -> EXTRA_LEN <= buf_start b -> buf_end b + TAG_LEN <= BUFFER_SIZE ->
  exists s' b', encrypt (E := Error) (mkEnv s b rs) = (mkEnv s' b' rs, Ok ()) /\ MsgBuffer.wf b' /\
    buf_start b' = buf_start b - EXTRA_LEN /\ buf_end b' = buf_end b + TAG_LEN /\
    forall m rr, MsgBuffer.wf m -> MsgBuffer.contents m = MsgBuffer.contents b' ->
    exists r' b'', decrypt (mkEnv r m rr) = (mkEnv r' b'' rr, Ok ()) /\ MsgBuffer.wf b'' /\
      MsgBuffer.contents b'' = MsgBuffer.contents b /\ buf_start b'' = buf_start m + EXTRA_LEN /\
      linked s' r' /\ (linked r s -> linked r' s').
Proof.
  intros Hl Hleft Hb Hst Hen. pose proof Hl as (Hs & Hr & _ & ks0 & _ & Hks0 & _).
  destruct (encrypt_linked s r b rs Hl Hleft Hb Hst Hen)
    as (s' & b' & He & Hl' & Hsent & Hcur & _ & Hs' & He' & Hb' & k & Hk & Hkr' & Hex & Hdrop).
  exists s', b'. split; [done|]. split; [done|]. split; [done|]. split; [done|]. intros m rr Hm Hcm.
  pose proof Hsent as (Hbw & Hlen & Hid & Hnm).
  assert (sent_by s' (nonce_half r) m) as Hsentm.
  { split; [done|]. rewrite Hcm. split; [|done].
    pose proof (length_contents m Hm) as H1. pose proof (length_contents b' Hbw) as H2. rewrite Hcm in H1. lia. }
  destruct (linked_deliver s' r m rr Hl' Hsentm) as [Hfwd _].
  destruct Hl as (_ & _ & _ & _ & kr & _ & Hkr & _). destruct (Hkr' kr Hkr) as [Hkey Hlt].
  destruct Hsentm as (_ & Hlenm & Hidm & _).
  destruct (decrypt_spec (mkEnv r m rr) Hr Hm Hlenm) as (k2 & Hk2 & Hkw & Hd). cbn [self out rng] in *. cbn zeta in Hd.
  rewrite Hidm, Hcur, Hkr in Hk2. injection Hk2 as <-. rewrite Hcm, Hex, Hdrop in Hd.
  pose proof Hkw as (H1 & H2 & H3 & H4 & H5 & H6).
  pose proof (length_contents b' Hbw) as Hlc. pose proof (length_contents b Hb) as Hlb. unfold zlen, EXTRA_LEN, TAG_LEN in *.
  destruct (extra_nonce_wf (nonce_half r) (MsgBuffer.contents b') ltac:(lia) (contents_bytes_ok b' Hbw)) as [Hn Hnv].
  rewrite Hex in Hn, Hnv. pose proof (ltb_nonce _ _ Hn H2) as Hltb.
  assert (bytes_ok (drop 8 (MsgBuffer.contents b'))) as Hdo by (apply Forall_drop; by apply contents_bytes_ok).
  rewrite Hdrop in Hdo.
  pose proof (decrypt_with_key_spec kr (send_nonce k) _ Hkw Hn Hnv Hdo) as Hsp.
  unfold decrypt_with_key in Hd, Hsp.
  destruct (Nonce.ltb (send_nonce k) (min_nonce kr)).
  { assert (be_value (send_nonce k) < be_value (min_nonce kr)) by (by apply Hltb). lia. }
  rewrite <- Hkey in Hd, Hsp.
  destruct (open_sealed (algorithm_of (ck_key k)) (key_bytes (ck_key k)) (send_nonce k) (MsgBuffer.contents b)) as [rest Ho].
  rewrite Ho in Hd, Hsp. destruct Hd as (b'' & Hd & Hkw' & Hb'' & Hc'' & Hs'' & _). rewrite Hd in Hfwd.
  destruct Hsp as (_ & Hck & Hsn & _).
  eexists _, b''. split; [exact Hd|]. split; [done|].
  split; [rewrite Hc''; apply take_app_length'; lia|]. split; [lia|]. split; [exact Hfwd|].
  intros Hback. destruct (encrypt_spec (E := Error) (mkEnv s b rs) Hs Hb Hst Hen) as (k3 & b3 & Hk3 & Henc). cbn [self out rng] in *.
  cbn zeta in Henc. destruct Henc as (Henc & _). rewrite He in Henc. apply (f_equal fst) in Henc. cbn [fst] in Henc.
  apply (f_equal self) in Henc. cbn [self] in Henc. subst s'. pose proof Hs as (_ & Hsc & _). pose proof (extra_key_id_range (MsgBuffer.contents b')) as Hrange.
  eapply (linked_slots r s); [exact Hback|by apply set_key_wf|apply Hl'|done|done|done| |].
  - apply (set_key_slots r _ _ (fun k' k => ck_key k' = ck_key k /\ send_nonce k' = send_nonce k)); [done|done|done|].
    intros k4 Hk4. rewrite Hid in Hk4. cbn [set_key set_keys current_key] in Hk4. rewrite Hkr in Hk4. injection Hk4 as <-. split; [congruence|done].
  - apply (set_key_slots s _ _ (fun k' k => ck_key k' = ck_key k /\ seen_nonce k' = seen_nonce k)); [done|done|done|].
    intros k4 Hk4. rewrite Hk3 in Hk4. by injection Hk4 as <-.
Qed.

(** The message just encrypted opens at the receiver. *)
Lemma decrypt_fresh s r b rs rr :
  linked s r -> nonce_left s -> MsgBuffer.wf b -> EXTRA_LEN <= buf_start b -> buf_end b + TAG_LEN <= BUFFER_SIZE ->
  exists e' e'', encrypt (E := Error) (mkEnv s b rs) = (e', Ok ()) /\
    decrypt (mkEnv r (out e') rr) = (e'', Ok ()) /\ MsgBuffer.wf (out e'') /\
    MsgBuffer.contents (out e'') = MsgBuffer.contents b /\ buf_start (out e'') = buf_start b.
Proof.
  intros Hl Hleft Hb Hst Hen. destruct (transfer s r b rs Hl Hleft Hb Hst Hen) as (s' & b' & He & Hb' & Hs' & _ & Hd).
  destruct (Hd b' rr Hb' eq_refl) as (r' & b'' & Hdec & Hb'' & Hc'' & Hs'' & _).
  eexists _, _. split; [exact He|]. split; [exact Hdec|]. cbn [out]. split; [done|]. split; [done|]. lia.
Qed.
End Session.

(** ** Properties *)

(** [increment] adds one to the 96-bit number a nonce stands for, wrapping
    at its end, and the order nonces are compared with is the numeric one. *)
Theorem nonce_increment_spec (a b : bytes) :
  nonce_wf a -> nonce_wf b ->
  nonce_wf (Nonce.increment a) /\
  be_value (Nonce.increment a) = (be_value a + 1) mod 2 ^ 96 /\
  (Nonce.ltb a b = true <-> be_value a < be_value b).
Proof.
  intros Ha Hb. split; [by apply increment_wf|]. split; [|by apply ltb_nonce].
  by rewrite increment_spec, be_value_be_bytes by done.
Qed.

Definition nonce_255 : bytes := replicate 11 0 ++ [255].
Lemma nonce_255_wf : nonce_wf nonce_255.
Proof. split; [done|]. apply (bool_decide_unpack _). vm_compute. exact I. Qed.

Lemma nonce_increment_spec_witness :
  Nonce.increment nonce_255 = replicate 10 0 ++ [1; 0] /\
  be_value (Nonce.increment nonce_255) = (be_value nonce_255 + 1) mod 2 ^ 96.
Proof.
  split; [vm_compute; reflexivity|].
  exact (proj1 (proj2 (nonce_increment_spec nonce_255 Nonce.zero nonce_255_wf zero_wf))).
Defined.

(** The nonce a slot uses for its [i]-th message ([0] is its first). *)
Definition nth_nonce (k : CryptoKey) (i : nat) : bytes := Nat.iter (S i) Nonce.increment (send_nonce k).

Section NonceReuse.
Context `{RingLaws}.

Lemma nth_nonce_value (half : bool) key r r' k i :
  CryptoKey.new (E := Error) key half r = (r', Ok k) -> Z.of_nat i < 2 ^ 87 ->
  exists m, 0 <= m < 2 ^ 48 /\ nonce_wf (nth_nonce k i) /\
    be_value (nth_nonce k i) = half_base half + m + Z.of_nat i + 1 /\
    be_value (send_nonce k) = half_base half + m.
Proof.
  intros Hk Hi. destruct (key_new_spec (E := Error) key half r) as (k0 & bs & Hbs & Hob & Hn & Hw & _ & Hs & _).
  rewrite Hk in Hn. injection Hn as -> ->. destruct Hw as (Hsn & _).
  exists (be_value bs). pose proof (be_value_bounds bs Hob) as Hb. unfold zlen in Hb. rewrite Hbs in Hb.
  change (256 ^ Z.of_nat 6) with (2 ^ 48) in Hb. split; [done|].
  assert (be_value (send_nonce k0) = half_base half + be_value bs) as Hv.
  { rewrite Hs. cbn [replicate app]. rewrite !be_value_cons. unfold zlen. cbn [length]. rewrite Hbs.
    unfold half_base. cbn. destruct half; lia. }
  assert (forall j, (j <= S i)%nat -> nonce_wf (Nat.iter j Nonce.increment (send_nonce k0)) /\
    be_value (Nat.iter j Nonce.increment (send_nonce k0)) = half_base half + be_value bs + Z.of_nat j) as Hj.
  { intros j. induction j as [|j IH]; intros Hle; [split; [done|]; cbn; lia|].
    destruct IH as [IHw IHv]; [lia|]. cbn [Nat.iter nat_rect]. split; [by apply increment_wf|].
    change (nat_rect _ _ _ j) with (Nat.iter j Nonce.increment (send_nonce k0)).
    rewrite increment_value; [lia|done|]. unfold half_base in *. destruct half; lia. }
  destruct (Hj (S i) (le_n _)) as [Hw' Hv']. split; [done|]. split; [|done]. unfold nth_nonce. rewrite Hv'. lia.
Qed.

(** No nonce is used twice under one key: of two cores that share a key
    with opposite halves, the first 2^87 nonces of one never meet those of the
    other, whatever random numbers both started from, and no core repeats a
    nonce of its own. *)
Theorem nonces_never_reused (key : LessSafeKey) (ra rb ra' rb' : Rng) (a b : CryptoKey) (i j : nat) :
  CryptoKey.new (E := Error) key true ra = (ra', Ok a) ->
  CryptoKey.new (E := Error) key false rb = (rb', Ok b) ->
  Z.of_nat i < 2 ^ 87 -> Z.of_nat j < 2 ^ 87 ->
  nth_nonce a i <> nth_nonce b j /\
  (i <> j -> nth_nonce a i <> nth_nonce a j /\ nth_nonce b i <> nth_nonce b j).
Proof.
  intros Ha Hb Hi Hj.
  destruct (nth_nonce_value true key ra ra' a i Ha Hi) as (m & Hm & _ & Hai & Has).
  destruct (nth_nonce_value true key ra ra' a j Ha Hj) as (m' & Hm' & _ & Haj & Has').
  destruct (nth_nonce_value false key rb rb' b i Hb Hi) as (p & Hp & _ & Hbi & Hbs).
  destruct (nth_nonce_value false key rb rb' b j Hb Hj) as (p' & Hp' & _ & Hbj & Hbs').
  unfold half_base in *. split.
  - intros He. apply (f_equal be_value) in He. lia.
  - intros Hne. split; intros He; apply (f_equal be_value) in He; lia.
Qed.
End NonceReuse.

(** The toy key of the witnesses. *)
Definition toy_key : LessSafeKey := mkLessSafeKey AES_128_GCM (replicate 16 5).
Definition toy_slot (half : bool) : CryptoKey :=
  match (CryptoKey.new (E := Error) toy_key half (toy_rng 3)).2 with
  | Ok k => k
  | _ => mkCryptoKey toy_key [] [] [] []
  end.

Lemma nonces_never_reused_witness :
  nth_nonce (toy_slot true) 4 <> nth_nonce (toy_slot false) 4 /\
  (4%nat <> 5%nat -> nth_nonce (toy_slot true) 4 <> nth_nonce (toy_slot true) 5 /\
                     nth_nonce (toy_slot false) 4 <> nth_nonce (toy_slot false) 5) /\
  nth_nonce (toy_slot true) 4 <> nth_nonce (toy_slot false) 5.
Proof.
  split; [|split].
  - apply (nonces_never_reused toy_key (toy_rng 3) (toy_rng 3) (toy_rng 4) (toy_rng 4) (toy_slot true) (toy_slot false) 4 4);
      [vm_compute; reflexivity..|lia|lia].
  - intros H. exact (proj2 (nonces_never_reused toy_key (toy_rng 3) (toy_rng 3) (toy_rng 4) (toy_rng 4) (toy_slot true) (toy_slot false) 4 5
      ltac:(vm_compute; reflexivity) ltac:(vm_compute; reflexivity) ltac:(lia) ltac:(lia)) H).
  - apply (nonces_never_reused toy_key (toy_rng 3) (toy_rng 3) (toy_rng 4) (toy_rng 4) (toy_slot true) (toy_slot false) 4 5);
      [vm_compute; reflexivity..|lia|lia].
Defined.

Section CoreProperties.
Context `{RingLaws}.

(** What one core encrypts the other decrypts, over any network: however
    messages sent before were lost, duplicated or reordered and whatever seconds
    passed on either side, the next message that is delivered when sent is
    accepted and opens to exactly what was encrypted, in the same place of the
    buffer, as long as the sender's nonce still fits its seven transferred
    bytes. *)
Theorem core_channel (s r : CryptoCore) (sent : list MsgBuffer) (b : MsgBuffer) (rs rr : Rng) :
  session s r sent -> nonce_left s ->
  MsgBuffer.wf b -> EXTRA_LEN <= buf_start b -> buf_end b + TAG_LEN <= BUFFER_SIZE ->
  exists e' e'', CryptoCore.encrypt (E := Error) (mkEnv s b rs) = (e', Ok ()) /\
    CryptoCore.decrypt (mkEnv r (out e') rr) = (e'', Ok ()) /\ MsgBuffer.wf (out e'') /\
    MsgBuffer.contents (out e'') = MsgBuffer.contents b /\ buf_start (out e'') = buf_start b.
Proof. intros Hses Hleft Hb Hst Hen. apply session_linked in Hses as [Hl _]. by apply decrypt_fresh. Qed.

(** C12: replayed messages are refused: once a message has been accepted, then
    after two seconds' ticks, whatever else was encrypted, decrypted or rotated
    in between (but for the slot itself), the same message is rejected as old. *)
Theorem replay_rejected (c : CryptoCore) (r : Rng) (m m' : MsgBuffer) (e1 : Env CryptoCore) (ops : list core_op) (r' : Rng) :
  core_wf c -> MsgBuffer.wf m -> MsgBuffer.wf m' ->
  CryptoCore.decrypt (mkEnv c m r) = (e1, Ok ()) ->
  Forall core_op_wf ops -> Forall (keeps_slot (CryptoCore.extra_key_id (MsgBuffer.contents m))) ops ->
  (2 <= seconds ops)%nat ->
  MsgBuffer.contents m' = MsgBuffer.contents m ->
  (CryptoCore.decrypt (mkEnv (run_core (self e1, rng e1) ops).1 m' r')).2 = Err (Crypto "Old nonce rejected").
Proof.
  intros Hc Hm Hm' Hd Hops Hslot Hsec Hsame.
  destruct (decide (EXTRA_LEN + TAG_LEN <= buf_end m - buf_start m)) as [Hl|Hl].
  2: { rewrite (decrypt_short (mkEnv c m r)) in Hd by (cbn [out]; done || lia). discriminate. }
  destruct (decrypt_spec (mkEnv c m r) Hc Hm Hl) as (k & Hk & Hkw & Hs). cbn [self out rng] in *. cbn zeta in Hs.
  set (msg := MsgBuffer.contents m) in *. pose proof (extra_key_id_range msg) as Hr.
  pose proof (length_contents m Hm) as Hlc. pose proof (length_contents m' Hm') as Hlc'. rewrite Hsame in Hlc'. fold msg in Hlc, Hlc'.
  unfold zlen, EXTRA_LEN, TAG_LEN in *.
  destruct (extra_nonce_wf (nonce_half c) msg ltac:(lia) (contents_bytes_ok m Hm)) as [Hn Hnv].
  pose proof (decrypt_with_key_spec k _ (drop 8 msg) Hkw Hn Hnv (Forall_drop _ _ _ (contents_bytes_ok m Hm))) as Hsp.
  destruct (decrypt_with_key k _ (drop 8 msg)) as [[k' d] res]. destruct Hs as (b' & Hd' & Hkw' & _).
  rewrite Hd in Hd'. injection Hd' as -> <-. destruct Hsp as (_ & _ & _ & _ & _ & _ & Hok & _). specialize (Hok eq_refl).
  cbn [self rng] in *.
  destruct (run_core_pins ops (extra_key_id msg) (be_value (extra_nonce (nonce_half c) msg))
    (set_key (extra_key_id msg) k' c, r) 0 k') as ([Hw2 Hhalf] & k2 & Hk2 & Hp); try done.
  { by apply set_key_wf. }
  { cbn [fst]. rewrite set_key_lookup by done. by rewrite decide_True. }
  { split; [done|]. split; lia. }
  destruct Hp as (_ & _ & Hp). specialize (Hp Hsec).
  set (c2 := (run_core _ ops).1) in *.
  destruct (decrypt_spec (mkEnv c2 m' r') Hw2 Hm' ltac:(cbn [out]; unfold EXTRA_LEN, TAG_LEN; lia)) as (k3 & Hk3 & Hkw3 & Hs3).
  cbn [self out rng] in *. cbn zeta in Hs3. rewrite Hsame in Hk3, Hs3. rewrite Hk2 in Hk3. injection Hk3 as <-.
  change (nonce_half c2 = nonce_half c) in Hhalf. rewrite Hhalf in Hs3. unfold decrypt_with_key in Hs3.
  destruct Hkw3 as (_ & Hmin & _). pose proof (ltb_nonce _ _ Hn Hmin) as Hlt.
  rewrite (proj2 Hlt Hp) in Hs3. destruct Hs3 as (b3 & -> & _). done.
Qed.

(** A message too short for key id, nonce and tag does not fail to decrypt,
    it stops the program ([assert!] in [decrypt]). *)
Theorem short_message_panics (c : CryptoCore) (m : MsgBuffer) (r : Rng) :
  MsgBuffer.wf m -> buf_end m - buf_start m < EXTRA_LEN + TAG_LEN ->
  CryptoCore.decrypt (mkEnv c m r) = (mkEnv c m r, Panic).
Proof. intros Hm Hl. by apply decrypt_short. Qed.
End CoreProperties.

(** A pair of toy cores, a message between them and its replay. *)
Definition toy_core (half : bool) : CryptoCore :=
  match (CryptoCore.new (E := Error) toy_key half (toy_rng 3)).2 with
  | Ok c => c
  | _ => mkCryptoCore [] 0 half
  end.
Definition toy_message : MsgBuffer :=
  match (MsgBuffer.clone_from (E := Error) [1; 2; 3] (MsgBuffer.new 100)) with (b, _) => b end.
Definition toy_sent : MsgBuffer := out (CryptoCore.encrypt (E := Error) (mkEnv (toy_core true) toy_message (toy_rng 9))).1.
Definition toy_received : Env CryptoCore := (CryptoCore.decrypt (mkEnv (toy_core false) toy_sent (toy_rng 9))).1.

Lemma new_core_wf half c r : (CryptoCore.new (E := Error) toy_key half (toy_rng 3)) = (r, Ok c) -> core_wf c.
Proof.
  intros H. destruct (core_new_spec (E := Error) toy_key half (toy_rng 3)) as (c' & r' & k & Hn & Hw & _).
  rewrite H in Hn. by injection Hn as -> ->.
Qed.

Lemma toy_message_wf : MsgBuffer.wf toy_message.
Proof. apply (bool_decide_unpack _). vm_compute. exact I. Qed.
Lemma toy_sent_wf : MsgBuffer.wf toy_sent.
Proof. apply (bool_decide_unpack _). vm_compute. exact I. Qed.

Lemma core_channel_witness :
  exists e' e'', CryptoCore.encrypt (E := Error) (mkEnv (toy_core true) toy_message (toy_rng 9)) = (e', Ok ()) /\
    CryptoCore.decrypt (mkEnv (toy_core false) (out e') (toy_rng 9)) = (e'', Ok ()) /\ MsgBuffer.wf (out e'') /\
    MsgBuffer.contents (out e'') = MsgBuffer.contents toy_message /\ buf_start (out e'') = buf_start toy_message.
Proof.
  apply (core_channel (toy_core true) (toy_core false) [] toy_message (toy_rng 9) (toy_rng 9)).
  - eapply (ses_new toy_key true (toy_rng 3) (toy_rng 3)); vm_compute; reflexivity.
  - intros ks Hks. vm_compute in Hks. injection Hks as <-. vm_compute. reflexivity.
  - apply toy_message_wf.
  - vm_compute. discriminate.
  - vm_compute. discriminate.
Defined.

Lemma toy_received_ok : (CryptoCore.decrypt (mkEnv (toy_core false) toy_sent (toy_rng 9))).2 = Ok ().
Proof. vm_compute. reflexivity. Qed.

Lemma replay_rejected_witness :
  (CryptoCore.decrypt (mkEnv (run_core (self toy_received, rng toy_received) [OpSecond; OpSecond]).1 toy_sent (toy_rng 9))).2
    = Err (Crypto "Old nonce rejected").
Proof.
  apply (replay_rejected (toy_core false) (toy_rng 9) toy_sent toy_sent toy_received [OpSecond; OpSecond] (toy_rng 9)).
  - eapply (new_core_wf false). vm_compute. reflexivity.
  - apply toy_sent_wf.
  - apply toy_sent_wf.
  - exact (pair_snd (CryptoCore.decrypt (mkEnv (toy_core false) toy_sent (toy_rng 9))) (Ok ()) toy_received_ok).
  - repeat constructor.
  - repeat constructor.
  - apply le_n.
  - reflexivity.
Defined.

Lemma short_message_panics_witness :
  CryptoCore.decrypt (mkEnv (toy_core true) toy_message (toy_rng 9)) = (mkEnv (toy_core true) toy_message (toy_rng 9), Panic).
Proof. apply short_message_panics; [apply toy_message_wf|vm_compute; reflexivity]. Defined.
