(* ===== verification/Speed.v ===== *)
(** * The speed test of a cipher (src/src/crypto/core.rs)

    [test_speed] seals and opens the same kilobyte in batches of a thousand until
    the time is over. How often the clock says that there is time left is an
    argument; dividing the bytes by the seconds is left to the caller. *)

From S2P Require Import Prelude Errors Util Ring Core.

Section Speed.
Context `{Ring}.

(** [sender.encrypt(&mut buffer); receiver.decrypt(&mut buffer).unwrap()]. *)
Definition seal_and_open : ST (Env (CryptoCore * CryptoCore)) Error unit :=
  on_part fst (fun s p => (s, p.2)) CryptoCore.encrypt ;;
  res ← catch (on_part snd (fun r p => (p.1, r)) CryptoCore.decrypt);
  match res with Ok _ => mret () | _ => panic end.

Fixpoint rounds (n : nat) : ST (Env (CryptoCore * CryptoCore)) Error unit :=
  match n with
  | O => mret ()
  | S n => seal_and_open ;; rounds n
  end.

(** [iterations] is an [i32]. *)
Definition as_i32 (z : Z) : Z := (z + 2 ^ 31) mod 2 ^ 32 - 2 ^ 31.

(** One batch each time the clock says that there is time left. *)
Fixpoint batches (turns : nat) (iterations : Z) : ST (Env (CryptoCore * CryptoCore)) Error Z :=
  match turns with
  | O => mret iterations
  | S turns => rounds 1000 ;; batches turns (as_i32 (iterations + 1000))
  end.

(** The bytes that went through the cipher. *)
Definition test_speed (algo : Algorithm) (turns : nat) : ST Rng Error Z :=
  let buffer := MsgBuffer.set_length 1000 (MsgBuffer.new EXTRA_LEN) in
  pair ← CryptoCore.create_dummy_pair algo;
  iterations ← zoom (fun r => mkEnv pair buffer r) (fun e _ => rng e) (batches turns 0);
  mret (as_i32 (iterations * 1000 * 2)).

End Speed.

Section Completes.
Context `{RingLaws}.

(** Ready for [m] more rounds. *)
Definition speed_ok (m : Z) (e : Env (CryptoCore * CryptoCore)) : Prop :=
  linked (self e).1 (self e).2 /\
  (forall ks, keys (self e).1 !! Z.to_nat (current_key (self e).1) = Some ks ->
     be_value (send_nonce ks) + m < half_base (nonce_half (self e).1) + 2 ^ 56) /\
  MsgBuffer.wf (out e) /\ buf_start (out e) = EXTRA_LEN /\ buf_end (out e) = EXTRA_LEN + 1000.

Lemma seal_and_open_ok m e : 0 <= m -> speed_ok (m + 1) e -> exists e', seal_and_open e = (e', Ok ()) /\ speed_ok m e' /\ rng e' = rng e.
Proof.
  destruct e as [[s r] b g]. unfold speed_ok. cbn [self out rng fst snd]. intros Hm (Hl & Hroom & Hb & Hst & Hen).
  assert (nonce_left s) as Hleft by (intros ks Hks; specialize (Hroom ks Hks); lia).
  assert (EXTRA_LEN <= buf_start b) as Hs by lia. assert (buf_end b + TAG_LEN <= BUFFER_SIZE) as He by (rewrite Hen; unfold EXTRA_LEN, TAG_LEN, BUFFER_SIZE; lia).
  destruct (transfer s r b g Hl Hleft Hb Hs He) as (s' & b' & Henc & Hb' & Hst' & Hen' & Hdec).
  destruct (Hdec b' g Hb' eq_refl) as (r' & b'' & Hd & Hb'' & Hc'' & Hst'' & Hl' & _).
  exists (mkEnv (s', r') b'' g). split.
  { unfold seal_and_open, mbind, ST_bind, on_part, zoom, catch. cbn [self out rng fst snd]. rewrite Henc. cbn [self out rng fst snd]. by rewrite Hd. }
  split; [|done]. cbn [self out rng fst snd]. split; [exact Hl'|]. split; [|split; [exact Hb''|split; [lia|]]].
  2: { pose proof (length_contents b Hb) as L1. pose proof (length_contents b'' Hb'') as L2. rewrite Hc'' in L2. lia. }
  intros ks Hks. destruct Hl as (Hw & _ & _ & k0 & _ & Hk0 & _ & _ & _ & Hbase).
  destruct (encrypt_spec (E := Error) (mkEnv s b g) Hw Hb Hs He) as (k & b1 & Hk & Henc1 & _). cbn [self out rng] in *.
  rewrite Henc in Henc1. apply (f_equal fst) in Henc1. cbn [fst] in Henc1. apply (f_equal self) in Henc1. cbn [self] in Henc1. subst s'.
  rewrite Hk in Hk0. injection Hk0 as <-. specialize (Hroom k Hk).
  change (keys (CryptoCore.set_key (current_key s) (CryptoKey.set_send_nonce (Nonce.increment (send_nonce k)) k) s) !! Z.to_nat (current_key s) = Some ks) in Hks.
  pose proof Hw as (_ & Hcur & _). rewrite set_key_lookup, decide_True in Hks by done. injection Hks as <-.
  cbn [send_nonce CryptoKey.set_send_nonce nonce_half CryptoCore.set_key CryptoCore.set_keys].
  rewrite increment_value; [lia|by apply (core_wf_key s _ _ Hw Hk)|]. unfold half_base in Hroom. destruct (nonce_half s); lia.
Qed.

Lemma rounds_ok n m e : 0 <= m -> speed_ok (m + Z.of_nat n) e -> exists e', rounds n e = (e', Ok ()) /\ speed_ok m e' /\ rng e' = rng e.
Proof.
  intros Hm. revert e. induction n as [|n IH]; intros e Hok; [exists e; split; [done|]; by rewrite Z.add_0_r in Hok|].
  destruct (seal_and_open_ok (m + Z.of_nat n) e) as (e1 & He1 & Hok1 & Hr1); [lia|by replace (m + Z.of_nat n + 1) with (m + Z.of_nat (S n)) by lia|].
  destruct (IH e1 Hok1) as (e2 & He2 & Hok2 & Hr2). exists e2. cbn [rounds]. rewrite (bind_ok _ _ _ _ _ He1). split; [done|]. split; [done|congruence].
Qed.

Lemma as_i32_add a b : as_i32 (as_i32 a + b) = as_i32 (a + b).
Proof.
  unfold as_i32. f_equal. replace ((a + 2 ^ 31) mod 2 ^ 32 - 2 ^ 31 + b + 2 ^ 31) with ((a + 2 ^ 31) mod 2 ^ 32 + b) by lia.
  rewrite Z.add_mod_idemp_l by lia. f_equal. lia.
Qed.

Lemma batches_ok turns i e : speed_ok (1000 * Z.of_nat turns) e ->
  exists e', batches turns (as_i32 i) e = (e', Ok (as_i32 (i + 1000 * Z.of_nat turns))) /\ rng e' = rng e.
Proof.
  revert i e. induction turns as [|turns IH]; intros i e Hok; [exists e; split; [|done]; by rewrite Z.add_0_r|].
  destruct (rounds_ok 1000 (1000 * Z.of_nat turns) e) as (e1 & He1 & Hok1 & Hr1); [lia|by replace (_ + _) with (1000 * Z.of_nat (S turns)) by lia|].
  destruct (IH (i + 1000) e1 Hok1) as (e2 & He2 & Hr2). exists e2. unfold batches; fold batches. rewrite (bind_ok _ _ _ _ _ He1), as_i32_add, He2.
  split; [do 3 f_equal; lia|congruence].
Qed.

Lemma new_send_bound key half r : exists c r', CryptoCore.new (E := Error) key half r = (r', Ok c) /\
  forall ks, keys c !! Z.to_nat (current_key c) = Some ks -> be_value (send_nonce ks) < half_base (nonce_half c) + 2 ^ 48.
Proof.
  destruct (core_new_spec (E := Error) key half r) as (c & r' & k & Hn & _). exists c, r'. split; [exact Hn|]. intros ks Hks.
  destruct (new_core_fresh _ _ _ _ _ Hn) as (_ & -> & _ & Hf). destruct (Hf _ _ Hks) as [(_ & _ & Hb) _]. lia.
Qed.

Lemma dummy_pair_ok algo r : exists s c r', CryptoCore.create_dummy_pair (E := Error) algo r = (r', Ok (s, c)) /\ linked s c /\
  forall ks, keys s !! Z.to_nat (current_key s) = Some ks -> be_value (send_nonce ks) < half_base (nonce_half s) + 2 ^ 48.
Proof.
  unfold CryptoCore.create_dummy_pair, random_data, random, mbind, ST_bind, lift, unbound_key.
  pose proof (fill_len (key_len algo) r) as Hl. destruct (fill (key_len algo) r) as [d r0]. cbn [fst] in Hl. rewrite decide_True by done.
  set (key := mkLessSafeKey algo d). destruct (new_send_bound key true r0) as (s & r1 & Hs & Hb). rewrite Hs.
  destruct (new_send_bound key false r1) as (c & r2 & Hc & _). rewrite Hc. exists s, c, r2. split; [done|]. split; [|exact Hb].
  by eapply (linked_new key true).
Qed.

(** C13: the speed test of a cipher ends without a panic, whatever the random source
    gives: everything sealed opens again, batch after batch, and the number of bytes
    it reports is right as long as it fits [i32], which is up to 1073 batches. *)
Theorem speed_test_completes (algo : Algorithm) (turns : nat) (r : Rng) :
  Z.of_nat turns <= 2 ^ 40 ->
  exists r' n, test_speed algo turns r = (r', Ok n) /\ - 2 ^ 31 <= n < 2 ^ 31 /\
    (Z.of_nat turns <= 1073 -> n = 2000000 * Z.of_nat turns).
Proof.
  intros Ht. destruct (dummy_pair_ok algo r) as (s & c & r1 & Hp & Hl & Hb).
  set (buffer := MsgBuffer.set_length 1000 (MsgBuffer.new EXTRA_LEN)).
  destruct (batches_ok turns 0 (mkEnv (s, c) buffer r1)) as (e & He & _).
  { split; [exact Hl|]. split; [intros ks Hks; specialize (Hb ks Hks); cbn [self fst]; lia|]. cbn [out]. split; [|done].
    apply set_length_wf; [apply new_wf; unfold EXTRA_LEN, BUFFER_SIZE; lia|by vm_compute]. }
  exists (rng e), (as_i32 (as_i32 (0 + 1000 * Z.of_nat turns) * 1000 * 2)). split; [|split].
  - unfold test_speed. fold buffer. rewrite (bind_ok _ _ _ _ _ Hp). unfold mbind, ST_bind, zoom.
    change 0 with (as_i32 0) at 1. by rewrite He.
  - unfold as_i32 at 1 3. pose proof (Z.mod_pos_bound (as_i32 (0 + 1000 * Z.of_nat turns) * 1000 * 2 + 2 ^ 31) (2 ^ 32) ltac:(lia)). lia.
  - intros Hsmall. unfold as_i32. rewrite (Z.mod_small (0 + 1000 * Z.of_nat turns + 2 ^ 31)) by lia. rewrite Z.mod_small by lia. lia.
Qed.

End Completes.

Lemma speed_test_completes_witness : exists r' n, test_speed AES_128_GCM 2 (toy_rng 3) = (r', Ok n) /\ n = 4000000.
Proof.
  destruct (speed_test_completes AES_128_GCM 2 (toy_rng 3)) as (r' & n & Ht & _ & Hn); [lia|]. exists r', n. split; [exact Ht|]. apply Hn. lia.
Defined.
