(* ===== verification/Rotate.v ===== *)
(** * Key rotation (src/src/crypto/rotate.rs)

    The rotation messages, the state machine of one node, and the joint
    protocol of two nodes over a network that loses, duplicates and reorders
    messages. *)

From S2P Require Import Prelude Errors Util Ring.

(** [EcdhPublicKey]s are their bytes. *)
Record RotationMessage : Type := mkRotationMessage {
  rm_message_id : Z;
  propose : bytes;
  confirm : option bytes
}.

Module RotationMessage.

(** The reader's [io::Error]s are all dropped by the caller. *)
Definition read_from {R} `{Read R} (r : R) : option (RotationMessage * R) :=
  '(message_id, r) ← read_u64 r;
  '(key_len, r) ← read_u8 r;
  '(propose, r) ← read_exact (Z.to_nat key_len) r;
  '(key_len, r) ← read_u8 r;
  if decide (0 < key_len) then
    '(confirm, r) ← read_exact (Z.to_nat key_len) r;
    Some (mkRotationMessage message_id propose (Some confirm), r)
  else Some (mkRotationMessage message_id propose None, r).

Definition write_to {W} `{Write W} (m : RotationMessage) (w : W) : option W :=
  w ← write_u64 (rm_message_id m) w;
  w ← write_u8 (wrap8 (zlen (propose m))) w;
  w ← write_all (propose m) w;
  match confirm m with
  | Some key => w ← write_u8 (wrap8 (zlen key)) w; write_all key w
  | None => write_u8 0 w
  end.

(** The layout. *)
Definition enc (m : RotationMessage) : bytes :=
  be_bytes 8 (rm_message_id m) ++ be_bytes 1 (zlen (propose m)) ++ propose m ++
  match confirm m with
  | Some key => be_bytes 1 (zlen key) ++ key
  | None => be_bytes 1 0
  end.

(** Keys of at most 255 bytes, a confirmed key of at least one. *)
Definition wf (m : RotationMessage) : Prop :=
  is_u64 (rm_message_id m) /\ bytes_ok (propose m) /\ zlen (propose m) < 256 /\
  forall key, confirm m = Some key -> bytes_ok key /\ 0 < zlen key < 256.

End RotationMessage.

(** [Key] is a byte string. *)
Record RotatedKey : Type := mkRotatedKey { rk_key : bytes; rk_id : Z; use_for_sending : bool }.

Record RotationState `{Ring} : Type := mkRotationState {
  confirmed : option (bytes * Z);
  pending : option (bytes * bytes);
  proposed : option EcdhPrivateKey;
  message_id : Z;
  timeout : bool
}.

Module RotationState.
Section RotationState.
Context `{Ring}.
Context {E : Type}.

Definition set_confirmed c (s : RotationState) := mkRotationState _ c (pending s) (proposed s) (message_id s) (timeout s).
Definition set_pending p (s : RotationState) := mkRotationState _ (confirmed s) p (proposed s) (message_id s) (timeout s).
Definition set_proposed p (s : RotationState) := mkRotationState _ (confirmed s) (pending s) p (message_id s) (timeout s).
Definition set_message_id i (s : RotationState) := mkRotationState _ (confirmed s) (pending s) (proposed s) i (timeout s).
Definition set_timeout t (s : RotationState) := mkRotationState _ (confirmed s) (pending s) (proposed s) (message_id s) t.

Definition send (msg : RotationMessage) : ST MsgBuffer E unit :=
  empty ← gets MsgBuffer.is_empty;
  assert empty ;;
  len ← MsgBuffer.write_cursor (RotationMessage.write_to msg);
  len ← lift (unwrap len);
  modify (MsgBuffer.set_length len).

Definition create_key : ST Rng E (EcdhPrivateKey * bytes) := fun r =>
  let '(private_key, r') := ecdh_generate r in (r', Ok (private_key, compute_public_key private_key)).

(** [agree_ephemeral(..).unwrap()]. *)
Definition derive_key (private_key : EcdhPrivateKey) (public_key : bytes) : outcome E bytes :=
  unwrap (agree_ephemeral private_key public_key).

Definition new {A} (initiator : bool) : ST (Env A) E RotationState :=
  if initiator then
    '(private_key, public_key) ← on_rng create_key;
    on_out (send (mkRotationMessage 1 public_key None)) ;;
    mret (mkRotationState _ None None (Some private_key) 1 false)
  else mret (mkRotationState _ None None None 0 false).

Definition process_message (msg : RotationMessage) : ST (Env RotationState) E (option RotatedKey) :=
  my_id ← on_self (gets message_id);
  if decide (rm_message_id msg <= my_id) then mret None
  else
    on_self (modify (set_timeout false)) ;;
    '(private_key, public_key) ← on_rng create_key;
    key ← lift (derive_key private_key (propose msg));
    on_self (modify (set_pending (Some (key, public_key)))) ;;
    match confirm msg with
    | Some peer_key =>
        p ← on_self (gets proposed);
        match p with
        | Some private_key =>
            on_self (modify (set_proposed None)) ;;
            key ← lift (derive_key private_key peer_key);
            mret (Some (mkRotatedKey key (rm_message_id msg) true))
        | None => mret None
        end
    | None => mret None
    end.

Definition cycle : ST (Env RotationState) E (option RotatedKey) :=
  s ← on_self get;
  match proposed s with
  | Some private_key =>
      if timeout s then
        let proposed_key := compute_public_key private_key in
        match confirmed s with
        | Some (confirmed_key, message_id) =>
            on_out (send (mkRotationMessage message_id proposed_key (Some confirmed_key))) ;; mret None
        | None => on_out (send (mkRotationMessage 1 proposed_key None)) ;; mret None
        end
      else on_self (modify (set_timeout true)) ;; mret None
  | None =>
      match pending s with
      | Some (key, confirm_key) =>
          on_self (modify (set_pending None)) ;;
          on_self (modify (fun s => set_message_id (wrap64 (message_id s + 2)) s)) ;;
          message_id ← on_self (gets message_id);
          '(private_key, propose_key) ← on_rng create_key;
          on_self (modify (set_proposed (Some private_key))) ;;
          on_self (modify (set_confirmed (Some (confirm_key, message_id)))) ;;
          on_out (send (mkRotationMessage message_id propose_key (Some confirm_key))) ;;
          mret (Some (mkRotatedKey key message_id false))
      | None => mret None
      end
  end.
End RotationState.

(** The bytes of a message are read through a cursor over the slice. *)
Definition handle_message `{Ring} (msg : bytes) : ST (Env RotationState) Error (option RotatedKey) :=
  '(msg, _) ← lift (ok_or (RotationMessage.read_from msg) (Crypto "Rotation message too short"));
  process_message msg.
End RotationState.

Import RotationState.

(** ** Messages *)

Lemma writes_rotation {W} `{WriteLaws W} m : RotationMessage.wf m -> writes (W := W) (RotationMessage.write_to m) (RotationMessage.enc m).
Proof.
  intros (Hi & Hb & Hl & Hc) w. unfold RotationMessage.write_to, RotationMessage.enc.
  apply writes_bind; [auto with vpn|]. intros w1. rewrite wrap_small by (unfold zlen in *; lia).
  apply writes_bind; [auto with vpn|]. intros w2. apply writes_bind; [auto with vpn|]. intros w3.
  destruct (confirm m) as [key|]; [|done]. destruct (Hc key eq_refl) as [_ Hk].
  rewrite wrap_small by lia. apply writes_bind; auto with vpn.
Qed.

Lemma rotation_enc_ok m : RotationMessage.wf m -> bytes_ok (RotationMessage.enc m).
Proof.
  intros (Hi & Hb & Hl & Hc). unfold RotationMessage.enc.
  repeat (apply Forall_app; split; [done || apply be_bytes_ok|]).
  destruct (confirm m) as [key|]; [|apply be_bytes_ok].
  apply Forall_app. split; [apply be_bytes_ok|]. by apply (Hc key).
Qed.

Lemma rotation_enc_len m : zlen (RotationMessage.enc m) <=
  10 + zlen (propose m) + match confirm m with Some key => zlen key | None => 0 end.
Proof.
  unfold RotationMessage.enc, zlen. rewrite !length_app, !length_be_bytes.
  destruct (confirm m); rewrite ?length_app, ?length_be_bytes; lia.
Qed.

Lemma read_rotation m rest :
  RotationMessage.wf m -> RotationMessage.read_from (RotationMessage.enc m ++ rest) = Some (m, rest).
Proof.
  intros (Hi & Hb & Hl & Hc). unfold RotationMessage.read_from, RotationMessage.enc. rewrite <- !(assoc_L app).
  rewrite read_u64_app by done. cbn [mbind option_bind].
  rewrite read_u8_app by (unfold is_u8, zlen in *; lia). cbn [mbind option_bind].
  rewrite read_exact_app by (unfold zlen; lia). cbn [mbind option_bind].
  destruct m as [i p [key|]]; cbn [rm_message_id propose confirm] in *.
  - destruct (Hc key eq_refl) as [_ Hk]. rewrite <- (assoc_L app), read_u8_app by (unfold is_u8, zlen in *; lia).
    cbn [mbind option_bind]. rewrite decide_True by lia.
    rewrite read_exact_app by (unfold zlen; lia). done.
  - rewrite read_u8_app by (unfold is_u8; lia). cbn [mbind option_bind]. by rewrite decide_False by lia.
Qed.

(** Rotation messages survive the wire: what is written into a buffer is
    read back unchanged, whatever follows it. *)
Theorem rotation_message_roundtrip (m : RotationMessage) (rest : bytes) :
  RotationMessage.wf m ->
  exists bs, RotationMessage.write_to m ([] : bytes) = Some bs /\
    RotationMessage.read_from (bs ++ rest) = Some (m, rest).
Proof.
  intros Hm. exists (RotationMessage.enc m). split; [|by apply read_rotation].
  rewrite (writes_rotation m Hm []). reflexivity.
Qed.

Definition toy_rotation : RotationMessage := mkRotationMessage 7 (replicate 32 1) (Some (replicate 32 2)).

Lemma rotation_message_roundtrip_witness :
  exists bs, RotationMessage.write_to toy_rotation ([] : bytes) = Some bs /\
    RotationMessage.read_from (bs ++ [9]) = Some (toy_rotation, [9]).
Proof.
  apply rotation_message_roundtrip. split; [unfold is_u64; cbn; lia|].
  split; [apply (bool_decide_unpack _); vm_compute; exact I|]. split; [vm_compute; reflexivity|].
  intros key [= <-]. split; [apply (bool_decide_unpack _); vm_compute; exact I|split; vm_compute; reflexivity].
Defined.

(** ** Two nodes and the network

    A node's rotation state with the key slots of its crypto core (the key of
    each slot and the slot that sends, as [CryptoCore::rotate_key] sets them)
    and its random source; [w_from_a], [w_from_b] are all the messages each has
    ever sent. The network delivers any of them at any time and any number of
    times, so it also reorders and loses them. *)

Section Protocol.
Context `{RingLaws}.

Record Node : Type := mkNode { rot : RotationState; slot : Z -> bytes; sending : Z; rnd : Rng }.

Definition install (rk : option RotatedKey) (n : Node) : Node :=
  match rk with
  | Some k =>
      let id := rk_id k mod 4 in
      mkNode (rot n) (fun i => if decide (i = id) then rk_key k else slot n i)
        (if use_for_sending k then id else sending n) (rnd n)
  | None => n
  end.

(** One call of [cycle] with an empty buffer, and what it sends; [None] when it
    panics. *)
Definition node_cycle (n : Node) : option (Node * option bytes) :=
  match cycle (E := Error) (mkEnv (rot n) (MsgBuffer.new 100) (rnd n)) with
  | (e, Ok rk) =>
      Some (install rk (mkNode (self e) (slot n) (sending n) (rng e)),
            if MsgBuffer.is_empty (out e) then None else Some (MsgBuffer.contents (out e)))
  | _ => None
  end.

(** One call of [handle_message]; [None] when it panics or fails. *)
Definition node_handle (m : bytes) (n : Node) : option Node :=
  match handle_message m (mkEnv (rot n) (MsgBuffer.new 100) (rnd n)) with
  | (e, Ok rk) => Some (install rk (mkNode (self e) (slot n) (sending n) (rng e)))
  | _ => None
  end.

Record World : Type := mkWorld { node_a : Node; node_b : Node; w_from_a : list bytes; w_from_b : list bytes }.

Definition add_sent (o : option bytes) (l : list bytes) : list bytes :=
  match o with Some m => m :: l | None => l end.

(** Message ids are far from the end of [u64]. *)
Definition id_room (n : Node) : Prop := message_id (rot n) < 2 ^ 64 - 2.

(** The random source has other users. *)
Definition with_rnd (r : Rng) (n : Node) : Node := mkNode (rot n) (slot n) (sending n) r.

Inductive step : World -> World -> Prop :=
| step_cycle_a a b ma mb a' o : id_room a -> node_cycle a = Some (a', o) -> step (mkWorld a b ma mb) (mkWorld a' b (add_sent o ma) mb)
| step_cycle_b a b ma mb b' o : id_room b -> node_cycle b = Some (b', o) -> step (mkWorld a b ma mb) (mkWorld a b' ma (add_sent o mb))
| step_to_b a b ma mb m b' : m ∈ ma -> node_handle m b = Some b' -> step (mkWorld a b ma mb) (mkWorld a b' ma mb)
| step_to_a a b ma mb m a' : m ∈ mb -> node_handle m a = Some a' -> step (mkWorld a b ma mb) (mkWorld a' b ma mb)
| step_rnd_a a b ma mb r : step (mkWorld a b ma mb) (mkWorld (with_rnd r a) b ma mb)
| step_rnd_b a b ma mb r : step (mkWorld a b ma mb) (mkWorld a (with_rnd r b) ma mb).

(** Both nodes after the handshake: the master key in slot 0, which sends;
    node A has sent its first proposal. *)
Inductive initial : World -> Prop :=
| initial_world (master : bytes) (slot_a slot_b : Z -> bytes) (ra rb : Rng) (ea eb : Env unit) (sa sb : RotationState) :
    slot_a 0 = master -> slot_b 0 = master ->
    RotationState.new (E := Error) true (mkEnv () (MsgBuffer.new 100) ra) = (ea, Ok sa) ->
    RotationState.new (E := Error) false (mkEnv () (MsgBuffer.new 100) rb) = (eb, Ok sb) ->
    initial (mkWorld (mkNode sa slot_a 0 (rng ea)) (mkNode sb slot_b 0 (rng eb)) [MsgBuffer.contents (out ea)] []).

Definition reachable (w : World) : Prop := exists w0, initial w0 /\ rtc step w0 w.

(** *** What one call does *)

Definition key32 (k : bytes) : Prop := length k = 32%nat /\ bytes_ok k.

Lemma public_key32 p : key32 (compute_public_key p).
Proof. split; [apply public_len|apply public_ok]. Qed.

Lemma message_wf32 i p c :
  is_u64 i -> key32 p -> (forall k, c = Some k -> key32 k) -> RotationMessage.wf (mkRotationMessage i p c).
Proof.
  intros Hi [Hp Hpo] Hc. split; [done|]. cbn [propose confirm]. split; [done|]. split; [unfold zlen; lia|].
  intros k Hk. destruct (Hc k Hk) as [Hl Ho]. split; [done|]. unfold zlen. lia.
Qed.

Lemma send_into m b0 : RotationMessage.wf m -> MsgBuffer.wf b0 -> MsgBuffer.is_empty b0 = true -> buf_start b0 <= 1000 ->
  exists b, send (E := Error) m b0 = (b, Ok ()) /\ MsgBuffer.is_empty b = false /\
    MsgBuffer.contents b = RotationMessage.enc m /\ MsgBuffer.wf b /\ buf_start b = buf_start b0 /\ zlen (RotationMessage.enc m) <= 600.
Proof.
  intros Hm Hw Hemp Hst.
  pose proof (rotation_enc_len m) as Hl. pose proof Hm as (_ & _ & Hp & Hc).
  assert (zlen (RotationMessage.enc m) <= 600) as Hl'.
  { destruct (confirm m) as [k|]; [destruct (Hc k eq_refl); lia|lia]. }
  assert (8 < zlen (RotationMessage.enc m)) as Hl8.
  { unfold RotationMessage.enc, zlen. rewrite !length_app, !length_be_bytes. lia. }
  destruct (write_cursor_spec (E := Error) _ _ b0 (writes_rotation m Hm) Hw (rotation_enc_ok m Hm)) as (b & Hb & Hwb & Hs & _ & Hcont).
  { unfold BUFFER_SIZE. lia. }
  assert (MsgBuffer.wf (MsgBuffer.set_length (zlen (RotationMessage.enc m)) b)) as Hws.
  { apply set_length_wf; [done|]. rewrite Hs. unfold BUFFER_SIZE, zlen in *. lia. }
  exists (MsgBuffer.set_length (zlen (RotationMessage.enc m)) b).
  unfold send, mbind, ST_bind, gets, assert. rewrite Hemp. cbn [mret ST_ret]. rewrite Hb. cbn [unwrap lift modify].
  split; [done|]. split; [|split; [done|split; [done|by split]]].
  apply not_true_is_false. intros He. apply (is_empty_contents _ Hws) in He. rewrite Hcont in He.
  rewrite He in Hl8. unfold zlen in Hl8. simpl in Hl8. lia.
Qed.

Lemma send_spec m : RotationMessage.wf m ->
  exists b, send (E := Error) m (MsgBuffer.new 100) = (b, Ok ()) /\ MsgBuffer.is_empty b = false /\
    MsgBuffer.contents b = RotationMessage.enc m.
Proof.
  intros Hm. destruct (send_into m (MsgBuffer.new 100) Hm) as (b & Hs & He & Hc & _).
  - apply new_wf. unfold BUFFER_SIZE. lia.
  - apply bool_decide_eq_true_2. exact eq_refl.
  - change (buf_start (MsgBuffer.new 100)) with 100. lia.
  - exists b. split; [exact Hs|]. split; [exact He|exact Hc].
Qed.

(** The four cases of [cycle]. *)
Lemma node_cycle_idle n :
  proposed (rot n) = None -> pending (rot n) = None -> node_cycle n = Some (n, None).
Proof.
  destruct n as [s sl sd r]. cbn [rot]. intros H1 H2. unfold node_cycle, cycle, mbind, ST_bind, on_self, zoom, get.
  cbn [rot rnd self out rng]. rewrite H1, H2. reflexivity.
Qed.

Lemma node_cycle_wait n p :
  proposed (rot n) = Some p -> timeout (rot n) = false ->
  node_cycle n = Some (mkNode (set_timeout true (rot n)) (slot n) (sending n) (rnd n), None).
Proof.
  destruct n as [s sl sd r]. cbn [rot]. intros H1 H2. unfold node_cycle, cycle, mbind, ST_bind, on_self, zoom, get.
  cbn [rot rnd self out rng]. rewrite H1, H2. reflexivity.
Qed.

(** The message a node with an open proposal repeats. *)
Definition proposal (s : RotationState) (p : EcdhPrivateKey) : RotationMessage :=
  match confirmed s with
  | Some (c, i) => mkRotationMessage i (compute_public_key p) (Some c)
  | None => mkRotationMessage 1 (compute_public_key p) None
  end.

Lemma node_cycle_repeat n p :
  proposed (rot n) = Some p -> timeout (rot n) = true -> RotationMessage.wf (proposal (rot n) p) ->
  node_cycle n = Some (n, Some (RotationMessage.enc (proposal (rot n) p))).
Proof.
  destruct n as [s sl sd r]. cbn [rot]. intros H1 H2 Hw. destruct (send_spec _ Hw) as (b & Hs & He & Hc).
  unfold node_cycle, cycle, mbind, ST_bind, on_self, on_out, zoom, get. cbn [rot rnd self out rng].
  rewrite H1, H2. unfold proposal in *.
  destruct (confirmed s) as [[c i]|]; cbn [out self rng]; rewrite Hs; cbn [out self rng mret ST_ret install]; by rewrite He, Hc.
Qed.

Lemma node_cycle_advance n k c :
  proposed (rot n) = None -> pending (rot n) = Some (k, c) -> key32 c ->
  0 <= message_id (rot n) < 2 ^ 64 - 2 ->
  let '(p, r') := ecdh_generate (rnd n) in let i := message_id (rot n) + 2 in
    let s := mkRotationState _ (Some (c, i)) None (Some p) i (timeout (rot n)) in
    node_cycle n = Some (install (Some (mkRotatedKey k i false)) (mkNode s (slot n) (sending n) r'),
                         Some (RotationMessage.enc (proposal s p))).
Proof.
  destruct n as [s sl sd r]. cbn [rot rnd slot sending]. intros H1 H2 Hc Hi.
  destruct (ecdh_generate r) as [p r'] eqn:Hg. cbn zeta.
  unfold proposal. cbn [confirmed].
  destruct (send_spec (mkRotationMessage (message_id s + 2) (compute_public_key p) (Some c))) as (b & Hs & He & Hcont).
  { apply message_wf32; [unfold is_u64; lia|apply public_key32|by intros ? [= <-]]. }
  unfold node_cycle, cycle, mbind, ST_bind, on_self, on_out, on_rng, zoom, get, gets, modify, create_key.
  cbn [rot rnd self out rng slot sending]. rewrite H1, H2.
  cbn [set_pending set_message_id message_id confirmed pending proposed timeout self out rng]. rewrite Hg.
  cbn [self out rng]. rewrite wrap_small by lia.
  rewrite Hs. cbn [out self rng mret ST_ret]. rewrite He, Hcont.
  reflexivity.
Qed.

(** Messages that are not newer are ignored. *)
Lemma node_handle_old n m rest :
  RotationMessage.wf m -> rm_message_id m <= message_id (rot n) -> node_handle (RotationMessage.enc m ++ rest) n = Some n.
Proof.
  destruct n as [s sl sd r]. cbn [rot]. intros Hm Hi.
  unfold node_handle, handle_message, mbind, ST_bind, lift. rewrite read_rotation by done.
  cbn [ok_or]. unfold process_message, mbind, ST_bind, on_self, zoom, gets. cbn [rot rnd self out rng].
  rewrite decide_True by done. reflexivity.
Qed.

(** A newer one: a reply becomes pending, and a confirmed proposal of one's own
    becomes the sending key. *)
Lemma node_handle_new n i p c k0 :
  is_u64 i -> message_id (rot n) < i -> (forall k, c = Some k -> key32 k) ->
  (forall q, c = Some k0 -> proposed (rot n) = Some q -> exists k, agree_ephemeral q k0 = Some k) ->
  c = None \/ c = Some k0 ->
  exists k, let cp := compute_public_key (ecdh_generate (rnd n)).1 in let r' := (ecdh_generate (rnd n)).2 in
    key32 cp /\ agree_ephemeral p cp = Some k /\
    node_handle (RotationMessage.enc (mkRotationMessage i (compute_public_key p) c)) n =
      match c, proposed (rot n) with
      | Some c0, Some q =>
          match agree_ephemeral q c0 with
          | Some k' => Some (install (Some (mkRotatedKey k' i true))
              (mkNode (mkRotationState _ (confirmed (rot n)) (Some (k, cp)) None (message_id (rot n)) false) (slot n) (sending n) r'))
          | None => None
          end
      | _, _ => Some (mkNode (mkRotationState _ (confirmed (rot n)) (Some (k, cp)) (proposed (rot n)) (message_id (rot n)) false)
                   (slot n) (sending n) r')
      end.
Proof.
  destruct n as [[cf pd pp mi to] sl sd r]. cbn [rot slot sending rnd confirmed pending proposed message_id timeout]. intros Hi Hlt Hc Hag Hor.
  destruct (ecdh_generate r) as [cpriv r'] eqn:Hg.
  destruct (agree_sym cpriv p) as (k & Hk1 & Hk2).
  exists k. cbn zeta. cbn [fst snd]. split; [apply public_key32|]. split; [done|].
  unfold node_handle, handle_message, mbind, ST_bind, lift.
  rewrite <- (app_nil_r (RotationMessage.enc _)), read_rotation by (by apply message_wf32; [done|apply public_key32|]).
  cbn [ok_or]. unfold process_message, mbind, ST_bind, on_self, on_rng, zoom, gets, modify, create_key, lift.
  cbn [rot rnd self out rng rm_message_id propose confirm message_id] in *. rewrite decide_False by lia. cbn [self out rng]. rewrite Hg.
  cbn [self out rng]. unfold derive_key. rewrite Hk1. cbn [unwrap self out rng].
  destruct Hor as [->| ->]; [reflexivity|].
  cbn [set_timeout set_pending proposed confirmed message_id timeout pending].
  destruct pp as [q|]; [|reflexivity].
  destruct (Hag q eq_refl eq_refl) as [k' Hk']. cbn. rewrite !Hk'. reflexivity.
Qed.

(** *** The invariant: one node leads

    [x] (the leader) has made proposal number [i], [y] is at [i - 1] and may or
    may not have received it. *)

(** A message on the wire. *)
Definition genuine (P : RotationMessage -> Prop) (bs : bytes) : Prop :=
  exists m, bs = RotationMessage.enc m /\ RotationMessage.wf m /\ P m.

Record leads (x y : Node) (mx my : list bytes) (i : Z) (p : EcdhPrivateKey) : Prop := {
  ld_range : 1 <= i < 2 ^ 64;
  ld_idx : message_id (rot x) = i;
  ld_idy : message_id (rot y) = i - 1;
  ld_prop : proposed (rot x) = Some p;
  ld_pend : pending (rot x) = None;
  ld_mx : Forall (genuine (fun m => rm_message_id m <= i - 1 \/ m = proposal (rot x) p)) mx;
  ld_my : Forall (genuine (fun m => rm_message_id m <= i - 1)) my;
  (** The follower's pending reply agrees with the leader's proposal. *)
  ld_reply : forall k c, pending (rot y) = Some (k, c) ->
    proposed (rot y) = None /\ agree_ephemeral p c = Some k /\ key32 c;
  (** What the follower would repeat is old. *)
  ld_repeat : forall q, proposed (rot y) = Some q ->
    RotationMessage.wf (proposal (rot y) q) /\ rm_message_id (proposal (rot y) q) <= i - 1;
  (** The leader confirmed the follower's proposal with the key in its slot. *)
  ld_conf : (i = 1 /\ confirmed (rot x) = None /\ proposed (rot y) = None) \/
    (1 < i /\ exists c, confirmed (rot x) = Some (c, i) /\ key32 c /\
       forall q, proposed (rot y) = Some q -> agree_ephemeral q c = Some (slot x (i mod 4)));
  (** Each sends with a key the other holds in the same slot. *)
  ld_slot_x : slot y (sending x) = slot x (sending x);
  ld_slot_y : slot x (sending y) = slot y (sending y);
  ld_send_x : sending x = (i - 1) mod 4 \/ (i <= 2 /\ sending x = 0);
  ld_send_y : proposed (rot y) = None -> sending y = i mod 4 \/ (i = 1 /\ sending y = 0)
}.

Lemma leads_proposal_wf x y mx my i p : leads x y mx my i p ->
  RotationMessage.wf (proposal (rot x) p) /\ rm_message_id (proposal (rot x) p) = i.
Proof.
  intros L. destruct (ld_conf _ _ _ _ _ _ L) as [(-> & Hc & _)|(Hi & c & Hc & Hk & _)]; unfold proposal; rewrite Hc.
  - split; [|done]. apply message_wf32; [unfold is_u64; lia|apply public_key32|done].
  - split; [|done]. pose proof (ld_range _ _ _ _ _ _ L).
    apply message_wf32; [unfold is_u64; lia|apply public_key32|by intros ? [= <-]].
Qed.

(** The leader's cycle changes at most its timer, and repeats its proposal. *)
Lemma leads_cycle_leader x y mx my i p :
  leads x y mx my i p ->
  exists x' o, node_cycle x = Some (x', o) /\ leads x' y (add_sent o mx) my i p /\
    (timeout (rot x) = false -> timeout (rot x') = true /\ rnd x' = rnd x) /\
    (timeout (rot x) = true -> o = Some (RotationMessage.enc (proposal (rot x) p)) /\ x' = x).
Proof.
  intros L. pose proof (leads_proposal_wf _ _ _ _ _ _ L) as [Hw Hid]. pose proof (ld_prop _ _ _ _ _ _ L) as Hp.
  destruct (timeout (rot x)) eqn:Ht.
  - exists x, (Some (RotationMessage.enc (proposal (rot x) p))).
    split; [by apply node_cycle_repeat|]. split; [|done].
    destruct L. split; try done. constructor; [|done]. exists (proposal (rot x) p). auto.
  - exists (mkNode (set_timeout true (rot x)) (slot x) (sending x) (rnd x)), None.
    split; [by apply (node_cycle_wait x p)|]. split; [|done]. by destruct L; split.
Qed.

(** The follower's cycle: idle, its timer or a repetition; or it takes the lead. *)
Lemma leads_cycle_follower x y mx my i p :
  leads x y mx my i p -> id_room y ->
  exists y' o, node_cycle y = Some (y', o) /\
    (leads x y' mx (add_sent o my) i p \/ exists q, leads y' x (add_sent o my) mx (i + 1) q) /\
    (forall k c, pending (rot y) = Some (k, c) -> let '(q, r) := ecdh_generate (rnd y) in
       leads y' x (add_sent o my) mx (i + 1) q /\ o = Some (RotationMessage.enc (proposal (rot y') q)) /\
       slot y' ((i + 1) mod 4) = k /\ rnd y' = r).
Proof.
  intros L Hroom. pose proof (leads_proposal_wf _ _ _ _ _ _ L) as [Hxw Hxid]. destruct (proposed (rot y)) as [q|] eqn:Hq.
  - assert (pending (rot y) = None) as Hpn.
    { destruct (pending (rot y)) as [[k c]|] eqn:Hpd; [|done].
      destruct (ld_reply _ _ _ _ _ _ L k c Hpd) as (Hn & _). congruence. }
    destruct (timeout (rot y)) eqn:Ht.
    + exists y, (Some (RotationMessage.enc (proposal (rot y) q))). destruct (ld_repeat _ _ _ _ _ _ L q Hq) as [Hw Hid].
      split; [by apply node_cycle_repeat|]. split; [|by rewrite Hpn]. left.
      destruct L. split; try done. constructor; [|done]. exists (proposal (rot y) q). auto.
    + exists (mkNode (set_timeout true (rot y)) (slot y) (sending y) (rnd y)), None.
      split; [by apply (node_cycle_wait y q)|]. split; [|by rewrite Hpn]. left. by destruct L; split.
  - destruct (pending (rot y)) as [[k c]|] eqn:Hpd.
    2: { exists y, None. split; [by apply node_cycle_idle|]. split; [by left|done]. }
    destruct (ld_reply _ _ _ _ _ _ L k c Hpd) as (_ & Hag & Hc).
    pose proof (ld_range _ _ _ _ _ _ L) as Hr. pose proof (ld_idy _ _ _ _ _ _ L) as Hy. unfold id_room in Hroom.
    pose proof (node_cycle_advance y k c Hq Hpd Hc ltac:(lia)) as Hcyc. destruct (ecdh_generate (rnd y)) as [p' r'].
    cbn zeta in Hcyc. set (j := message_id (rot y) + 2) in *. assert (j = i + 1) as Hj by lia.
    eexists _, _. split; [exact Hcyc|].
    match type of Hcyc with _ = Some (?y', ?o) => enough (leads y' x (add_sent o my) mx (i + 1) p') as HQ end.
    { split; [right; by exists p'|]. intros k' c' [= <- <-]. split; [exact HQ|]. split; [done|]. split; [|done].
      cbn [install slot rk_id rk_key]. by rewrite decide_True by (by rewrite Hj). }
    set (s := mkRotationState _ (Some (c, j)) None (Some p') j (timeout (rot y))).
    cbn [install rk_id rk_key use_for_sending rot slot sending rnd add_sent].
    assert (rm_message_id (proposal s p') = i + 1) as Hpid by (cbn; lia).
    assert (RotationMessage.wf (proposal s p')) as Hpw.
    { apply message_wf32; [unfold is_u64; lia|apply public_key32|by intros ? [= <-]]. }
    destruct L as [L1 L2 L3 L4 L5 L6 L7 L8 LR L9 L10 L11 L12 L13].
    assert (sending x <> j mod 4 /\ sending y <> j mod 4) as [Hnx Hny].
    { rewrite Hj. specialize (L13 Hq).
      assert (forall a, 0 <= a -> (a + 1) mod 4 <> (a - 1) mod 4) by (intros a Ha; Z.div_mod_to_equations; lia).
      assert (forall a, 0 <= a -> (a + 1) mod 4 <> a mod 4) by (intros a Ha; Z.div_mod_to_equations; lia).
      split.
      - destruct L12 as [->|[? ->]]; [by intros He; symmetry in He; eapply H1; [|exact He]; lia|].
        assert (i = 1 \/ i = 2) as [->| ->] by lia; done.
      - destruct L13 as [->|[-> ->]]; [intros He; symmetry in He; eapply H2; [|exact He]; lia|done]. }
    split; cbn [rot slot sending rnd message_id proposed pending confirmed]; try done; try lia.
    + constructor.
      * exists (proposal s p'). split; [done|]. split; [done|]. by right.
      * eapply Forall_impl; [exact L7|]. intros bs (m & -> & Hm & Hle). exists m. split; [done|]. split; [done|]. left. lia.
    + eapply Forall_impl; [exact L6|]. intros bs (m & -> & Hm & Hle). exists m. split; [done|]. split; [done|].
      destruct Hle as [Hle| ->]; lia.
    + intros k' c' Hk'. congruence.
    + intros q' Hq'. rewrite L4 in Hq'. injection Hq' as <-. split; [done|lia].
    + right. split; [lia|]. exists c. split; [exact (f_equal (fun n => Some (c, n)) Hj)|]. split; [done|]. intros q' Hq'.
      rewrite L4 in Hq'. injection Hq' as <-. rewrite Hag. f_equal. by rewrite decide_True by (f_equal; lia).
    + by rewrite decide_False.
    + by rewrite decide_False.
    + specialize (L13 Hq). replace (i + 1 - 1) with i by lia. destruct L13 as [->|[-> ->]]; [by left|right; lia].
    + intros Hn. congruence.
Qed.

(** The leader ignores everything the follower has sent. *)
Lemma leads_deliver_leader x y mx my i p m :
  leads x y mx my i p -> m ∈ my -> node_handle m x = Some x.
Proof.
  intros L Hm. pose proof (ld_my _ _ _ _ _ _ L) as Hmy. rewrite Forall_forall in Hmy.
  destruct (Hmy m Hm) as (msg & -> & Hw & Hle). rewrite <- (app_nil_r (RotationMessage.enc msg)).
  apply node_handle_old; [done|]. rewrite (ld_idx _ _ _ _ _ _ L). lia.
Qed.

(** The follower ignores old messages; the leader's proposal makes a reply
    pending and, when it confirms the follower's, switches the sending key. *)
Lemma leads_deliver_follower x y mx my i p m :
  leads x y mx my i p -> m ∈ mx ->
  exists y', node_handle m y = Some y' /\ leads x y' mx my i p /\ message_id (rot y') = message_id (rot y) /\
    (m = RotationMessage.enc (proposal (rot x) p) ->
       rnd y' = (ecdh_generate (rnd y)).2 /\ exists k, pending (rot y') = Some (k, compute_public_key (ecdh_generate (rnd y)).1)).
Proof.
  intros L Hm. pose proof (leads_proposal_wf _ _ _ _ _ _ L) as [Hxw Hxid].
  pose proof (ld_mx _ _ _ _ _ _ L) as Hmx. rewrite Forall_forall in Hmx.
  destruct (Hmx m Hm) as (msg & -> & Hw & Hor).
  destruct (decide (rm_message_id msg <= i - 1)) as [Hold|Hnew].
  { exists y. rewrite <- (app_nil_r (RotationMessage.enc msg)) at 1.
    split; [apply node_handle_old; [done|]; by rewrite (ld_idy _ _ _ _ _ _ L)|]. split; [done|]. split; [done|].
    intros He. exfalso.
    pose proof (read_rotation msg [] Hw) as H1. pose proof (read_rotation (proposal (rot x) p) [] Hxw) as H2.
    rewrite He, H2 in H1. injection H1 as <-. lia. }
  destruct Hor as [| ->]; [lia|]. clear Hnew Hw.
  pose proof (ld_range _ _ _ _ _ _ L) as Hr. pose proof (ld_idy _ _ _ _ _ _ L) as Hy.
  destruct (ld_conf _ _ _ _ _ _ L) as [(-> & Hc & Hpn)|(Hi & c0 & Hc & Hk0 & Hag)]; unfold proposal in *; rewrite Hc in *.
  - destruct (node_handle_new y 1 p None []) as (k & Hcp & Hkp & Hh); [unfold is_u64; lia|lia|done|done|by left|].
    rewrite Hh. eexists. split; [reflexivity|]. split; [|split; [done|split; [done|by eexists]]].
    destruct L. split; cbn [rot slot sending message_id proposed pending confirmed] in *; try done.
    intros k' c' [= <- <-]. done.
  - destruct (node_handle_new y i p (Some c0) c0) as (k & Hcp & Hkp & Hh).
    { unfold is_u64. lia. } { lia. } { by intros ? [= <-]. }
    { intros q _ Hq. exists (slot x (i mod 4)). by apply Hag. } { by right. }
    rewrite Hh. destruct (proposed (rot y)) as [q|] eqn:Hq.
    + rewrite (Hag q eq_refl). eexists. split; [reflexivity|]. cbn [install rk_id rk_key use_for_sending rot slot sending rnd].
      split; [|split; [done|split; [done|by eexists]]].
      destruct L. split; cbn [rot slot sending message_id proposed pending confirmed] in *; try done.
      * intros k' c' [= <- <-]. done.
      * right. split; [done|]. exists c0. done.
      * case_decide as Hd; [by rewrite Hd|done].
      * by rewrite decide_True.
      * intros _. by left.
    + eexists. split; [reflexivity|]. split; [|split; [done|split; [done|by eexists]]].
      destruct L. split; cbn [rot slot sending message_id proposed pending confirmed] in *; try done.
      * intros k' c' [= <- <-]. done.
      * right. split; [done|]. exists c0. done.
      * intros _. by apply ld_send_y0.
Qed.

(** *** Reachable worlds *)

(** One of the two leads. *)
Definition led (w : World) (i : Z) : Prop :=
  (exists p, leads (node_a w) (node_b w) (w_from_a w) (w_from_b w) i p) \/
  (exists p, leads (node_b w) (node_a w) (w_from_b w) (w_from_a w) i p).

Lemma new_initiator r :
  exists p b r', let s := mkRotationState _ None None (Some p) 1 false in
    RotationState.new (E := Error) true (mkEnv () (MsgBuffer.new 100) r) = (mkEnv () b r', Ok s) /\
    MsgBuffer.contents b = RotationMessage.enc (proposal s p) /\ RotationMessage.wf (proposal s p).
Proof.
  unfold RotationState.new, mbind, ST_bind, on_rng, on_out, zoom, create_key.
  cbn [self out rng]. destruct (ecdh_generate r) as [p r'] eqn:Hg. cbn [self out rng].
  assert (RotationMessage.wf (mkRotationMessage 1 (compute_public_key p) None)) as Hw.
  { apply message_wf32; [unfold is_u64; lia|apply public_key32|done]. }
  destruct (send_spec _ Hw) as (b & Hs & He & Hcont).
  exists p, b, r'. rewrite Hs. split; [reflexivity|]. exact (conj Hcont Hw).
Qed.

Lemma initial_led w : initial w -> led w 1.
Proof.
  intros [master sa sb ra rb ea eb stA stB Ha Hb HA HB]. left.
  destruct (new_initiator ra) as (p & b & r' & Hn & Hcont & Hw). cbn zeta in *. rewrite Hn in HA. clear Hn.
  assert (mkEnv () b r' = ea) as <- by exact (f_equal fst HA).
  assert (mkRotationState _ None None (Some p) 1 false = stA) as <-
    by exact (f_equal (fun r => match r.2 with Ok s => s | _ => stA end) HA).
  assert (mkRotationState _ None None None 0 false = stB) as <-
    by exact (f_equal (fun r => match r.2 with Ok s => s | _ => stB end) HB).
  clear HA HB. exists p. cbn [node_a node_b w_from_a w_from_b out rng].
  split; cbn [rot slot sending message_id proposed pending confirmed]; try done; try lia.
  - constructor; [|constructor]. eexists. split; [exact Hcont|]. split; [done|by right].
  - by left.
  - congruence.
  - congruence.
Qed.

Lemma step_led w w' i : step w w' -> led w i -> led w' i \/ led w' (i + 1).
Proof.
  intros [a b ma mb a' o Hroom Hc|a b ma mb b' o Hroom Hc|a b ma mb m b' Hm Hh|a b ma mb m a' Hm Hh|a b ma mb r|a b ma mb r] [[p L]|[p L]];
    cbn [node_a node_b w_from_a w_from_b] in *; unfold led; cbn [node_a node_b w_from_a w_from_b].
  - destruct (leads_cycle_leader _ _ _ _ _ _ L) as (x' & o' & Hc' & L' & _). rewrite Hc in Hc'. injection Hc' as <- <-. eauto.
  - destruct (leads_cycle_follower _ _ _ _ _ _ L Hroom) as (x' & o' & Hc' & L' & _). rewrite Hc in Hc'. injection Hc' as <- <-.
    destruct L' as [L'|[q L']]; eauto.
  - destruct (leads_cycle_follower _ _ _ _ _ _ L Hroom) as (x' & o' & Hc' & L' & _). rewrite Hc in Hc'. injection Hc' as <- <-.
    destruct L' as [L'|[q L']]; eauto.
  - destruct (leads_cycle_leader _ _ _ _ _ _ L) as (x' & o' & Hc' & L' & _). rewrite Hc in Hc'. injection Hc' as <- <-. eauto.
  - destruct (leads_deliver_follower _ _ _ _ _ _ m L Hm) as (y' & Hh' & L' & _). rewrite Hh in Hh'. injection Hh' as <-. eauto.
  - rewrite (leads_deliver_leader _ _ _ _ _ _ m L Hm) in Hh. injection Hh as <-. eauto.
  - rewrite (leads_deliver_leader _ _ _ _ _ _ m L Hm) in Hh. injection Hh as <-. eauto.
  - destruct (leads_deliver_follower _ _ _ _ _ _ m L Hm) as (y' & Hh' & L' & _). rewrite Hh in Hh'. injection Hh' as <-. eauto.
  - left. left. exists p. by destruct L; split.
  - left. right. exists p. by destruct L; split.
  - left. left. exists p. by destruct L; split.
  - left. right. exists p. by destruct L; split.
Qed.

Lemma reachable_led w : reachable w -> exists i, led w i.
Proof.
  intros (w0 & Hi & Hs). assert (exists i, led w0 i) as Hl by (exists 1; by apply initial_led). clear Hi.
  induction Hs as [|w w1 w2 Hst Hs IH]; [done|]. apply IH. destruct Hl as [i Hl].
  destruct (step_led _ _ _ Hst Hl); eauto.
Qed.

(** C8: keys rotate in agreement: in every world the two nodes can reach,
    whatever messages were lost, repeated or reordered, each node holds, in the
    slot the other's messages name, the very key the other encrypts with; and
    no cycle and no delivery can fail or panic. *)
Theorem rotation_agreement (w : World) :
  reachable w ->
  slot (node_b w) (sending (node_a w)) = slot (node_a w) (sending (node_a w)) /\
  slot (node_a w) (sending (node_b w)) = slot (node_b w) (sending (node_b w)) /\
  (id_room (node_a w) -> node_cycle (node_a w) <> None) /\ (id_room (node_b w) -> node_cycle (node_b w) <> None) /\
  (forall m, m ∈ w_from_a w -> node_handle m (node_b w) <> None) /\
  (forall m, m ∈ w_from_b w -> node_handle m (node_a w) <> None).
Proof.
  intros Hw. apply reachable_led in Hw as [i [[p L]|[p L]]];
    pose proof (ld_slot_x _ _ _ _ _ _ L); pose proof (ld_slot_y _ _ _ _ _ _ L);
    destruct (leads_cycle_leader _ _ _ _ _ _ L) as (x' & o & Hx & _).
  - split_and!; try done; [by rewrite Hx| | |].
    + intros Hr. destruct (leads_cycle_follower _ _ _ _ _ _ L Hr) as (y' & o' & -> & _). done.
    + intros m Hm. destruct (leads_deliver_follower _ _ _ _ _ _ m L Hm) as (y' & -> & _). done.
    + intros m Hm. by rewrite (leads_deliver_leader _ _ _ _ _ _ m L Hm).
  - split_and!; try done; [|by rewrite Hx| |].
    + intros Hr. destruct (leads_cycle_follower _ _ _ _ _ _ L Hr) as (y' & o' & -> & _). done.
    + intros m Hm. by rewrite (leads_deliver_leader _ _ _ _ _ _ m L Hm).
    + intros m Hm. destruct (leads_deliver_follower _ _ _ _ _ _ m L Hm) as (y' & -> & _). done.
Qed.

(** The newest proposal number of a world. *)
Definition newest (w : World) : Z := Z.max (message_id (rot (node_a w))) (message_id (rot (node_b w))).

Lemma led_newest w i : led w i -> newest w = i.
Proof.
  unfold newest. intros [[p L]|[p L]]; pose proof (ld_idx _ _ _ _ _ _ L); pose proof (ld_idy _ _ _ _ _ _ L); lia.
Qed.

(** The follower gets the leader's proposal and takes the lead: the key of the new
    slot comes from the proposal and a key the follower has drawn. *)
Lemma leads_turn x y mx my i p :
  leads x y mx my i p -> RotationMessage.enc (proposal (rot x) p) ∈ mx -> i < 2 ^ 64 - 2 ->
  let '(q, r) := ecdh_generate (rnd y) in let '(q', r') := ecdh_generate r in
  exists y1 y2 k, let m := RotationMessage.enc (proposal (rot y2) q') in
    node_handle (RotationMessage.enc (proposal (rot x) p)) y = Some y1 /\ id_room y1 /\ node_cycle y1 = Some (y2, Some m) /\
    leads y2 x (m :: my) mx (i + 1) q' /\ agree_ephemeral p (compute_public_key q) = Some k /\ slot y2 ((i + 1) mod 4) = k.
Proof.
  intros L Hm Hi. destruct (leads_deliver_follower _ _ _ _ _ _ _ L Hm) as (y1 & Hh & L1 & Hid & Hpend).
  destruct (Hpend eq_refl) as (Hr & k & Hk). destruct (ecdh_generate (rnd y)) as [q r]. cbn [fst snd] in *.
  assert (id_room y1) as Hroom by (unfold id_room; rewrite (ld_idy _ _ _ _ _ _ L1); lia).
  destruct (leads_cycle_follower _ _ _ _ _ _ L1 Hroom) as (y2 & o & Hc & _ & Hlead). specialize (Hlead _ _ Hk). rewrite Hr in Hlead.
  destruct (ecdh_generate r) as [q' r']. destruct Hlead as (L2 & -> & Hs & _).
  exists y1, y2, k. cbn zeta. split_and!; try done. exact (proj1 (proj2 (ld_reply _ _ _ _ _ _ L1 _ _ Hk))).
Qed.

(** Two cycles of the leader after which its proposal is on its way (again). *)
Lemma leads_resend x y mx my i p :
  leads x y mx my i p -> i < 2 ^ 64 - 2 ->
  exists x1 o, let m := RotationMessage.enc (proposal (rot x1) p) in
    node_cycle x = Some (x1, o) /\ id_room x1 /\ node_cycle x1 = Some (x1, Some m) /\
    leads x1 y (m :: add_sent o mx) my i p /\ rnd x1 = rnd x.
Proof.
  intros L Hi. destruct (leads_cycle_leader _ _ _ _ _ _ L) as (x1 & o1 & Hc1 & L1 & Ht & Hf).
  assert (timeout (rot x1) = true /\ rnd x1 = rnd x) as [Ht1 Hr].
  { destruct (timeout (rot x)) eqn:Hx; [|by apply Ht]. by destruct (Hf eq_refl) as [_ ->]. }
  destruct (leads_cycle_leader _ _ _ _ _ _ L1) as (x2 & o2 & Hc2 & L2 & _ & Hf2). destruct (Hf2 Ht1) as [-> ->].
  exists x1, o1. cbn zeta. split_and!; try done. unfold id_room. rewrite (ld_idx _ _ _ _ _ _ L1). lia.
Qed.

(** Of the nodes [x] and [y], which are at message [i], have become [x'] and [y'] that send
    under new keys, each in a slot of its own: [x'] under one agreed between the
    proposal [x] had made and a key [y] has drawn since, [y'] under one agreed between
    the next key [y] has drawn, with which it proposed, and one [x] has drawn since.
    Both keys are the same at both nodes. *)
Definition rekeyed (i : Z) (x y x' y' : Node) : Prop :=
  exists p key_x key_y, proposed (rot x) = Some p /\
    let '(q, r) := ecdh_generate (rnd y) in
    let '(q', _) := ecdh_generate r in
    let '(s, _) := ecdh_generate (rnd x) in
    agree_ephemeral p (compute_public_key q) = Some key_x /\ agree_ephemeral q (compute_public_key p) = Some key_x /\
    sending x' = (i + 1) mod 4 /\ slot x' (sending x') = key_x /\ slot y' (sending x') = key_x /\
    agree_ephemeral q' (compute_public_key s) = Some key_y /\ agree_ephemeral s (compute_public_key q') = Some key_y /\
    sending y' = (i + 2) mod 4 /\ slot y' (sending y') = key_y /\ slot x' (sending y') = key_y.

Lemma agree_both p q k : agree_ephemeral p (compute_public_key q) = Some k -> agree_ephemeral q (compute_public_key p) = Some k.
Proof. destruct (agree_sym p q) as (k' & H1 & H2). congruence. Qed.

(** Two turns: the leader leads again, and both send under new keys. *)
Lemma leads_rekey x y mx my i p :
  leads x y mx my i p -> RotationMessage.enc (proposal (rot x) p) ∈ mx -> i < 2 ^ 64 - 2 ->
  exists y1 y2 m x1 x2 m' y3 q,
    node_handle (RotationMessage.enc (proposal (rot x) p)) y = Some y1 /\ id_room y1 /\ node_cycle y1 = Some (y2, Some m) /\
    node_handle m x = Some x1 /\ id_room x1 /\ node_cycle x1 = Some (x2, Some m') /\
    node_handle m' y2 = Some y3 /\ leads x2 y3 (m' :: mx) (m :: my) (i + 2) q /\ rekeyed i x y x2 y3.
Proof.
  intros L Hm Hi. pose proof (leads_turn _ _ _ _ _ _ L Hm Hi) as Ht. pose proof (ld_range _ _ _ _ _ _ L) as Hr.
  unfold rekeyed. destruct (ecdh_generate (rnd y)) as [q r]. destruct (ecdh_generate r) as [q' r'].
  destruct Ht as (y1 & y2 & k1 & Hh1 & Hr1 & Hc1 & L1 & Hk1 & Hs1).
  pose proof (ld_idy _ _ _ _ _ _ L1) as Hid. replace (i + 1 - 1) with i in Hid by lia.
  destruct (leads_deliver_follower _ _ _ _ _ _ _ L1 ltac:(left)) as (x1 & Hh2 & L2 & Hid2 & Hpend).
  destruct (Hpend eq_refl) as (Hrx & k2 & Hk2). destruct (ecdh_generate (rnd x)) as [s rs]. cbn [fst snd] in *.
  assert (id_room x1) as Hr2 by (unfold id_room; lia).
  destruct (leads_cycle_follower _ _ _ _ _ _ L2 Hr2) as (x2 & o & Hc2 & _ & Hlead). specialize (Hlead _ _ Hk2). rewrite Hrx in Hlead.
  destruct (ecdh_generate rs) as [s' rs']. destruct Hlead as (L3 & -> & Hs2 & _). cbn [add_sent] in L3.
  replace (i + 1 + 1) with (i + 2) in * by lia.
  destruct (leads_deliver_follower _ _ _ _ _ _ _ L3 ltac:(left)) as (y3 & Hh3 & L4 & _ & Hpend3). destruct (Hpend3 eq_refl) as (_ & k3 & Hk3).
  pose proof (proj1 (proj2 (ld_reply _ _ _ _ _ _ L2 _ _ Hk2))) as Hag.
  assert (sending x2 = (i + 1) mod 4) as Hsx.
  { destruct (ld_send_x _ _ _ _ _ _ L4) as [->|[? _]]; [f_equal; lia|lia]. }
  assert (sending y3 = (i + 2) mod 4) as Hsy.
  { destruct (ld_send_y _ _ _ _ _ _ L4) as [?|[? _]]; [|done|lia]. apply (ld_reply _ _ _ _ _ _ L4 _ _ Hk3). }
  exists y1, y2, (RotationMessage.enc (proposal (rot y2) q')), x1, x2, (RotationMessage.enc (proposal (rot x2) s')), y3, s'.
  split_and!; try done. exists p, k1, k2. split; [exact (ld_prop _ _ _ _ _ _ L)|]. cbn iota.
  split_and!; try done; try (by apply agree_both).
  - rewrite <- (ld_slot_x _ _ _ _ _ _ L3), Hsx. exact Hs1.
  - rewrite (ld_slot_x _ _ _ _ _ _ L4), <- (ld_slot_x _ _ _ _ _ _ L3), Hsx. exact Hs1.
  - rewrite <- (ld_slot_y _ _ _ _ _ _ L4), Hsy. exact Hs2.
  - rewrite Hsy. exact Hs2.
Qed.

(** C19: rotation cannot get stuck: from every world the two nodes can reach, whatever
    was lost before, seven steps, of which three are deliveries, lead to one where
    both nodes send under new keys: each of the two keys is agreed between a proposal
    and a key drawn since, it is in the slot the node sends from, and the other node
    has it in the same slot. *)
Theorem rotation_progress (w : World) :
  reachable w -> newest w < 2 ^ 64 - 2 ->
  exists w', nsteps step 7 w w' /\ newest w' = newest w + 2 /\
    (rekeyed (newest w) (node_a w) (node_b w) (node_a w') (node_b w') \/
     rekeyed (newest w) (node_b w) (node_a w) (node_b w') (node_a w')).
Proof.
  intros Hw Hi. destruct w as [a b ma mb]. apply reachable_led in Hw as [i Hl]. rewrite (led_newest _ _ Hl) in Hi |- *.
  destruct Hl as [[p L]|[p L]]; cbn [node_a node_b w_from_a w_from_b] in *;
    destruct (leads_resend _ _ _ _ _ _ L Hi) as (x & o & Hc & Hr & Hc' & L' & Hrnd);
    destruct (leads_rekey _ _ _ _ _ _ L' ltac:(left) Hi) as (y1 & y2 & m & x1 & x2 & m' & y3 & q & Hh1 & Hr1 & Hc1 & Hh2 & Hr2 & Hc2 & Hh3 & L3 & Hk);
    set (m0 := RotationMessage.enc (proposal (rot x) p)) in *;
    pose proof (ld_prop _ _ _ _ _ _ L) as Hp; pose proof (ld_prop _ _ _ _ _ _ L') as Hp'; pose proof (ld_idx _ _ _ _ _ _ L) as Hx;
    unfold rekeyed in Hk; rewrite Hp', <- Hp, Hrnd in Hk.
  - exists (mkWorld x2 y3 (m' :: m0 :: add_sent o ma) (m :: mb)). split; [|split; [apply led_newest; left; by exists q|by left]].
    eapply nsteps_l; [by apply step_cycle_a; [unfold id_room; lia|exact Hc]|].
    eapply nsteps_l; [by apply step_cycle_a; [exact Hr|exact Hc']|].
    eapply nsteps_l; [eapply (step_to_b _ _ _ _ m0); [left|exact Hh1]|].
    eapply nsteps_l; [by apply step_cycle_b; [exact Hr1|exact Hc1]|].
    eapply nsteps_l; [eapply (step_to_a _ _ _ _ m); [left|exact Hh2]|].
    eapply nsteps_l; [by apply step_cycle_a; [exact Hr2|exact Hc2]|].
    eapply nsteps_l; [eapply (step_to_b _ _ _ _ m'); [left|exact Hh3]|apply nsteps_O].
  - exists (mkWorld y3 x2 (m :: ma) (m' :: m0 :: add_sent o mb)). split; [|split; [apply led_newest; right; by exists q|by right]].
    eapply nsteps_l; [by apply step_cycle_b; [unfold id_room; lia|exact Hc]|].
    eapply nsteps_l; [by apply step_cycle_b; [exact Hr|exact Hc']|].
    eapply nsteps_l; [eapply (step_to_a _ _ _ _ m0); [left|exact Hh1]|].
    eapply nsteps_l; [by apply step_cycle_a; [exact Hr1|exact Hc1]|].
    eapply nsteps_l; [eapply (step_to_b _ _ _ _ m); [left|exact Hh2]|].
    eapply nsteps_l; [by apply step_cycle_b; [exact Hr2|exact Hc2]|].
    eapply nsteps_l; [eapply (step_to_a _ _ _ _ m'); [left|exact Hh3]|apply nsteps_O].
Qed.
End Protocol.

(** The toy pair right after its handshake. *)
Definition toy_new (initiator : bool) : Env unit * outcome Error RotationState :=
  RotationState.new initiator (mkEnv () (MsgBuffer.new 100) (toy_rng 3)).
Definition toy_state (initiator : bool) : RotationState :=
  match (toy_new initiator).2 with Ok s => s | _ => mkRotationState toy_ring None None None 0 false end.
Definition toy_world : World :=
  mkWorld (mkNode (toy_state true) (fun _ => replicate 32 9) 0 (rng (toy_new true).1))
    (mkNode (toy_state false) (fun _ => replicate 32 9) 0 (rng (toy_new false).1))
    [MsgBuffer.contents (out (toy_new true).1)] [].

Lemma toy_new_ok initiator :
  RotationState.new (E := Error) initiator (mkEnv () (MsgBuffer.new 100) (toy_rng 3)) =
    ((toy_new initiator).1, Ok (toy_state initiator)).
Proof.
  unfold toy_state, toy_new. destruct initiator; [|reflexivity].
  destruct (new_initiator (toy_rng 3)) as (p & b & r' & Hn & _). by rewrite Hn.
Qed.

Lemma toy_world_initial : initial toy_world.
Proof.
  exact (initial_world (replicate 32 9) (fun _ => replicate 32 9) (fun _ => replicate 32 9) (toy_rng 3) (toy_rng 3)
    (toy_new true).1 (toy_new false).1 (toy_state true) (toy_state false) eq_refl eq_refl
    (toy_new_ok true) (toy_new_ok false)).
Qed.

Lemma toy_world_reachable : reachable toy_world.
Proof. exists toy_world. split; [apply toy_world_initial|apply rtc_refl]. Qed.

Lemma rotation_agreement_witness :
  slot (node_b toy_world) (sending (node_a toy_world)) = slot (node_a toy_world) (sending (node_a toy_world)).
Proof. exact (proj1 (rotation_agreement toy_world toy_world_reachable)). Defined.

Lemma rotation_progress_witness : exists w', nsteps step 7 toy_world w' /\ newest w' = newest toy_world + 2 /\
  (rekeyed (newest toy_world) (node_a toy_world) (node_b toy_world) (node_a w') (node_b w') \/
   rekeyed (newest toy_world) (node_b toy_world) (node_a toy_world) (node_b w') (node_a w')).
Proof. apply (rotation_progress toy_world toy_world_reachable). rewrite (led_newest _ 1); [lia|]. apply initial_led, toy_world_initial. Defined.
