(* ===== verification/Init.v ===== *)
(** * The handshake (src/src/crypto/init.rs)

    The signed messages of the three-way handshake with their coding, the
    selection of the algorithm, and the state machine [InitState]. *)

From S2P Require Import Prelude Errors Util Types Ring Core.

Definition STAGE_PING : Z := 1.
Definition STAGE_PONG : Z := 2.
Definition STAGE_PENG : Z := 3.
Definition WAITING_TO_CLOSE : Z := 4.
Definition CLOSING : Z := 5.
Definition MAX_FAILED_RETRIES : Z := 120.
Definition SALTED_NODE_ID_HASH_LEN : nat := 20.
Definition ED25519_PUBLIC_KEY_LEN : nat := 32.

(** ** [f32]

    A value is its 32-bit pattern; [<] is IEEE 754 comparison: a NaN compares
    to nothing, the zeros are equal. *)
Module F32.
Definition INFINITY : Z := 2139095040.
Definition magnitude (x : Z) : Z := x mod 2 ^ 31.
Definition is_nan (x : Z) : bool := bool_decide (INFINITY < magnitude x).
(** Ordered like the values. *)
Definition key (x : Z) : Z := if Z.testbit x 31 then - magnitude x else magnitude x.
Definition lt (x y : Z) : bool := negb (is_nan x) && negb (is_nan y) && bool_decide (key x < key y).
End F32.

(** [Payload] (src/src/crypto/common.rs): what the handshake carries. *)
Class Payload (P : Type) : Type := {
  payload_write_to : forall {E}, P -> ST MsgBuffer E unit;
  payload_read_from : bytes -> Result P
}.

Record Algorithms : Type := mkAlgorithms {
  algorithm_speeds : list (Algorithm * Z);
  allow_unencrypted : bool
}.

Inductive InitMsg : Type :=
| Ping (salted_node_id_hash ecdh_public_key : bytes) (algorithms : Algorithms)
| Pong (salted_node_id_hash ecdh_public_key : bytes) (algorithms : Algorithms) (encrypted_payload : MsgBuffer)
| Peng (salted_node_id_hash : bytes) (encrypted_payload : MsgBuffer).

Module InitMsg.

Definition PART_ALGORITHMS : Z := 4.
Definition PART_ECDH_PUBLIC_KEY : Z := 3.
Definition PART_END : Z := 0.
Definition PART_PAYLOAD : Z := 5.
Definition PART_SALTED_NODE_ID_HASH : Z := 2.
Definition PART_STAGE : Z := 1.

Definition stage (m : InitMsg) : Z :=
  match m with Ping _ _ _ => STAGE_PING | Pong _ _ _ _ => STAGE_PONG | Peng _ _ => STAGE_PENG end.

Definition salted_node_id_hash (m : InitMsg) : bytes :=
  match m with Ping h _ _ | Pong h _ _ _ | Peng h _ => h end.

Section InitMsg.
Context `{Ring}.

Definition calculate_hash (key salt : bytes) : bytes := take 4 (sha256 (key ++ salt)).

(** ** Reading *)

Record fields : Type := mkFields {
  f_stage : option Z; f_hash : option bytes; f_ecdh : option bytes;
  f_payload : option MsgBuffer; f_algorithms : option Algorithms
}.
Definition no_fields : fields := mkFields None None None None None.

Definition short {A} (o : option A) : Result A := ok_or o (EParse "Init message too short").

(** The loop over [count] entries of five bytes. *)
Fixpoint read_algorithms (count : nat) (r : bytes) (algos : list (Algorithm * Z)) (allow : bool)
    : Result (Algorithms * bytes) :=
  match count with
  | O => Ok (mkAlgorithms algos allow, r)
  | S count' =>
      '(id, r) ← short (read_u8 r);
      let allow := if decide (id = 0) then true else allow in
      let algo := if decide (id = 1) then Some AES_128_GCM
                  else if decide (id = 2) then Some AES_256_GCM
                  else if decide (id = 3) then Some CHACHA20_POLY1305 else None in
      '(speed, r) ← short ('(bs, r) ← read_exact 4 r; Some (be_value bs, r));
      read_algorithms count' r (match algo with Some a => algos ++ [(a, speed)] | None => algos end) allow
  end.

(** The [match field]. *)
Definition read_field (field field_len : Z) (r : bytes) (f : fields) : Result (fields * bytes) :=
  if decide (field = PART_STAGE) then
    if decide (field_len <> 1) then Err (CryptoInit "Invalid size for stage field")
    else
      '(v, r) ← short (read_u8 r);
      Ok (mkFields (Some v) (f_hash f) (f_ecdh f) (f_payload f) (f_algorithms f), r)
  else if decide (field = PART_SALTED_NODE_ID_HASH) then
    if decide (field_len <> Z.of_nat SALTED_NODE_ID_HASH_LEN)
    then Err (CryptoInit "Invalid size for salted node id hash field")
    else
      '(id, r) ← short (read_exact SALTED_NODE_ID_HASH_LEN r);
      Ok (mkFields (f_stage f) (Some id) (f_ecdh f) (f_payload f) (f_algorithms f), r)
  else if decide (field = PART_ECDH_PUBLIC_KEY) then
    '(k, r) ← short (read_exact (Z.to_nat field_len) r);
    Ok (mkFields (f_stage f) (f_hash f) (Some k) (f_payload f) (f_algorithms f), r)
  else if decide (field = PART_PAYLOAD) then
    let payload := MsgBuffer.set_length field_len (MsgBuffer.new 0) in
    '(bs, r) ← short (read_exact (Z.to_nat field_len) r);
    match MsgBuffer.put_message bs payload with
    | (payload, Ok _) => Ok (mkFields (f_stage f) (f_hash f) (f_ecdh f) (Some payload) (f_algorithms f), r)
    | (_, Err e) => Err e
    | (_, Panic) => Panic
    end
  else if decide (field = PART_ALGORITHMS) then
    '(a, r) ← read_algorithms (Z.to_nat (field_len / 5)) r [] false;
    Ok (mkFields (f_stage f) (f_hash f) (f_ecdh f) (f_payload f) (Some a), r)
  else
    '(_, r) ← short (read_exact (Z.to_nat field_len) r);
    Ok (f, r).

Fixpoint read_fields (fuel : nat) (r : bytes) (f : fields) : Result (fields * bytes) :=
  match fuel with
  | O => Panic
  | S fuel' =>
      '(field, r) ← short (read_u8 r);
      if decide (field = PART_END) then Ok (f, r)
      else
        '(field_len, r) ← short (read_u16 r);
        '(f, r) ← read_field field field_len r f;
        read_fields fuel' r f
  end.

Definition require {A} (o : option A) (what : string) : Result A := ok_or o (CryptoInit what).

(** The [match stage] that builds the message. *)
Definition build (f : fields) : Result InitMsg :=
  stage ← require (f_stage f) "Init message without stage";
  salted_node_id_hash ← require (f_hash f) "Init message without node id";
  if decide (stage = STAGE_PING) then
    ecdh_public_key ← require (f_ecdh f) "Init message without ecdh public key";
    algorithms ← require (f_algorithms f) "Init message without algorithms";
    Ok (Ping salted_node_id_hash ecdh_public_key algorithms)
  else if decide (stage = STAGE_PONG) then
    ecdh_public_key ← require (f_ecdh f) "Init message without ecdh public key";
    algorithms ← require (f_algorithms f) "Init message without algorithms";
    encrypted_payload ← require (f_payload f) "Init message without payload";
    Ok (Pong salted_node_id_hash ecdh_public_key algorithms encrypted_payload)
  else if decide (stage = STAGE_PENG) then
    encrypted_payload ← require (f_payload f) "Init message without payload";
    Ok (Peng salted_node_id_hash encrypted_payload)
  else Err (CryptoInit "Invalid stage").

(** The first trusted key whose salted hash is the one in the message. *)
Fixpoint find_key (trusted_keys : list bytes) (salt hash : bytes) : option bytes :=
  match trusted_keys with
  | [] => None
  | tk :: l => if decide (calculate_hash tk salt = hash) then Some tk else find_key l salt hash
  end.

Definition read_from (buffer : bytes) (trusted_keys : list bytes) : Result (InitMsg * bytes) :=
  '(public_key_salt, r) ← short (read_exact 4 buffer);
  '(public_key_hash, r) ← short (read_exact 4 r);
  public_key_data ← ok_or (find_key trusted_keys public_key_salt public_key_hash) (Crypto "untrusted peer");
  '(f, r) ← read_fields (S (length r)) r no_fields;
  let pos := (length buffer - length r)%nat in
  '(signature_len, r) ← short (read_u8 r);
  '(signature, r) ← short (read_exact (Z.to_nat signature_len) r);
  let signed_data := take pos buffer in
  if verify public_key_data signed_data signature then
    msg ← build f;
    Ok (msg, public_key_data)
  else Err (Crypto "invalid signature").

(** ** Writing *)

Section Write.
Context {W : Type} `{Write W}.

Definition algorithm_id (a : Algorithm) : Z :=
  match a with AES_128_GCM => 1 | AES_256_GCM => 2 | CHACHA20_POLY1305 => 3 end.

Definition write_f32 (x : Z) (w : W) : option W := write_all (be_bytes 4 x) w.

Definition write_algorithm (a : Algorithm * Z) (w : W) : option W :=
  w ← write_u8 (algorithm_id a.1) w; write_f32 a.2 w.

Definition write_algorithms (a : Algorithms) (w : W) : option W :=
  w ← write_u8 PART_ALGORITHMS w;
  let len := zlen (algorithm_speeds a) * 5 in
  let len := if allow_unencrypted a then len + 5 else len in
  w ← write_u16 (wrap16 len) w;
  w ← (if allow_unencrypted a then w ← write_u8 0 w; write_f32 F32.INFINITY w else Some w);
  foldl (fun ow x => ow ≫= write_algorithm x) (Some w) (algorithm_speeds a).

Definition write_ecdh (ecdh_public_key : bytes) (w : W) : option W :=
  w ← write_u8 PART_ECDH_PUBLIC_KEY w;
  w ← write_u16 (wrap16 (zlen ecdh_public_key)) w;
  write_all ecdh_public_key w.

(** [payload] is the encrypted payload's message. *)
Definition write_payload (payload : bytes) (w : W) : option W :=
  w ← write_u8 PART_PAYLOAD w;
  w ← write_u16 (wrap16 (zlen payload)) w;
  write_all payload w.

(** Everything up to [PART_END]. *)
Definition write_body (m : InitMsg) (public_key salt : bytes) (w : W) : option W :=
  w ← write_all salt w;
  w ← write_all (calculate_hash public_key salt) w;
  w ← write_u8 PART_STAGE w;
  w ← write_u16 1 w;
  w ← write_u8 (stage m) w;
  w ← write_u8 PART_SALTED_NODE_ID_HASH w;
  w ← write_u16 (Z.of_nat SALTED_NODE_ID_HASH_LEN) w;
  w ← write_all (salted_node_id_hash m) w;
  w ← match m with Ping _ k _ | Pong _ k _ _ => write_ecdh k w | Peng _ _ => Some w end;
  w ← match m with Ping _ _ a | Pong _ _ a _ => write_algorithms a w | Peng _ _ => Some w end;
  w ← match m with
      | Pong _ _ _ p | Peng _ p => write_payload (MsgBuffer.contents p) w
      | Ping _ _ _ => Some w
      end;
  write_u8 PART_END w.
End Write.

(** The cursor starts at the front of the buffer, so what is signed is what
    was written. *)
Definition write_to (m : InitMsg) (key : Ed25519KeyPair) (salt : bytes) (w : Cursor) : option Cursor :=
  w ← write_body m (ed25519_public_key key) salt w;
  let signature := sign key (take (cur_pos w) (cur_data w)) in
  w ← write_u8 (wrap8 (zlen signature)) w;
  write_all signature w.

End InitMsg.
End InitMsg.

(** ** The state machine *)

Inductive InitResult (P : Type) : Type :=
| Continue
| Success (peer_payload : P) (is_initiator : bool).
Arguments Continue {P}.
Arguments Success {P} _ _.

Record InitState `{Ring} (P : Type) : Type := mkInitState {
  is_node_id : NodeId;
  is_salted_node_id_hash : bytes;
  is_payload : P;
  is_key_pair : Ed25519KeyPair;
  is_trusted_keys : list bytes;
  is_ecdh_private_key : option EcdhPrivateKey;
  next_stage : Z;
  close_time : Z;
  last_message : option bytes;
  is_crypto : option CryptoCore;
  is_algorithms : Algorithms;
  selected_algorithm : option Algorithm;
  failed_retries : Z
}.
Arguments mkInitState {_ P} _ _ _ _ _ _ _ _ _ _ _ _ _.
Arguments is_node_id {_ P} _.
Arguments is_salted_node_id_hash {_ P} _.
Arguments is_payload {_ P} _.
Arguments is_key_pair {_ P} _.
Arguments is_trusted_keys {_ P} _.
Arguments is_ecdh_private_key {_ P} _.
Arguments next_stage {_ P} _.
Arguments close_time {_ P} _.
Arguments last_message {_ P} _.
Arguments is_crypto {_ P} _.
Arguments is_algorithms {_ P} _.
Arguments selected_algorithm {_ P} _.
Arguments failed_retries {_ P} _.

Module InitState.
Section InitState.
Context `{Ring} {P : Type} `{Payload P}.
Implicit Types s : InitState P.

Definition set_ecdh k s : InitState P :=
  mkInitState (is_node_id s) (is_salted_node_id_hash s) (is_payload s) (is_key_pair s) (is_trusted_keys s) k
    (next_stage s) (close_time s) (last_message s) (is_crypto s) (is_algorithms s) (selected_algorithm s) (failed_retries s).
Definition set_next_stage n s : InitState P :=
  mkInitState (is_node_id s) (is_salted_node_id_hash s) (is_payload s) (is_key_pair s) (is_trusted_keys s)
    (is_ecdh_private_key s) n (close_time s) (last_message s) (is_crypto s) (is_algorithms s) (selected_algorithm s) (failed_retries s).
Definition set_close_time n s : InitState P :=
  mkInitState (is_node_id s) (is_salted_node_id_hash s) (is_payload s) (is_key_pair s) (is_trusted_keys s)
    (is_ecdh_private_key s) (next_stage s) n (last_message s) (is_crypto s) (is_algorithms s) (selected_algorithm s) (failed_retries s).
Definition set_last_message m s : InitState P :=
  mkInitState (is_node_id s) (is_salted_node_id_hash s) (is_payload s) (is_key_pair s) (is_trusted_keys s)
    (is_ecdh_private_key s) (next_stage s) (close_time s) m (is_crypto s) (is_algorithms s) (selected_algorithm s) (failed_retries s).
Definition set_crypto c s : InitState P :=
  mkInitState (is_node_id s) (is_salted_node_id_hash s) (is_payload s) (is_key_pair s) (is_trusted_keys s)
    (is_ecdh_private_key s) (next_stage s) (close_time s) (last_message s) c (is_algorithms s) (selected_algorithm s) (failed_retries s).
Definition set_selected a s : InitState P :=
  mkInitState (is_node_id s) (is_salted_node_id_hash s) (is_payload s) (is_key_pair s) (is_trusted_keys s)
    (is_ecdh_private_key s) (next_stage s) (close_time s) (last_message s) (is_crypto s) (is_algorithms s) a (failed_retries s).
Definition set_failed_retries n s : InitState P :=
  mkInitState (is_node_id s) (is_salted_node_id_hash s) (is_payload s) (is_key_pair s) (is_trusted_keys s)
    (is_ecdh_private_key s) (next_stage s) (close_time s) (last_message s) (is_crypto s) (is_algorithms s) (selected_algorithm s) n.

Definition new {E} (node_id : NodeId) (payload : P) (key_pair : Ed25519KeyPair) (trusted_keys : list bytes)
    (algorithms : Algorithms) : ST Rng E (InitState P) :=
  salt ← random 4;
  let hash := salt ++ node_id in
  let d := sha256 hash in
  let hash := salt ++ take 16 d in
  mret (mkInitState node_id hash payload key_pair trusted_keys None STAGE_PING 60 None None algorithms None 0).

Definition derive_master_key {E} (algo : Algorithm) (privk : EcdhPrivateKey) (pubk : bytes) : outcome E LessSafeKey :=
  k ← unwrap (agree_ephemeral privk pubk);
  k ← slice 0 (Z.of_nat (key_len algo)) k;
  unbound_key algo k.

Definition create_ecdh_keypair {E} : ST Rng E (EcdhPrivateKey * bytes) := fun r =>
  let '(k, r') := ecdh_generate r in (r', Ok (k, compute_public_key k)).

(** Encryption of a fresh buffer by the core, when there is one. *)
Definition encrypt_payload {E} : ST (Env (InitState P)) E MsgBuffer := fun e =>
  match payload_write_to (is_payload (self e)) (MsgBuffer.new EXTRA_LEN) with
  | (buffer, Ok _) =>
      match is_crypto (self e) with
      | Some crypto =>
          match CryptoCore.encrypt (E := E) (mkEnv crypto buffer (rng e)) with
          | (ec, Ok _) => (mkEnv (set_crypto (Some (self ec)) (self e)) (out e) (rng ec), Ok (out ec))
          | (ec, Err x) => (mkEnv (set_crypto (Some (self ec)) (self e)) (out e) (rng ec), Err x)
          | (ec, Panic) => (mkEnv (set_crypto (Some (self ec)) (self e)) (out e) (rng ec), Panic)
          end
      | None => (e, Ok buffer)
      end
  | (_, Err x) => (e, Err x)
  | (_, Panic) => (e, Panic)
  end.

(** [decrypt(&mut data)]; the caller drops [data] afterwards. *)
Definition decrypt (data : MsgBuffer) : ST (Env (InitState P)) Error P := fun e =>
  match is_crypto (self e) with
  | Some crypto =>
      match CryptoCore.decrypt (mkEnv crypto data (rng e)) with
      | (ec, Ok _) =>
          (mkEnv (set_crypto (Some (self ec)) (self e)) (out e) (rng ec),
           m ← MsgBuffer.message (out ec); payload_read_from m)
      | (ec, Err x) => (mkEnv (set_crypto (Some (self ec)) (self e)) (out e) (rng ec), Err x)
      | (ec, Panic) => (mkEnv (set_crypto (Some (self ec)) (self e)) (out e) (rng ec), Panic)
      end
  | None => (e, m ← MsgBuffer.message data; payload_read_from m)
  end.

(** [hash == d.as_ref()] compares 20 bytes with the digest's 32. *)
Definition check_salted_node_id_hash (hash : bytes) (node_id : NodeId) : bool :=
  let h2 := take 4 hash ++ node_id in
  let d := sha256 h2 in
  bool_decide (hash = d).

(** The end of [send_message]: write, keep a copy, set the length. *)
Definition write_message {E} (msg : InitMsg) : ST (Env (InitState P)) E unit :=
  s ← on_self get;
  salt ← on_rng (random 4);
  len ← on_out (MsgBuffer.write_cursor (InitMsg.write_to msg (is_key_pair s) salt));
  len ← lift (unwrap len);
  buf ← on_out (fun b => (b, MsgBuffer.buffer b));
  bs ← lift (slice 0 len buf);
  on_self (modify (set_last_message (Some bs))) ;;
  on_out (modify (MsgBuffer.set_length len)).

Definition send_message {E} (stage : Z) (ecdh_public_key : option bytes) : ST (Env (InitState P)) E unit :=
  empty ← on_out (gets MsgBuffer.is_empty);
  assert empty ;;
  s ← on_self get;
  msg ← (if decide (stage = STAGE_PING) then
           k ← lift (unwrap ecdh_public_key);
           mret (Ping (is_salted_node_id_hash s) k (is_algorithms s))
         else if decide (stage = STAGE_PONG) then
           k ← lift (unwrap ecdh_public_key);
           p ← encrypt_payload;
           mret (Pong (is_salted_node_id_hash s) k (is_algorithms s) p)
         else if decide (stage = STAGE_PENG) then
           p ← encrypt_payload;
           mret (Peng (is_salted_node_id_hash s) p)
         else panic);
  write_message msg.

Definition send_ping {E} : ST (Env (InitState P)) E unit :=
  '(ecdh_private_key, ecdh_public_key) ← on_rng create_ecdh_keypair;
  on_self (modify (set_ecdh (Some ecdh_private_key))) ;;
  send_message STAGE_PING (Some ecdh_public_key) ;;
  on_self (modify (set_next_stage STAGE_PONG)).

(** [buffer[0..len].copy_from_slice(bytes)], then the length. *)
Definition repeat_last_message {E} : ST (Env (InitState P)) E unit :=
  m ← on_self (gets last_message);
  match m with
  | Some bs =>
      n ← on_out (MsgBuffer.write_cursor (write_all bs));
      _ ← lift (unwrap n);
      on_out (modify (MsgBuffer.set_length (zlen bs)))
  | None => mret ()
  end.

Definition every_second : ST (Env (InitState P)) Error unit :=
  s ← on_self get;
  if decide (next_stage s = WAITING_TO_CLOSE) then
    if decide (close_time s = 0) then on_self (modify (set_next_stage CLOSING))
    else on_self (modify (set_close_time (close_time s - 1)))
  else if decide (next_stage s = CLOSING) then mret ()
  else if decide (failed_retries s < MAX_FAILED_RETRIES) then
    on_self (modify (set_failed_retries (failed_retries s + 1))) ;;
    repeat_last_message
  else
    on_self (modify (set_next_stage CLOSING)) ;;
    throw (CryptoInitFatal "Initialization timeout").

(** The algorithms both sides know, in our order, at the lower speed. *)
Definition common_algorithms (ours theirs : Algorithms) : list (Algorithm * Z) :=
  omap (fun a1 : Algorithm * Z =>
    match list_find (fun a2 : Algorithm * Z => a1.1 = a2.1) (algorithm_speeds theirs) with
    | Some (_, a2) => Some (a1.1, if F32.lt a1.2 a2.2 then a1.2 else a2.2)
    | None => None
    end) (algorithm_speeds ours).

(** [max_by] keeps the earlier element unless it compares [Less] to the later. *)
Definition fastest (l : list (Algorithm * Z)) : option (Algorithm * Z) :=
  match l with
  | [] => None
  | a :: l => Some (foldl (fun acc x => if F32.lt acc.2 x.2 then x else acc) a l)
  end.

Definition select_algorithm (ours peer_algos : Algorithms) : Result (option (Algorithm * Z)) :=
  if allow_unencrypted ours && allow_unencrypted peer_algos then Ok None
  else
    match fastest (common_algorithms ours peer_algos) with
    | Some algo => Ok (Some algo)
    | None => Err (CryptoInitFatal "No common algorithms")
    end.

(** The master key and the core, when an algorithm was selected. *)
Definition setup_core (algorithm : option (Algorithm * Z)) (privk : EcdhPrivateKey) (pubk peer_hash : bytes)
    : ST (Env (InitState P)) Error unit :=
  on_self (modify (set_selected (fst <$> algorithm))) ;;
  match algorithm with
  | Some (algorithm, _) =>
      master_key ← lift (derive_master_key algorithm privk pubk);
      s ← on_self get;
      core ← on_rng (CryptoCore.new master_key (Nonce.ltb peer_hash (is_salted_node_id_hash s)));
      on_self (modify (set_crypto (Some core)))
  | None => mret ()
  end.

Definition fatal {A} (m : ST (Env (InitState P)) Error A) : ST (Env (InitState P)) Error A := fun e =>
  let '(e', r) := m e in (e', map_err (fun _ => CryptoInitFatal "Failed to decrypt payload") r).

(** The [match msg], once the stage is the expected one. *)
Definition handle_msg (msg : InitMsg) : ST (Env (InitState P)) Error (InitResult P) :=
  s ← on_self get;
  match msg with
  | Ping hash ecdh_public_key algorithms =>
      '(my_ecdh_private_key, my_ecdh_public_key) ← on_rng create_ecdh_keypair;
      algorithm ← lift (select_algorithm (is_algorithms s) algorithms);
      setup_core algorithm my_ecdh_private_key ecdh_public_key hash ;;
      send_message STAGE_PONG (Some my_ecdh_public_key) ;;
      on_self (modify (set_next_stage STAGE_PENG)) ;;
      mret Continue
  | Pong hash ecdh_public_key algorithms encrypted_payload =>
      on_self (modify (set_ecdh None)) ;;
      ecdh_private_key ← lift (unwrap (is_ecdh_private_key s));
      algorithm ← lift (select_algorithm (is_algorithms s) algorithms);
      setup_core algorithm ecdh_private_key ecdh_public_key hash ;;
      peer_payload ← fatal (decrypt encrypted_payload);
      send_message STAGE_PENG None ;;
      on_self (modify (set_next_stage WAITING_TO_CLOSE)) ;;
      on_self (modify (set_close_time 60)) ;;
      mret (Success peer_payload true)
  | Peng _ encrypted_payload =>
      peer_payload ← fatal (decrypt encrypted_payload);
      on_self (modify (set_next_stage CLOSING)) ;;
      mret (Success peer_payload false)
  end.

(** [None]: the message is answered (or ignored) without being processed. *)
Definition check_stage (msg : InitMsg) : ST (Env (InitState P)) Error bool :=
  s ← on_self get;
  if decide (InitMsg.stage msg = next_stage s) then mret true
  else if decide (next_stage s = STAGE_PONG /\ InitMsg.stage msg = STAGE_PING) then
    if Nonce.ltb (is_salted_node_id_hash s) (InitMsg.salted_node_id_hash msg) then
      on_self (modify (fun s => set_ecdh None (set_last_message None (set_next_stage STAGE_PING s)))) ;; mret true
    else mret false
  else if decide (next_stage s = CLOSING) then mret false
  else
    match last_message s with
    | Some _ => repeat_last_message ;; mret false
    | None => throw (CryptoInitFatal "Received invalid stage as first message")
    end.

Definition handle_init : ST (Env (InitState P)) Error (InitResult P) :=
  buf ← on_out (fun b => (b, MsgBuffer.buffer b));
  s ← on_self get;
  '(msg, _) ← lift (InitMsg.read_from buf (is_trusted_keys s));
  on_out (modify MsgBuffer.clear) ;;
  let hash := InitMsg.salted_node_id_hash msg in
  if bool_decide (is_salted_node_id_hash s = hash) || check_salted_node_id_hash hash (is_node_id s)
  then throw (CryptoInitFatal "Connected to self")
  else
    proceed ← check_stage msg;
    if proceed : bool then
      on_self (modify (set_failed_retries 0)) ;;
      handle_msg msg
    else mret Continue.

Definition take_core {E} : ST (InitState P) E (option CryptoCore) := fun s =>
  (set_crypto None s, Ok (is_crypto s)).

End InitState.
End InitState.

Import InitState.

(** ** The layout of a handshake message *)

Section Codec.
Context `{RingLaws}.
Import InitMsg.

Definition enc_algorithm (a : Algorithm * Z) : bytes := be_bytes 1 (algorithm_id a.1) ++ be_bytes 4 a.2.
Definition enc_algorithms (a : Algorithms) : bytes :=
  (if allow_unencrypted a then be_bytes 1 0 ++ be_bytes 4 F32.INFINITY else []) ++
  concat (enc_algorithm <$> algorithm_speeds a).
Definition enc_field (field : Z) (bs : bytes) : bytes := be_bytes 1 field ++ be_bytes 2 (zlen bs) ++ bs.

Definition enc_body (m : InitMsg) (public_key salt : bytes) : bytes :=
  salt ++ calculate_hash public_key salt ++
  enc_field PART_STAGE (be_bytes 1 (stage m)) ++
  enc_field PART_SALTED_NODE_ID_HASH (salted_node_id_hash m) ++
  match m with Ping _ k _ | Pong _ k _ _ => enc_field PART_ECDH_PUBLIC_KEY k | Peng _ _ => [] end ++
  match m with Ping _ _ a | Pong _ _ a _ => enc_field PART_ALGORITHMS (enc_algorithms a) | Peng _ _ => [] end ++
  match m with
  | Pong _ _ _ p | Peng _ p => enc_field PART_PAYLOAD (MsgBuffer.contents p)
  | Ping _ _ _ => []
  end ++
  be_bytes 1 PART_END.

Definition enc (m : InitMsg) (key : Ed25519KeyPair) (salt : bytes) : bytes :=
  let body := enc_body m (ed25519_public_key key) salt in
  body ++ be_bytes 1 (zlen (sign key body)) ++ sign key body.

Definition algorithms_wf (a : Algorithms) : Prop :=
  Forall (fun x => 0 <= x.2 < 2 ^ 32) (algorithm_speeds a) /\ (length (algorithm_speeds a) <= 1000)%nat.

Definition hash_wf (h : bytes) : Prop := length h = SALTED_NODE_ID_HASH_LEN /\ bytes_ok h.

Definition payload_wf (p : MsgBuffer) : Prop := MsgBuffer.wf p /\ zlen (MsgBuffer.contents p) <= 50000.

(** Messages as the program builds them. *)
Definition msg_wf (m : InitMsg) : Prop :=
  match m with
  | Ping h k a => hash_wf h /\ bytes_ok k /\ zlen k < 1000 /\ algorithms_wf a
  | Pong h k a p => hash_wf h /\ bytes_ok k /\ zlen k < 1000 /\ algorithms_wf a /\ payload_wf p
  | Peng h p => hash_wf h /\ payload_wf p
  end.

Lemma enc_algorithms_len a :
  zlen (enc_algorithms a) = zlen (algorithm_speeds a) * 5 + (if allow_unencrypted a then 5 else 0).
Proof.
  unfold enc_algorithms, zlen. rewrite length_app.
  assert (forall l : list (Algorithm * Z), length (concat (enc_algorithm <$> l)) = (length l * 5)%nat) as ->.
  { intros l. induction l as [|x l IH]; [done|]. cbn [fmap list_fmap concat length].
    rewrite length_app, IH. unfold enc_algorithm. rewrite length_app, !length_be_bytes. lia. }
  destruct (allow_unencrypted a); rewrite ?length_app, ?length_be_bytes; cbn [length]; lia.
Qed.

Section WriteSpecs.
Context {W : Type} `{WriteLaws W}.

Lemma writes_algorithms a : algorithms_wf a -> writes (W := W) (write_algorithms a) (enc_field PART_ALGORITHMS (enc_algorithms a)).
Proof.
  intros [_ Hl] w. unfold write_algorithms, enc_field. rewrite enc_algorithms_len.
  apply writes_bind; [auto with vpn|]. intros w1.
  replace (if allow_unencrypted a then zlen (algorithm_speeds a) * 5 + 5 else zlen (algorithm_speeds a) * 5)
    with (zlen (algorithm_speeds a) * 5 + (if allow_unencrypted a then 5 else 0)) by (destruct (allow_unencrypted a); lia).
  rewrite wrap_small by (unfold zlen; destruct (allow_unencrypted a); lia).
  apply writes_bind; [auto with vpn|]. intros w2. unfold enc_algorithms.
  apply (writes_bind (fun w => if allow_unencrypted a then w ← write_u8 0 w; write_f32 F32.INFINITY w else Some w)).
  - destruct (allow_unencrypted a); [|apply writes_ret]. intros w3. apply writes_bind; [auto with vpn|apply writes_all].
  - intros w3. apply (writes_foldl write_algorithm enc_algorithm). intros x _ w4. apply writes_bind; [auto with vpn|apply writes_all].
Qed.

Lemma writes_ecdh k : zlen k < 65536 -> writes (W := W) (write_ecdh k) (enc_field PART_ECDH_PUBLIC_KEY k).
Proof.
  intros Hl w. unfold write_ecdh, enc_field. apply writes_bind; [auto with vpn|]. intros w1.
  rewrite wrap_small by (unfold zlen in *; lia). apply writes_bind; auto with vpn.
Qed.

Lemma writes_payload k : zlen k < 65536 -> writes (W := W) (write_payload k) (enc_field PART_PAYLOAD k).
Proof.
  intros Hl w. unfold write_payload, enc_field. apply writes_bind; [auto with vpn|]. intros w1.
  rewrite wrap_small by (unfold zlen in *; lia). apply writes_bind; auto with vpn.
Qed.

Lemma writes_body m pk salt : msg_wf m -> writes (W := W) (write_body m pk salt) (enc_body m pk salt).
Proof.
  intros Hm w. unfold write_body, enc_body.
  apply writes_bind; [auto with vpn|]. intros w1. apply writes_bind; [auto with vpn|]. intros w2.
  unfold enc_field at 1 2. rewrite <- !(assoc_L app).
  apply writes_bind; [auto with vpn|]. intros w3. unfold zlen at 1. rewrite length_be_bytes.
  apply writes_bind; [auto with vpn|]. intros w4. apply writes_bind; [auto with vpn|]. intros w5.
  apply writes_bind; [auto with vpn|]. intros w6.
  replace (zlen (salted_node_id_hash m)) with (Z.of_nat SALTED_NODE_ID_HASH_LEN).
  2: { unfold zlen. f_equal. destruct m; cbn in *; symmetry; apply Hm. }
  apply writes_bind; [auto with vpn|]. intros w7. apply writes_bind; [auto with vpn|]. intros w8.
  apply (writes_bind (fun w => match m with Ping _ k _ | Pong _ k _ _ => write_ecdh k w | Peng _ _ => Some w end)).
  { destruct m; [| |apply writes_ret]; apply writes_ecdh; cbn in Hm; lia. }
  intros w9. apply (writes_bind (fun w => match m with Ping _ _ a | Pong _ _ a _ => write_algorithms a w | Peng _ _ => Some w end)).
  { destruct m; [| |apply writes_ret]; apply writes_algorithms; cbn in Hm; tauto. }
  intros w10. apply (writes_bind (fun w => match m with
      | Pong _ _ _ p | Peng _ p => write_payload (MsgBuffer.contents p) w | Ping _ _ _ => Some w end)); [|auto with vpn].
  destruct m; [apply writes_ret| |]; apply writes_payload; cbn in Hm; unfold payload_wf in Hm; lia.
Qed.
End WriteSpecs.

(** The signature covers exactly what was written before it. *)
Lemma write_to_front m key salt view : msg_wf m ->
  write_to m key salt (mkCursor view 0) = write_all (enc m key salt) (mkCursor view 0).
Proof.
  intros Hm. unfold write_to, enc. cbn zeta. set (body := enc_body m (ed25519_public_key key) salt).
  rewrite write_all_app, (writes_body m _ salt Hm (mkCursor view 0)). fold body.
  destruct (write_all body (mkCursor view 0)) as [w|] eqn:Hw; [|done]. cbn [mbind option_bind].
  assert (take (cur_pos w) (cur_data w) = body) as ->.
  { unfold write_all, write_cursor in Hw. cbn [cur_data cur_pos] in Hw. case_decide; [|done].
    injection Hw as <-. cbn [cur_data cur_pos].
    apply (take_drop_splice _ 0); [done|lia]. }
  pose proof (sign_len key body) as Hs. rewrite wrap_small by (unfold zlen; lia).
  symmetry. apply write_all_app.
Qed.

Lemma enc_field_ok f bs : bytes_ok bs -> bytes_ok (enc_field f bs).
Proof. intros Hb. unfold enc_field. repeat (apply Forall_app; split); done || apply be_bytes_ok. Qed.

Lemma enc_field_len f bs : zlen (enc_field f bs) = 3 + zlen bs.
Proof. unfold enc_field, zlen. rewrite !length_app, !length_be_bytes. lia. Qed.

Lemma enc_algorithms_ok a : bytes_ok (enc_algorithms a).
Proof.
  apply Forall_app. split.
  - destruct (allow_unencrypted a); [|constructor]. apply Forall_app. split; apply be_bytes_ok.
  - induction (algorithm_speeds a) as [|x l IH]; [constructor|]. apply Forall_app. split; [|done].
    apply Forall_app. split; apply be_bytes_ok.
Qed.

Lemma msg_hash_wf m : msg_wf m -> hash_wf (salted_node_id_hash m).
Proof. destruct m; cbn; tauto. Qed.

Lemma enc_body_ok m pk salt : msg_wf m -> bytes_ok salt -> bytes_ok (enc_body m pk salt).
Proof.
  intros Hm Hs. pose proof (msg_hash_wf m Hm) as [_ Hh]. unfold enc_body.
  repeat (apply Forall_app; split); try done; try apply be_bytes_ok.
  - unfold calculate_hash. apply Forall_take, sha256_ok.
  - destruct m; [| |constructor]; apply enc_field_ok; apply Hm.
  - destruct m; [| |constructor]; apply enc_field_ok, enc_algorithms_ok.
  - destruct m; [constructor| |]; apply enc_field_ok, contents_bytes_ok; apply Hm.
Qed.

Lemma enc_body_len m pk salt : msg_wf m -> length salt = 4%nat -> zlen (enc_body m pk salt) <= 60000.
Proof.
  intros Hm Hs. pose proof (msg_hash_wf m Hm) as [Hh _]. unfold enc_body, zlen.
  assert (length (calculate_hash pk salt) <= 4)%nat by (unfold calculate_hash; rewrite length_take; lia).
  rewrite !length_app, Hs.
  assert (forall f bs, Z.of_nat (length (enc_field f bs)) = 3 + zlen bs) as Hf by (intros; apply enc_field_len).
  assert (forall a, algorithms_wf a -> zlen (enc_algorithms a) <= 5005) as Ha.
  { intros a [_ Hl]. rewrite enc_algorithms_len. unfold zlen. destruct (allow_unencrypted a); lia. }
  rewrite !Nat2Z.inj_add, !Hf. unfold zlen at 1 2. rewrite !length_be_bytes, Hh. unfold SALTED_NODE_ID_HASH_LEN.
  destruct m as [h k a|h k a p|h p]; cbn [msg_wf length] in *; rewrite ?Hf; unfold payload_wf in *;
    try (specialize (Ha a ltac:(tauto))); lia.
Qed.

Lemma enc_ok_len m key salt : msg_wf m -> length salt = 4%nat -> bytes_ok salt ->
  bytes_ok (enc m key salt) /\ zlen (enc m key salt) <= 60100.
Proof.
  intros Hm Hl Ho. unfold enc. cbn zeta. pose proof (enc_body_len m (ed25519_public_key key) salt Hm Hl).
  set (body := enc_body m (ed25519_public_key key) salt) in *. pose proof (sign_len key body). split.
  - apply Forall_app; split; [by apply enc_body_ok|]. apply Forall_app; split; [apply be_bytes_ok|apply sign_ok].
  - unfold zlen in *. rewrite !length_app, length_be_bytes. lia.
Qed.
End Codec.

(** ** Reading back *)

Section Decode.
Context `{RingLaws}.
Import InitMsg.

(** The field parses to what it was made from. *)
Definition field_sets (field : Z) (bs : bytes) (f : fields -> fields) : Prop :=
  forall s fl, read_field field (zlen bs) (bs ++ s) fl = Ok (f fl, s).

Lemma read_fields_step field bs f fuel s fl :
  field_sets field bs f -> is_u8 field -> field <> PART_END -> zlen bs < 65536 ->
  read_fields (S fuel) (enc_field field bs ++ s) fl = read_fields fuel s (f fl).
Proof.
  intros Hf Hu He Hl. cbn [read_fields]. unfold enc_field. rewrite <- !(assoc_L app).
  rewrite read_u8_app by done. cbn [short ok_or mbind outcome_bind]. rewrite decide_False by done.
  rewrite read_u16_app by (unfold is_u16, zlen in *; lia). cbn [short ok_or mbind outcome_bind].
  by rewrite Hf.
Qed.

Lemma sets_stage v : is_u8 v ->
  field_sets PART_STAGE (be_bytes 1 v) (fun fl => mkFields (Some v) (f_hash fl) (f_ecdh fl) (f_payload fl) (f_algorithms fl)).
Proof.
  intros Hv s fl. unfold read_field. rewrite decide_True by done.
  rewrite decide_False by (unfold zlen; rewrite length_be_bytes; lia). by rewrite read_u8_app.
Qed.

Lemma sets_hash h : hash_wf h ->
  field_sets PART_SALTED_NODE_ID_HASH h (fun fl => mkFields (f_stage fl) (Some h) (f_ecdh fl) (f_payload fl) (f_algorithms fl)).
Proof.
  intros [Hh _] s fl. unfold read_field. rewrite decide_False, decide_True by done.
  rewrite decide_False by (unfold zlen; lia). by rewrite read_exact_app.
Qed.

Lemma sets_ecdh k :
  field_sets PART_ECDH_PUBLIC_KEY k (fun fl => mkFields (f_stage fl) (f_hash fl) (Some k) (f_payload fl) (f_algorithms fl)).
Proof.
  intros s fl. unfold read_field. do 2 rewrite decide_False by done. rewrite decide_True by done.
  by rewrite read_exact_app by (unfold zlen; lia).
Qed.

(** The buffer a payload of [bs] is read into. *)
Definition payload_buffer (bs : bytes) : MsgBuffer :=
  (MsgBuffer.put_message (E := Error) bs (MsgBuffer.set_length (zlen bs) (MsgBuffer.new 0))).1.

Lemma payload_buffer_spec bs : bytes_ok bs -> zlen bs <= BUFFER_SIZE ->
  MsgBuffer.put_message (E := Error) bs (MsgBuffer.set_length (zlen bs) (MsgBuffer.new 0)) = (payload_buffer bs, Ok ()) /\
  MsgBuffer.wf (payload_buffer bs) /\ MsgBuffer.contents (payload_buffer bs) = bs /\ buf_start (payload_buffer bs) = 0.
Proof.
  intros Hb Hl. unfold payload_buffer.
  assert (MsgBuffer.wf (MsgBuffer.new 0)) as Hw by (apply new_wf; unfold BUFFER_SIZE; lia).
  destruct (put_message_spec (E := Error) (MsgBuffer.set_length (zlen bs) (MsgBuffer.new 0)) bs) as (b' & -> & Hwb & Hc & Hs & _).
  - apply set_length_wf; [done|]. change (buf_start (MsgBuffer.new 0)) with 0. unfold zlen, BUFFER_SIZE in *. lia.
  - done.
  - rewrite set_length_end; [|done|]; change (buf_start (MsgBuffer.new 0)) with 0;
      [change (buf_start (MsgBuffer.set_length (zlen bs) (MsgBuffer.new 0))) with 0; lia|unfold zlen, BUFFER_SIZE in *; lia].
  - split; [done|]. split; [done|]. split; [done|]. cbn [fst]. by rewrite Hs.
Qed.

Lemma sets_payload bs : bytes_ok bs -> zlen bs < 65536 ->
  field_sets PART_PAYLOAD bs
    (fun fl => mkFields (f_stage fl) (f_hash fl) (f_ecdh fl) (Some (payload_buffer bs)) (f_algorithms fl)).
Proof.
  intros Hb Hl s fl. unfold read_field. do 3 rewrite decide_False by done. rewrite decide_True by done.
  rewrite read_exact_app by (unfold zlen; lia). cbn [short ok_or mbind outcome_bind].
  destruct (payload_buffer_spec bs Hb ltac:(unfold BUFFER_SIZE; lia)) as (Hp & _). by rewrite Hp.
Qed.

Lemma read_f32_app x s : 0 <= x < 2 ^ 32 ->
  ('(bs, r) ← read_exact 4 (be_bytes 4 x ++ s); Some (be_value bs, r)) = Some (x, s).
Proof.
  intros Hx. rewrite read_exact_app by apply length_be_bytes. cbn [mbind option_bind].
  by rewrite be_value_be_bytes_small.
Qed.

Lemma read_algorithms_speeds l : forall s acc allow,
  Forall (fun x : Algorithm * Z => 0 <= x.2 < 2 ^ 32) l ->
  read_algorithms (length l) (concat (enc_algorithm <$> l) ++ s) acc allow = Ok (mkAlgorithms (acc ++ l) allow, s).
Proof.
  induction l as [|[a x] l IH]; intros s acc allow Hl; cbn [fmap list_fmap concat length read_algorithms].
  - by rewrite app_nil_r.
  - apply Forall_cons_1 in Hl as [Hx Hl]. cbn [snd] in Hx. unfold enc_algorithm at 1. cbn [fst snd].
    rewrite <- !(assoc_L app). rewrite read_u8_app by (destruct a; unfold is_u8; cbn; lia).
    cbn [short ok_or mbind outcome_bind]. rewrite (decide_False (P := algorithm_id a = 0)) by (by destruct a).
    rewrite read_f32_app by done. cbn [short ok_or mbind outcome_bind].
    replace (if decide (algorithm_id a = 1) then _ else _) with (Some a) by (by destruct a).
    rewrite IH by done. by rewrite <- (assoc_L app).
Qed.

Lemma sets_algorithms a : algorithms_wf a ->
  field_sets PART_ALGORITHMS (enc_algorithms a)
    (fun fl => mkFields (f_stage fl) (f_hash fl) (f_ecdh fl) (f_payload fl) (Some a)).
Proof.
  intros [Ha Hl] s fl. unfold read_field. do 4 rewrite decide_False by done. rewrite decide_True by done.
  rewrite enc_algorithms_len. destruct a as [l allow]. unfold enc_algorithms. cbn [algorithm_speeds allow_unencrypted] in *.
  destruct allow.
  - replace (Z.to_nat ((zlen l * 5 + 5) / 5)) with (S (length l)) by (unfold zlen; Z.div_mod_to_equations; lia).
    cbn [read_algorithms]. rewrite <- !(assoc_L app). rewrite read_u8_app by (unfold is_u8; lia).
    cbn [short ok_or mbind outcome_bind]. rewrite read_f32_app by (unfold F32.INFINITY; lia).
    cbn [short ok_or mbind outcome_bind].
    pose proof (read_algorithms_speeds l s [] true Ha) as Hr.
    match goal with |- (read_algorithms _ _ ?x ?y ≫= _) = _ =>
      change x with ([] : list (Algorithm * Z)); change y with true end.
    by rewrite Hr.
  - replace (Z.to_nat ((zlen l * 5 + 0) / 5)) with (length l) by (unfold zlen; Z.div_mod_to_equations; lia).
    cbn [app]. by rewrite read_algorithms_speeds.
Qed.

(** The message the reader gets: the payload in a buffer of its own. *)
Definition received (m : InitMsg) : InitMsg :=
  match m with
  | Ping h k a => Ping h k a
  | Pong h k a p => Pong h k a (payload_buffer (MsgBuffer.contents p))
  | Peng h p => Peng h (payload_buffer (MsgBuffer.contents p))
  end.

Lemma read_fields_end fuel s fl : read_fields (S fuel) (be_bytes 1 PART_END ++ s) fl = Ok (fl, s).
Proof. cbn [read_fields]. rewrite read_u8_app by (unfold is_u8, PART_END; lia). done. Qed.

Lemma contents_small p : payload_wf p -> bytes_ok (MsgBuffer.contents p) /\ zlen (MsgBuffer.contents p) < 65536.
Proof. intros [Hp Hl]. split; [by apply contents_bytes_ok|lia]. Qed.

(** The fields of a message give the message. *)
Lemma read_fields_msg m fuel s : msg_wf m ->
  exists fl, read_fields (6 + fuel) (enc_field PART_STAGE (be_bytes 1 (stage m)) ++
      enc_field PART_SALTED_NODE_ID_HASH (salted_node_id_hash m) ++
      match m with Ping _ k _ | Pong _ k _ _ => enc_field PART_ECDH_PUBLIC_KEY k | Peng _ _ => [] end ++
      match m with Ping _ _ a | Pong _ _ a _ => enc_field PART_ALGORITHMS (enc_algorithms a) | Peng _ _ => [] end ++
      match m with
      | Pong _ _ _ p | Peng _ p => enc_field PART_PAYLOAD (MsgBuffer.contents p)
      | Ping _ _ _ => []
      end ++ be_bytes 1 PART_END ++ s) no_fields = Ok (fl, s) /\ build fl = Ok (received m).
Proof.
  intros Hm. pose proof (msg_hash_wf m Hm) as Hh.
  assert (is_u8 (stage m)) as Hst by (by destruct m).
  change (6 + fuel)%nat with (S (S (S (S (S (S fuel)))))).
  rewrite (read_fields_step _ _ _ _ _ _ (sets_stage _ Hst)) by (unfold is_u8, PART_STAGE, PART_END, zlen; rewrite ?length_be_bytes; lia).
  rewrite (read_fields_step _ _ _ _ _ _ (sets_hash _ Hh))
    by (unfold is_u8, PART_SALTED_NODE_ID_HASH, PART_END, zlen; destruct Hh as [Hh _]; unfold SALTED_NODE_ID_HASH_LEN in Hh; lia).
  destruct m as [h k a|h k a p|h p]; cbn [msg_wf stage] in *; cbn [app].
  - destruct Hm as (_ & Hk & Hkl & Ha). eexists. 
    rewrite (read_fields_step _ _ _ _ _ _ (sets_ecdh k)) by (unfold is_u8, PART_ECDH_PUBLIC_KEY, PART_END; lia).
    rewrite (read_fields_step _ _ _ _ _ _ (sets_algorithms a Ha))
      by (try rewrite enc_algorithms_len; unfold is_u8, PART_ALGORITHMS, PART_END, zlen; try destruct (allow_unencrypted a); destruct Ha; lia).
    rewrite read_fields_end. split; [reflexivity|done].
  - destruct Hm as (_ & Hk & Hkl & Ha & Hp). destruct (contents_small p Hp) as [Hpo Hpl]. eexists.
    rewrite (read_fields_step _ _ _ _ _ _ (sets_ecdh k)) by (unfold is_u8, PART_ECDH_PUBLIC_KEY, PART_END; lia).
    rewrite (read_fields_step _ _ _ _ _ _ (sets_algorithms a Ha))
      by (try rewrite enc_algorithms_len; unfold is_u8, PART_ALGORITHMS, PART_END, zlen; try destruct (allow_unencrypted a); destruct Ha; lia).
    rewrite (read_fields_step _ _ _ _ _ _ (sets_payload _ Hpo Hpl)) by (unfold is_u8, PART_PAYLOAD, PART_END; lia).
    rewrite read_fields_end. split; [reflexivity|done].
  - destruct Hm as (_ & Hp). destruct (contents_small p Hp) as [Hpo Hpl]. eexists.
    rewrite (read_fields_step _ _ _ _ _ _ (sets_payload _ Hpo Hpl)) by (unfold is_u8, PART_PAYLOAD, PART_END; lia).
    rewrite read_fields_end. split; [reflexivity|done].
Qed.

Lemma read_enc m key salt rest trusted :
  msg_wf m -> length salt = 4%nat ->
  find_key trusted salt (calculate_hash (ed25519_public_key key) salt) = Some (ed25519_public_key key) ->
  read_from (enc m key salt ++ rest) trusted = Ok (received m, ed25519_public_key key).
Proof.
  intros Hm Hs Hfind. unfold read_from, enc. cbn zeta. set (pk := ed25519_public_key key) in *.
  set (sg := sign key (enc_body m pk salt)).
  assert (length (calculate_hash pk salt) = 4%nat) as Hch by (unfold calculate_hash; rewrite length_take, sha256_len; lia).
  set (body := enc_body m pk salt) in *. rewrite <- !(assoc_L app).
  set (tail := be_bytes 1 (zlen sg) ++ sg ++ rest).
  set (fs := enc_field PART_STAGE (be_bytes 1 (stage m)) ++
      enc_field PART_SALTED_NODE_ID_HASH (salted_node_id_hash m) ++
      match m with Ping _ k _ | Pong _ k _ _ => enc_field PART_ECDH_PUBLIC_KEY k | Peng _ _ => [] end ++
      match m with Ping _ _ a | Pong _ _ a _ => enc_field PART_ALGORITHMS (enc_algorithms a) | Peng _ _ => [] end ++
      match m with
      | Pong _ _ _ p | Peng _ p => enc_field PART_PAYLOAD (MsgBuffer.contents p)
      | Ping _ _ _ => []
      end ++ be_bytes 1 PART_END ++ tail).
  assert (body ++ tail = salt ++ calculate_hash pk salt ++ fs) as Hbt.
  { unfold body, enc_body. rewrite <- !(assoc_L app). reflexivity. }
  assert (read_exact 4 (body ++ tail) = Some (salt, calculate_hash pk salt ++ fs)) as Hr1.
  { rewrite Hbt. by apply read_exact_app. }
  rewrite Hr1. cbn [short ok_or mbind outcome_bind].
  rewrite read_exact_app by done. cbn [short ok_or mbind outcome_bind]. rewrite Hfind. cbn [ok_or mbind outcome_bind].
  assert (exists fuel, S (length fs) = (6 + fuel)%nat) as [fuel Hf].
  { exists (length fs - 5)%nat. unfold fs. rewrite !length_app.
    pose proof (enc_field_len PART_STAGE (be_bytes 1 (stage m))).
    pose proof (enc_field_len PART_SALTED_NODE_ID_HASH (salted_node_id_hash m)). unfold zlen in *. lia. }
  rewrite Hf. destruct (read_fields_msg m fuel tail Hm) as (fl & Hrf & Hb).
  unfold fs. rewrite Hrf. cbn [short ok_or mbind outcome_bind].
  pose proof (sign_len key body) as Hsl. fold sg in Hsl.
  assert (read_u8 tail = Some (zlen sg, sg ++ rest)) as Hu by (apply read_u8_app; unfold is_u8, zlen; lia).
  cbn [short ok_or mbind outcome_bind]. rewrite Hu. cbn [short ok_or mbind outcome_bind].
  rewrite read_exact_app by (unfold zlen; lia). cbn [short ok_or mbind outcome_bind].
  replace (take _ (body ++ _)) with body.
  - unfold sg, pk. rewrite (verify_sign key body). rewrite Hb. done.
  - symmetry. apply take_app_length'. rewrite (length_app body). lia.
Qed.
End Decode.

(** ** Reading arbitrary input *)

Section Safe.
Context `{RingLaws}.
Import InitMsg.

(** The rest of the input is a suffix, and there is no panic. *)
Definition consumes {A} (r : bytes) (o : Result (A * bytes)) : Prop :=
  match o with
  | Ok (_, r') => exists a, r = a ++ r'
  | Err _ => True
  | Panic => False
  end.

Lemma read_exact_consumes n (r : bytes) : consumes r (short (read_exact n r)).
Proof.
  destruct (read_exact n r) as [[a r']|] eqn:Hr; cbn; [|done].
  apply (read_exact_inv (R := bytes)) in Hr as [_ ->]. by exists a.
Qed.

Lemma consumes_bind {A B} r (o : Result (A * bytes)) (k : A * bytes -> Result (B * bytes)) :
  consumes r o -> (forall x r', o = Ok (x, r') -> (exists a, r = a ++ r') -> consumes r' (k (x, r'))) -> consumes r (o ≫= k).
Proof.
  intros Ho Hk. destruct o as [[x r']|e|]; cbn in *; [|done..]. destruct Ho as [a ->].
  specialize (Hk x r' eq_refl (ex_intro _ a eq_refl)). destruct (k (x, r')) as [[y r2]|e|]; [|done..].
  destruct Hk as [b ->]. exists (a ++ b). by rewrite (assoc_L app).
Qed.

Lemma read_u8_consumes (r : bytes) : consumes r (short (read_u8 r)).
Proof.
  unfold read_u8. destruct (read_exact 1 r) as [[a r']|] eqn:Hr; cbn; [|done].
  apply (read_exact_inv (R := bytes)) in Hr as [_ ->]. by exists a.
Qed.

Lemma consumes_ret {A} (x : A) (r : bytes) : consumes r (Ok (x, r)).
Proof. by exists []. Qed.

Lemma read_algorithms_consumes n : forall r algos allow, consumes r (read_algorithms n r algos allow).
Proof.
  induction n as [|n IH]; intros r algos allow; [apply consumes_ret|]. cbn [read_algorithms].
  apply consumes_bind; [apply read_u8_consumes|]. intros id r1 _ _.
  apply consumes_bind.
  { destruct (read_exact 4 r1) as [[a r']|] eqn:Hr; cbn; [|done].
    apply (read_exact_inv (R := bytes)) in Hr as [_ ->]. by exists a. }
  intros speed r2 _ _. apply IH.
Qed.

Lemma read_field_consumes field field_len r f :
  bytes_ok r -> is_u16 field_len -> consumes r (read_field field field_len r f).
Proof.
  intros Hr Hl. unfold read_field.
  repeat (destruct (decide _); [try done|]).
  - apply consumes_bind; [apply read_u8_consumes|]. intros. apply consumes_ret.
  - apply consumes_bind; [apply read_exact_consumes|]. intros. apply consumes_ret.
  - apply consumes_bind; [apply read_exact_consumes|]. intros. apply consumes_ret.
  - apply consumes_bind; [apply read_exact_consumes|]. intros bs r' Hread _.
    destruct (read_exact _ r) as [[bs' r'']|] eqn:Hre; [|done]. injection Hread as -> ->.
    apply (read_exact_inv (R := bytes)) in Hre as [Hlen ->]. apply Forall_app in Hr as [Hb _].
    unfold is_u16 in Hl. replace field_len with (zlen bs) by (unfold zlen; lia).
    destruct (payload_buffer_spec bs Hb) as (-> & _); [unfold zlen, BUFFER_SIZE; lia|]. apply consumes_ret.
  - apply consumes_bind; [apply read_algorithms_consumes|]. intros. apply consumes_ret.
  - apply consumes_bind; [apply read_exact_consumes|]. intros. apply consumes_ret.
Qed.

Lemma read_fields_consumes fuel : forall r f, (length r < fuel)%nat -> bytes_ok r -> consumes r (read_fields fuel r f).
Proof.
  induction fuel as [|fuel IH]; intros r f Hl Hr; [lia|]. cbn [read_fields].
  destruct (read_u8 r) as [[field r1]|] eqn:H1; [|done]. apply read_u8_slice in H1 as (Hu & -> & Hr1); [|done].
  cbn [short ok_or mbind outcome_bind]. case_decide; [by exists [field]|].
  unfold read_u16. destruct (read_exact 2 r1) as [[bs r2]|] eqn:H2; [|done].
  apply (read_exact_inv (R := bytes)) in H2 as [Hbs ->]. apply Forall_app in Hr1 as [Hb Hr2].
  cbn [short ok_or mbind option_bind outcome_bind].
  pose proof (be_value_bounds bs Hb) as Hv. unfold zlen in Hv. rewrite Hbs in Hv.
  pose proof (read_field_consumes field (be_value bs) r2 f Hr2 Hv) as Hf.
  destruct (read_field _ _ _ _) as [[f' r3]|e|]; [|done..]. destruct Hf as [a ->]. cbn [mbind outcome_bind].
  apply Forall_app in Hr2 as [_ Hr3].
  assert (consumes r3 (read_fields fuel r3 f')) as Hc.
  { apply IH; [|done]. cbn in Hl. rewrite !length_app in Hl. lia. }
  destruct (read_fields fuel r3 f') as [[f2 r4]|e|]; [|done..]. destruct Hc as [b ->].
  exists (field :: bs ++ a ++ b). cbn. f_equal. by rewrite <- !(assoc_L app).
Qed.

Lemma find_key_trusted trusted salt hash k : find_key trusted salt hash = Some k -> k ∈ trusted /\ calculate_hash k salt = hash.
Proof.
  induction trusted as [|tk l IH]; [done|]. cbn [find_key]. case_decide.
  - intros [= <-]. split; [left|done].
  - intros Hk. destruct (IH Hk). split; [by right|done].
Qed.

Lemma build_no_panic f : build f <> Panic.
Proof.
  unfold build, require. destruct f as [s h e p a]. cbn [f_stage f_hash f_ecdh f_payload f_algorithms].
  destruct s; [|done]. destruct h; [|done]. cbn [ok_or mbind outcome_bind].
  repeat case_decide; destruct e, a, p; done.
Qed.

(** Some trusted key has signed a first part of these bytes, and its signature
    follows with its length. *)
Definition signed_by (trusted_keys : list bytes) (buffer : bytes) : Prop :=
  exists pk signed signature rest, pk ∈ trusted_keys /\ buffer = signed ++ be_bytes 1 (zlen signature) ++ signature ++ rest /\
    verify pk signed signature = true.

Lemma read_from_authentic (buffer : bytes) (trusted_keys : list bytes) :
  bytes_ok buffer ->
  match InitMsg.read_from buffer trusted_keys with
  | Ok (m, pk) => pk ∈ trusted_keys /\
      exists signed signature rest, buffer = signed ++ be_bytes 1 (zlen signature) ++ signature ++ rest /\
        verify pk signed signature = true
  | Err _ => True
  | Panic => False
  end.
Proof.
  intros Hb. unfold read_from.
  destruct (read_exact 4 buffer) as [[salt r0]|] eqn:Hx0; [|done]. apply (read_exact_inv (R := bytes)) in Hx0 as [_ ->].
  apply Forall_app in Hb as [Hsalt Hb]. cbn [short ok_or mbind outcome_bind].
  destruct (read_exact 4 r0) as [[hash r1]|] eqn:Hx1; [|done]. apply (read_exact_inv (R := bytes)) in Hx1 as [_ ->].
  apply Forall_app in Hb as [Hhash Hb]. cbn [short ok_or mbind outcome_bind].
  destruct (find_key trusted_keys salt hash) as [pk|] eqn:Hk; [|done]. cbn [ok_or mbind outcome_bind].
  pose proof (read_fields_consumes (S (length r1)) r1 no_fields ltac:(lia) Hb) as Hf.
  destruct (read_fields _ r1 _) as [[f r2]|e|]; [|done..]. destruct Hf as [body ->].
  cbn [mbind outcome_bind]. apply Forall_app in Hb as [Hbody Hr2].
  destruct (read_u8 r2) as [[n r3]|] eqn:Hx3; [|done]. apply read_u8_slice in Hx3 as (Hn & -> & Hr3); [|done].
  cbn [short ok_or mbind outcome_bind].
  destruct (read_exact (Z.to_nat n) r3) as [[sg rest]|] eqn:Hx4; [|done]. apply (read_exact_inv (R := bytes)) in Hx4 as [Hsg ->].
  cbn [short ok_or mbind outcome_bind].
  match goal with |- context [verify pk (take ?k ?l) sg] => replace (take k l) with (salt ++ hash ++ body) end.
  2: { symmetry. cbn [prepend read_slice_laws]. rewrite !(assoc_L app). apply take_app_length'.
       rewrite !length_app. cbn. rewrite !length_app. lia. }
  destruct (verify pk (salt ++ hash ++ body) sg) eqn:Hv; [|done].
  pose proof (build_no_panic f). destruct (build f); cbn [mbind outcome_bind]; [|done..].
  split; [by apply (find_key_trusted trusted_keys salt hash)|].
  exists (salt ++ hash ++ body), sg, rest. split; [|done]. unfold is_u8 in Hn.
  rewrite be_bytes_1 by (unfold is_u8, zlen; lia). cbn. rewrite <- !(assoc_L app). do 4 f_equal.
  unfold zlen. rewrite Hsg. cbn. f_equal. lia.
Qed.

(** Only a message with its signature is read. *)
Lemma read_from_unsigned buffer trusted_keys : bytes_ok buffer -> ~ signed_by trusted_keys buffer ->
  exists er, InitMsg.read_from buffer trusted_keys = Err er.
Proof.
  intros Hb Hn. pose proof (read_from_authentic buffer trusted_keys Hb) as Ha.
  destruct (InitMsg.read_from _ _) as [[m pk]|er|]; [|by exists er|done].
  destruct Ha as (Hpk & signed & signature & rest & Heq & Hv). destruct Hn. by exists pk, signed, signature, rest.
Qed.

(** *** Reading never ends a handshake *)

(** Every error of the outcome is one that leaves the handshake as it was. *)
Definition recoverable {A} (o : Result A) : Prop := forall s, o <> Err (CryptoInitFatal s).

Lemma recoverable_bind {A B} (o : Result A) (f : A -> Result B) :
  recoverable o -> (forall a, recoverable (f a)) -> recoverable (o ≫= f).
Proof. intros Ho Hf s. destruct o as [a|er|]; [apply Hf|intros [= ->]; by apply (Ho s)|done]. Qed.
Lemma recoverable_ok {A} (a : A) : recoverable (Ok a).
Proof. done. Qed.
Lemma recoverable_short {A} (o : option A) : recoverable (short o).
Proof. by destruct o. Qed.
Lemma recoverable_require {A} (o : option A) what : recoverable (require o what).
Proof. by destruct o. Qed.

#[local] Hint Resolve recoverable_bind recoverable_ok recoverable_short recoverable_require : vpn.
#[local] Ltac recoverable := repeat first
  [ progress (intros; eauto 2 with vpn; fail) | done | progress case_decide | apply recoverable_bind; [|intros ?] | case_match ].

Lemma read_algorithms_recoverable n : forall r algos allow, recoverable (read_algorithms n r algos allow).
Proof.
  induction n as [|n IH]; intros r algos allow; [done|]. cbn [read_algorithms].
  apply recoverable_bind; [apply recoverable_short|intros [id r1]]. apply recoverable_bind; [apply recoverable_short|intros [speed r2]]. apply IH.
Qed.

Lemma put_message_recoverable bs b : recoverable (MsgBuffer.put_message (E := Error) bs b).2.
Proof. intros s. unfold MsgBuffer.put_message, MsgBuffer.message, slice. by repeat case_decide. Qed.

Lemma read_field_recoverable field field_len r f : recoverable (read_field field field_len r f).
Proof.
  pose proof read_algorithms_recoverable. unfold read_field. recoverable.
  match goal with Hp : MsgBuffer.put_message ?bs ?b = (_, ?o) |- _ => pose proof (put_message_recoverable bs b) as Hr; rewrite Hp in Hr end.
  intros s [= ->]. by apply (Hr s).
Qed.

Lemma read_fields_recoverable fuel : forall r f, recoverable (read_fields fuel r f).
Proof.
  pose proof read_field_recoverable. induction fuel as [|fuel IH]; intros r f; [done|]. cbn [read_fields]. recoverable.
Qed.

Lemma read_from_recoverable buffer trusted_keys : recoverable (InitMsg.read_from buffer trusted_keys).
Proof.
  pose proof read_fields_recoverable. unfold read_from. recoverable.
  all: try (unfold build; recoverable). by destruct (find_key _ _ _).
Qed.

(** C14: no input can crash the reader of handshake messages, and what it
    accepts is authentic: whatever bytes arrive, the result is an error or a
    message together with one of the trusted keys, under which the signature at
    the end of the message covers everything before it. *)
Theorem init_msg_authentic (buffer : bytes) (trusted_keys : list bytes) :
  bytes_ok buffer ->
  match InitMsg.read_from buffer trusted_keys with
  | Ok (m, pk) => pk ∈ trusted_keys /\
      exists signed signature rest, buffer = signed ++ be_bytes 1 (zlen signature) ++ signature ++ rest /\
        verify pk signed signature = true
  | Err _ => True
  | Panic => False
  end.
Proof. exact (read_from_authentic buffer trusted_keys). Qed.
End Safe.

(** ** The choice of the algorithm *)

Section Select.

Definition speeds_wf (a : Algorithms) : Prop :=
  NoDup (fst <$> algorithm_speeds a) /\ Forall (fun x : Algorithm * Z => F32.is_nan x.2 = false) (algorithm_speeds a).

Lemma f32_lt_key x y : F32.is_nan x = false -> F32.is_nan y = false -> F32.lt x y = bool_decide (F32.key x < F32.key y).
Proof. intros Hx Hy. unfold F32.lt. by rewrite Hx, Hy. Qed.

(** The lower of two speeds, whichever side looks at them. *)
Lemma lower_speed x y : F32.is_nan x = false -> F32.is_nan y = false ->
  F32.is_nan (if F32.lt x y then x else y) = false /\
  F32.key (if F32.lt x y then x else y) = Z.min (F32.key x) (F32.key y).
Proof.
  intros Hx Hy. rewrite f32_lt_key by done. case_bool_decide; (split; [done|lia]).
Qed.

Lemma find_algorithm l a s : NoDup (fst <$> l) ->
  (exists i, list_find (fun a2 : Algorithm * Z => a = a2.1) l = Some (i, (a, s))) <-> (a, s) ∈ l.
Proof.
  intros Hnd. split.
  - intros [i Hf]. apply list_find_Some in Hf as (Hl & _). by eapply list_elem_of_lookup_2.
  - intros Hin. destruct (list_find (fun a2 : Algorithm * Z => a = a2.1) l) as [[i [a' s']]|] eqn:Hf.
    + apply list_find_Some in Hf as (Hl & Ha & _). cbn in Ha. subst a'.
      apply list_elem_of_lookup in Hin as [j Hj].
      assert (i = j) as ->.
      { eapply (NoDup_lookup _ i j a Hnd); by rewrite list_lookup_fmap, ?Hl, ?Hj. }
      rewrite Hl in Hj. injection Hj as ->. by exists j.
    + apply list_find_None in Hf. rewrite Forall_forall in Hf. by specialize (Hf _ Hin).
Qed.

Lemma common_spec ours theirs a m : speeds_wf theirs ->
  (a, m) ∈ common_algorithms ours theirs <->
  exists s1 s2, (a, s1) ∈ algorithm_speeds ours /\ (a, s2) ∈ algorithm_speeds theirs /\ m = (if F32.lt s1 s2 then s1 else s2).
Proof.
  intros [Hnd _]. unfold common_algorithms. rewrite list_elem_of_omap. split.
  - intros ([a1 s1] & Hin & Hm). cbn [fst snd] in Hm.
    destruct (list_find _ _) as [[i [a2 s2]]|] eqn:Hf; [|done]. injection Hm as -> <-.
    assert (a = a2) as <- by (by apply list_find_Some in Hf as (_ & Ha & _)).
    exists s1, s2. split; [done|]. split; [|done]. apply (find_algorithm _ _ _ Hnd). by exists i.
  - intros (s1 & s2 & H1 & H2 & ->). exists (a, s1). split; [done|]. cbn [fst snd].
    apply (find_algorithm _ _ _ Hnd) in H2 as [i ->]. done.
Qed.

Lemma fastest_spec l :
  Forall (fun x : Algorithm * Z => F32.is_nan x.2 = false) l ->
  match fastest l with
  | Some x => x ∈ l /\ forall y, y ∈ l -> F32.key y.2 <= F32.key x.2
  | None => l = []
  end.
Proof.
  intros Hl. destruct l as [|a l]; [done|]. cbn [fastest].
  apply Forall_cons_1 in Hl as [Ha Hl].
  enough (forall acc, F32.is_nan acc.2 = false -> forall x, foldl (fun acc x : Algorithm * Z => if F32.lt acc.2 x.2 then x else acc) acc l = x ->
    F32.is_nan x.2 = false /\ (x = acc \/ x ∈ l) /\ F32.key acc.2 <= F32.key x.2 /\ forall y, y ∈ l -> F32.key y.2 <= F32.key x.2) as Hf.
  { destruct (Hf a Ha _ eq_refl) as (_ & Hin & Hacc & Hmax). split.
    - destruct Hin as [->|Hin]; [left|by right].
    - intros y Hy. apply elem_of_cons in Hy as [->|Hy]; [done|by apply Hmax]. }
  clear a Ha. induction Hl as [|b l Hb Hl IH]; intros acc Hacc x Hx; cbn [foldl] in Hx.
  - subst x. split; [done|]. split; [by left|]. split; [lia|]. intros y Hy. by apply elem_of_nil in Hy.
  - rewrite f32_lt_key in Hx by done. case_bool_decide as Hlt.
    + destruct (IH b Hb x Hx) as (Hn & Hin & Hle & Hmax). split; [done|]. split; [|split; [lia|]].
      * right. destruct Hin as [->|Hin]; [left|by right].
      * intros y Hy. apply elem_of_cons in Hy as [->|Hy]; [done|by apply Hmax].
    + destruct (IH acc Hacc x Hx) as (Hn & Hin & Hle & Hmax). split; [done|]. split; [|split; [lia|]].
      * destruct Hin as [->|Hin]; [by left|right; by right].
      * intros y Hy. apply elem_of_cons in Hy as [->|Hy]; [lia|by apply Hmax].
Qed.

Lemma common_not_nan ours theirs : speeds_wf ours -> speeds_wf theirs ->
  Forall (fun x : Algorithm * Z => F32.is_nan x.2 = false) (common_algorithms ours theirs).
Proof.
  intros Ho Ht. rewrite Forall_forall. intros [a m] Hin. apply common_spec in Hin as (s1 & s2 & H1 & H2 & ->); [|done].
  destruct Ho as [_ Ho], Ht as [_ Ht]. rewrite Forall_forall in Ho, Ht. cbn [snd].
  by apply lower_speed; [apply (Ho _ H1)|apply (Ht _ H2)].
Qed.

(** No two common algorithms have the same lower speed. *)
Definition no_ties (a b : Algorithms) : Prop :=
  forall x y s1 s2 t1 t2, x <> y ->
    (x, s1) ∈ algorithm_speeds a -> (x, s2) ∈ algorithm_speeds b ->
    (y, t1) ∈ algorithm_speeds a -> (y, t2) ∈ algorithm_speeds b ->
    Z.min (F32.key s1) (F32.key s2) <> Z.min (F32.key t1) (F32.key t2).

(** C22: both sides of a handshake choose the same algorithm, each from its own
    list and the other's: plain text when both allow it, else the common
    algorithm with the greatest lower speed, and both fail alike when there is
    none; provided no two common algorithms are equally fast. *)
Theorem select_algorithm_agreement (a b : Algorithms) :
  speeds_wf a -> speeds_wf b -> no_ties a b ->
  match select_algorithm a b, select_algorithm b a with
  | Ok x, Ok y => fst <$> x = fst <$> y /\ (x = None <-> allow_unencrypted a = true /\ allow_unencrypted b = true)
  | Err e, Err e' => e = e' /\ e = CryptoInitFatal "No common algorithms"
  | _, _ => False
  end.
Proof.
  intros Ha Hb Hnt. unfold select_algorithm. rewrite (andb_comm (allow_unencrypted b)).
  destruct (allow_unencrypted a && allow_unencrypted b) eqn:Hun.
  { split; [done|]. apply andb_true_iff in Hun. done. }
  assert (~ (allow_unencrypted a = true /\ allow_unencrypted b = true)) as Hnun.
  { intros Hc. apply andb_true_iff in Hc. congruence. }
  pose proof (fastest_spec _ (common_not_nan a b Ha Hb)) as H1.
  pose proof (fastest_spec _ (common_not_nan b a Hb Ha)) as H2.
  pose proof (fun x m => common_spec a b x m Hb) as Cab. pose proof (fun x m => common_spec b a x m Ha) as Cba.
  destruct (fastest (common_algorithms a b)) as [[x m]|], (fastest (common_algorithms b a)) as [[y n]|].
  - split; [|by split]. cbn. f_equal. destruct H1 as [H1 M1], H2 as [H2 M2].
    destruct (decide (x = y)) as [|Hne]; [done|]. exfalso.
    apply Cab in H1 as (s1 & s2 & Hs1 & Hs2 & ->). apply Cba in H2 as (t2 & t1 & Ht2 & Ht1 & ->).
    destruct Ha as [_ Na], Hb as [_ Nb]. rewrite Forall_forall in Na, Nb.
    pose proof (Na _ Hs1) as Ns1. pose proof (Nb _ Hs2) as Ns2. pose proof (Na _ Ht1) as Nt1. pose proof (Nb _ Ht2) as Nt2.
    cbn [snd] in Ns1, Ns2, Nt1, Nt2.
    specialize (M1 (y, if F32.lt t1 t2 then t1 else t2) (proj2 (Cab y _) (ex_intro _ t1 (ex_intro _ t2 (conj Ht1 (conj Ht2 eq_refl)))))).
    specialize (M2 (x, if F32.lt s2 s1 then s2 else s1) (proj2 (Cba x _) (ex_intro _ s2 (ex_intro _ s1 (conj Hs2 (conj Hs1 eq_refl)))))).
    cbn [snd] in M1, M2.
    rewrite (proj2 (lower_speed s1 s2 Ns1 Ns2)), (proj2 (lower_speed t1 t2 Nt1 Nt2)) in M1.
    rewrite (proj2 (lower_speed s2 s1 Ns2 Ns1)), (proj2 (lower_speed t2 t1 Nt2 Nt1)) in M2.
    apply (Hnt x y s1 s2 t1 t2 Hne Hs1 Hs2 Ht1 Ht2). lia.
  - exfalso. destruct H1 as [H1 _]. apply Cab in H1 as (s1 & s2 & Hs1 & Hs2 & _).
    pose proof (proj2 (Cba x _) (ex_intro _ s2 (ex_intro _ s1 (conj Hs2 (conj Hs1 eq_refl))))) as Hin. rewrite H2 in Hin.
    by apply elem_of_nil in Hin.
  - exfalso. destruct H2 as [H2 _]. apply Cba in H2 as (s1 & s2 & Hs1 & Hs2 & _).
    pose proof (proj2 (Cab y _) (ex_intro _ s2 (ex_intro _ s1 (conj Hs2 (conj Hs1 eq_refl))))) as Hin. rewrite H1 in Hin.
    by apply elem_of_nil in Hin.
  - done.
Qed.
End Select.

(** 600, 500 and 400 MiB/s. *)
Definition algorithms_a : Algorithms := mkAlgorithms [(AES_128_GCM, 1142292480); (AES_256_GCM, 1140457472)] false.
Definition algorithms_b : Algorithms := mkAlgorithms [(CHACHA20_POLY1305, 1137180672); (AES_256_GCM, 1140457472); (AES_128_GCM, 1137180672)] false.
(** Two equally fast algorithms, listed in different orders. *)
Definition tied_a : Algorithms := mkAlgorithms [(AES_128_GCM, 1142292480); (AES_256_GCM, 1142292480)] false.
Definition tied_b : Algorithms := mkAlgorithms [(AES_256_GCM, 1142292480); (AES_128_GCM, 1142292480)] false.

Lemma select_algorithm_agreement_witness :
  match select_algorithm algorithms_a algorithms_b, select_algorithm algorithms_b algorithms_a with
  | Ok x, Ok y => fst <$> x = fst <$> y /\ (x = None <-> allow_unencrypted algorithms_a = true /\ allow_unencrypted algorithms_b = true)
  | Err e, Err e' => e = e' /\ e = CryptoInitFatal "No common algorithms"
  | _, _ => False
  end.
Proof.
  apply select_algorithm_agreement.
  - split; apply (bool_decide_unpack _); vm_compute; exact I.
  - split; apply (bool_decide_unpack _); vm_compute; exact I.
  - intros x y s1 s2 t1 t2 Hne H1 H2 H3 H4. cbn in H1, H2, H3, H4.
    repeat (apply elem_of_cons in H1 as [H1|H1]; [|try by apply elem_of_nil in H1]);
    repeat (apply elem_of_cons in H2 as [H2|H2]; [|try by apply elem_of_nil in H2]);
    repeat (apply elem_of_cons in H3 as [H3|H3]; [|try by apply elem_of_nil in H3]);
    repeat (apply elem_of_cons in H4 as [H4|H4]; [|try by apply elem_of_nil in H4]);
    simplify_eq; vm_compute; discriminate.
Defined.

(** With a tie the two sides disagree: each prefers what its own list names
    first, so the handshake goes on with different algorithms on both sides. *)
Theorem select_algorithm_tie :
  select_algorithm tied_a tied_b = Ok (Some (AES_128_GCM, 1142292480)) /\
  select_algorithm tied_b tied_a = Ok (Some (AES_256_GCM, 1142292480)).
Proof. split; vm_compute; reflexivity. Qed.

(** ** Timers and self-connections *)

Section Timers.
Context `{RingLaws} {P : Type} `{Payload P}.
Implicit Types e : Env (InitState P).

(** One second: [every_second] with a cleared buffer, as [PeerCrypto] calls it. *)
Definition tick e : Env (InitState P) * Result unit := every_second (mkEnv (self e) (MsgBuffer.new 100) (rng e)).
Fixpoint ticks (n : nat) e : Env (InitState P) * Result unit :=
  match n with
  | O => (e, Ok ())
  | S n' =>
      match tick e with
      | (e', Ok _) => ticks n' e'
      | r => r
      end
  end.

(** The last message fits the buffer. *)
Definition last_fits (s : InitState P) : Prop :=
  forall bs, last_message s = Some bs -> bytes_ok bs /\ zlen bs <= 65000.

Lemma repeat_spec {E} (s : InitState P) r :
  last_fits s -> exists b, repeat_last_message (E := E) (mkEnv s (MsgBuffer.new 100) r) = (mkEnv s b r, Ok ()).
Proof.
  intros Hf. unfold repeat_last_message, mbind, ST_bind, on_self, on_out, zoom, gets. cbn [self out rng].
  destruct (last_message s) as [bs|] eqn:Hl; [|by eexists]. destruct (Hf bs Hl) as [Hb Hz].
  destruct (write_cursor_spec (E := E) (write_all bs) bs (MsgBuffer.new 100) (writes_all bs)) as (b & Hw & _).
  { apply new_wf. unfold BUFFER_SIZE. lia. } { done. }
  { change (buf_start (MsgBuffer.new 100)) with 100. unfold BUFFER_SIZE. lia. }
  cbn [self out rng]. rewrite Hw. cbn [unwrap lift self out rng modify]. by eexists.
Qed.

Lemma tick_spec e :
  last_fits (self e) -> next_stage (self e) <> WAITING_TO_CLOSE -> next_stage (self e) <> CLOSING ->
  exists b, tick e =
    if decide (failed_retries (self e) < MAX_FAILED_RETRIES)
    then (mkEnv (set_failed_retries (failed_retries (self e) + 1) (self e)) b (rng e), Ok ())
    else (mkEnv (set_next_stage CLOSING (self e)) b (rng e), Err (CryptoInitFatal "Initialization timeout")).
Proof.
  destruct e as [s o r]. cbn [self rng]. intros Hf Hw Hc.
  destruct (repeat_spec (E := Error) (set_failed_retries (failed_retries s + 1) s) r Hf) as [b Hb].
  unfold tick, every_second, mbind, ST_bind, on_self, zoom, get, modify. cbn [self out rng].
  rewrite decide_False, decide_False by done. case_decide; [|by eexists]. cbn [self out rng]. exists b. exact Hb.
Qed.

Lemma ticks_spec n : forall e,
  last_fits (self e) -> next_stage (self e) <> WAITING_TO_CLOSE -> next_stage (self e) <> CLOSING ->
  failed_retries (self e) + Z.of_nat n <= MAX_FAILED_RETRIES ->
  exists e', ticks n e = (e', Ok ()) /\ last_fits (self e') /\ next_stage (self e') = next_stage (self e) /\
    failed_retries (self e') = failed_retries (self e) + Z.of_nat n.
Proof.
  induction n as [|n IH]; intros e Hf Hw Hc Hr; cbn [ticks].
  - exists e. split_and!; try done. lia.
  - destruct (tick_spec e Hf Hw Hc) as [b ->]. rewrite decide_True by lia.
    destruct (IH (mkEnv (set_failed_retries (failed_retries (self e) + 1) (self e)) b (rng e))) as (e' & He & Hf' & Hs & Hn);
      [done|done|done|cbn; lia|].
    exists e'. split; [done|]. split; [done|]. split; [done|]. cbn in Hn. lia.
Qed.

Lemma ticks_app n m e e' : ticks n e = (e', Ok ()) -> ticks (n + m) e = ticks m e'.
Proof.
  revert e. induction n as [|n IH]; intros e; cbn [ticks Nat.add]; [by intros [= <-]|].
  destruct (tick e) as [e1 [u|x|]]; [apply IH|done..].
Qed.

(** C23: an unanswered handshake ends: for 120 seconds it repeats its last
    message and stays in its stage, in the next one it is closed with the fatal
    timeout error, whatever stage it waits in. *)
Theorem handshake_timeout e :
  last_fits (self e) -> next_stage (self e) <> WAITING_TO_CLOSE -> next_stage (self e) <> CLOSING ->
  failed_retries (self e) = 0 ->
  (forall n, (n <= 120)%nat -> exists e', ticks n e = (e', Ok ()) /\ next_stage (self e') = next_stage (self e)) /\
  exists e', ticks 121 e = (e', Err (CryptoInitFatal "Initialization timeout")) /\ next_stage (self e') = CLOSING.
Proof.
  intros Hf Hw Hc Hr. unfold MAX_FAILED_RETRIES in *. split.
  - intros n Hn. destruct (ticks_spec n e Hf Hw Hc) as (e' & He & _ & Hs & _); [unfold MAX_FAILED_RETRIES; lia|]. eauto.
  - destruct (ticks_spec 120 e Hf Hw Hc) as (e' & He & Hf' & Hs & Hn); [unfold MAX_FAILED_RETRIES; lia|].
    change 121%nat with (120 + 1)%nat. rewrite (ticks_app 120 1 e e' He). cbn [ticks].
    destruct (tick_spec e' Hf') as [b ->]; [congruence..|]. unfold MAX_FAILED_RETRIES. rewrite decide_False by lia.
    eexists. split; [reflexivity|done].
Qed.

(** A node never recognises itself by its node id: the check compares the
    20-byte hash of the message with a whole 32-byte digest, so it is false even
    for the hash this very node made of its own id. *)
Theorem self_connection_unnoticed (node_id : NodeId) (p : P) kp trusted algos r r' (s : InitState P) :
  length node_id = NODE_ID_BYTES ->
  InitState.new (E := Error) node_id p kp trusted algos r = (r', Ok s) ->
  length (is_salted_node_id_hash s) = SALTED_NODE_ID_HASH_LEN /\
  check_salted_node_id_hash (is_salted_node_id_hash s) node_id = false.
Proof.
  intros Hid Hn. unfold InitState.new, random, mbind, ST_bind, mret, ST_ret in Hn.
  pose proof (fill_len 4 r) as Hl. destruct (fill 4 r) as [salt r1]. cbn [fst] in Hl. injection Hn as <- <-.
  cbn [is_salted_node_id_hash].
  assert (length (salt ++ take 16 (sha256 (salt ++ node_id))) = 20%nat) as Hlen.
  { rewrite length_app, length_take, sha256_len. lia. }
  split; [done|]. unfold check_salted_node_id_hash. apply bool_decide_eq_false_2. intros He.
  apply (f_equal length) in He. rewrite sha256_len, Hlen in He. lia.
Qed.
End Timers.

(** ** The codec *)

Section Roundtrip.
Context `{RingLaws}.
Import InitMsg.

(** C20: handshake messages round-trip, signature and all: what [write_to] writes
    for a message the program builds, read from a buffer with arbitrary bytes
    behind it by a node that trusts the key, is that message (its payload in a
    buffer of its own) and the writer's key. *)
Theorem init_msg_roundtrip m key salt rest trusted view :
  msg_wf m -> length salt = 4%nat -> bytes_ok salt -> 60100 <= zlen view ->
  find_key trusted salt (calculate_hash (ed25519_public_key key) salt) = Some (ed25519_public_key key) ->
  exists w, write_to m key salt (mkCursor view 0) = Some w /\
    read_from (take (cur_pos w) (cur_data w) ++ rest) trusted = Ok (received m, ed25519_public_key key).
Proof.
  intros Hm Hs Ho Hv Hf. destruct (enc_ok_len m key salt Hm Hs Ho) as [_ Hl].
  rewrite write_to_front by done. unfold write_all, write_cursor. cbn [cur_data cur_pos].
  rewrite decide_True by (unfold zlen in *; lia). eexists. split; [reflexivity|]. cbn [cur_data cur_pos].
  pose proof (take_drop_splice (length (enc m key salt)) 0 (enc m key salt) view eq_refl ltac:(lia)) as Ht.
  rewrite drop_0 in Ht. cbn [Nat.add]. rewrite Ht. by apply read_enc.
Qed.
End Roundtrip.

(** ** Examples *)

(** The payload of the tests of src/src/crypto/init.rs: [Vec<u8>]. *)
#[export] Instance bytes_payload : Payload bytes := {|
  payload_write_to E p :=
    n ← MsgBuffer.write_cursor (write_all p);
    _ ← lift (unwrap n);
    modify (MsgBuffer.set_length (zlen p));
  payload_read_from bs := Ok bs
|}.

Definition sample_key : @Ed25519KeyPair toy_ring := replicate 31 0 ++ [7].
Definition sample_salt : bytes := [1; 2; 3; 4].
Definition sample_hash : bytes := replicate 20 5.
Definition sample_ping : InitMsg := Ping sample_hash (replicate 32 3) algorithms_a.
Definition sample_state : Rng * Result (InitState bytes) :=
  InitState.new (E := Error) (replicate 16 9) [1; 2] sample_key [ed25519_public_key sample_key] algorithms_a (toy_rng 3).
(** Waiting for a pong. *)
Definition sample_pinged : InitState bytes :=
  mkInitState (replicate 16 9) sample_hash [1; 2] sample_key [ed25519_public_key sample_key] (Some 3) STAGE_PONG 60
    (Some [1; 2; 3]) None algorithms_a None 0.

Lemma sample_ping_wf : msg_wf sample_ping.
Proof.
  split; [|split; [|split]]; [|apply (bool_decide_unpack _); vm_compute; exact I|done|].
  - split; [done|]. apply (bool_decide_unpack _). vm_compute. exact I.
  - split; [|vm_compute; lia]. repeat constructor; vm_compute; discriminate.
Qed.

Lemma init_msg_roundtrip_witness :
  exists w, InitMsg.write_to sample_ping sample_key sample_salt (mkCursor (replicate (Z.to_nat 60200) 0) 0) = Some w /\
    InitMsg.read_from (take (cur_pos w) (cur_data w) ++ [8; 8]) [ed25519_public_key sample_key] =
      Ok (received sample_ping, ed25519_public_key sample_key).
Proof.
  apply (init_msg_roundtrip sample_ping sample_key sample_salt [8; 8]); [exact sample_ping_wf|done| |unfold zlen; rewrite length_replicate; lia|].
  - apply (bool_decide_unpack _). vm_compute. exact I.
  - vm_compute. reflexivity.
Defined.

Lemma init_msg_authentic_witness :
  match InitMsg.read_from [1; 2; 3; 4; 5] [ed25519_public_key sample_key] with
  | Ok (m, pk) => pk ∈ [ed25519_public_key sample_key] /\
      exists signed signature rest, [1; 2; 3; 4; 5] = signed ++ be_bytes 1 (zlen signature) ++ signature ++ rest /\
        verify pk signed signature = true
  | Err _ => True
  | Panic => False
  end.
Proof. apply init_msg_authentic. apply (bool_decide_unpack _). vm_compute. exact I. Defined.

Lemma handshake_timeout_witness :
  exists e', ticks 121 (mkEnv sample_pinged (MsgBuffer.new 100) (toy_rng 1)) = (e', Err (CryptoInitFatal "Initialization timeout")) /\
    next_stage (self e') = CLOSING.
Proof.
  refine (proj2 (handshake_timeout (mkEnv sample_pinged (MsgBuffer.new 100) (toy_rng 1)) _ _ _ _)); try done.
  intros bs Hbs. cbn in Hbs. injection Hbs as <-. split; [|done]. apply (bool_decide_unpack _). vm_compute. exact I.
Defined.

Lemma self_connection_unnoticed_witness :
  exists s, sample_state.2 = Ok s /\ check_salted_node_id_hash (is_salted_node_id_hash s) (replicate 16 9) = false.
Proof.
  eexists. split; [reflexivity|].
  refine (proj2 (self_connection_unnoticed (replicate 16 9) [1; 2] sample_key [ed25519_public_key sample_key] algorithms_a
    (toy_rng 3) _ _ eq_refl eq_refl)).
Defined.
