(* ===== verification/Handshake.v ===== *)
(** * The handshake between two nodes

    Two [InitState]s that trust each other, the three messages between them in
    whatever buffers they arrive, and what both sides hold afterwards: the
    other's payload and two linked crypto cores. [PayloadLaws] is what the
    handshake asks of a payload; node information (src/src/messages.rs)
    satisfies it. *)

From S2P Require Import Prelude Errors Util Types Messages Ring Core Init.

(** What a payload promises: it fits a buffer, and what is read back of it is
    [payload_keep]. *)
Class PayloadLaws (P : Type) `{Payload P} : Type := {
  payload_ok : P -> Prop;
  payload_keep : P -> P;
  payload_spec {E} p : payload_ok p ->
    exists b, payload_write_to (E := E) p (MsgBuffer.new EXTRA_LEN) = (b, Ok ()) /\ MsgBuffer.wf b /\
      buf_start b = EXTRA_LEN /\ zlen (MsgBuffer.contents b) <= 40000 /\
      payload_read_from (MsgBuffer.contents b) = Ok (payload_keep p)
}.

(** [impl Payload for NodeInfo]. *)
#[export] Instance node_info_payload : Payload NodeInfo := {|
  payload_write_to E n := NodeInfo.encode n;
  payload_read_from := NodeInfo.decode
|}.

(** Node information that can be sent: well-formed, and not enormous. *)
Definition node_info_ok (n : NodeInfo) : Prop := NodeInfo.wf n /\ zlen (NodeInfo.enc n) <= 40000.

Lemma node_info_payload_spec {E} n : node_info_ok n ->
  exists b, payload_write_to (E := E) n (MsgBuffer.new EXTRA_LEN) = (b, Ok ()) /\ MsgBuffer.wf b /\
    buf_start b = EXTRA_LEN /\ zlen (MsgBuffer.contents b) <= 40000 /\
    payload_read_from (MsgBuffer.contents b) = Ok (NodeInfo.keep n).
Proof.
  intros [Hn Hl].
  assert (MsgBuffer.wf (MsgBuffer.new EXTRA_LEN)) as Hw by (apply new_wf; unfold EXTRA_LEN, BUFFER_SIZE; lia).
  destruct (encode_spec (E := E) n (MsgBuffer.new EXTRA_LEN) Hn Hw) as (b & He & Hb & Hs & Hc).
  { change (buf_start (MsgBuffer.new EXTRA_LEN)) with 8. unfold BUFFER_SIZE. lia. }
  exists b. split; [exact He|]. split; [done|]. split; [done|]. rewrite Hc. split; [done|].
  cbn [payload_read_from node_info_payload]. rewrite <- (app_nil_r (NodeInfo.enc n)). apply decode_enc; [done|].
  apply fits_parts. unfold BUFFER_SIZE. lia.
Qed.

#[export] Instance node_info_payload_laws : PayloadLaws NodeInfo := {|
  payload_ok := node_info_ok;
  payload_keep := NodeInfo.keep;
  payload_spec E n H := node_info_payload_spec n H
|}.

Import InitState.

(** ** One message *)

Section Steps.
Context `{RingLaws} {P : Type} `{PayloadLaws P}.
Implicit Types s : InitState P.

(** [trusted] names the key [pk], and no other of its keys has the same salted
    hash. *)
Definition trusts (trusted : list bytes) (pk : bytes) : Prop :=
  forall salt, length salt = 4%nat -> InitMsg.find_key trusted salt (InitMsg.calculate_hash pk salt) = Some pk.

Lemma trusts_one pk : trusts [pk] pk.
Proof. intros salt _. cbn [InitMsg.find_key]. by rewrite decide_True. Qed.

(** [m] is a buffer a node receives into, holding what [b] held when sent. *)
Definition carries (m b : MsgBuffer) : Prop :=
  MsgBuffer.wf m /\ MsgBuffer.contents m = MsgBuffer.contents b /\ space_before m <= 1000.

(** [b] now holds [bs], where [b0] was empty. *)
Definition holds (b0 b : MsgBuffer) (bs : bytes) : Prop :=
  MsgBuffer.wf b /\ MsgBuffer.contents b = bs /\ buf_start b = buf_start b0 /\ space_before b = space_before b0.

Lemma buffer_contents {E} b : MsgBuffer.wf b -> exists rest, MsgBuffer.buffer (E := E) b = Ok (MsgBuffer.contents b ++ rest).
Proof.
  intros (L1 & L2 & L3 & L4 & L5). unfold MsgBuffer.buffer. rewrite slice_ok by lia.
  exists (drop (Z.to_nat (buf_end b - buf_start b)) (drop (Z.to_nat (buf_start b)) (buf_data b))). f_equal.
  unfold MsgBuffer.contents. rewrite take_drop. apply take_ge. rewrite length_drop. unfold zlen in *. lia.
Qed.

Lemma slice_contents {E} (b : MsgBuffer) n bs : MsgBuffer.wf b -> 0 <= n <= BUFFER_SIZE - buf_start b ->
  MsgBuffer.contents (MsgBuffer.set_length n b) = bs ->
  exists buf, MsgBuffer.buffer (E := E) b = Ok buf /\ slice (E := E) 0 n buf = Ok bs.
Proof.
  intros Hw Hn Hc. pose proof Hw as (L1 & L2 & L3 & L4 & L5). unfold MsgBuffer.buffer. rewrite slice_ok by (unfold zlen in *; lia).
  eexists. split; [reflexivity|]. rewrite slice_ok; [|lia|unfold zlen in *; rewrite length_take, length_drop; lia].
  f_equal. rewrite <- Hc. unfold MsgBuffer.contents. rewrite set_length_end by done.
  cbn [MsgBuffer.set_length MsgBuffer.set_end buf_start buf_data].
  rewrite drop_0, take_take. f_equal. unfold zlen in *. lia.
Qed.

Lemma write_message_spec {E} s b r msg :
  msg_wf msg -> MsgBuffer.wf b -> buf_start b <= 1000 ->
  exists b' salt, write_message (E := E) msg (mkEnv s b r) =
      (mkEnv (set_last_message (Some (enc msg (is_key_pair s) salt)) s) b' (fill 4 r).2, Ok ()) /\
    length salt = 4%nat /\ bytes_ok salt /\ holds b b' (enc msg (is_key_pair s) salt).
Proof.
  intros Hm Hb Hs. pose proof (fill_len 4 r) as Hl. pose proof (fill_ok 4 r) as Ho.
  unfold write_message, random, mbind, ST_bind, on_self, on_rng, on_out, zoom, get, modify, lift. cbn [self out rng].
  destruct (fill 4 r) as [salt r']. cbn [fst snd self out rng] in *.
  destruct (enc_ok_len msg (is_key_pair s) salt Hm Hl Ho) as [He Hel].
  assert (zlen (enc msg (is_key_pair s) salt) <= BUFFER_SIZE - buf_start b) as Hfit by (unfold BUFFER_SIZE; lia).
  destruct (write_cursor_front_spec (E := E) (InitMsg.write_to msg (is_key_pair s) salt) (enc msg (is_key_pair s) salt) b)
    as (b' & -> & Hw' & Hst & Hsb & Hc); [intros view; by apply write_to_front|done..|].
  cbn [self out rng unwrap].
  destruct (slice_contents (E := E) b' (zlen (enc msg (is_key_pair s) salt)) _ Hw' ltac:(unfold zlen in *; lia) Hc) as (buf & -> & Hsl).
  cbn [self out rng]. rewrite Hsl. cbn [self out rng].
  eexists _, salt. split; [reflexivity|]. split; [done|]. split; [done|]. split; [|split; [exact Hc|by split]].
  apply set_length_wf; [done|]. unfold zlen in *. lia.
Qed.

(** A message from a node that is trusted and is another one gets to the check of
    its stage. *)
Lemma handle_init_read s m r msg key salt :
  MsgBuffer.wf m -> MsgBuffer.contents m = enc msg key salt -> msg_wf msg -> length salt = 4%nat ->
  trusts (is_trusted_keys s) (ed25519_public_key key) ->
  is_salted_node_id_hash s <> InitMsg.salted_node_id_hash msg ->
  handle_init (mkEnv s m r) =
    (proceed ← check_stage (received msg);
     if proceed : bool then on_self (modify (set_failed_retries 0)) ;; handle_msg (received msg)
     else mret Continue) (mkEnv s (MsgBuffer.clear m) r).
Proof.
  intros Hm Hc Hw Hs Ht Hne. unfold handle_init.
  destruct (buffer_contents (E := Error) m Hm) as [rest Hb].
  assert (on_out (A := InitState P) (fun b => (b, MsgBuffer.buffer (E := Error) b)) (mkEnv s m r) =
          (mkEnv s m r, Ok (enc msg key salt ++ rest))) as Ho.
  { unfold on_out, zoom. cbn [self out rng]. by rewrite Hb, Hc. }
  rewrite (bind_ok _ _ _ _ _ Ho). rewrite (bind_ok _ _ _ (mkEnv s m r) s) by done.
  assert (lift (InitMsg.read_from (enc msg key salt ++ rest) (is_trusted_keys s)) (mkEnv s m r) =
          (mkEnv s m r, Ok (received msg, ed25519_public_key key))) as Hr.
  { unfold lift. f_equal. apply read_enc; [done|done|by apply Ht]. }
  rewrite (bind_ok _ _ _ _ _ Hr). cbn beta iota.
  rewrite (bind_ok _ _ _ (mkEnv s (MsgBuffer.clear m) r) ()) by done.
  assert (InitMsg.salted_node_id_hash (received msg) = InitMsg.salted_node_id_hash msg) as -> by (by destruct msg).
  rewrite bool_decide_eq_false_2 by done.
  assert (check_salted_node_id_hash (InitMsg.salted_node_id_hash msg) (is_node_id s) = false) as ->.
  { apply bool_decide_eq_false_2. intros He. apply (f_equal length) in He. rewrite sha256_len in He.
    pose proof (msg_hash_wf msg Hw) as [Hl _]. unfold SALTED_NODE_ID_HASH_LEN in Hl. lia. }
  done.
Qed.

(** In the stage its receiver waits for it is processed. *)
Lemma handle_init_expected s m r msg key salt :
  MsgBuffer.wf m -> MsgBuffer.contents m = enc msg key salt -> msg_wf msg -> length salt = 4%nat ->
  trusts (is_trusted_keys s) (ed25519_public_key key) ->
  is_salted_node_id_hash s <> InitMsg.salted_node_id_hash msg -> InitMsg.stage msg = next_stage s ->
  handle_init (mkEnv s m r) = handle_msg (received msg) (mkEnv (set_failed_retries 0 s) (MsgBuffer.clear m) r).
Proof.
  intros Hm Hc Hw Hs Ht Hne Hst. rewrite (handle_init_read s m r msg key salt) by done.
  assert (check_stage (received msg) (mkEnv s (MsgBuffer.clear m) r) = (mkEnv s (MsgBuffer.clear m) r, Ok true)) as Hcs.
  { unfold check_stage. rewrite (bind_ok _ _ _ (mkEnv s (MsgBuffer.clear m) r) s) by done.
    rewrite decide_True; [done|]. rewrite <- Hst. by destruct msg. }
  rewrite (bind_ok _ _ _ _ _ Hcs). by rewrite (bind_ok _ _ _ (mkEnv (set_failed_retries 0 s) (MsgBuffer.clear m) r) ()).
Qed.

(** The core of a handshake: slot 0 sends, keys of one algorithm, and nothing seen
    but by slot 0, which the other side sends to. *)
Definition young (c : CryptoCore) : Prop :=
  current_key c = 0 /\ exists alg, forall j k, keys c !! j = Some k ->
    algorithm_of (ck_key k) = alg /\ length (key_bytes (ck_key k)) = key_len alg /\ half_base (nonce_half c) <= be_value (send_nonce k) /\
    (be_value (seen_nonce k) = 0 \/
     j = 0%nat /\ half_base (negb (nonce_half c)) <= be_value (seen_nonce k) < half_base (negb (nonce_half c)) + 2 ^ 56).

(** It has used at most [n] of the nonces after the random first one. *)
Definition used (n : Z) (c : CryptoCore) : Prop :=
  young c /\
  forall k, keys c !! Z.to_nat (current_key c) = Some k -> be_value (send_nonce k) < half_base (nonce_half c) + 2 ^ 48 + n.

Lemma used_left n c : n < 2 ^ 48 -> used n c -> nonce_left c.
Proof. intros Hn [_ Hu] k Hk. specialize (Hu k Hk). lia. Qed.

Lemma new_used key half r r' c : length (key_bytes key) = key_len (algorithm_of key) ->
  CryptoCore.new (E := Error) key half r = (r', Ok c) -> used 0 c.
Proof.
  intros Hlen Hn. destruct (new_core_fresh _ _ _ _ _ Hn) as (_ & Hh & Hc & Hf). split; [split; [exact Hc|]|].
  - exists (algorithm_of key). intros j k Hk. destruct (Hf j k Hk) as ((_ & Hz & Hb) & Ha & Hl). rewrite Hh.
    split; [exact Ha|]. split; [destruct Hl as [->|Hl]; done|]. split; [lia|by left].
  - intros k Hk. destruct (Hf _ k Hk) as ((_ & _ & Hb) & _). rewrite Hh. lia.
Qed.

(** A slot of a young core is replaced by one with the same key. *)
Lemma young_set c i k k' : young c -> 0 <= i < 4 -> keys c !! Z.to_nat i = Some k -> ck_key k' = ck_key k ->
  half_base (nonce_half c) <= be_value (send_nonce k') ->
  (be_value (seen_nonce k') = be_value (seen_nonce k) \/
   i = 0 /\ half_base (negb (nonce_half c)) <= be_value (seen_nonce k') < half_base (negb (nonce_half c)) + 2 ^ 56) ->
  young (CryptoCore.set_key i k' c).
Proof.
  intros [Hc (alg & Hall)] Hi Hk Hck Hsend Hseen. split; [exact Hc|]. exists alg. intros j kj. cbn. intros Hj.
  destruct (decide (j = Z.to_nat i)) as [->|Hne]; [|rewrite list_lookup_insert_ne in Hj by done; by apply Hall].
  rewrite list_lookup_insert_eq in Hj by (by apply lookup_lt_Some in Hk). injection Hj as <-.
  destruct (Hall _ k Hk) as (Ha & Hl & Hb & Hs). rewrite Hck. split; [exact Ha|]. split; [exact Hl|]. split; [exact Hsend|].
  destruct Hseen as [->|[-> Hr]]; [exact Hs|right; by split].
Qed.

(** Sending uses one. *)
Lemma encrypt_used n c p r e : core_wf c -> MsgBuffer.wf p -> EXTRA_LEN <= buf_start p -> buf_end p + TAG_LEN <= BUFFER_SIZE ->
  n < 2 ^ 48 -> used n c -> CryptoCore.encrypt (E := Error) (mkEnv c p r) = (e, Ok ()) -> used (n + 1) (self e).
Proof.
  intros Hc Hp Hs He Hn [Hy Hu] Henc. destruct (encrypt_spec (E := Error) (mkEnv c p r) Hc Hp Hs He) as (k & b & Hk & Hr). cbn [self out rng] in Hk, Hr.
  cbn zeta in Hr. destruct Hr as [Hr _]. rewrite Henc in Hr. apply (f_equal fst) in Hr. cbn [fst] in Hr. subst e. cbn [self].
  specialize (Hu k Hk). pose proof Hc as (_ & Hcur & _). destruct (core_wf_key c _ k Hc Hk) as (Hw & _).
  assert (be_value (Nonce.increment (send_nonce k)) = be_value (send_nonce k) + 1) as Hv.
  { apply increment_value; [done|]. unfold half_base in *. destruct (nonce_half c); lia. }
  split.
  - apply (young_set c _ k); [done|done|done|done| |by left]. cbn [CryptoKey.set_send_nonce send_nonce]. rewrite Hv.
    destruct Hy as [_ (alg & Hall)]. destruct (Hall _ k Hk) as (_ & _ & Hb & _). lia.
  - intros k2 Hk2. cbn [CryptoCore.set_key CryptoCore.set_keys current_key keys nonce_half] in *.
    rewrite list_lookup_insert_eq in Hk2 by (by apply lookup_lt_Some in Hk). injection Hk2 as <-. cbn [CryptoKey.set_send_nonce send_nonce].
    rewrite Hv. lia.
Qed.

(** The nonce a message names is of the other side's half. *)
Lemma extra_nonce_half (half : bool) msg : (8 <= length msg)%nat -> bytes_ok msg ->
  half_base (negb half) <= be_value (CryptoCore.extra_nonce half msg) < half_base (negb half) + 2 ^ 56.
Proof.
  intros Hl Hb. rewrite extra_nonce_shape by done. set (t := take 7 (drop 1 msg)).
  assert (length t = 7%nat) as Ht by (subst t; rewrite length_take, length_drop; lia).
  assert (bytes_ok t) as Hbt by (by apply Forall_take, Forall_drop).
  rewrite be_value_cons. cbn [replicate app]. rewrite !be_value_cons. unfold zlen. cbn [length]. rewrite Ht.
  pose proof (be_value_bounds t Hbt) as Hv. unfold zlen in Hv. rewrite Ht in Hv. unfold half_base. cbn in Hv |- *. destruct half; cbn; lia.
Qed.

(** Receiving what slot 0 sealed uses none. *)
Lemma decrypt_used n c m r :
  core_wf c -> MsgBuffer.wf m -> EXTRA_LEN + TAG_LEN <= buf_end m - buf_start m -> CryptoCore.extra_key_id (MsgBuffer.contents m) = 0 -> used n c ->
  used n (self (CryptoCore.decrypt (mkEnv c m r)).1).
Proof.
  intros Hc Hm Hl Hid [Hy Hleft]. destruct (decrypt_spec (mkEnv c m r) Hc Hm Hl) as (k & Hk & Hkw & Hd). cbn [self out rng] in *. cbn zeta in Hd.
  pose proof (length_contents m Hm) as Hlc. unfold zlen, EXTRA_LEN, TAG_LEN in *.
  destruct (extra_nonce_wf (nonce_half c) (MsgBuffer.contents m) ltac:(lia) (contents_bytes_ok m Hm)) as [Hn Hnv].
  pose proof (extra_nonce_half (nonce_half c) (MsgBuffer.contents m) ltac:(lia) (contents_bytes_ok m Hm)) as Hhalf.
  pose proof (decrypt_with_key_spec k _ (drop 8 (MsgBuffer.contents m)) Hkw Hn Hnv (Forall_drop _ _ _ (contents_bytes_ok m Hm))) as Hsp.
  destruct (CryptoCore.decrypt_with_key k _ _) as [[k' d] res]. destruct Hd as (b' & -> & _). cbn [fst self]. rewrite Hid in *.
  destruct Hsp as (_ & Hck & Hsend & _ & _ & _ & _ & Hseen & _). pose proof Hy as [Hc0 (alg & Hall)]. destruct (Hall _ k Hk) as (_ & _ & Hb & _).
  split.
  - apply (young_set c 0 k); [done|lia|done|done|by rewrite Hsend|]. destruct Hseen as [Hs|Hs]; [by left|right]. by rewrite Hs.
  - intros k2 Hk2. cbn [CryptoCore.set_key CryptoCore.set_keys current_key nonce_half] in *.
    rewrite Hc0 in *. rewrite set_key_lookup in Hk2 by (done || lia). rewrite decide_True in Hk2 by done. injection Hk2 as <-. rewrite Hsend. by apply Hleft.
Qed.

Definition master_key (alg : Algorithm) (shared : bytes) : LessSafeKey := mkLessSafeKey alg (take (key_len alg) shared).

Lemma master_key_used alg privk pubk shared half r r' c : agree_ephemeral privk pubk = Some shared ->
  CryptoCore.new (E := Error) (master_key alg shared) half r = (r', Ok c) -> used 0 c.
Proof.
  intros Hag. apply new_used. cbn. pose proof (agree_len _ _ _ Hag). pose proof (key_len_max alg). rewrite length_take. lia.
Qed.

Lemma setup_core_spec s b r alg speed privk pubk peer_hash shared :
  agree_ephemeral privk pubk = Some shared ->
  exists c r', CryptoCore.new (E := Error) (master_key alg shared) (Nonce.ltb peer_hash (is_salted_node_id_hash s)) r = (r', Ok c) /\
    setup_core (Some (alg, speed)) privk pubk peer_hash (mkEnv s b r) =
      (mkEnv (set_crypto (Some c) (set_selected (Some alg) s)) b r', Ok ()).
Proof.
  intros Hk. destruct (core_new_spec (E := Error) (master_key alg shared) (Nonce.ltb peer_hash (is_salted_node_id_hash s)) r)
    as (c & r' & _ & Hn & _). exists c, r'. split; [done|]. unfold setup_core.
  assert (derive_master_key (E := Error) alg privk pubk = Ok (master_key alg shared)) as Hd.
  { unfold derive_master_key. rewrite Hk. cbn [unwrap mbind outcome_bind].
    pose proof (agree_len _ _ _ Hk) as Hl. pose proof (key_len_max alg).
    rewrite slice_ok by (unfold zlen; lia). cbn [mbind outcome_bind]. unfold unbound_key.
    rewrite decide_True by (rewrite length_take, length_drop; lia). unfold master_key. do 2 f_equal. rewrite drop_0. f_equal. lia. }
  unfold mbind, ST_bind, on_self, on_rng, zoom, get, modify, lift. cbn [self out rng fmap option_fmap option_map fst].
  rewrite Hd. cbn [is_salted_node_id_hash set_selected]. rewrite Hn. done.
Qed.

(** The payload, encrypted by [c] in a buffer of its own. *)
Lemma encrypt_payload_spec s b r c :
  payload_ok (is_payload s) -> is_crypto s = Some c -> core_wf c ->
  exists p c' buf, encrypt_payload (E := Error) (mkEnv s b r) = (mkEnv (set_crypto (Some c') s) b r, Ok buf) /\
    CryptoCore.encrypt (E := Error) (mkEnv c p r) = (mkEnv c' buf r, Ok ()) /\
    MsgBuffer.wf p /\ buf_start p = EXTRA_LEN /\ zlen (MsgBuffer.contents p) <= 40000 /\
    payload_read_from (MsgBuffer.contents p) = Ok (payload_keep (is_payload s)) /\ payload_wf buf.
Proof.
  intros Hp Hc Hw. destruct (payload_spec (E := Error) (is_payload s) Hp) as (p & Hwr & Hpw & Hst & Hl & Hrd).
  pose proof (length_contents p Hpw) as Hlen.
  destruct (encrypt_spec (E := Error) (mkEnv c p r) Hw Hpw) as (k & buf & _ & Henc); [cbn [out]; unfold EXTRA_LEN in *; lia| |].
  { cbn [out]. unfold EXTRA_LEN, TAG_LEN, BUFFER_SIZE in *. lia. }
  cbn [self out rng] in Henc. cbn zeta in Henc. destruct Henc as (Henc & Hbw & _ & Hbs & Hbe & _).
  eexists p, _, buf. split; [|split; [exact Henc|]].
  - unfold encrypt_payload. cbn [self out rng]. rewrite Hwr, Hc, Henc. done.
  - split; [done|]. split; [done|]. split; [done|]. split; [done|]. split; [done|].
    pose proof (length_contents buf Hbw) as Hlb. unfold EXTRA_LEN, TAG_LEN in *. lia.
Qed.

(** What a side sends with a payload opens at the core linked to its own. *)
Lemma open_payload (x : P) p c1 c1' buf c2 s b r r1 :
  MsgBuffer.wf p -> buf_start p = EXTRA_LEN -> zlen (MsgBuffer.contents p) <= 40000 ->
  payload_read_from (MsgBuffer.contents p) = Ok (payload_keep x) ->
  CryptoCore.encrypt (E := Error) (mkEnv c1 p r1) = (mkEnv c1' buf r1, Ok ()) -> payload_wf buf ->
  linked c1 c2 -> nonce_left c1 -> is_crypto s = Some c2 ->
  exists c2', fatal (decrypt (payload_buffer (MsgBuffer.contents buf))) (mkEnv s b r) =
      (mkEnv (set_crypto (Some c2') s) b r, Ok (payload_keep x)) /\
    linked c1' c2' /\ (linked c2 c1 -> linked c2' c1') /\ (forall n, current_key c1 = 0 -> used n c2 -> used n c2').
Proof.
  intros Hp Hst Hl Hrd Henc Hbuf Hlk Hleft Hc. pose proof (length_contents p Hp) as Hlen.
  destruct (transfer c1 c2 p r1 Hlk Hleft Hp) as (c1a & bufa & Henc2 & _ & Hsb & Heb & Hd);
    [unfold EXTRA_LEN in *; lia|unfold EXTRA_LEN, TAG_LEN, BUFFER_SIZE in *; lia|].
  rewrite Henc in Henc2. apply (f_equal fst) in Henc2. cbn [fst] in Henc2.
  pose proof (f_equal self Henc2) as Hs1. pose proof (f_equal out Henc2) as Hs2. cbn [self out] in Hs1, Hs2. subst c1a bufa.
  destruct (contents_small buf Hbuf) as [Hok Hsm].
  destruct (payload_buffer_spec (MsgBuffer.contents buf) Hok) as (_ & Hpw & Hpc & _); [unfold BUFFER_SIZE; lia|].
  destruct (Hd (payload_buffer (MsgBuffer.contents buf)) r Hpw Hpc) as (c2' & b'' & Hdec & Hbw & Hbc & _ & Hl1 & Hl2).
  exists c2'. split; [|split; [done|split; [done|]]].
  2: { intros n Hcur Hleft2. pose proof Hlk as (Hw1 & Hw2 & _). pose proof (length_contents _ Hpw) as Hpl. rewrite Hpc in Hpl.
    pose proof (length_contents buf (proj1 Hbuf)) as Hbl.
    pose proof (decrypt_used n c2 (payload_buffer (MsgBuffer.contents buf)) r Hw2 Hpw) as Hn.
    rewrite Hdec in Hn. apply Hn; [unfold EXTRA_LEN, TAG_LEN, zlen in *; lia| |done].
    destruct (encrypt_spec (E := Error) (mkEnv c1 p r1) Hw1 Hp) as (k & b1 & _ & Hr); [cbn [out]; unfold EXTRA_LEN in *; lia|cbn [out]; unfold EXTRA_LEN, TAG_LEN, BUFFER_SIZE in *; lia|].
    cbn [self out rng] in Hr. cbn zeta in Hr. destruct Hr as (Hr & _ & Hb1 & _). rewrite Henc in Hr. apply (f_equal fst) in Hr. cbn [fst] in Hr.
    apply (f_equal out) in Hr. cbn [out] in Hr. subst b1. by rewrite Hpc, Hb1, Hcur. }
  unfold fatal, decrypt. cbn [self out rng]. rewrite Hc, Hdec. cbn [self out rng].
  rewrite (message_wf b'' Hbw), Hbc. cbn [mbind outcome_bind]. by rewrite Hrd.
Qed.

Lemma send_pong_spec s b r pk c :
  MsgBuffer.wf b -> MsgBuffer.is_empty b = true -> buf_start b <= 1000 ->
  hash_wf (is_salted_node_id_hash s) -> algorithms_wf (is_algorithms s) -> payload_ok (is_payload s) ->
  bytes_ok pk -> zlen pk < 1000 -> is_crypto s = Some c -> core_wf c ->
  exists p c' buf b' salt, send_message (E := Error) STAGE_PONG (Some pk) (mkEnv s b r) =
      (mkEnv (set_last_message (Some (MsgBuffer.contents b')) (set_crypto (Some c') s)) b' (fill 4 r).2, Ok ()) /\
    CryptoCore.encrypt (E := Error) (mkEnv c p r) = (mkEnv c' buf r, Ok ()) /\
    MsgBuffer.wf p /\ buf_start p = EXTRA_LEN /\ zlen (MsgBuffer.contents p) <= 40000 /\
    payload_read_from (MsgBuffer.contents p) = Ok (payload_keep (is_payload s)) /\ payload_wf buf /\
    length salt = 4%nat /\ bytes_ok salt /\ holds b b' (enc (Pong (is_salted_node_id_hash s) pk (is_algorithms s) buf) (is_key_pair s) salt).
Proof.
  intros Hb He Hst Hh Ha Hp Hpk Hpl Hc Hw.
  destruct (encrypt_payload_spec s b r c Hp Hc Hw) as (p & c' & buf & Hep & Henc & Hpw & Hps & Hplen & Hrd & Hbw).
  destruct (write_message_spec (E := Error) (set_crypto (Some c') s) b r
    (Pong (is_salted_node_id_hash s) pk (is_algorithms s) buf)) as (b' & salt & Hwm & Hsl & Hso & Hbw'); [by split_and!|done|done|].
  pose proof Hbw' as (_ & Hbc & _).
  exists p, c', buf, b', salt. split; [|by split_and!]. unfold send_message.
  rewrite (bind_ok _ _ _ (mkEnv s b r) true) by (unfold on_out, zoom, gets; cbn [self out rng]; by rewrite He).
  rewrite (bind_ok _ _ _ (mkEnv s b r) ()) by done. rewrite (bind_ok _ _ _ (mkEnv s b r) s) by done.
  rewrite decide_False by done. rewrite decide_True by done.
  eassert ((_ : ST (Env (InitState P)) Error InitMsg) (mkEnv s b r) = (mkEnv (set_crypto (Some c') s) b r,
    Ok (Pong (is_salted_node_id_hash s) pk (is_algorithms s) buf))) as Hm.
  2: rewrite (bind_ok _ _ _ _ _ Hm).
  - rewrite (bind_ok _ _ _ (mkEnv s b r) pk) by done. rewrite (bind_ok _ _ _ _ _ Hep). done.
  - rewrite Hwm, Hbc. done.
Qed.

Lemma send_peng_spec s b r c :
  MsgBuffer.wf b -> MsgBuffer.is_empty b = true -> buf_start b <= 1000 ->
  hash_wf (is_salted_node_id_hash s) -> payload_ok (is_payload s) -> is_crypto s = Some c -> core_wf c ->
  exists p c' buf b' salt, send_message (E := Error) STAGE_PENG None (mkEnv s b r) =
      (mkEnv (set_last_message (Some (MsgBuffer.contents b')) (set_crypto (Some c') s)) b' (fill 4 r).2, Ok ()) /\
    CryptoCore.encrypt (E := Error) (mkEnv c p r) = (mkEnv c' buf r, Ok ()) /\
    MsgBuffer.wf p /\ buf_start p = EXTRA_LEN /\ zlen (MsgBuffer.contents p) <= 40000 /\
    payload_read_from (MsgBuffer.contents p) = Ok (payload_keep (is_payload s)) /\ payload_wf buf /\
    length salt = 4%nat /\ bytes_ok salt /\ holds b b' (enc (Peng (is_salted_node_id_hash s) buf) (is_key_pair s) salt).
Proof.
  intros Hb He Hst Hh Hp Hc Hw.
  destruct (encrypt_payload_spec s b r c Hp Hc Hw) as (p & c' & buf & Hep & Henc & Hpw & Hps & Hplen & Hrd & Hbw).
  destruct (write_message_spec (E := Error) (set_crypto (Some c') s) b r
    (Peng (is_salted_node_id_hash s) buf)) as (b' & salt & Hwm & Hsl & Hso & Hbw'); [by split_and!|done|done|].
  pose proof Hbw' as (_ & Hbc & _).
  exists p, c', buf, b', salt. split; [|by split_and!]. unfold send_message.
  rewrite (bind_ok _ _ _ (mkEnv s b r) true) by (unfold on_out, zoom, gets; cbn [self out rng]; by rewrite He).
  rewrite (bind_ok _ _ _ (mkEnv s b r) ()) by done. rewrite (bind_ok _ _ _ (mkEnv s b r) s) by done.
  do 2 rewrite decide_False by done. rewrite decide_True by done.
  eassert ((_ : ST (Env (InitState P)) Error InitMsg) (mkEnv s b r) = (mkEnv (set_crypto (Some c') s) b r,
    Ok (Peng (is_salted_node_id_hash s) buf))) as Hm.
  2: rewrite (bind_ok _ _ _ _ _ Hm).
  - rewrite (bind_ok _ _ _ _ _ Hep). done.
  - rewrite Hwm, Hbc. done.
Qed.

(** What a side starts from: messages built of its fields are well-formed. *)
Definition side_wf s : Prop :=
  hash_wf (is_salted_node_id_hash s) /\ algorithms_wf (is_algorithms s) /\ payload_ok (is_payload s).

Lemma cleared m b : carries m b ->
  MsgBuffer.wf (MsgBuffer.clear m) /\ MsgBuffer.is_empty (MsgBuffer.clear m) = true /\ buf_start (MsgBuffer.clear m) <= 1000.
Proof.
  intros (Hw & _ & Hs). destruct (clear_empty m Hw) as [He Hst]. split; [by apply clear_wf|]. split; [done|lia].
Qed.

Lemma public_small k : bytes_ok (compute_public_key k) /\ zlen (compute_public_key k) < 1000.
Proof. split; [apply public_ok|]. unfold zlen. rewrite public_len. lia. Qed.

Lemma send_ping_spec s b r :
  MsgBuffer.wf b -> MsgBuffer.is_empty b = true -> buf_start b <= 1000 -> side_wf s ->
  exists k r' b' salt, send_ping (E := Error) (mkEnv s b r) =
      (mkEnv (set_next_stage STAGE_PONG (set_last_message (Some (MsgBuffer.contents b')) (set_ecdh (Some k) s))) b' r', Ok ()) /\
    length salt = 4%nat /\ bytes_ok salt /\ holds b b' (enc (Ping (is_salted_node_id_hash s) (compute_public_key k) (is_algorithms s)) (is_key_pair s) salt).
Proof.
  intros Hb He Hst (Hh & Ha & Hp). unfold send_ping.
  assert (exists k r1, ecdh_generate r = (k, r1)) as (k & r1 & Hg) by (destruct (ecdh_generate r); eauto).
  destruct (public_small k) as [Hko Hkl].
  destruct (write_message_spec (E := Error) (set_ecdh (Some k) s) b r1
    (Ping (is_salted_node_id_hash s) (compute_public_key k) (is_algorithms s))) as (b' & salt & Hwm & Hsl & Hso & Hbw'); [by split_and!|done|done|].
  pose proof Hbw' as (_ & Hbc & _).
  exists k, (fill 4 r1).2, b', salt. split; [|by split_and!].
  assert (on_rng (A := InitState P) (create_ecdh_keypair (E := Error)) (mkEnv s b r) = (mkEnv s b r1, Ok (k, compute_public_key k))) as Hc.
  { unfold on_rng, zoom, create_ecdh_keypair. cbn [rng self out]. by rewrite Hg. }
  rewrite (bind_ok _ _ _ _ _ Hc). cbn beta iota. rewrite (bind_ok _ _ _ (mkEnv (set_ecdh (Some k) s) b r1) ()) by done.
  assert (send_message (E := Error) STAGE_PING (Some (compute_public_key k)) (mkEnv (set_ecdh (Some k) s) b r1) =
    (mkEnv (set_last_message (Some (MsgBuffer.contents b')) (set_ecdh (Some k) s)) b' (fill 4 r1).2, Ok ())) as Hsm.
  2: by rewrite (bind_ok _ _ _ _ _ Hsm).
  unfold send_message.
  rewrite (bind_ok _ _ _ (mkEnv (set_ecdh (Some k) s) b r1) true) by (unfold on_out, zoom, gets; cbn [self out rng]; by rewrite He).
  rewrite (bind_ok _ _ _ (mkEnv (set_ecdh (Some k) s) b r1) ()) by done.
  rewrite (bind_ok _ _ _ (mkEnv (set_ecdh (Some k) s) b r1) (set_ecdh (Some k) s)) by done. rewrite decide_True by done.
  eassert ((_ : ST (Env (InitState P)) Error InitMsg) (mkEnv (set_ecdh (Some k) s) b r1) = (mkEnv (set_ecdh (Some k) s) b r1,
    Ok (Ping (is_salted_node_id_hash s) (compute_public_key k) (is_algorithms s)))) as Hm.
  2: rewrite (bind_ok _ _ _ _ _ Hm).
  - rewrite (bind_ok _ _ _ (mkEnv (set_ecdh (Some k) s) b r1) (compute_public_key k)) by done. done.
  - rewrite Hwm, Hbc. done.
Qed.

(** A ping is answered with a pong. *)
Lemma handle_ping_spec s b r ka hash algs alg speed :
  MsgBuffer.wf b -> MsgBuffer.is_empty b = true -> buf_start b <= 1000 -> side_wf s ->
  select_algorithm (is_algorithms s) algs = Ok (Some (alg, speed)) ->
  exists kb shared rc rc' c p c' buf r' b' salt,
    agree_ephemeral ka (compute_public_key kb) = Some shared /\
    CryptoCore.new (E := Error) (master_key alg shared) (Nonce.ltb hash (is_salted_node_id_hash s)) rc = (rc', Ok c) /\
    handle_msg (Ping hash (compute_public_key ka) algs) (mkEnv s b r) =
      (mkEnv (set_next_stage STAGE_PENG (set_last_message (Some (MsgBuffer.contents b')) (set_crypto (Some c')
         (set_crypto (Some c) (set_selected (Some alg) s))))) b' r', Ok Continue) /\
    CryptoCore.encrypt (E := Error) (mkEnv c p rc') = (mkEnv c' buf rc', Ok ()) /\
    MsgBuffer.wf p /\ buf_start p = EXTRA_LEN /\ zlen (MsgBuffer.contents p) <= 40000 /\
    payload_read_from (MsgBuffer.contents p) = Ok (payload_keep (is_payload s)) /\ payload_wf buf /\
    length salt = 4%nat /\ bytes_ok salt /\ holds b b' (enc (Pong (is_salted_node_id_hash s) (compute_public_key kb) (is_algorithms s) buf) (is_key_pair s) salt).
Proof.
  intros Hb He Hst (Hh & Ha & Hp) Hsel.
  assert (exists k r1, ecdh_generate r = (k, r1)) as (kb & r1 & Hg) by (destruct (ecdh_generate r); eauto).
  destruct (agree_sym ka kb) as (shared & Hag1 & Hag2). destruct (public_small kb) as [Hko Hkl].
  destruct (setup_core_spec s b r1 alg speed kb (compute_public_key ka) hash shared Hag2) as (c & rc' & Hnew & Hset).
  destruct (core_new_spec (E := Error) (master_key alg shared) (Nonce.ltb hash (is_salted_node_id_hash s)) r1)
    as (c0 & r0 & _ & Hnew0 & Hcw & _). rewrite Hnew in Hnew0. injection Hnew0 as <- <-.
  destruct (send_pong_spec (set_crypto (Some c) (set_selected (Some alg) s)) b rc' (compute_public_key kb) c)
    as (p & c' & buf & b' & salt & Hsend & Henc & Hrest); [done..|].
  exists kb, shared, r1, rc', c, p, c', buf, (fill 4 rc').2, b', salt.
  split; [done|]. split; [exact Hnew|]. split; [|split; [exact Henc|exact Hrest]].
  unfold handle_msg. rewrite (bind_ok _ _ _ (mkEnv s b r) s) by done.
  assert (on_rng (A := InitState P) (create_ecdh_keypair (E := Error)) (mkEnv s b r) = (mkEnv s b r1, Ok (kb, compute_public_key kb))) as Hc.
  { unfold on_rng, zoom, create_ecdh_keypair. cbn [rng self out]. by rewrite Hg. }
  rewrite (bind_ok _ _ _ _ _ Hc). cbn beta iota. rewrite (bind_ok _ _ _ (mkEnv s b r1) (Some (alg, speed))) by (unfold lift; by rewrite Hsel).
  rewrite (bind_ok _ _ _ _ _ Hset). rewrite (bind_ok _ _ _ _ _ Hsend). done.
Qed.

(** A pong is answered with a peng. *)
Lemma handle_pong_spec s b r ka kb shared hash algs alg speed c1 p c1' buf x rx :
  MsgBuffer.wf b -> MsgBuffer.is_empty b = true -> buf_start b <= 1000 -> side_wf s ->
  select_algorithm (is_algorithms s) algs = Ok (Some (alg, speed)) ->
  is_ecdh_private_key s = Some ka -> agree_ephemeral ka (compute_public_key kb) = Some shared ->
  MsgBuffer.wf p -> buf_start p = EXTRA_LEN -> zlen (MsgBuffer.contents p) <= 40000 ->
  payload_read_from (MsgBuffer.contents p) = Ok (payload_keep x) ->
  CryptoCore.encrypt (E := Error) (mkEnv c1 p rx) = (mkEnv c1' buf rx, Ok ()) -> payload_wf buf -> nonce_left c1 -> current_key c1 = 0 ->
  (forall c r r', CryptoCore.new (E := Error) (master_key alg shared) (Nonce.ltb hash (is_salted_node_id_hash s)) r = (r', Ok c) ->
    linked c1 c /\ linked c c1) ->
  exists c2 p2 c2' buf2 r' r2 b' salt,
    handle_msg (Pong hash (compute_public_key kb) algs (payload_buffer (MsgBuffer.contents buf))) (mkEnv s b r) =
      (mkEnv (set_close_time 60 (set_next_stage WAITING_TO_CLOSE (set_last_message (Some (MsgBuffer.contents b')) (set_crypto (Some c2')
         (set_crypto (Some c2) (set_selected (Some alg) (set_ecdh None s))))))) b' r', Ok (Success (payload_keep x) true)) /\
    linked c1' c2 /\ linked c2 c1' /\ used 0 c2 /\
    CryptoCore.encrypt (E := Error) (mkEnv c2 p2 r2) = (mkEnv c2' buf2 r2, Ok ()) /\
    MsgBuffer.wf p2 /\ buf_start p2 = EXTRA_LEN /\ zlen (MsgBuffer.contents p2) <= 40000 /\
    payload_read_from (MsgBuffer.contents p2) = Ok (payload_keep (is_payload s)) /\ payload_wf buf2 /\
    length salt = 4%nat /\ bytes_ok salt /\ holds b b' (enc (Peng (is_salted_node_id_hash s) buf2) (is_key_pair s) salt).
Proof.
  intros Hb He Hst (Hh & Ha & Hp) Hsel Hka Hag Hpw Hps Hpl Hprd Henc Hbuf Hleft Hcur Hlink.
  destruct (setup_core_spec (set_ecdh None s) b r alg speed ka (compute_public_key kb) hash shared Hag) as (c & rc & Hnew & Hset).
  destruct (Hlink _ _ _ Hnew) as [Hl1 Hl2]. pose proof (master_key_used _ _ _ _ _ _ _ _ Hag Hnew) as Hleft2.
  destruct (open_payload x p c1 c1' buf c (set_crypto (Some c) (set_selected (Some alg) (set_ecdh None s))) b rc rx Hpw Hps Hpl Hprd Henc Hbuf Hl1 Hleft)
    as (c2 & Hopen & Hl3 & Hl4 & Hl5); [done|]. specialize (Hl4 Hl2). specialize (Hl5 0 Hcur Hleft2).
  destruct (send_peng_spec (set_crypto (Some c2) (set_crypto (Some c) (set_selected (Some alg) (set_ecdh None s)))) b rc c2)
    as (p2 & c2' & buf2 & b' & salt & Hsend & Henc2 & Hrest); [try done; apply Hl4..|].
  exists c2, p2, c2', buf2, (fill 4 rc).2, rc, b', salt. split; [|split; [done|split; [done|split; [done|split; [exact Henc2|exact Hrest]]]]].
  - unfold handle_msg. rewrite (bind_ok _ _ _ (mkEnv s b r) s) by done.
    rewrite (bind_ok _ _ _ (mkEnv (set_ecdh None s) b r) ()) by done.
    rewrite (bind_ok _ _ _ (mkEnv (set_ecdh None s) b r) ka) by (unfold lift; by rewrite Hka).
    rewrite (bind_ok _ _ _ (mkEnv (set_ecdh None s) b r) (Some (alg, speed))) by (unfold lift; by rewrite Hsel).
    rewrite (bind_ok _ _ _ _ _ Hset). rewrite (bind_ok _ _ _ _ _ Hopen).
    cbn [set_crypto]. rewrite (bind_ok _ _ _ _ _ Hsend). done.
Qed.

Lemma handle_peng_spec s b r hash c1 p c1' buf x rx c2 :
  MsgBuffer.wf p -> buf_start p = EXTRA_LEN -> zlen (MsgBuffer.contents p) <= 40000 ->
  payload_read_from (MsgBuffer.contents p) = Ok (payload_keep x) ->
  CryptoCore.encrypt (E := Error) (mkEnv c1 p rx) = (mkEnv c1' buf rx, Ok ()) -> payload_wf buf -> nonce_left c1 ->
  is_crypto s = Some c2 -> linked c1 c2 -> linked c2 c1 ->
  exists c2', handle_msg (Peng hash (payload_buffer (MsgBuffer.contents buf))) (mkEnv s b r) =
      (mkEnv (set_next_stage CLOSING (set_crypto (Some c2') s)) b r, Ok (Success (payload_keep x) false)) /\
    linked c1' c2' /\ linked c2' c1' /\ (forall n, current_key c1 = 0 -> used n c2 -> used n c2').
Proof.
  intros Hpw Hps Hpl Hprd Henc Hbuf Hleft Hc Hl1 Hl2.
  destruct (open_payload x p c1 c1' buf c2 s b r rx Hpw Hps Hpl Hprd Henc Hbuf Hl1 Hleft Hc) as (c2' & Hopen & Hl3 & Hl4 & Hl5).
  exists c2'. split; [|split; [done|split; [by apply Hl4|exact Hl5]]].
  unfold handle_msg. rewrite (bind_ok _ _ _ (mkEnv s b r) s) by done. by rewrite (bind_ok _ _ _ _ _ Hopen).
Qed.

Lemma init_new_spec node_id (p : P) kp trusted algos r r' s :
  InitState.new (E := Error) node_id p kp trusted algos r = (r', Ok s) ->
  exists hash, s = mkInitState node_id hash p kp trusted None STAGE_PING 60 None None algos None 0 /\ hash_wf hash.
Proof.
  unfold InitState.new, random, mbind, ST_bind, mret, ST_ret. pose proof (fill_len 4 r) as Hl. pose proof (fill_ok 4 r) as Ho.
  destruct (fill 4 r) as [salt r1]. cbn [fst] in Hl, Ho. intros Hn. injection Hn as <- <-. eexists. split; [reflexivity|]. split.
  - rewrite length_app, length_take, sha256_len. unfold SALTED_NODE_ID_HASH_LEN. lia.
  - apply Forall_app. split; [done|]. apply Forall_take, sha256_ok.
Qed.

Lemma halves h1 h2 : hash_wf h1 -> hash_wf h2 -> h1 <> h2 -> Nonce.ltb h2 h1 = negb (Nonce.ltb h1 h2).
Proof.
  intros [L1 O1] [L2 O2] Hne. pose proof (ltb_spec h1 h2 ltac:(congruence) O1 O2) as S1.
  pose proof (ltb_spec h2 h1 ltac:(congruence) O2 O1) as S2.
  assert (be_value h1 <> be_value h2) as Hv by (intros Hv; apply Hne; apply be_value_inj; congruence).
  destruct (Nonce.ltb h1 h2), (Nonce.ltb h2 h1); try done.
  - destruct S1 as [S1 _], S2 as [S2 _]. specialize (S1 eq_refl). specialize (S2 eq_refl). lia.
  - destruct S1 as [_ S1], S2 as [_ S2]. cbn in *. destruct (Z.lt_total (be_value h1) (be_value h2)) as [Hc|[Hc|Hc]]; [by rewrite S1|done|by rewrite S2].
Qed.

(** ** The run *)

(** [b], where [b0] was, holds a message. *)
Definition sent (b0 b : MsgBuffer) : Prop :=
  MsgBuffer.wf b /\ buf_start b = buf_start b0 /\ space_before b = space_before b0 /\ 0 < zlen (MsgBuffer.contents b) <= 60100.

Lemma holds_sent b0 b m key salt : msg_wf m -> length salt = 4%nat -> bytes_ok salt -> holds b0 b (enc m key salt) -> sent b0 b.
Proof.
  intros Hm Hs Ho (Hw & Hc & Hst & Hsp). destruct (enc_ok_len m key salt Hm Hs Ho) as [_ Hl].
  split; [done|]. split; [done|]. split; [done|]. rewrite Hc. split; [|done].
  unfold enc, enc_body, zlen. rewrite !length_app, Hs. lia.
Qed.

Lemma holds_carries b0 b bs m : holds b0 b bs -> carries m b ->
  MsgBuffer.wf m /\ MsgBuffer.contents m = bs.
Proof. intros (_ & <- & _) (Hw & Hc & _). by split. Qed.

(** What the two sides bring along. *)
Record compatible (a b : InitState P) (alg : Algorithm) : Prop := {
  cp_a : side_wf a; cp_b : side_wf b;
  cp_ne : is_salted_node_id_hash a <> is_salted_node_id_hash b;
  cp_ta : trusts (is_trusted_keys a) (ed25519_public_key (is_key_pair b));
  cp_tb : trusts (is_trusted_keys b) (ed25519_public_key (is_key_pair a));
  cp_sa : exists speed, select_algorithm (is_algorithms a) (is_algorithms b) = Ok (Some (alg, speed));
  cp_sb : exists speed, select_algorithm (is_algorithms b) (is_algorithms a) = Ok (Some (alg, speed))
}.

(** The fields a handshake does not touch. *)
Definition same_side s s' : Prop :=
  is_salted_node_id_hash s' = is_salted_node_id_hash s /\ is_payload s' = is_payload s /\ is_key_pair s' = is_key_pair s /\
  is_trusted_keys s' = is_trusted_keys s /\ is_algorithms s' = is_algorithms s.

(** [eb] holds the responder after the ping of [xa], and its pong. *)
Definition ponged (a b : InitState P) alg (xa : EcdhPrivateKey) (eb : Env (InitState P)) : Prop :=
  exists xb sh rc rc' c p c' buf salt,
    same_side b (self eb) /\ next_stage (self eb) = STAGE_PENG /\ selected_algorithm (self eb) = Some alg /\
    is_crypto (self eb) = Some c' /\
    agree_ephemeral xa (compute_public_key xb) = Some sh /\
    CryptoCore.new (E := Error) (master_key alg sh) (Nonce.ltb (is_salted_node_id_hash a) (is_salted_node_id_hash b)) rc = (rc', Ok c) /\
    CryptoCore.encrypt (E := Error) (mkEnv c p rc') = (mkEnv c' buf rc', Ok ()) /\
    MsgBuffer.wf p /\ buf_start p = EXTRA_LEN /\ zlen (MsgBuffer.contents p) <= 40000 /\
    payload_read_from (MsgBuffer.contents p) = Ok (payload_keep (is_payload b)) /\ payload_wf buf /\
    length salt = 4%nat /\
    MsgBuffer.contents (out eb) = enc (Pong (is_salted_node_id_hash b) (compute_public_key xb) (is_algorithms b) buf) (is_key_pair b) salt.

Lemma deliver_ping a b alg xa m salt r :
  compatible a b alg -> next_stage b = STAGE_PING -> length salt = 4%nat ->
  MsgBuffer.wf m -> space_before m <= 1000 ->
  MsgBuffer.contents m = enc (Ping (is_salted_node_id_hash a) (compute_public_key xa) (is_algorithms a)) (is_key_pair a) salt ->
  exists eb, handle_init (mkEnv b m r) = (eb, Ok Continue) /\ sent (MsgBuffer.clear m) (out eb) /\ ponged a b alg xa eb.
Proof.
  intros [Ha Hb Hne Hta Htb _ [sb Hsb]] Hst Hs Hm Hsp Hc. destruct Ha as (Hha & Haa & _). pose proof Hb as (Hhb & Hab & _).
  destruct (public_small xa) as [Hxo Hxl]. destruct (cleared m m) as (Hw & He & Hs1); [by split_and!|].
  destruct (handle_ping_spec (set_failed_retries 0 b) (MsgBuffer.clear m) r xa (is_salted_node_id_hash a) (is_algorithms a) alg sb Hw He Hs1 Hb Hsb)
    as (xb & sh & rc & rc' & c & p & c' & buf & r' & o & salt' & Hag & Hnew & Hhp & Henc & Hpw & Hps & Hpl & Hprd & Hbuf & Hs' & Hso & Ho).
  destruct (public_small xb) as [Hxbo Hxbl].
  eexists. split; [|split].
  - rewrite (handle_init_expected b m r _ (is_key_pair a) salt Hm Hc); [exact Hhp|by split_and!|done|exact Htb|exact (not_eq_sym Hne)|done].
  - cbn [out]. eapply holds_sent; [|exact Hs'|exact Hso|exact Ho]. by split_and!.
  - exists xb, sh, rc, rc', c, p, c', buf, salt'. destruct Ho as (_ & Ho & _).
    split; [by split_and!|]. split; [done|]. split; [done|]. split; [done|]. split; [done|]. split; [exact Hnew|]. by split_and!.
Qed.

(** [ea] holds the initiator after that pong, and its peng; [cb] is the
    responder's core by then. *)
Definition penged (a : InitState P) alg (cb : CryptoCore) (ea : Env (InitState P)) : Prop :=
  exists c p c' buf r salt,
    same_side a (self ea) /\ next_stage (self ea) = WAITING_TO_CLOSE /\ selected_algorithm (self ea) = Some alg /\
    is_crypto (self ea) = Some c' /\ linked cb c /\ linked c cb /\ used 0 c /\
    CryptoCore.encrypt (E := Error) (mkEnv c p r) = (mkEnv c' buf r, Ok ()) /\
    MsgBuffer.wf p /\ buf_start p = EXTRA_LEN /\ zlen (MsgBuffer.contents p) <= 40000 /\
    payload_read_from (MsgBuffer.contents p) = Ok (payload_keep (is_payload a)) /\ payload_wf buf /\
    length salt = 4%nat /\
    MsgBuffer.contents (out ea) = enc (Peng (is_salted_node_id_hash a) buf) (is_key_pair a) salt.

Lemma deliver_pong a0 a b alg xa eb m r :
  compatible a0 b alg -> same_side a0 a -> next_stage a = STAGE_PONG -> is_ecdh_private_key a = Some xa -> ponged a0 b alg xa eb -> carries m (out eb) ->
  exists ea cb, is_crypto (self eb) = Some cb /\ used 1 cb /\
    handle_init (mkEnv a m r) = (ea, Ok (Success (payload_keep (is_payload b)) true)) /\ sent (MsgBuffer.clear m) (out ea) /\ penged a0 alg cb ea.
Proof.
  intros [Ha Hb Hne Hta Htb [sa Hsa] _] Hsame Hst Hxa Hpo Hm. pose proof Ha as (Hha & Haa & Hap). pose proof Hb as (Hhb & Hab & _).
  destruct Hsame as (E1 & E2 & E3 & E4 & E5).
  destruct Hpo as (xb & sh & rc & rc' & c & p & c' & buf & salt & _ & _ & _ & Hcr & Hag & Hnew & Henc & Hpw & Hps & Hpl & Hprd & Hbuf & Hs & Hc).
  destruct (cleared m _ Hm) as (Hw & He & Hs1). destruct Hm as (Hm & Hmc & _). rewrite Hc in Hmc.
  destruct (public_small xb) as [Hxbo Hxbl]. pose proof (master_key_used _ _ _ _ _ _ _ _ Hag Hnew) as Hu.
  pose proof (length_contents p Hpw) as Hlp.
  destruct (handle_pong_spec (set_failed_retries 0 a) (MsgBuffer.clear m) r xa xb sh (is_salted_node_id_hash b) (is_algorithms b) alg sa
      c p c' buf (is_payload b) rc' Hw He Hs1) as (ca & p2 & ca' & buf2 & r' & rx & o & salt2 & Hh & Hl1 & Hl2 & Hu2 & Henc2 & Hpw2 & Hps2 & Hpl2 & Hprd2 & Hbuf2 & Hs2 & Hs2o & Ho);
    try done; [by split_and!; cbn; rewrite ?E1, ?E2, ?E5|by cbn; rewrite E5|by apply (used_left 0)|apply Hu| |].
  { cbn [set_failed_retries is_salted_node_id_hash]. rewrite E1. intros c2 r2 r2' Hnew2.
    rewrite (halves _ _ Hha Hhb Hne) in Hnew2. split; [by eapply linked_new|].
    eapply linked_new; [exact Hnew2|]. rewrite negb_involutive. exact Hnew. }
  eexists _, c'. split; [done|]. split.
  { destruct (core_new_spec (E := Error) (master_key alg sh) (Nonce.ltb (is_salted_node_id_hash a0) (is_salted_node_id_hash b)) rc) as (c0 & r0 & _ & Hn0 & Hcw & _).
    rewrite Hnew in Hn0. injection Hn0 as _ <-.
    apply (encrypt_used 0 c p rc' _ Hcw Hpw) in Henc; [done|unfold EXTRA_LEN in *; lia|unfold EXTRA_LEN, TAG_LEN, BUFFER_SIZE in *; lia|lia|done]. }
  split; [|split].
  - rewrite (handle_init_expected a m r _ (is_key_pair b) salt Hm Hmc); [exact Hh|by split_and!|done|by rewrite E4|by rewrite E1|by rewrite Hst].
  - cbn [out]. eapply holds_sent; [|exact Hs2|exact Hs2o|exact Ho]. split; [|done]. by cbn; rewrite E1.
  - exists ca, p2, ca', buf2, rx, salt2. cbn [set_failed_retries is_salted_node_id_hash is_key_pair is_payload] in *.
    destruct Ho as (_ & Ho & _). rewrite E1, E3 in Ho. rewrite E2 in Hprd2. by split_and!.
Qed.

Lemma deliver_peng a b0 b alg cb ea m r :
  compatible a b0 alg -> same_side b0 b -> next_stage b = STAGE_PENG -> is_crypto b = Some cb -> used 1 cb -> penged a alg cb ea -> carries m (out ea) ->
  exists s' ca cb', handle_init (mkEnv b m r) = (mkEnv s' (MsgBuffer.clear m) r, Ok (Success (payload_keep (is_payload a)) false)) /\
    next_stage s' = CLOSING /\ selected_algorithm s' = selected_algorithm b /\
    is_crypto (self ea) = Some ca /\ is_crypto s' = Some cb' /\
    linked ca cb' /\ linked cb' ca /\ used 1 ca /\ used 1 cb'.
Proof.
  intros [Ha Hb Hne Hta Htb _ _] Hsame Hst Hcb Hu Hpe Hm. pose proof Ha as (Hha & Haa & Hap).
  destruct Hsame as (E1 & E2 & E3 & E4 & E5).
  destruct Hpe as (c & p & c' & buf & rx & salt & _ & _ & _ & Hcr & Hl1 & Hl2 & Hu2 & Henc & Hpw & Hps & Hpl & Hprd & Hbuf & Hs & Hc).
  destruct Hm as (Hm & Hmc & _). rewrite Hc in Hmc. pose proof (length_contents p Hpw) as Hlp.
  destruct (handle_peng_spec (set_failed_retries 0 b) (MsgBuffer.clear m) r (is_salted_node_id_hash a) c p c' buf (is_payload a) rx cb)
    as (cb' & Hh & Hl3 & Hl4 & Hl5); try done; [by apply (used_left 0)|].
  eexists _, c', cb'. split.
  { rewrite (handle_init_expected b m r _ (is_key_pair a) salt Hm Hmc); [exact Hh|by split_and!|done|by rewrite E4|by rewrite E1; apply not_eq_sym|by rewrite Hst]. }
  split; [done|]. split; [done|]. split; [done|]. split; [done|]. split; [done|]. split; [done|]. split; [|apply Hl5; [apply Hu2|done]].
  apply (encrypt_used 0 c p rx _) in Henc; [done|apply Hl2|done|unfold EXTRA_LEN in *; lia|unfold EXTRA_LEN, TAG_LEN, BUFFER_SIZE in *; lia|lia|done].
Qed.

Lemma send_ping_run s b r :
  MsgBuffer.wf b -> MsgBuffer.is_empty b = true -> buf_start b <= 1000 -> side_wf s ->
  exists e k salt, send_ping (E := Error) (mkEnv s b r) = (e, Ok ()) /\ length salt = 4%nat /\ sent b (out e) /\
    same_side s (self e) /\ next_stage (self e) = STAGE_PONG /\ is_ecdh_private_key (self e) = Some k /\
    MsgBuffer.contents (out e) = enc (Ping (is_salted_node_id_hash s) (compute_public_key k) (is_algorithms s)) (is_key_pair s) salt.
Proof.
  intros Hb He Hs Hw. destruct (send_ping_spec s b r Hb He Hs Hw) as (k & r' & o & salt & Hp & Hl & Ho & Hh).
  destruct (public_small k) as [Hxo Hxl]. pose proof Hw as (Hh1 & Ha & _).
  eexists _, k, salt. split; [exact Hp|]. split; [done|]. split; [|split; [done|split; [done|split; [done|apply Hh]]]].
  cbn [out]. eapply holds_sent; [|exact Hl|exact Ho|exact Hh]. by split_and!.
Qed.

Lemma init_new_side node_id (p : P) kp trusted algos r r' s :
  InitState.new (E := Error) node_id p kp trusted algos r = (r', Ok s) -> algorithms_wf algos -> payload_ok p ->
  side_wf s /\ next_stage s = STAGE_PING /\ is_payload s = p /\ is_key_pair s = kp /\ is_trusted_keys s = trusted /\ is_algorithms s = algos.
Proof. intros (hash & -> & Hh)%init_new_spec Ha Hp. by split_and!. Qed.

(** The three-way handshake succeeds. Two new nodes that trust each other's
    key, have different salted ids and select the same algorithm exchange ping,
    pong and peng, through whatever buffers the messages arrive in: the
    initiator ends with the responder's payload, the responder with the
    initiator's, and both hold crypto cores that share a key in opposite nonce
    halves, so each can decrypt what the other encrypts. *)
Theorem handshake_succeeds ida idb (pa pb : P) ka kb ta tb aa ab r1 r2 r1' r2' (a b : InitState P) alg sa sb out0 ra :
  InitState.new (E := Error) ida pa ka ta aa r1 = (r1', Ok a) ->
  InitState.new (E := Error) idb pb kb tb ab r2 = (r2', Ok b) ->
  is_salted_node_id_hash a <> is_salted_node_id_hash b ->
  trusts ta (ed25519_public_key kb) -> trusts tb (ed25519_public_key ka) ->
  algorithms_wf aa -> algorithms_wf ab -> payload_ok pa -> payload_ok pb ->
  select_algorithm aa ab = Ok (Some (alg, sa)) -> select_algorithm ab aa = Ok (Some (alg, sb)) ->
  MsgBuffer.wf out0 -> MsgBuffer.is_empty out0 = true -> buf_start out0 <= 1000 ->
  exists ea, send_ping (E := Error) (mkEnv a out0 ra) = (ea, Ok ()) /\
  forall m1 rb, carries m1 (out ea) ->
  exists eb, handle_init (mkEnv b m1 rb) = (eb, Ok Continue) /\
  forall m2 ra2, carries m2 (out eb) ->
  exists ea2, handle_init (mkEnv (self ea) m2 ra2) = (ea2, Ok (Success (payload_keep pb) true)) /\
    next_stage (self ea2) = WAITING_TO_CLOSE /\
  forall m3 rb2, carries m3 (out ea2) ->
  exists eb2 ca cb, handle_init (mkEnv (self eb) m3 rb2) = (eb2, Ok (Success (payload_keep pa) false)) /\
    next_stage (self eb2) = CLOSING /\ selected_algorithm (self ea2) = Some alg /\ selected_algorithm (self eb2) = Some alg /\
    is_crypto (self ea2) = Some ca /\ is_crypto (self eb2) = Some cb /\ linked ca cb /\ linked cb ca.
Proof.
  intros Ha Hb Hne Hta Htb Haa Hab Hpa Hpb Hsa Hsb Ho Hoe Hos.
  apply init_new_side in Ha as (Ha & _ & Ea2 & Ea3 & Ea4 & Ea5); [|done..]. apply init_new_side in Hb as (Hb & Hbs & Eb2 & Eb3 & Eb4 & Eb5); [|done..].
  assert (compatible a b alg) as Hab' by (split; try done; rewrite ?Ea3, ?Ea4, ?Ea5, ?Eb3, ?Eb4, ?Eb5; eauto).
  destruct (send_ping_run a out0 ra Ho Hoe Hos Ha) as (ea & xa & salt & Hp & Hs & _ & Hea & Hst & Hx & Hc).
  exists ea. split; [done|]. intros m1 rb (Hm & Hmc & Hsp). rewrite Hc in Hmc.
  destruct (deliver_ping a b alg xa m1 salt rb Hab' Hbs Hs Hm Hsp Hmc) as (eb & Hh & _ & Hpo).
  exists eb. split; [done|]. intros m2 ra2 Hm2.
  destruct (deliver_pong a (self ea) b alg xa eb m2 ra2 Hab' Hea Hst Hx Hpo Hm2) as (ea2 & cb & Hcb & Hu & Hh2 & _ & Hpe).
  exists ea2. rewrite Eb2 in Hh2. split; [done|]. pose proof Hpe as (? & ? & ? & ? & ? & ? & _ & Hst2 & Hsel & _). split; [done|]. intros m3 rb2 Hm3.
  destruct Hpo as (? & ? & ? & ? & ? & ? & ? & ? & ? & Hsame & Hst3 & Hsel2 & _).
  destruct (deliver_peng a b (self eb) alg cb ea2 m3 rb2 Hab' Hsame Hst3 Hcb Hu Hpe Hm3)
    as (s' & ca & cb' & Hh3 & Hst4 & Hsel3 & Hca & Hcb' & Hl1 & Hl2 & _).
  eexists _, ca, cb'. rewrite Ea2 in Hh3. split; [exact Hh3|]. cbn [self]. rewrite Hsel3. by split_and!.
Qed.

(** A message out of turn does no harm: an authentic message of another
    stage than the expected one changes nothing in the state machine, and is
    answered by the last message once more, so a peer that missed it can go on. *)
Theorem handshake_repeats s m r msg key salt bs :
  MsgBuffer.wf m -> MsgBuffer.contents m = enc msg key salt -> msg_wf msg -> length salt = 4%nat -> space_before m <= 500 ->
  trusts (is_trusted_keys s) (ed25519_public_key key) ->
  is_salted_node_id_hash s <> InitMsg.salted_node_id_hash msg ->
  InitMsg.stage msg <> next_stage s -> ~ (next_stage s = STAGE_PONG /\ InitMsg.stage msg = STAGE_PING) ->
  next_stage s <> CLOSING -> last_message s = Some bs -> last_fits s ->
  exists b, handle_init (mkEnv s m r) = (mkEnv s b r, Ok Continue) /\ MsgBuffer.contents b = bs.
Proof.
  intros Hm Hc Hw Hs Hsp Ht Hne Hst Hx Hcl Hl Hf. rewrite (handle_init_read s m r msg key salt) by done.
  destruct (Hf bs Hl) as [Hb Hz]. destruct (clear_empty m Hm) as [_ Hstart].
  destruct (write_cursor_spec (E := Error) (write_all bs) bs (MsgBuffer.clear m) (writes_all bs) (clear_wf m Hm) Hb) as (b & Hwr & _ & _ & _ & Hbc).
  { unfold BUFFER_SIZE. lia. }
  exists (MsgBuffer.set_length (zlen bs) b). split; [|exact Hbc].
  assert (check_stage (received msg) (mkEnv s (MsgBuffer.clear m) r) = (mkEnv s (MsgBuffer.set_length (zlen bs) b) r, Ok false)) as Hcs.
  2: by rewrite (bind_ok _ _ _ _ _ Hcs).
  assert (InitMsg.stage (received msg) = InitMsg.stage msg) as Hrs by (by destruct msg).
  unfold check_stage. rewrite (bind_ok _ _ _ (mkEnv s (MsgBuffer.clear m) r) s) by done.
  rewrite Hrs. do 3 rewrite decide_False by done. rewrite Hl.
  assert (repeat_last_message (E := Error) (mkEnv s (MsgBuffer.clear m) r) = (mkEnv s (MsgBuffer.set_length (zlen bs) b) r, Ok ())) as Hrep.
  2: by rewrite (bind_ok _ _ _ _ _ Hrep).
  unfold repeat_last_message. rewrite (bind_ok _ _ _ (mkEnv s (MsgBuffer.clear m) r) (Some bs)).
  2: { unfold on_self, zoom, gets. cbn [self out rng]. by rewrite Hl. }
  rewrite (bind_ok _ _ _ (mkEnv s b r) (Some (zlen bs))).
  2: { unfold on_out, zoom. cbn [self out rng]. by rewrite Hwr. }
  done.
Qed.

(** C21: two nodes that ping each other at the same time do not deadlock: of the
    crossing pings exactly the one from the node with the greater salted id is
    answered. The node with the smaller id forgets its own ping and sends the
    pong; the other ignores what it received and keeps waiting for it. *)
Theorem handshake_crossing s m r hash xp algs key salt alg speed :
  next_stage s = STAGE_PONG -> side_wf s ->
  MsgBuffer.wf m -> MsgBuffer.contents m = enc (Ping hash (compute_public_key xp) algs) key salt -> length salt = 4%nat ->
  hash_wf hash -> algorithms_wf algs -> space_before m <= 1000 ->
  trusts (is_trusted_keys s) (ed25519_public_key key) -> is_salted_node_id_hash s <> hash ->
  select_algorithm (is_algorithms s) algs = Ok (Some (alg, speed)) ->
  (be_value hash < be_value (is_salted_node_id_hash s) /\
   handle_init (mkEnv s m r) = (mkEnv s (MsgBuffer.clear m) r, Ok Continue)) \/
  (be_value (is_salted_node_id_hash s) < be_value hash /\
   exists s' b' r' y buf salt', handle_init (mkEnv s m r) = (mkEnv s' b' r', Ok Continue) /\
     next_stage s' = STAGE_PENG /\ is_ecdh_private_key s' = None /\ selected_algorithm s' = Some alg /\
     MsgBuffer.contents b' = enc (Pong (is_salted_node_id_hash s) (compute_public_key y) (is_algorithms s) buf) (is_key_pair s) salt').
Proof.
  intros Hst Hwf Hm Hc Hs Hh Ha Hsp Ht Hne Hsel. destruct (public_small xp) as [Hxo Hxl].
  assert (carries m m) as Hcar by (split; [done|split; [done|lia]]).
  destruct (cleared m m Hcar) as (Hw & He & Hstart).
  rewrite (handle_init_read s m r _ key salt) by (try done; by split_and!).
  destruct Hwf as (Hsh & Hwf). destruct Hsh as [L1 O1]. destruct Hh as [L2 O2].
  pose proof (ltb_spec (is_salted_node_id_hash s) hash ltac:(congruence) O1 O2) as Hlt.
  assert (check_stage (received (Ping hash (compute_public_key xp) algs)) (mkEnv s (MsgBuffer.clear m) r) =
    if Nonce.ltb (is_salted_node_id_hash s) hash
    then (mkEnv (set_ecdh None (set_last_message None (set_next_stage STAGE_PING s))) (MsgBuffer.clear m) r, Ok true)
    else (mkEnv s (MsgBuffer.clear m) r, Ok false)) as Hcs.
  { unfold check_stage. rewrite (bind_ok _ _ _ (mkEnv s (MsgBuffer.clear m) r) s) by done.
    cbn [received InitMsg.stage InitMsg.salted_node_id_hash]. rewrite decide_False by (rewrite Hst; done). rewrite decide_True by done.
    destruct (Nonce.ltb (is_salted_node_id_hash s) hash); done. }
  destruct (Nonce.ltb (is_salted_node_id_hash s) hash); rewrite (bind_ok _ _ _ _ _ Hcs).
  - right. split; [by apply Hlt|]. cbn beta iota. set (s1 := set_ecdh None _).
    rewrite (bind_ok _ _ _ (mkEnv (set_failed_retries 0 s1) (MsgBuffer.clear m) r) ()) by done.
    cbn beta. cbn [received].
    destruct (handle_ping_spec (set_failed_retries 0 s1) (MsgBuffer.clear m) r xp hash algs alg speed Hw He Hstart)
      as (y & sh & rc & rc' & c & p & c' & buf & r' & b' & salt' & _ & _ & -> & _ & _ & _ & _ & _ & _ & _ & _ & (_ & Hbc & _)); [by split|done|].
    eexists _, b', r', y, buf, salt'. split; [reflexivity|]. by split_and!.
  - left. split; [|done]. destruct Hlt as [_ Hlt].
    destruct (Z.lt_total (be_value hash) (be_value (is_salted_node_id_hash s))) as [Hl|[Hl|Hl]]; [done|exfalso..].
    + apply Hne. symmetry. apply be_value_inj; try done. congruence.
    + by discriminate Hlt.
Qed.
End Steps.

(** ** An example *)

Definition toy_id (n : Z) : NodeId := replicate 16 n.
Definition toy_pair (n : Z) : @Ed25519KeyPair toy_ring := replicate 31 0 ++ [n].
Definition toy_public (n : Z) : bytes := ed25519_public_key (toy_pair n).
Definition toy_side (n : Z) (trusted : Z) (algos : Algorithms) : Rng * Result (InitState NodeInfo) :=
  InitState.new (E := Error) (toy_id n) sample_info (toy_pair n) [toy_public trusted] algos (toy_rng n).
(** The state a side starts from. *)
Definition toy_init (n : Z) (trusted : Z) (algos : Algorithms) : InitState NodeInfo :=
  let salt := (fill 4 (toy_rng n)).1 in
  mkInitState (toy_id n) (salt ++ take 16 (sha256 (salt ++ toy_id n))) sample_info (toy_pair n) [toy_public trusted]
    None STAGE_PING 60 None None algos None 0.

Lemma toy_side_init n trusted algos : toy_side n trusted algos = ((fill 4 (toy_rng n)).2, Ok (toy_init n trusted algos)).
Proof. reflexivity. Qed.

Lemma toy_payload_ok : payload_ok sample_info.
Proof. split; [apply sample_info_wf|]. vm_compute. discriminate. Qed.

Lemma handshake_succeeds_witness :
  exists ea, send_ping (E := Error) (mkEnv (toy_init 1 2 algorithms_a) (MsgBuffer.new 8) (toy_rng 3)) = (ea, Ok ()) /\
  forall m1 rb, carries m1 (out ea) ->
  exists eb, handle_init (mkEnv (toy_init 2 1 algorithms_b) m1 rb) = (eb, Ok Continue).
Proof.
  destruct (handshake_succeeds (toy_id 1) (toy_id 2) sample_info sample_info (toy_pair 1) (toy_pair 2)
    [toy_public 2] [toy_public 1] algorithms_a algorithms_b (toy_rng 1) (toy_rng 2) _ _ _ _ AES_256_GCM 1140457472 1140457472
    (MsgBuffer.new 8) (toy_rng 3) (toy_side_init 1 2 algorithms_a) (toy_side_init 2 1 algorithms_b)) as (ea & Hp & Hk).
  - vm_compute. discriminate.
  - apply trusts_one.
  - apply trusts_one.
  - split; [repeat constructor; vm_compute; discriminate|vm_compute; lia].
  - split; [repeat constructor; vm_compute; discriminate|vm_compute; lia].
  - apply toy_payload_ok.
  - apply toy_payload_ok.
  - vm_compute. reflexivity.
  - vm_compute. reflexivity.
  - apply new_wf. unfold BUFFER_SIZE. lia.
  - apply bool_decide_eq_true_2. done.
  - cbn. lia.
  - exists ea. split; [exact Hp|]. intros m1 rb Hm. destruct (Hk m1 rb Hm) as (eb & He & _). exists eb. exact He.
Defined.

(** A buffer that holds [bs]. *)
Definition toy_buffer (bs : bytes) : MsgBuffer := (MsgBuffer.clone_from (E := Error) bs (MsgBuffer.new 100)).1.

Lemma toy_buffer_spec bs : bytes_ok bs -> zlen bs <= 60200 ->
  MsgBuffer.wf (toy_buffer bs) /\ MsgBuffer.contents (toy_buffer bs) = bs /\ space_before (toy_buffer bs) = 100.
Proof.
  intros Hb Hl. unfold toy_buffer. destruct (clone_from_spec (E := Error) (MsgBuffer.new 100) bs) as (b & -> & Hw & Hc & _ & Hs).
  - apply new_wf. unfold BUFFER_SIZE. lia.
  - done.
  - change (buf_start (MsgBuffer.new 100)) with 100. unfold BUFFER_SIZE. lia.
  - split; [exact Hw|]. split; [exact Hc|]. exact Hs.
Qed.

Definition toy_ping : InitMsg := Ping (replicate 20 5) (compute_public_key (5 : @EcdhPrivateKey toy_ring)) algorithms_a.

Lemma algorithms_a_wf : algorithms_wf algorithms_a.
Proof. split; [repeat constructor; vm_compute; discriminate|vm_compute; lia]. Qed.
Lemma algorithms_b_wf : algorithms_wf algorithms_b.
Proof. split; [repeat constructor; vm_compute; discriminate|vm_compute; lia]. Qed.

Lemma hash_ok n : is_u8 n -> hash_wf (replicate 20 n).
Proof. intros Hn. split; [done|]. by apply Forall_replicate. Qed.

Lemma toy_ping_wf : msg_wf toy_ping.
Proof.
  split; [apply hash_ok; unfold is_u8; lia|]. destruct (public_small (5 : @EcdhPrivateKey toy_ring)) as [H1 H2].
  split; [exact H1|]. split; [exact H2|]. apply algorithms_a_wf.
Qed.

Definition toy_ping_bytes : bytes := enc toy_ping (toy_pair 1) (replicate 4 0).

Lemma toy_ping_bytes_buffer :
  MsgBuffer.wf (toy_buffer toy_ping_bytes) /\ MsgBuffer.contents (toy_buffer toy_ping_bytes) = toy_ping_bytes /\
  space_before (toy_buffer toy_ping_bytes) = 100.
Proof.
  destruct (enc_ok_len toy_ping (toy_pair 1) (replicate 4 0) toy_ping_wf) as [H1 H2]; [done|apply Forall_replicate; unfold is_u8; lia|].
  apply toy_buffer_spec; [done|]. unfold toy_ping_bytes. lia.
Qed.

(** A node waiting in [stage], with the hash of twenty [n]s. *)
Definition toy_waiting (n stage : Z) (algos : Algorithms) : InitState NodeInfo :=
  mkInitState (toy_id 2) (replicate 20 n) sample_info (toy_pair 2) [toy_public 1]
    None stage 60 (Some [1; 2; 3]) None algos None 0.

Lemma handshake_repeats_witness :
  exists b, handle_init (mkEnv (toy_waiting 4 STAGE_PENG algorithms_b) (toy_buffer toy_ping_bytes) (toy_rng 3)) =
    (mkEnv (toy_waiting 4 STAGE_PENG algorithms_b) b (toy_rng 3), Ok Continue) /\ MsgBuffer.contents b = [1; 2; 3].
Proof.
  destruct toy_ping_bytes_buffer as (Hw & Hc & Hs). revert Hw Hc Hs. generalize (toy_buffer toy_ping_bytes). intros b Hw Hc Hs.
  apply (handshake_repeats (toy_waiting 4 STAGE_PENG algorithms_b) _ _ toy_ping (toy_pair 1) (replicate 4 0) [1; 2; 3]); try done.
  - exact toy_ping_wf.
  - rewrite Hs. lia.
  - apply trusts_one.
  - intros [Hd _]. by discriminate Hd.
  - intros bs Hbs. injection Hbs as <-. split; [|done]. apply (bool_decide_unpack _). vm_compute. exact I.
Defined.

Lemma handshake_crossing_witness :
  exists s' b' r' y buf salt',
    handle_init (mkEnv (toy_waiting 4 STAGE_PONG algorithms_b) (toy_buffer toy_ping_bytes) (toy_rng 3)) = (mkEnv s' b' r', Ok Continue) /\
    next_stage s' = STAGE_PENG /\ is_ecdh_private_key s' = None /\ selected_algorithm s' = Some AES_256_GCM /\
    MsgBuffer.contents b' = enc (Pong (replicate 20 4) (compute_public_key y) algorithms_b buf) (toy_pair 2) salt'.
Proof.
  destruct toy_ping_bytes_buffer as (Hw & Hc & Hs). revert Hw Hc Hs. generalize (toy_buffer toy_ping_bytes). intros b Hw Hc Hs.
  destruct (handshake_crossing (toy_waiting 4 STAGE_PONG algorithms_b) b (toy_rng 3) (replicate 20 5)
    (5 : @EcdhPrivateKey toy_ring) algorithms_a (toy_pair 1) (replicate 4 0) AES_256_GCM 1140457472) as [[Hl _]|[_ He]].
  - reflexivity.
  - split; [apply hash_ok; unfold is_u8; lia|]. split; [apply algorithms_b_wf|apply toy_payload_ok].
  - exact Hw.
  - exact Hc.
  - reflexivity.
  - apply hash_ok. unfold is_u8. lia.
  - apply algorithms_a_wf.
  - rewrite Hs. lia.
  - apply trusts_one.
  - discriminate.
  - vm_compute. reflexivity.
  - exfalso. vm_compute in Hl. discriminate Hl.
  - exact He.
Defined.
