(* ===== verification/Peer.v ===== *)
(** * Keys, algorithms and the crypto of one peer (src/src/crypto/common.rs)

    [Crypto]: the node's keys from its configuration. [PeerCrypto]: the crypto
    of one connection, from the handshake over the session to the rotation of
    its keys, with the first byte that tells init messages from sealed ones. *)

From S2P Require Import Prelude Errors Util Types Base62 Messages Ring Core Rotate Init Handshake.

Import Base62.

Definition SALT : bytes := (fun c => Z.of_nat (nat_of_ascii c)) <$> String.list_ascii_of_string "vpncloudVPNCLOUDvpncl0udVpnCloud".
Definition INIT_MESSAGE_FIRST_BYTE : Z := 255.
Definition MESSAGE_TYPE_ROTATION : Z := 16.
Definition DEFAULT_ALGORITHMS : list string := ["AES128"; "AES256"; "CHACHA20"]%string.
Definition ROTATE_INTERVAL : Z := 120.

(** [crypto::Config] (src/src/crypto/common.rs). *)
Record CryptoConfig : Type := mkCryptoConfig {
  cc_password : option string;
  cc_private_key : option string;
  cc_public_key : option string;
  cc_trusted_keys : list string;
  cc_algorithms : list string
}.

Record CryptoNode `{Ring} : Type := mkCryptoNode {
  cn_node_id : NodeId;
  cn_key_pair : Ed25519KeyPair;
  cn_trusted_keys : list bytes;
  cn_algorithms : Algorithms
}.

(** [to_uppercase]: of the characters outside ASCII only U+017F and U+0131 have
    an upper-case form among the letters of the names compared with. *)
Definition to_upper (c : Ascii.ascii) : Ascii.ascii :=
  let n := nat_of_ascii c in
  if decide (97 <= n <= 122)%nat then ascii_of_nat (n - 32) else c.
Fixpoint to_uppercase (s : list Ascii.ascii) : list Ascii.ascii :=
  match s with
  | a :: ((b :: s') as s1) =>
      if decide (a = ascii_of_nat 197 /\ b = ascii_of_nat 191) then "S"%char :: to_uppercase s'
      else if decide (a = ascii_of_nat 196 /\ b = ascii_of_nat 177) then "I"%char :: to_uppercase s'
      else to_upper a :: to_uppercase s1
  | [a] => [to_upper a]
  | [] => []
  end.

(** UTF-8 of a string. *)
Definition as_bytes (s : string) : bytes :=
  (fun c => Z.of_nat (nat_of_ascii c)) <$> String.list_ascii_of_string s.

Module Crypto.

(** One name: [inl] for the names of plain text. *)
Definition parse_name (name : string) : Result (unit + Algorithm) :=
  let name := String.string_of_list_ascii (to_uppercase (String.list_ascii_of_string name)) in
  if decide (name ∈ ["UNENCRYPTED"; "NONE"; "PLAIN"]%string) then Ok (inl ())
  else if decide (name ∈ ["AES128"; "AES128_GCM"; "AES_128"; "AES_128_GCM"]%string) then Ok (inr AES_128_GCM)
  else if decide (name ∈ ["AES256"; "AES256_GCM"; "AES_256"; "AES_256_GCM"]%string) then Ok (inr AES_256_GCM)
  else if decide (name ∈ ["CHACHA"; "CHACHA20"; "CHACHA20_POLY1305"]%string) then Ok (inr CHACHA20_POLY1305)
  else Err (InvalidConfig "Unknown crypto method").

Fixpoint parse_names (names : list string) (unencrypted : bool) (algos : list Algorithm) : Result (bool * list Algorithm) :=
  match names with
  | [] => Ok (unencrypted, algos)
  | name :: names =>
      algo ← parse_name name;
      match algo with
      | inl _ => parse_names names true algos
      | inr a => parse_names names unencrypted (algos ++ [a])
      end
  end.

Definition parse_algorithms (algos : list string) : Result (bool * list Algorithm) :=
  let allowed := match algos with [] => DEFAULT_ALGORITHMS | _ => algos end in
  parse_names allowed false [].

Section Crypto.
Context `{Ring}.

Definition password_seed (password : string) : bytes := pbkdf2_derive 4096 SALT (as_bytes password).

Definition keypair_from_password {E} (password : string) : outcome E Ed25519KeyPair :=
  unwrap (from_seed_unchecked (password_seed password)).

(** [from_base62(..).map_err(..)]. *)
Definition decode_key (text what : string) : Result bytes := map_err (fun _ => InvalidConfig what) (from_base62 text).

Definition parse_keypair (privkey pubkey : string) : Result Ed25519KeyPair :=
  privkey ← decode_key privkey "Failed to parse private key";
  pubkey ← decode_key pubkey "Failed to parse public key";
  ok_or (from_seed_and_public_key privkey pubkey) (InvalidConfig "Keys rejected by crypto library").

Definition parse_private_key (privkey : string) : Result Ed25519KeyPair :=
  privkey ← decode_key privkey "Failed to parse private key";
  ok_or (from_seed_unchecked privkey) (InvalidConfig "Key rejected by crypto library").

Definition parse_public_key (pubkey : string) : Result bytes :=
  pubkey ← decode_key pubkey "Failed to parse public key";
  if decide (length pubkey <> ED25519_PUBLIC_KEY_LEN) then Err (InvalidConfig "Failed to parse public key")
  else Ok pubkey.

Fixpoint parse_public_keys (l : list string) : Result (list bytes) :=
  match l with
  | [] => Ok []
  | tn :: l => k ← parse_public_key tn; ks ← parse_public_keys l; Ok (k :: ks)
  end.

(** [test_speed] measures; what it measured for each algorithm is an argument. *)
Definition new (test_speed : Algorithm -> Z) (node_id : NodeId) (config : CryptoConfig) : Result CryptoNode :=
  key_pair ← match cc_private_key config with
    | Some priv_key =>
        match cc_public_key config with
        | Some pub_key => parse_keypair priv_key pub_key
        | None => parse_private_key priv_key
        end
    | None =>
        match cc_password config with
        | Some password => keypair_from_password password
        | None => Err (InvalidConfig "Either private_key or password must be set")
        end
    end;
  trusted_keys ← parse_public_keys (cc_trusted_keys config);
  let trusted_keys := match trusted_keys with [] => [ed25519_public_key key_pair] | _ => trusted_keys end in
  '(unencrypted, allowed_algos) ← parse_algorithms (cc_algorithms config);
  Ok (mkCryptoNode _ node_id key_pair trusted_keys
        (mkAlgorithms ((fun algo => (algo, test_speed algo)) <$> allowed_algos) unencrypted)).

Definition generate_keypair {E} (password : option string) : ST Rng E (string * string) :=
  bs ← match password with
       | None => random 32
       | Some password => mret (password_seed password)
       end;
  keypair ← lift (unwrap (from_seed_unchecked bs));
  privkey ← lift (to_base62 bs);
  pubkey ← lift (to_base62 (ed25519_public_key keypair));
  mret (privkey, pubkey).

Definition public_key_from_private_key (privkey : string) : Result string :=
  keypair ← parse_private_key privkey;
  to_base62 (ed25519_public_key keypair).

End Crypto.
End Crypto.

(** ** One peer *)

Inductive MessageResult (P : Type) : Type :=
| Message (type_ : Z)
| Initialized (p : P)
| InitializedWithReply (p : P)
| Reply
| NoResult.          (** [MessageResult::None] *)
Arguments Message {P} _.
Arguments Initialized {P} _.
Arguments InitializedWithReply {P} _.
Arguments Reply {P}.
Arguments NoResult {P}.

Record PeerCrypto `{Ring} (P : Type) : Type := mkPeerCrypto {
  pc_node_id : NodeId;
  pc_init : option (InitState P);
  pc_rotation : option RotationState;
  pc_unencrypted : bool;
  pc_core : option CryptoCore;
  rotate_counter : Z
}.
Arguments mkPeerCrypto {_ P} _ _ _ _ _ _.
Arguments pc_node_id {_ P} _.
Arguments pc_init {_ P} _.
Arguments pc_rotation {_ P} _.
Arguments pc_unencrypted {_ P} _.
Arguments pc_core {_ P} _.
Arguments rotate_counter {_ P} _.

(** [is_init_message(msg)]. *)
Definition is_init_message (msg : bytes) : bool :=
  match msg with
  | b :: _ => bool_decide (b = INIT_MESSAGE_FIRST_BYTE)
  | [] => false
  end.

Module PeerCrypto.
Section PeerCrypto.
Context `{Ring} {P : Type} `{Payload P}.
Implicit Types s : PeerCrypto P.

Definition set_init i s : PeerCrypto P := mkPeerCrypto (pc_node_id s) i (pc_rotation s) (pc_unencrypted s) (pc_core s) (rotate_counter s).
Definition set_rotation r s : PeerCrypto P := mkPeerCrypto (pc_node_id s) (pc_init s) r (pc_unencrypted s) (pc_core s) (rotate_counter s).
Definition set_unencrypted u s : PeerCrypto P := mkPeerCrypto (pc_node_id s) (pc_init s) (pc_rotation s) u (pc_core s) (rotate_counter s).
Definition set_core c s : PeerCrypto P := mkPeerCrypto (pc_node_id s) (pc_init s) (pc_rotation s) (pc_unencrypted s) c (rotate_counter s).
Definition set_rotate_counter n s : PeerCrypto P := mkPeerCrypto (pc_node_id s) (pc_init s) (pc_rotation s) (pc_unencrypted s) (pc_core s) n.

Definition new {E} (node_id : NodeId) (init_payload : P) (key_pair : Ed25519KeyPair) (trusted_keys : list bytes)
    (algorithms : Algorithms) : ST Rng E (PeerCrypto P) :=
  init ← InitState.new node_id init_payload key_pair trusted_keys algorithms;
  mret (mkPeerCrypto node_id (Some init) None false None 0).

(** [Crypto::peer_instance]. *)
Definition peer_instance {E} (c : CryptoNode) (payload : P) : ST Rng E (PeerCrypto P) :=
  new (cn_node_id c) payload (cn_key_pair c) (cn_trusted_keys c) (cn_algorithms c).

Abbreviation PM := (ST (Env (PeerCrypto P)) Error).

Definition get_init : PM (InitState P) :=
  s ← on_self get;
  lift (ok_or (pc_init s) (InvalidCryptoState "Initialization already finished")).
Definition get_core : PM CryptoCore :=
  s ← on_self get;
  lift (ok_or (pc_core s) (InvalidCryptoState "Crypto core not ready yet")).
Definition get_rotation : PM RotationState :=
  s ← on_self get;
  lift (ok_or (pc_rotation s) (InvalidCryptoState "Key rotation not initialized")).

(** Calls on what these return a reference to. *)
Definition in_init {A} (m : ST (Env (InitState P)) Error A) : PM A :=
  init ← get_init;
  on_part (fun _ => init) (fun init s => set_init (Some init) s) m.
Definition in_core {A} (m : ST (Env CryptoCore) Error A) : PM A :=
  core ← get_core;
  on_part (fun _ => core) (fun core s => set_core (Some core) s) m.
Definition in_rotation {A} (m : ST (Env RotationState) Error A) : PM A :=
  rotation ← get_rotation;
  on_part (fun _ => rotation) (fun rotation s => set_rotation (Some rotation) s) m.

Definition initialize : PM unit :=
  init ← get_init;
  if decide (next_stage init <> STAGE_PING) then throw (InvalidCryptoState "Initialization already ongoing")
  else
    in_init InitState.send_ping ;;
    on_out (MsgBuffer.prepend_byte INIT_MESSAGE_FIRST_BYTE).

Definition has_init s : bool := bool_decide (is_Some (pc_init s)).
Definition is_ready s : bool := match pc_core s with Some _ => true | None => false end.

Definition algorithm_name {E} s : outcome E string :=
  match pc_core s with
  | Some core =>
      algo ← CryptoCore.algorithm core;
      Ok (match algo with
          | CHACHA20_POLY1305 => "CHACHA20"
          | AES_128_GCM => "AES128"
          | AES_256_GCM => "AES256"
          end)%string
  | None => Ok "PLAIN"%string
  end.

Definition encrypt_message : PM unit :=
  s ← on_self get;
  if pc_unencrypted s then mret () else in_core CryptoCore.encrypt.

Definition decrypt_message : PM unit :=
  s ← on_self get;
  if pc_unencrypted s then mret () else in_core CryptoCore.decrypt.

(** [if !buffer.is_empty() { buffer.prepend_byte(byte) }]. *)
Definition prepend_unless_empty (byte : Z) : PM unit :=
  empty ← on_out (gets MsgBuffer.is_empty);
  if empty : bool then mret () else on_out (MsgBuffer.prepend_byte byte).

Definition handle_init_message : PM (MessageResult P) :=
  result ← in_init InitState.handle_init;
  prepend_unless_empty INIT_MESSAGE_FIRST_BYTE ;;
  match result with
  | Continue => mret Reply
  | Success peer_payload is_initiator =>
      core ← in_init (on_self InitState.take_core);
      on_self (modify (set_core core)) ;;
      (match core with None => on_self (modify (set_unencrypted true)) | Some _ => mret () end) ;;
      init ← get_init;
      (if decide (next_stage init = CLOSING) then on_self (modify (set_init None)) else mret ()) ;;
      (match core with
       | Some _ =>
           rotation ← RotationState.new (negb is_initiator);
           on_self (modify (set_rotation (Some rotation)))
       | None => mret ()
       end) ;;
      if is_initiator then mret (InitializedWithReply peer_payload)
      else
        s ← on_self get;
        if pc_unencrypted s then mret (Initialized peer_payload)
        else
          empty ← on_out (gets MsgBuffer.is_empty);
          assert (negb empty) ;;
          on_out (MsgBuffer.prepend_byte MESSAGE_TYPE_ROTATION) ;;
          encrypt_message ;;
          mret (InitializedWithReply peer_payload)
  end.

(** A rotated key goes into the core, cut to the length of the algorithm. *)
Definition install_key (rot : RotatedKey) : PM unit :=
  core ← get_core;
  algo ← lift (CryptoCore.algorithm core);
  k ← lift (slice 0 (Z.of_nat (key_len algo)) (rk_key rot));
  key ← lift (unbound_key algo k);
  in_core (CryptoCore.rotate_key key (rk_id rot) (use_for_sending rot)).

Definition handle_rotate_message (data : bytes) : PM unit :=
  s ← on_self get;
  if pc_unencrypted s then mret ()
  else
    rot ← in_rotation (RotationState.handle_message data);
    match rot with
    | Some rot => install_key rot
    | None => mret ()
    end.

Definition handle_message : PM (MessageResult P) :=
  empty ← on_out (gets MsgBuffer.is_empty);
  if empty : bool then throw (InvalidCryptoState "No message in buffer")
  else
    buf ← on_out (fun b => (b, MsgBuffer.buffer b));
    if is_init_message buf : bool then
      on_out MsgBuffer.take_prefix ;;
      handle_init_message
    else
      decrypt_message ;;
      msg_type ← on_out MsgBuffer.take_prefix;
      if decide (msg_type = MESSAGE_TYPE_ROTATION) then
        buf ← on_out (fun b => (b, MsgBuffer.buffer b));
        handle_rotate_message buf ;;
        on_out (modify MsgBuffer.clear) ;;
        mret NoResult
      else mret (Message msg_type).

Definition send_message (type_ : Z) : PM unit :=
  assert (negb (bool_decide (type_ = MESSAGE_TYPE_ROTATION))) ;;
  on_out (MsgBuffer.prepend_byte type_) ;;
  encrypt_message.

(** The rotation part of [every_second]. *)
Definition rotate_every_second : PM (MessageResult P) :=
  s ← on_self get;
  match pc_rotation s with
  | None => mret NoResult
  | Some _ =>
      on_self (modify (set_rotate_counter (rotate_counter s + 1))) ;;
      s ← on_self get;
      if decide (ROTATE_INTERVAL <= rotate_counter s) then
        on_self (modify (set_rotate_counter 0)) ;;
        rot ← in_rotation RotationState.cycle;
        (match rot with Some rot => install_key rot | None => mret () end) ;;
        empty ← on_out (gets MsgBuffer.is_empty);
        if empty : bool then mret NoResult
        else
          on_out (MsgBuffer.prepend_byte MESSAGE_TYPE_ROTATION) ;;
          encrypt_message ;;
          mret Reply
      else mret NoResult
  end.

Definition every_second : PM (MessageResult P) :=
  on_out (modify MsgBuffer.clear) ;;
  s ← on_self get;
  (match pc_core s with
   | Some core => on_self (modify (set_core (Some (CryptoCore.every_second core))))
   | None => mret ()
   end) ;;
  (match pc_init s with Some _ => in_init InitState.every_second | None => mret () end) ;;
  s ← on_self get;
  (if decide (match pc_init s with Some i => next_stage i | None => CLOSING end = CLOSING)
   then on_self (modify (set_init None)) else mret ()) ;;
  empty ← on_out (gets MsgBuffer.is_empty);
  if empty : bool then rotate_every_second
  else
    on_out (MsgBuffer.prepend_byte INIT_MESSAGE_FIRST_BYTE) ;;
    mret Reply.

End PeerCrypto.
End PeerCrypto.

Import PeerCrypto.

(** ** Calls on the parts *)

Section PeerSteps.
Context `{RingLaws} {P : Type} `{PayloadLaws P}.
Implicit Types s : PeerCrypto P.

Lemma in_init_eq {A} (m : ST (Env (InitState P)) Error A) s b r i : pc_init s = Some i ->
  in_init m (mkEnv s b r) = let '(e, res) := m (mkEnv i b r) in (mkEnv (set_init (Some (self e)) s) (out e) (rng e), res).
Proof.
  intros Hi. unfold in_init, get_init, mbind, ST_bind, on_self, zoom, get, lift, on_part. cbn [self out rng]. rewrite Hi. reflexivity.
Qed.

Lemma in_core_eq {A} (m : ST (Env CryptoCore) Error A) s b r c : pc_core s = Some c ->
  in_core m (mkEnv s b r) = let '(e, res) := m (mkEnv c b r) in (mkEnv (set_core (Some (self e)) s) (out e) (rng e), res).
Proof.
  intros Hi. unfold in_core, get_core, mbind, ST_bind, on_self, zoom, get, lift, on_part. cbn [self out rng]. rewrite Hi. reflexivity.
Qed.

Lemma in_rotation_eq {A} (m : ST (Env RotationState) Error A) s b r c : pc_rotation s = Some c ->
  in_rotation m (mkEnv s b r) = let '(e, res) := m (mkEnv c b r) in (mkEnv (set_rotation (Some (self e)) s) (out e) (rng e), res).
Proof.
  intros Hi. unfold in_rotation, get_rotation, mbind, ST_bind, on_self, zoom, get, lift, on_part. cbn [self out rng]. rewrite Hi. reflexivity.
Qed.

Lemma nonempty b x l : MsgBuffer.wf b -> MsgBuffer.contents b = x :: l -> MsgBuffer.is_empty b = false.
Proof. intros Hb Hc. apply not_true_is_false. intros He. apply (is_empty_contents b Hb) in He. congruence. Qed.

Lemma on_out_eq {A} (m : ST MsgBuffer Error A) s b r b' a : m b = (b', Ok a) -> on_out m (mkEnv s b r) = (mkEnv s b' r, Ok a).
Proof. intros Hm. unfold on_out, zoom. cbn [self out rng]. by rewrite Hm. Qed.

(** *** The first byte *)

Lemma handle_init_first s m r l :
  MsgBuffer.wf m -> MsgBuffer.contents m = INIT_MESSAGE_FIRST_BYTE :: l ->
  exists m', handle_message (mkEnv s m r) = handle_init_message (mkEnv s m' r) /\
    MsgBuffer.wf m' /\ MsgBuffer.contents m' = l /\ space_before m' = space_before m.
Proof.
  intros Hm Hc. destruct (take_prefix_spec (E := Error) m _ _ Hm Hc) as (Ht & Hw & Hc').
  destruct (buffer_contents (E := Error) m Hm) as [rest Hb]. exists (MsgBuffer.set_start (buf_start m + 1) m).
  split; [|by split_and!]. unfold handle_message.
  rewrite (bind_ok _ _ _ (mkEnv s m r) false) by (unfold on_out, zoom, gets; cbn [self out rng]; by rewrite (nonempty m _ _ Hm Hc)).
  cbn beta iota. rewrite (bind_ok _ _ _ (mkEnv s m r) (MsgBuffer.contents m ++ rest)).
  2: { unfold on_out, zoom. cbn [self out rng]. by rewrite Hb. }
  rewrite Hc. cbn [app is_init_message]. rewrite bool_decide_eq_true_2 by done. by rewrite (bind_ok _ _ _ _ _ (on_out_eq _ s m r _ _ Ht)).
Qed.

(** A sealed message starts with the number of a key slot. *)
Lemma handle_sealed_first s m r k l s' b x l' r' :
  MsgBuffer.wf m -> MsgBuffer.contents m = k :: l -> k <> INIT_MESSAGE_FIRST_BYTE ->
  decrypt_message (mkEnv s m r) = (mkEnv s' b r', Ok ()) -> MsgBuffer.wf b -> MsgBuffer.contents b = x :: l' ->
  exists b' rest, MsgBuffer.wf b' /\ MsgBuffer.contents b' = l' /\ space_before b' = space_before b /\
    MsgBuffer.buffer (E := Error) b' = Ok (l' ++ rest) /\
    handle_message (mkEnv s m r) =
      (if decide (x = MESSAGE_TYPE_ROTATION)
       then handle_rotate_message (l' ++ rest) ;; on_out (modify MsgBuffer.clear) ;; mret NoResult
       else mret (Message x)) (mkEnv s' b' r').
Proof.
  intros Hm Hc Hk Hd Hb Hcb. destruct (buffer_contents (E := Error) m Hm) as [rest Hbuf].
  destruct (take_prefix_spec (E := Error) b _ _ Hb Hcb) as (Ht & Hw & Hc').
  destruct (buffer_contents (E := Error) (MsgBuffer.set_start (buf_start b + 1) b) Hw) as [rest' Hbuf']. rewrite Hc' in Hbuf'.
  exists (MsgBuffer.set_start (buf_start b + 1) b), rest'. split; [done|]. split; [done|]. split; [done|]. split; [done|].
  unfold handle_message.
  rewrite (bind_ok _ _ _ (mkEnv s m r) false) by (unfold on_out, zoom, gets; cbn [self out rng]; by rewrite (nonempty m _ _ Hm Hc)).
  cbn beta iota. rewrite (bind_ok _ _ _ (mkEnv s m r) (MsgBuffer.contents m ++ rest)).
  2: { unfold on_out, zoom. cbn [self out rng]. by rewrite Hbuf. }
  rewrite Hc. cbn [app is_init_message]. rewrite bool_decide_eq_false_2 by done. rewrite (bind_ok _ _ _ _ _ Hd).
  rewrite (bind_ok _ _ _ _ _ (on_out_eq _ s' b r' _ _ Ht)). case_decide; [|done].
  rewrite (bind_ok _ _ _ (mkEnv s' (MsgBuffer.set_start (buf_start b + 1) b) r') (l' ++ rest')); [done|].
  unfold on_out, zoom. cbn [self out rng]. by rewrite Hbuf'.
Qed.

(** *** Sealing *)

Definition secured s c : Prop := pc_core s = Some c /\ pc_unencrypted s = false.

Lemma seal_open sx sy cx cy b rx :
  secured sx cx -> secured sy cy -> linked cx cy -> nonce_left cx ->
  MsgBuffer.wf b -> EXTRA_LEN <= buf_start b -> buf_end b + TAG_LEN <= BUFFER_SIZE ->
  exists cx' b', encrypt_message (mkEnv sx b rx) = (mkEnv (set_core (Some cx') sx) b' rx, Ok ()) /\ MsgBuffer.wf b' /\
    CryptoCore.encrypt (E := Error) (mkEnv cx b rx) = (mkEnv cx' b' rx, Ok ()) /\
    (exists k l, MsgBuffer.contents b' = k :: l /\ k <> INIT_MESSAGE_FIRST_BYTE) /\
    (zlen (MsgBuffer.contents b') = zlen (MsgBuffer.contents b) + EXTRA_LEN + TAG_LEN /\
    forall m ry, MsgBuffer.wf m -> MsgBuffer.contents m = MsgBuffer.contents b' ->
    exists cy' b'', decrypt_message (mkEnv sy m ry) = (mkEnv (set_core (Some cy') sy) b'' ry, Ok ()) /\
      CryptoCore.decrypt (mkEnv cy m ry) = (mkEnv cy' b'' ry, Ok ()) /\
      MsgBuffer.wf b'' /\ MsgBuffer.contents b'' = MsgBuffer.contents b /\ linked cx' cy' /\ (linked cy cx -> linked cy' cx') /\
      forall n, current_key cx = 0 -> used n cy -> used n cy').
Proof.
  intros [Hcx Hux] [Hcy Huy] Hl Hn Hb Hs He. pose proof Hl as (Hw & _).
  destruct (transfer cx cy b rx Hl Hn Hb Hs He) as (cx' & b' & Henc & Hb' & Hbs & Hbe & Hd).
  assert (exists l, MsgBuffer.contents b' = current_key cx :: l) as [l Hfirst].
  { destruct (encrypt_spec (E := Error) (mkEnv cx b rx) Hw Hb Hs He) as (k & b2 & _ & Hr). cbn [self out rng] in Hr. cbn zeta in Hr.
    destruct Hr as (Hr & _ & Hc & _). rewrite Henc in Hr. apply (f_equal fst) in Hr. cbn [fst] in Hr. apply (f_equal out) in Hr. cbn [out] in Hr. subst b2.
    eexists. exact Hc. }
  exists cx', b'. split.
  { unfold encrypt_message. rewrite (bind_ok _ _ _ (mkEnv sx b rx) sx) by done. rewrite Hux. rewrite (in_core_eq _ _ _ _ _ Hcx). by rewrite Henc. }
  split; [done|]. split; [done|]. split.
  { exists (current_key cx), l. split; [exact Hfirst|]. destruct Hw as (_ & Hcur & _). unfold INIT_MESSAGE_FIRST_BYTE. lia. }
  split; [pose proof (length_contents b Hb); pose proof (length_contents b' Hb'); lia|].
  intros m ry Hm Hmc. destruct (Hd m ry Hm Hmc) as (cy' & b'' & Hdec & Hb'' & Hc'' & _ & Hl1 & Hl2).
  exists cy', b''. split.
  2: { split; [exact Hdec|]. split; [done|]. split; [done|]. split; [done|]. split; [done|]. intros n Hcur Hu.
       pose proof (decrypt_used n cy m ry) as Hd'. rewrite Hdec in Hd'. apply Hd'; [apply Hl|exact Hm| | |exact Hu].
       - pose proof (length_contents m Hm) as Hlm. pose proof (length_contents b Hb). pose proof (length_contents b' Hb'). rewrite Hmc in Hlm.
         unfold zlen, EXTRA_LEN, TAG_LEN in *. pose proof Hb as (_ & _ & _ & ? & _). lia.
       - by rewrite Hmc, Hfirst, Hcur. }
  unfold decrypt_message. rewrite (bind_ok _ _ _ (mkEnv sy m ry) sy) by done. rewrite Huy. rewrite (in_core_eq _ _ _ _ _ Hcy). by rewrite Hdec.
Qed.

(** What one end of a secured connection sends, the other receives: the
    message type and the payload, whatever buffer the sealed message arrives in;
    a sealed message is never taken for an init message, and both directions stay
    usable afterwards. *)
Theorem peer_message_delivered (sx sy : PeerCrypto P) cx cy b rx t :
  secured sx cx -> secured sy cy -> linked cx cy -> linked cy cx -> nonce_left cx ->
  MsgBuffer.wf b -> EXTRA_LEN < buf_start b -> buf_end b + TAG_LEN <= BUFFER_SIZE -> is_u8 t -> t <> MESSAGE_TYPE_ROTATION ->
  exists cx' b', send_message t (mkEnv sx b rx) = (mkEnv (set_core (Some cx') sx) b' rx, Ok ()) /\ MsgBuffer.wf b' /\
    (exists k l, MsgBuffer.contents b' = k :: l /\ k <> INIT_MESSAGE_FIRST_BYTE) /\
    zlen (MsgBuffer.contents b') = zlen (MsgBuffer.contents b) + 1 + EXTRA_LEN + TAG_LEN /\
    forall m ry, MsgBuffer.wf m -> MsgBuffer.contents m = MsgBuffer.contents b' ->
    exists cy' b'', handle_message (mkEnv sy m ry) = (mkEnv (set_core (Some cy') sy) b'' ry, Ok (Message t)) /\
      MsgBuffer.wf b'' /\ MsgBuffer.contents b'' = MsgBuffer.contents b /\ linked cx' cy' /\ linked cy' cx'.
Proof.
  intros Hx Hy Hl Hl2 Hn Hb Hs He Ht Hne. unfold EXTRA_LEN in Hs.
  destruct (prepend_byte_spec (E := Error) b t Hb Ht ltac:(lia)) as (b1 & Hp & Hb1 & Hc1 & Hs1 & He1 & _).
  destruct (seal_open sx sy cx cy b1 rx Hx Hy Hl Hn Hb1) as (cx' & b' & Henc & Hb' & _ & (k & l & Hk & Hki) & Hlen & Hd);
    [unfold EXTRA_LEN; lia|by rewrite He1|].
  exists cx', b'. split.
  { unfold send_message. rewrite bool_decide_eq_false_2 by done. rewrite (bind_ok _ _ _ (mkEnv sx b rx) ()) by done.
    by rewrite (bind_ok _ _ _ _ _ (on_out_eq _ sx b rx _ _ Hp)). }
  split; [done|]. split; [by exists k, l|]. split; [rewrite Hlen, Hc1; unfold zlen; cbn [length]; lia|].
  intros m ry Hm Hmc. destruct (Hd m ry Hm Hmc) as (cy' & b'' & Hdec & _ & Hb'' & Hc'' & Hl3 & Hl4 & _). rewrite Hc1 in Hc''. rewrite Hk in Hmc.
  destruct (handle_sealed_first sy m ry k l _ b'' t _ ry Hm Hmc Hki Hdec Hb'' Hc'') as (b3 & rest & Hb3 & Hc3 & _ & _ & Hh).
  exists cy', b3. rewrite Hh, decide_False by done. split; [done|]. split; [done|]. split; [done|]. split; [done|]. by apply Hl4.
Qed.

(** *** The handshake *)

(** [m] is a receive buffer, with room for the headers, that holds what [b] held
    when it was sent. *)
Definition arrives (m b : MsgBuffer) : Prop :=
  MsgBuffer.wf m /\ MsgBuffer.contents m = MsgBuffer.contents b /\ 16 <= space_before m <= 1000.

(** The buffer of an init message in front of its first byte. *)
Definition framed (b b' : MsgBuffer) : Prop :=
  MsgBuffer.wf b' /\ MsgBuffer.contents b' = INIT_MESSAGE_FIRST_BYTE :: MsgBuffer.contents b /\ zlen (MsgBuffer.contents b) <= 60100.

(** What goes over the network: an init message or a sealed one, not too long. *)
Definition datagram (init : bool) (b : MsgBuffer) : Prop :=
  MsgBuffer.wf b /\ is_init_message (MsgBuffer.contents b) = init /\ zlen (MsgBuffer.contents b) <= 60101.

Lemma framed_datagram b b' : framed b b' -> datagram true b'.
Proof.
  intros (Hw & Hc & Hl). split; [exact Hw|]. rewrite Hc. split; [by apply bool_decide_eq_true_2|]. unfold zlen in *. cbn [length]. lia.
Qed.

Lemma arrives_init s m r b b' : framed b b' -> arrives m b' ->
  exists m', handle_message (mkEnv s m r) = handle_init_message (mkEnv s m' r) /\ carries m' b /\ 16 <= space_before m'.
Proof.
  intros (_ & Hb' & _) (Hm & Hc & Hs). rewrite Hb' in Hc. destruct (handle_init_first s m r _ Hm Hc) as (m' & Hh & Hw & Hc' & Hs').
  exists m'. split; [done|]. split; [|lia]. split; [done|]. split; [done|lia].
Qed.

Lemma frame_reply s b0 b r : sent b0 b -> 0 < buf_start b0 ->
  exists b', prepend_unless_empty (P := P) INIT_MESSAGE_FIRST_BYTE (mkEnv s b r) = (mkEnv s b' r, Ok ()) /\ framed b b' /\
    MsgBuffer.prepend_byte (E := Error) INIT_MESSAGE_FIRST_BYTE b = (b', Ok ()).
Proof.
  intros (Hw & Hst & _ & Hl & Hl2) Hs. destruct (prepend_byte_spec (E := Error) b INIT_MESSAGE_FIRST_BYTE Hw) as (b' & Hp & Hb' & Hc & _);
    [unfold is_u8, INIT_MESSAGE_FIRST_BYTE; lia|lia|].
  exists b'. split; [|by split]. unfold prepend_unless_empty.
  rewrite (bind_ok _ _ _ (mkEnv s b r) false); [by apply on_out_eq|].
  unfold on_out, zoom, gets. cbn [self out rng].
  destruct (MsgBuffer.contents b) as [|x l] eqn:Hcb; [unfold zlen in Hl; cbn in Hl; lia|]. by rewrite (nonempty b x l Hw Hcb).
Qed.

Definition awaiting s i : Prop :=
  pc_init s = Some i /\ pc_core s = None /\ pc_rotation s = None /\ pc_unencrypted s = false.

Lemma peer_initialize s i b r :
  awaiting s i -> next_stage i = STAGE_PING -> side_wf i ->
  MsgBuffer.wf b -> MsgBuffer.is_empty b = true -> 0 < buf_start b <= 1000 ->
  exists e k salt i' b1, initialize (mkEnv s b r) = (e, Ok ()) /\ framed b1 (out e) /\ awaiting (self e) i' /\ length salt = 4%nat /\
    same_side i i' /\ next_stage i' = STAGE_PONG /\ is_ecdh_private_key i' = Some k /\
    MsgBuffer.contents b1 = enc (Ping (is_salted_node_id_hash i) (compute_public_key k) (is_algorithms i)) (is_key_pair i) salt.
Proof.
  intros (Hi & Hc & Hr & Hu) Hst Hw Hb He Hs.
  destruct (send_ping_run i b r Hb He ltac:(lia) Hw) as (e & k & salt & Hp & Hl & Hsent & Hsame & Hst' & Hk & Hct).
  destruct (frame_reply (set_init (Some (self e)) s) b (out e) (rng e) Hsent ltac:(lia)) as (b' & _ & Hf & Hpre).
  exists (mkEnv (set_init (Some (self e)) s) b' (rng e)), k, salt, (self e), (out e). split; [|by split_and!].
  unfold initialize. rewrite (bind_ok _ _ _ (mkEnv s b r) i).
  2: { unfold get_init, mbind, ST_bind, on_self, zoom, get, lift. cbn [self out rng]. by rewrite Hi. }
  rewrite decide_False by (intros Hne; by apply Hne).
  rewrite (bind_ok _ _ _ (mkEnv (set_init (Some (self e)) s) (out e) (rng e)) ()).
  2: { rewrite (in_init_eq _ _ _ _ _ Hi). by rewrite Hp. }
  by apply on_out_eq.
Qed.

(** A handled init message that continues the handshake. *)
Lemma peer_continue s i m r e b0 :
  pc_init s = Some i -> InitState.handle_init (mkEnv i m r) = (e, Ok Continue) -> sent b0 (out e) -> 0 < buf_start b0 ->
  exists b', handle_init_message (mkEnv s m r) = (mkEnv (set_init (Some (self e)) s) b' (rng e), Ok Reply) /\ framed (out e) b'.
Proof.
  intros Hi Hh Hs Hb. destruct (frame_reply (set_init (Some (self e)) s) b0 (out e) (rng e) Hs Hb) as (b' & Hf & Hfr & _).
  exists b'. split; [|done]. unfold handle_init_message.
  rewrite (bind_ok _ _ _ (mkEnv (set_init (Some (self e)) s) (out e) (rng e)) Continue).
  2: { rewrite (in_init_eq _ _ _ _ _ Hi). by rewrite Hh. }
  by rewrite (bind_ok _ _ _ _ _ Hf).
Qed.

(** The initiator's end of it. *)
Lemma peer_success_initiator s i m r e b0 p c :
  awaiting s i -> InitState.handle_init (mkEnv i m r) = (e, Ok (Success p true)) -> sent b0 (out e) -> 0 < buf_start b0 ->
  is_crypto (self e) = Some c -> next_stage (self e) <> CLOSING ->
  exists s' b' r', handle_init_message (mkEnv s m r) = (mkEnv s' b' r', Ok (InitializedWithReply p)) /\ framed (out e) b' /\
    secured s' c /\ pc_rotation s' = Some (mkRotationState _ None None None 0 false).
Proof.
  intros (Hi & Hc & Hr & Hu) Hh Hs Hb Hcr Hst.
  destruct (frame_reply (set_init (Some (self e)) s) b0 (out e) (rng e) Hs Hb) as (b' & Hf & Hfr & _).
  eexists _, b', (rng e). split; [|split; [exact Hfr|]].
  - unfold handle_init_message. rewrite (bind_ok _ _ _ (mkEnv (set_init (Some (self e)) s) (out e) (rng e)) (Success p true)).
    2: { rewrite (in_init_eq _ _ _ _ _ Hi). by rewrite Hh. }
    rewrite (bind_ok _ _ _ _ _ Hf). cbn beta iota.
    rewrite (bind_ok _ _ _ (mkEnv (set_init (Some (InitState.set_crypto None (self e))) s) b' (rng e)) (Some c)).
    2: { rewrite (in_init_eq _ _ _ _ (self e)) by done. unfold on_self, zoom, InitState.take_core. cbn [self out rng]. by rewrite Hcr. }
    set (s1 := set_core (Some c) (set_init (Some (InitState.set_crypto None (self e))) s)).
    rewrite (bind_ok _ _ _ (mkEnv s1 b' (rng e)) ()) by done. rewrite (bind_ok _ _ _ (mkEnv s1 b' (rng e)) ()) by done.
    rewrite (bind_ok _ _ _ (mkEnv s1 b' (rng e)) (InitState.set_crypto None (self e))) by done.
    rewrite (bind_ok _ _ _ (mkEnv s1 b' (rng e)) ()) by (by rewrite decide_False).
    rewrite (bind_ok _ _ _ (mkEnv (set_rotation (Some (mkRotationState _ None None None 0 false)) s1) b' (rng e)) ()) by done.
    reflexivity.
  - by split.
Qed.

(** What seals the first proposal of a rotation: the rotation has just begun, and
    [b'] is its message, sealed. *)
Definition proposal_sealed s (c c' : CryptoCore) (b' : MsgBuffer) : Prop :=
  exists (s0 : PeerCrypto P) b0 r0 e rot b r, RotationState.new (E := Error) true (mkEnv s0 b0 r0) = (e, Ok rot) /\ pc_rotation s = Some rot /\
    MsgBuffer.wf b0 /\ MsgBuffer.is_empty b0 = true /\ buf_start b0 <= 1000 /\
    MsgBuffer.wf b /\ EXTRA_LEN <= buf_start b /\ buf_end b + TAG_LEN <= BUFFER_SIZE /\
    MsgBuffer.contents b = MESSAGE_TYPE_ROTATION :: MsgBuffer.contents (out e) /\
    CryptoCore.encrypt (E := Error) (mkEnv c b r) = (mkEnv c' b' r, Ok ()).

(** The responder's: it also proposes the first rotation. *)
Lemma peer_success_responder s i m r e p c cy sy :
  awaiting s i -> InitState.handle_init (mkEnv i m r) = (mkEnv e (MsgBuffer.clear m) r, Ok (Success p false)) ->
  MsgBuffer.wf m -> 16 <= space_before m <= 1000 ->
  is_crypto e = Some c -> next_stage e = CLOSING -> secured sy cy -> linked c cy -> linked cy c -> nonce_left c ->
  exists s' b' r' c' k, handle_init_message (mkEnv s m r) = (mkEnv s' b' r', Ok (InitializedWithReply p)) /\ secured s' c' /\ pc_init s' = None /\
    MsgBuffer.wf b' /\ (exists k l, MsgBuffer.contents b' = k :: l /\ k <> INIT_MESSAGE_FIRST_BYTE) /\ zlen (MsgBuffer.contents b') <= 1000 /\
    proposal_sealed s' c c' b' /\
    forall m ry, MsgBuffer.wf m -> MsgBuffer.contents m = MsgBuffer.contents b' ->
    exists cy' b'', decrypt_message (mkEnv sy m ry) = (mkEnv (set_core (Some cy') sy) b'' ry, Ok ()) /\ MsgBuffer.wf b'' /\
      MsgBuffer.contents b'' = MESSAGE_TYPE_ROTATION :: RotationMessage.enc (mkRotationMessage 1 (compute_public_key k) None) /\
      linked c' cy' /\ linked cy' c' /\ forall n, current_key c = 0 -> used n cy -> used n cy'.
Proof.
  intros (Hi & Hc & Hr & Hu) Hh Hm Hsp Hcr Hst Hsy Hl1 Hl2 Hleft.
  destruct (clear_empty m Hm) as [Hce Hcs]. pose proof (clear_wf m Hm) as Hcw.
  assert (exists k r1, ecdh_generate r = (k, r1)) as (k & r1 & Hg) by (destruct (ecdh_generate r); eauto).
  assert (RotationMessage.wf (mkRotationMessage 1 (compute_public_key k) None)) as Hmw.
  { apply message_wf32; [unfold is_u64; lia|apply public_key32|done]. }
  destruct (send_into _ (MsgBuffer.clear m) Hmw Hcw Hce) as (b1 & Hsend & Hb1e & Hb1c & Hb1w & Hb1s & Hb1l); [lia|].
  set (rot := mkRotationState _ None None (Some k) 1 false).
  set (s1 := set_core (Some c) (set_init (Some (InitState.set_crypto None e)) s)).
  set (s2 := set_rotation (Some rot) (set_init None s1)).
  destruct (prepend_byte_spec (E := Error) b1 MESSAGE_TYPE_ROTATION Hb1w) as (b2 & Hpre & Hb2w & Hb2c & Hb2s & Hb2e & _);
    [unfold is_u8, MESSAGE_TYPE_ROTATION; lia|lia|].
  pose proof (length_contents b1 Hb1w) as Hlen. rewrite Hb1c in Hlen.
  destruct (seal_open s2 sy c cy b2 r1) as (c' & b3 & Henc & Hb3w & Hcenc & Hfirst & Hb3l & Hd);
    [by split|done|done|done|done|unfold EXTRA_LEN; lia|unfold TAG_LEN, BUFFER_SIZE; lia|].
  exists (set_core (Some c') s2), b3, r1, c', k.
  assert (RotationState.new (E := Error) true (mkEnv (set_init None s1) (MsgBuffer.clear m) r) = (mkEnv (set_init None s1) b1 r1, Ok rot)) as Hnew.
  { unfold RotationState.new. rewrite (bind_ok _ _ _ (mkEnv (set_init None s1) (MsgBuffer.clear m) r1) (k, compute_public_key k)).
    2: { unfold on_rng, zoom, RotationState.create_key. cbn [self out rng]. by rewrite Hg. }
    cbn beta iota. by rewrite (bind_ok _ _ _ _ _ (on_out_eq _ _ _ r1 _ _ Hsend)). }
  split; [|split; [by split|split; [done|split; [done|split; [exact Hfirst|split; [|split]]]]]].
  2: { rewrite Hb3l, Hb2c, Hb1c. unfold zlen, EXTRA_LEN, TAG_LEN in *. cbn [length]. lia. }
  2: { exists (set_init None s1), (MsgBuffer.clear m), r, (mkEnv (set_init None s1) b1 r1), rot, b2, r1. split; [exact Hnew|]. split; [done|].
       split; [done|]. split; [done|]. split; [lia|]. split; [done|]. split; [unfold EXTRA_LEN; lia|]. split; [unfold TAG_LEN, BUFFER_SIZE; lia|].
       split; [exact Hb2c|exact Hcenc]. }
  2: { intros m2 ry Hm2 Hmc2. destruct (Hd m2 ry Hm2 Hmc2) as (cy' & b'' & Hdec & _ & Hw & Hc3 & Hl3 & Hl4 & Hu4).
       exists cy', b''. rewrite Hb2c, Hb1c in Hc3. split; [done|]. split; [done|]. split; [done|]. split; [done|]. split; [by apply Hl4|exact Hu4]. }
  unfold handle_init_message.
  rewrite (bind_ok _ _ _ (mkEnv (set_init (Some e) s) (MsgBuffer.clear m) r) (Success p false)).
  2: { rewrite (in_init_eq _ _ _ _ _ Hi). by rewrite Hh. }
  rewrite (bind_ok _ _ _ (mkEnv (set_init (Some e) s) (MsgBuffer.clear m) r) ()).
  2: { unfold prepend_unless_empty. rewrite (bind_ok _ _ _ (mkEnv (set_init (Some e) s) (MsgBuffer.clear m) r) true); [done|].
       unfold on_out, zoom, gets. cbn [self out rng]. by rewrite Hce. }
  cbn beta iota. rewrite (bind_ok _ _ _ (mkEnv (set_init (Some (InitState.set_crypto None e)) s) (MsgBuffer.clear m) r) (Some c)).
  2: { rewrite (in_init_eq _ _ _ _ e) by done. unfold on_self, zoom, InitState.take_core. cbn [self out rng]. by rewrite Hcr. }
  fold s1. rewrite (bind_ok _ _ _ (mkEnv s1 (MsgBuffer.clear m) r) ()) by done. rewrite (bind_ok _ _ _ (mkEnv s1 (MsgBuffer.clear m) r) ()) by done.
  rewrite (bind_ok _ _ _ (mkEnv s1 (MsgBuffer.clear m) r) (InitState.set_crypto None e)) by done.
  rewrite (bind_ok _ _ _ (mkEnv (set_init None s1) (MsgBuffer.clear m) r) ()) by (by rewrite decide_True).
  rewrite (bind_ok _ _ _ (mkEnv s2 b1 r1) ()).
  2: { by rewrite (bind_ok _ _ _ (mkEnv (set_init None s1) b1 r1) rot). }
  rewrite (bind_ok _ _ _ (mkEnv s2 b1 r1) s2) by done. change (pc_unencrypted s2) with (pc_unencrypted s). rewrite Hu.
  rewrite (bind_ok _ _ _ (mkEnv s2 b1 r1) false) by (unfold on_out, zoom, gets; cbn [self out rng]; by rewrite Hb1e).
  rewrite (bind_ok _ _ _ (mkEnv s2 b1 r1) ()) by done. rewrite (bind_ok _ _ _ _ _ (on_out_eq _ s2 b1 r1 _ _ Hpre)).
  by rewrite (bind_ok _ _ _ _ _ Henc).
Qed.

(** The first proposal of a peer arrives. *)
Lemma first_proposal s b r rot k rest :
  pc_unencrypted s = false -> pc_rotation s = Some rot -> message_id rot = 0 ->
  exists rot' r', handle_rotate_message (RotationMessage.enc (mkRotationMessage 1 (compute_public_key k) None) ++ rest) (mkEnv s b r) =
    (mkEnv (set_rotation (Some rot') s) b r', Ok ()).
Proof.
  intros Hu Hr Hid. assert (exists y r1, ecdh_generate r = (y, r1)) as (y & r1 & Hg) by (destruct (ecdh_generate r); eauto).
  destruct (agree_sym y k) as (shared & Hag & _).
  assert (RotationMessage.wf (mkRotationMessage 1 (compute_public_key k) None)) as Hmw.
  { apply message_wf32; [unfold is_u64; lia|apply public_key32|done]. }
  exists (RotationState.set_pending (Some (shared, compute_public_key y)) (RotationState.set_timeout false rot)), r1. unfold handle_rotate_message.
  rewrite (bind_ok _ _ _ (mkEnv s b r) s) by done. rewrite Hu.
  rewrite (bind_ok _ _ _ (mkEnv (set_rotation (Some (RotationState.set_pending (Some (shared, compute_public_key y)) (RotationState.set_timeout false rot))) s) b r1) None); [done|].
  rewrite (in_rotation_eq _ _ _ _ _ Hr).
  enough (RotationState.handle_message (RotationMessage.enc (mkRotationMessage 1 (compute_public_key k) None) ++ rest) (mkEnv rot b r) =
    (mkEnv (RotationState.set_pending (Some (shared, compute_public_key y)) (RotationState.set_timeout false rot)) b r1, Ok None)) as -> by done.
  unfold RotationState.handle_message. rewrite (read_rotation _ _ Hmw).
  unfold RotationState.process_message, mbind, ST_bind, lift, on_self, on_rng, zoom, gets, modify, RotationState.create_key.
  cbn [ok_or self out rng rm_message_id propose confirm]. rewrite Hid. rewrite decide_False by lia. cbn [self out rng]. rewrite Hg.
  cbn [self out rng]. unfold RotationState.derive_key. by rewrite Hag.
Qed.

(** Where the two stand after the third message, with the fourth under way. *)
Definition just_connected (x y : PeerCrypto P) (b' : MsgBuffer) : Prop :=
  exists cx cy cy', secured x cx /\ secured y cy' /\ linked cx cy /\ linked cy cx /\ used 1 cx /\ used 1 cy /\
    pc_rotation x = Some (mkRotationState _ None None None 0 false) /\ pc_init y = None /\ proposal_sealed y cy cy' b'.

(** What is left of the handshake when [y], in answer to the peng, is about to be
    done: whatever buffers the messages arrive in, both succeed, and the proposal of
    [y] is taken. *)
Definition after_peng (x y : PeerCrypto P) (peng : MsgBuffer) (px : P) : Prop :=
  forall m3 r3, arrives m3 peng -> exists ey2, handle_message (mkEnv y m3 r3) = (ey2, Ok (InitializedWithReply (payload_keep px))) /\
    datagram false (out ey2) /\ just_connected x (self ey2) (out ey2) /\
  forall m4 r4, arrives m4 (out ey2) -> exists ex3 cx cy, handle_message (mkEnv x m4 r4) = (ex3, Ok NoResult) /\
    secured (self ex3) cx /\ secured (self ey2) cy /\ linked cx cy /\ linked cy cx /\ used 1 cx /\ used 2 cy.

(** And when the pong is under way to [x]. *)
Definition after_pong (x y : PeerCrypto P) (pong : MsgBuffer) (px py : P) : Prop :=
  forall m2 r2, arrives m2 pong -> exists ex2, handle_message (mkEnv x m2 r2) = (ex2, Ok (InitializedWithReply (payload_keep py))) /\
    datagram true (out ex2) /\ after_peng (self ex2) y (out ex2) px.

Lemma connect_run x y i j alg b0 rx :
  awaiting x i -> awaiting y j -> compatible i j alg -> next_stage i = STAGE_PING -> next_stage j = STAGE_PING ->
  MsgBuffer.wf b0 -> MsgBuffer.is_empty b0 = true -> 0 < buf_start b0 <= 1000 ->
  exists ex, initialize (mkEnv x b0 rx) = (ex, Ok ()) /\ datagram true (out ex) /\
  forall m1 r1, arrives m1 (out ex) -> exists ey, handle_message (mkEnv y m1 r1) = (ey, Ok Reply) /\ datagram true (out ey) /\
    after_pong (self ex) (self ey) (out ey) (is_payload i) (is_payload j).
Proof.
  intros Hx Hy Hcp Hsi Hsj Hb He Hs. pose proof Hcp as [Hci _ _ _ _ _ _].
  destruct (peer_initialize x i b0 rx Hx Hsi Hci Hb He Hs) as (ex & k & salt & i1 & b1 & Hini & Hf1 & Hx1 & Hl & Hsame & Hst1 & Hk & Hc1).
  exists ex. split; [done|]. split; [by eapply framed_datagram|]. intros m1 r1 Hm1. destruct (arrives_init y m1 r1 _ _ Hf1 Hm1) as (m1' & -> & Hcar & Hsp).
  destruct Hcar as (Hw1 & Hmc & Hsp1). rewrite Hc1 in Hmc.
  destruct (deliver_ping i j alg k m1' salt r1 Hcp Hsj Hl Hw1 Hsp1 Hmc) as (ej & Hh & Hsent & Hpo).
  pose proof (proj1 Hy) as Hyi. destruct (peer_continue y j m1' r1 ej _ Hyi Hh Hsent) as (b2 & -> & Hf2).
  { rewrite (proj2 (clear_empty m1' Hw1)). lia. }
  eexists. split; [reflexivity|]. cbn [out self]. split; [by eapply framed_datagram|]. intros m2 r2 Hm2.
  destruct (arrives_init (self ex) m2 r2 _ _ Hf2 Hm2) as (m2' & -> & Hcar2 & Hsp2).
  destruct (deliver_pong i i1 j alg k ej m2' r2 Hcp Hsame Hst1 Hk Hpo Hcar2) as (ei2 & cj & Hcj & Huj & Hh2 & Hsent2 & Hpe).
  pose proof Hpe as (ci0 & pp & ci & pb & pr & ps & _ & Hsti & _ & Hci2 & _).
  destruct (peer_success_initiator (self ex) i1 m2' r2 ei2 _ _ ci Hx1 Hh2 Hsent2) as (x2 & b3 & r2' & -> & Hf3 & Hsx & Hrot).
  { rewrite (proj2 (clear_empty m2' (proj1 Hcar2))). lia. } { done. } { by rewrite Hsti. }
  eexists. split; [reflexivity|]. cbn [out self]. split; [by eapply framed_datagram|]. intros m3 r3 Hm3.
  destruct (arrives_init (set_init (Some (self ej)) y) m3 r3 _ _ Hf3 Hm3) as (m3' & -> & Hcar3 & Hsp3).
  destruct Hpo as (? & ? & ? & ? & ? & ? & ? & ? & ? & Hsamej & Hstj & _).
  destruct (deliver_peng i j (self ej) alg cj ei2 m3' r3 Hcp Hsamej Hstj Hcj Huj Hpe Hcar3)
    as (sj & ci' & cj' & Hh3 & Hstj2 & _ & Hci3 & Hcj3 & Hl1 & Hl2 & Hu1 & Hu2).
  rewrite Hci2 in Hci3. injection Hci3 as <-.
  destruct (peer_success_responder (set_init (Some (self ej)) y) (self ej) m3' r3 sj (payload_keep (is_payload i)) cj' ci x2) as
    (y2 & b4 & r3' & cj4 & ky & -> & Hsy & Hyn & Hb4w & (kk & l & Hkl & Hne) & Hb4l & Hpsd & Hd); try done.
  { destruct Hy as (_ & Hy). by split. } { apply Hcar3. } { split; [lia|apply Hcar3]. } { by apply (used_left 1). }
  eexists. split; [reflexivity|]. cbn [out self].
  split; [split; [exact Hb4w|]; split; [rewrite Hkl; by apply bool_decide_eq_false_2|lia]|]. split; [by exists ci, cj', cj4|]. intros m4 r4 (Hm4 & Hmc4 & Hsp4).
  destruct (Hd m4 r4 Hm4 Hmc4) as (ci5 & b5 & Hdec & Hb5 & Hc5 & Hl3 & Hl4 & Hu5). rewrite Hkl in Hmc4.
  destruct (handle_sealed_first x2 m4 r4 kk l _ b5 _ _ r4 Hm4 Hmc4 Hne Hdec Hb5 Hc5) as (b6 & rest & _ & _ & _ & _ & ->).
  rewrite decide_True by done.
  destruct (first_proposal (set_core (Some ci5) x2) b6 r4 (mkRotationState _ None None None 0 false) ky rest) as (rot' & r5 & Hrm); [apply Hsx|done|done|].
  rewrite (bind_ok _ _ _ _ _ Hrm). eexists _, ci5, cj4. split; [reflexivity|]. split; [split; [done|apply Hsx]|].
  split; [exact Hsy|]. split; [exact Hl4|]. split; [exact Hl3|]. split; [apply Hu5; [apply Hu2|exact Hu1]|].
  destruct Hpsd as (? & ? & ? & ? & ? & pb4 & pr4 & _ & _ & _ & _ & _ & Hw4 & Hs4 & He4 & _ & Henc4).
  refine (encrypt_used 1 cj' pb4 pr4 _ _ Hw4 Hs4 He4 _ Hu2 Henc4); [apply Hl1|lia].
Qed.

(** The close message of an unencrypted connection cannot arrive: its first
    byte is the one of init messages, so the receiver, long past its handshake,
    answers with an error and keeps the connection. *)
Theorem unencrypted_close_lost (sx sy : PeerCrypto P) b rx ry m :
  pc_unencrypted sx = true -> pc_init sy = None ->
  MsgBuffer.wf b -> 0 < buf_start b -> MsgBuffer.wf m ->
  exists b', send_message MESSAGE_TYPE_CLOSE (mkEnv sx b rx) = (mkEnv sx b' rx, Ok ()) /\
    (MsgBuffer.contents m = MsgBuffer.contents b' ->
     (handle_message (mkEnv sy m ry)).2 = Err (InvalidCryptoState "Initialization already finished")).
Proof.
  intros Hx Hy Hb Hs Hm.
  destruct (prepend_byte_spec (E := Error) b MESSAGE_TYPE_CLOSE Hb) as (b1 & Hp & Hb1 & Hc1 & _); [unfold is_u8, MESSAGE_TYPE_CLOSE; lia|done|].
  exists b1. split.
  - unfold send_message. rewrite (bind_ok _ _ _ (mkEnv sx b rx) ()) by done. rewrite (bind_ok _ _ _ _ _ (on_out_eq _ sx b rx _ _ Hp)).
    unfold encrypt_message. rewrite (bind_ok _ _ _ (mkEnv sx b1 rx) sx) by done. by rewrite Hx.
  - intros Hmc. rewrite Hc1 in Hmc. destruct (handle_init_first sy m ry _ Hm Hmc) as (m' & -> & _).
    unfold handle_init_message, in_init, get_init, mbind, ST_bind, on_self, zoom, get, lift. cbn [self out rng]. by rewrite Hy.
Qed.
End PeerSteps.

(** ** Keys *)

Section Keys.
Context `{RingLaws}.
Import Crypto.

Lemma seed_accepted s : length s = 32%nat -> exists k, from_seed_unchecked s = Some k.
Proof.
  intros Hs. destruct (from_seed_unchecked s) as [k|] eqn:Hk; [by exists k|]. apply from_seed_len in Hk. done.
Qed.

(** C28: nodes that are given the same password, and no keys, have the same key
    pair and trust each other: any two of them can go through the handshake. *)
Theorem same_password_trusts speed1 speed2 id1 id2 config1 config2 pw n1 n2 :
  cc_private_key config1 = None -> cc_private_key config2 = None ->
  cc_password config1 = Some pw -> cc_password config2 = Some pw ->
  cc_trusted_keys config1 = [] -> cc_trusted_keys config2 = [] ->
  Crypto.new speed1 id1 config1 = Ok n1 -> Crypto.new speed2 id2 config2 = Ok n2 ->
  cn_key_pair n1 = cn_key_pair n2 /\
  trusts (cn_trusted_keys n1) (ed25519_public_key (cn_key_pair n2)) /\
  trusts (cn_trusted_keys n2) (ed25519_public_key (cn_key_pair n1)).
Proof.
  intros P1 P2 W1 W2 T1 T2. unfold Crypto.new. rewrite P1, P2, W1, W2, T1, T2.
  unfold keypair_from_password. destruct (seed_accepted (password_seed pw)) as [k ->]; [apply pbkdf2_len|].
  cbn [unwrap mbind outcome_bind parse_public_keys].
  destruct (parse_algorithms (cc_algorithms config1)) as [[u1 a1]|e|]; [|done..].
  destruct (parse_algorithms (cc_algorithms config2)) as [[u2 a2]|e|]; [|done..].
  cbn [mbind outcome_bind]. intros [= <-] [= <-]. cbn [cn_key_pair cn_trusted_keys].
  split; [done|]. split; apply trusts_one.
Qed.

(** C29: a generated key pair can be put into the configuration exactly when the
    private key does not start with a zero byte: its text then yields the key
    pair again, and the public text the public key; otherwise the text is one
    byte short and the configuration is refused. *)
Theorem generated_key_usable password r r' priv pub :
  generate_keypair (E := Error) password r = (r', Ok (priv, pub)) ->
  exists seed k, length seed = 32%nat /\ from_seed_unchecked seed = Some k /\
    (match seed with
     | 0 :: _ => parse_private_key priv = Err (InvalidConfig "Key rejected by crypto library")
     | _ => parse_private_key priv = Ok k /\ public_key_from_private_key priv = Ok pub
     end) /\
    (hd 0 (ed25519_public_key k) <> 0 -> parse_public_key pub = Ok (ed25519_public_key k)).
Proof.
  unfold generate_keypair. intros Hg.
  assert (exists seed r1, (match password with None => random 32 | Some password => mret (password_seed password) end : ST Rng Error bytes) r = (r1, Ok seed) /\
    length seed = 32%nat /\ bytes_ok seed) as (seed & r1 & Hs & Hl & Ho).
  { destruct password as [pw|].
    - exists (password_seed pw), r. split; [done|]. split; [apply pbkdf2_len|apply pbkdf2_ok].
    - pose proof (fill_len 32 r). pose proof (fill_ok 32 r). exists (fill 32 r).1, (fill 32 r).2.
      split; [|done]. unfold random. by destruct (fill 32 r). }
  rewrite (bind_ok _ _ _ _ _ Hs) in Hg. destruct (seed_accepted seed Hl) as [k Hk]. unfold lift in Hg. rewrite Hk in Hg.
  destruct (base62_decode (E := Error) seed Ho) as (p & Hp & Hpd).
  destruct (base62_decode (E := Error) (ed25519_public_key k) (ed25519_public_ok k)) as (q & Hq & Hqd).
  unfold mbind, ST_bind in Hg. cbn [unwrap] in Hg. rewrite Hp, Hq in Hg. injection Hg as -> -> ->.
  exists seed, k. split; [done|]. split; [done|].
  unfold parse_private_key, public_key_from_private_key, parse_private_key, parse_public_key, decode_key. rewrite Hpd, Hqd. cbn [map_err mbind outcome_bind].
  split.
  - destruct seed as [|b seed]; [done|]. cbn [strip_zeros]. destruct (decide (b = 0)) as [->|Hb].
    + assert (from_seed_unchecked (strip_zeros seed) = None) as ->; [|done].
      apply from_seed_len. pose proof (strip_zeros_len seed). cbn [length] in Hl. lia.
    + rewrite Hk. cbn [ok_or mbind outcome_bind]. destruct b; [done|by rewrite Hq..].
  - intros Hb. assert (strip_zeros (ed25519_public_key k) = ed25519_public_key k) as ->.
    { destruct (ed25519_public_key k) as [|b l]; [done|]. cbn [hd strip_zeros] in *. by rewrite decide_False. }
    rewrite decide_False; [done|]. rewrite ed25519_public_len. unfold ED25519_PUBLIC_KEY_LEN. lia.
Qed.
End Keys.

(** ** Examples *)

Definition toy_waiting_peer (n trusted : Z) (algos : Algorithms) : PeerCrypto NodeInfo :=
  mkPeerCrypto (toy_id n) (Some (toy_init n trusted algos)) None false None 0.

Lemma toy_awaiting n trusted algos : awaiting (toy_waiting_peer n trusted algos) (toy_init n trusted algos).
Proof. by split_and!. Qed.

Lemma toy_init_side n trusted algos : algorithms_wf algos -> side_wf (toy_init n trusted algos).
Proof.
  intros Ha. destruct (init_new_side _ _ _ _ _ _ _ _ (toy_side_init n trusted algos) Ha toy_payload_ok) as [Hs _]. exact Hs.
Qed.

Lemma toy_compatible : compatible (toy_init 1 2 algorithms_a) (toy_init 2 1 algorithms_b) AES_256_GCM.
Proof.
  split.
  - apply toy_init_side, algorithms_a_wf.
  - apply toy_init_side, algorithms_b_wf.
  - vm_compute. discriminate.
  - apply trusts_one.
  - apply trusts_one.
  - exists 1140457472. vm_compute. reflexivity.
  - exists 1140457472. vm_compute. reflexivity.
Qed.

Definition toy_ready_peer (c : CryptoCore) : PeerCrypto NodeInfo := mkPeerCrypto (toy_id 1) None None false (Some c) 0.
Definition toy_plain_peer : PeerCrypto NodeInfo := mkPeerCrypto (toy_id 1) None None true None 0.

Lemma toy_linked half : linked (toy_core half) (toy_core (negb half)).
Proof.
  destruct half.
  - eapply (linked_new toy_key true (toy_rng 3) (toy_rng 3)); vm_compute; reflexivity.
  - eapply (linked_new toy_key false (toy_rng 3) (toy_rng 3)); vm_compute; reflexivity.
Qed.

Lemma peer_message_delivered_witness :
  exists cx' b', send_message MESSAGE_TYPE_DATA (mkEnv (toy_ready_peer (toy_core true)) toy_message (toy_rng 4)) =
      (mkEnv (set_core (Some cx') (toy_ready_peer (toy_core true))) b' (toy_rng 4), Ok ()).
Proof.
  destruct (peer_message_delivered (toy_ready_peer (toy_core true)) (toy_ready_peer (toy_core false)) (toy_core true) (toy_core false)
    toy_message (toy_rng 4) MESSAGE_TYPE_DATA) as (cx' & b' & Hs & _).
  - by split.
  - by split.
  - exact (toy_linked true).
  - exact (toy_linked false).
  - eapply (new_nonce_left toy_key true (toy_rng 3)). vm_compute. reflexivity.
  - apply toy_message_wf.
  - vm_compute. reflexivity.
  - vm_compute. discriminate.
  - vm_compute. split; [discriminate|reflexivity].
  - discriminate.
  - exists cx', b'. exact Hs.
Defined.

Lemma unencrypted_close_lost_witness :
  exists b', send_message MESSAGE_TYPE_CLOSE (mkEnv toy_plain_peer toy_message (toy_rng 4)) = (mkEnv toy_plain_peer b' (toy_rng 4), Ok ()) /\
    (MsgBuffer.contents toy_message = MsgBuffer.contents b' ->
     (handle_message (mkEnv toy_plain_peer toy_message (toy_rng 5))).2 = Err (InvalidCryptoState "Initialization already finished")).
Proof.
  apply unencrypted_close_lost.
  - reflexivity.
  - reflexivity.
  - apply toy_message_wf.
  - vm_compute. reflexivity.
  - apply toy_message_wf.
Defined.

Definition toy_config : CryptoConfig := mkCryptoConfig (Some "test"%string) None None [] [].

Definition toy_seed : bytes := Crypto.password_seed "test"%string.
Definition toy_node (id : NodeId) (speed : Algorithm -> Z) : CryptoNode :=
  mkCryptoNode _ id (toy_seed : @Ed25519KeyPair toy_ring) [ed25519_public_key (toy_seed : @Ed25519KeyPair toy_ring)]
    (mkAlgorithms [(AES_128_GCM, speed AES_128_GCM); (AES_256_GCM, speed AES_256_GCM); (CHACHA20_POLY1305, speed CHACHA20_POLY1305)] false).

Lemma toy_node_new id speed : Crypto.new speed id toy_config = Ok (toy_node id speed).
Proof.
  unfold Crypto.new. cbn [toy_config cc_private_key cc_password cc_trusted_keys cc_algorithms].
  assert (Crypto.keypair_from_password (E := Error) "test"%string = Ok (toy_seed : @Ed25519KeyPair toy_ring)) as ->.
  { unfold Crypto.keypair_from_password. fold toy_seed. cbn [from_seed_unchecked toy_ring]. by rewrite decide_True. }
  assert (Crypto.parse_algorithms [] = Ok (false, [AES_128_GCM; AES_256_GCM; CHACHA20_POLY1305])) as -> by (vm_compute; reflexivity).
  reflexivity.
Qed.

Lemma same_password_trusts_witness :
  cn_key_pair (toy_node (toy_id 1) (fun _ => 1142292480)) = cn_key_pair (toy_node (toy_id 2) (fun _ => 1137180672)) /\
  trusts (cn_trusted_keys (toy_node (toy_id 1) (fun _ => 1142292480))) (ed25519_public_key (cn_key_pair (toy_node (toy_id 2) (fun _ => 1137180672)))) /\
  trusts (cn_trusted_keys (toy_node (toy_id 2) (fun _ => 1137180672))) (ed25519_public_key (cn_key_pair (toy_node (toy_id 1) (fun _ => 1142292480)))).
Proof.
  exact (same_password_trusts (fun _ => 1142292480) (fun _ => 1137180672) (toy_id 1) (toy_id 2) toy_config toy_config "test"%string _ _
    eq_refl eq_refl eq_refl eq_refl eq_refl eq_refl (toy_node_new _ _) (toy_node_new _ _)).
Defined.

(** A seed that does not start with a zero. *)
Definition toy_generated : Rng * outcome Error (string * string) := Crypto.generate_keypair None (toy_rng 7).
Definition toy_texts : string * string := match toy_generated.2 with Ok p => p | _ => (EmptyString, EmptyString) end.

Lemma toy_generated_eq : Crypto.generate_keypair (E := Error) None (toy_rng 7) = (toy_generated.1, Ok (toy_texts.1, toy_texts.2)).
Proof. vm_compute. reflexivity. Qed.

Lemma generated_key_usable_witness :
  exists seed k, length seed = 32%nat /\ from_seed_unchecked seed = Some k /\
    (match seed with
     | 0 :: _ => Crypto.parse_private_key toy_texts.1 = Err (InvalidConfig "Key rejected by crypto library")
     | _ => Crypto.parse_private_key toy_texts.1 = Ok k /\ Crypto.public_key_from_private_key toy_texts.1 = Ok toy_texts.2
     end) /\
    (hd 0 (ed25519_public_key k) <> 0 -> Crypto.parse_public_key toy_texts.2 = Ok (ed25519_public_key k)).
Proof. exact (generated_key_usable None (toy_rng 7) toy_generated.1 toy_texts.1 toy_texts.2 toy_generated_eq). Defined.
