(* ===== verification/Beacon.v ===== *)
(** * Beacons (src/src/beacon.rs)

    Peer addresses as a text that can be hidden in any other text: masked with
    a key stream, in base 62, between two markers derived from the shared key. *)

From S2P Require Import Prelude Errors Util Types Base62 Ring.

Import Base62.

Definition TYPE_BEGIN : Z := 0.
Definition TYPE_END : Z := 1.
Definition TYPE_DATA : Z := 2.
Definition TYPE_SEED : Z := 3.

(** [char::is_ascii_alphanumeric], on the bytes of the text: no byte of a
    character outside ASCII passes. *)
Definition is_ascii_alphanumeric (c : ascii) : bool :=
  let n := nat_of_ascii c in
  bool_decide ((48 <= n <= 57) \/ (65 <= n <= 90) \/ (97 <= n <= 122))%nat.

Definition base_62_sanitize (data : string) : list ascii :=
  List.filter is_ascii_alphanumeric (String.list_ascii_of_string data).

(** [FutureResult]: the result of a command and whether it is there. *)
Record FutureResult : Type := mkFutureResult { has_result : bool; fr_result : list SocketAddr }.

Record BeaconSerializer : Type := mkBeaconSerializer { shared_key : bytes; future_peers : FutureResult }.

(** [str::find]: the first position of [pat] in [s]. *)
Fixpoint starts_with (pat s : list ascii) : bool :=
  match pat, s with
  | [], _ => true
  | p :: pat, c :: s => bool_decide (p = c) && starts_with pat s
  | _ :: _, [] => false
  end.
Fixpoint find (pat s : list ascii) : option nat :=
  if starts_with pat s then Some 0%nat
  else match s with [] => None | _ :: s => S <$> find pat s end.

(** [&s[a..b]]. *)
Definition slice_str {E} (a b : nat) (s : list ascii) : outcome E (list ascii) :=
  if decide (a <= b <= length s)%nat then Ok (take (b - a) (drop a s)) else Panic.

Module BeaconSerializer.
Section Beacon.
Context `{Ring}.
Implicit Types st : BeaconSerializer.

Definition new (shared_key : bytes) : BeaconSerializer := mkBeaconSerializer shared_key (mkFutureResult false []).

(** [(TS::now() / 3600) & 0xffff], the clock given. *)
Definition now_hour_16 (now : Z) : Z := Z.land (Z.quot now 3600) 65535.

Definition get_keystream st (type_ seed iter : Z) : bytes := sha512 ([type_; seed; iter] ++ shared_key st).

(** The loop of [mask_with_keystream] from one byte on. *)
Fixpoint mask_loop {E} st (type_ seed : Z) (data mask : bytes) (pos iter : Z) : outcome E bytes :=
  match data with
  | [] => Ok []
  | d :: data =>
      m ← index mask pos;
      let pos := pos + 1 in
      rest ← (if decide (pos = 16)
              then let iter := wrap8 (iter + 1) in mask_loop st type_ seed data (get_keystream st type_ seed iter) 0 iter
              else mask_loop st type_ seed data mask pos iter);
      Ok (Z.lxor d m :: rest)
  end.

Definition mask_with_keystream {E} st (data : bytes) (type_ seed : Z) : outcome E bytes :=
  mask_loop st type_ seed data (get_keystream st type_ seed 0) 0 0.

(** The first five characters of a key stream's text. *)
Definition marker {E} st (type_ : Z) : outcome E (list ascii) :=
  s ← to_base62 (get_keystream st type_ 0 0);
  slice_str 0 5 (String.list_ascii_of_string s).
Definition begin {E} st : outcome E (list ascii) := marker st TYPE_BEGIN.
Definition end_ {E} st : outcome E (list ascii) := marker st TYPE_END.

Definition encrypt_data {E} st (data : bytes) : outcome E bytes :=
  seed ← index (sha512 data) 0;
  data ← mask_with_keystream st data TYPE_DATA seed;
  k ← index (get_keystream st TYPE_SEED 0 0) 0;
  Ok (data ++ [Z.lxor seed k]).

(** The data afterwards and whether the seed fits. *)
Definition decrypt_data {E} st (data : bytes) : outcome E (bytes * bool) :=
  match last data with
  | None => Ok (data, false)
  | Some b =>
      k ← index (get_keystream st TYPE_SEED 0 0) 0;
      let seed := Z.lxor b k in
      data ← mask_with_keystream st (take (length data - 1) data) TYPE_DATA seed;
      s ← index (sha512 data) 0;
      Ok (data, bool_decide (seed = s))
  end.

(** The octets of an address and the port, through [Encoder::write_u16]. *)
Definition encode_v4 {E} (a : bytes * Z) : outcome E bytes :=
  port ← Encoder.write_u16 a.2 (replicate 2 0);
  Ok (a.1 ++ port).
Fixpoint encode_segments {E} (ip : bytes) : outcome E bytes :=
  match ip with
  | hi :: lo :: ip =>
      s ← Encoder.write_u16 (hi * 256 + lo) (replicate 2 0);
      rest ← encode_segments ip;
      Ok (s ++ rest)
  | _ => Ok []
  end.
Definition encode_v6 {E} (a : bytes * Z) : outcome E bytes :=
  ip ← encode_segments a.1;
  port ← Encoder.write_u16 a.2 (replicate 2 0);
  Ok (ip ++ port).

Fixpoint encode_each {E A} (f : A -> outcome E bytes) (l : list A) : outcome E bytes :=
  match l with
  | [] => Ok []
  | a :: l => x ← f a; rest ← encode_each f l; Ok (x ++ rest)
  end.

Definition v4addrs (peers : list SocketAddr) : list (bytes * Z) :=
  omap (fun p => match p with V4 ip port => Some (ip, port) | V6 _ _ _ _ => None end) peers.
Definition v6addrs (peers : list SocketAddr) : list (bytes * Z) :=
  omap (fun p => match p with V6 ip port _ _ => Some (ip, port) | V4 _ _ => None end) peers.

(** The bytes before they are masked. *)
Definition peerlist_bytes {E} (now : Z) (peers : list SocketAddr) : outcome E bytes :=
  v4 ← encode_each encode_v4 (v4addrs peers);
  v6 ← encode_each encode_v6 (v6addrs peers);
  Ok (be_bytes 2 (now_hour_16 now) ++ [wrap8 (zlen (v4addrs peers))] ++ v4 ++ v6).

Definition peerlist_encode {E} st (now : Z) (peers : list SocketAddr) : outcome E string :=
  data ← peerlist_bytes now peers;
  data ← encrypt_data st data;
  to_base62 data.

(** One address of each kind, at [pos]. *)
Definition decode_v4 {E} (data : bytes) (pos : Z) : outcome E SocketAddr :=
  if decide (pos + 6 <= zlen data) then
    dat ← slice pos (pos + 6) data;
    port ← (d ← slice 4 6 dat; Encoder.read_u16 d);
    Ok (V4 (take 4 dat) port)
  else Panic.

Fixpoint read_segments {E} (n : nat) (i : Z) (dat : bytes) : outcome E bytes :=
  match n with
  | O => Ok []
  | S n =>
      s ← (d ← slice (i * 2) (i * 2 + 2) dat; Encoder.read_u16 d);
      rest ← read_segments n (i + 1) dat;
      Ok (be_bytes 2 s ++ rest)
  end.

Definition decode_v6 {E} (data : bytes) (pos : Z) : outcome E SocketAddr :=
  if decide (pos + 18 <= zlen data) then
    dat ← slice pos (pos + 18) data;
    ip ← read_segments 8 0 dat;
    port ← (d ← slice 16 18 dat; Encoder.read_u16 d);
    Ok (V6 ip port 0 0)
  else Panic.

(** [count] addresses of [size] bytes each. *)
Fixpoint decode_each {E} (f : bytes -> Z -> outcome E SocketAddr) (size : Z) (count : nat) (data : bytes) (pos : Z)
    : outcome E (list SocketAddr * Z) :=
  match count with
  | O => Ok ([], pos)
  | S count =>
      a ← f data pos;
      '(l, pos) ← decode_each f size count data (pos + size);
      Ok (a :: l, pos)
  end.

(** Older than [ttl] hours, in either direction, with 16-bit wrap-around. *)
Definition expired (now then_ ttl : Z) : bool :=
  bool_decide (ttl < wrap16 (now - then_)) && bool_decide (ttl < wrap16 (then_ - now)).

(** The part of [peerlist_decode] after the decryption. *)
Definition peerlist_parse {E} (now : Z) (data : bytes) (ttl_hours : option Z) : outcome E (list SocketAddr) :=
  then_ ← (d ← slice 0 2 data; Encoder.read_u16 d);
  if match ttl_hours with Some ttl => expired (now_hour_16 now) then_ ttl | None => false end then Ok []
  else
    v4count ← index data 2;
    let left := zlen data - 3 in
    if bool_decide (left < v4count * 6) || bool_decide (0 < (left - v4count * 6) mod 18) then Ok []
    else
      '(v4, pos) ← decode_each decode_v4 6 (Z.to_nat v4count) data 3;
      '(v6, pos) ← decode_each decode_v6 18 (Z.to_nat ((zlen data - pos) / 18)) data pos;
      Ok (v4 ++ v6).

Definition peerlist_decode {E} st (now : Z) (data : list ascii) (ttl_hours : option Z) : outcome E (list SocketAddr) :=
  match from_base62 (String.string_of_list_ascii data) with
  | Ok data =>
      if decide (zlen data < 4) then Ok []
      else
        '(data, ok) ← decrypt_data st data;
        if ok : bool then peerlist_parse now data ttl_hours else Ok []
  | _ => Panic
  end.

Definition encode {E} st (now : Z) (peers : list SocketAddr) : outcome E string :=
  b ← begin st;
  data ← peerlist_encode st now peers;
  e ← end_ st;
  Ok (String.string_of_list_ascii b +:+ data +:+ String.string_of_list_ascii e).

(** The [while let] of [decode]. *)
Fixpoint decode_loop {E} (fuel : nat) st (now : Z) (begin end_ data : list ascii) (ttl_hours : option Z) (pos : nat)
    (peers : list SocketAddr) : outcome E (list SocketAddr) :=
  match fuel with
  | O => Panic
  | S fuel =>
      rest ← slice_str pos (length data) data;
      match find begin rest with
      | None => Ok peers
      | Some found =>
          let pos := (pos + found)%nat in
          let start_pos := (pos + length begin)%nat in
          rest ← slice_str pos (length data) data;
          match find end_ rest with
          | None => Ok peers
          | Some found =>
              let end_pos := (pos + found)%nat in
              seg ← slice_str start_pos end_pos data;
              more ← peerlist_decode st now seg ttl_hours;
              decode_loop fuel st now begin end_ data ttl_hours start_pos (peers ++ more)
          end
      end
  end.

Definition decode {E} st (now : Z) (data : string) (ttl_hours : option Z) : outcome E (list SocketAddr) :=
  let data := base_62_sanitize data in
  b ← begin st;
  e ← end_ st;
  decode_loop (S (length data)) st now b e data ttl_hours 0 [].

(** What the thread of [read_from_cmd] does with the output of the command. *)
Definition command_finished {E} (now : Z) (stdout : string) (ttl_hours : option Z) : ST BeaconSerializer E unit := fun st =>
  match decode st now stdout ttl_hours with
  | Ok peers => (mkBeaconSerializer (shared_key st) (mkFutureResult true peers), Ok ())
  | Err e => (st, Err e)
  | Panic => (st, Panic)
  end.

Definition get_cmd_results {E} : ST BeaconSerializer E (option (list SocketAddr)) := fun st =>
  if has_result (future_peers st)
  then (mkBeaconSerializer (shared_key st) (mkFutureResult false []), Ok (Some (fr_result (future_peers st))))
  else (st, Ok None).

End Beacon.
End BeaconSerializer.

Import BeaconSerializer.

(** ** Bytes *)

Lemma lor_bytes hi lo : is_u8 lo -> Z.lor (Z.shiftl hi 8) lo = hi * 256 + lo.
Proof.
  unfold is_u8. intros Hl. assert (Z.land (Z.shiftl hi 8) lo = 0) as Hz.
  { apply Z.bits_inj'. intros n Hn. rewrite Z.land_spec, Z.bits_0. destruct (Z.lt_ge_cases n 8) as [Hlt|Hge].
    - by rewrite Z.shiftl_spec_low.
    - replace lo with (lo mod 2 ^ 8) by (apply Z.mod_small; lia). by rewrite Z.mod_pow2_bits_high, andb_false_r by lia. }
  rewrite <- Z.lxor_lor by done. rewrite <- Z.add_nocarry_lxor by done. rewrite Z.shiftl_mul_pow2 by lia. done.
Qed.

Lemma encoder_write_u16 {E} v : Encoder.write_u16 (E := E) v (replicate 2 0) = Ok (be_bytes 2 v).
Proof. change (be_bytes 2 v) with [Z.land (Z.shiftr v 8) 255; Z.land (Z.shiftr v 0) 255]. by rewrite Z.shiftr_0_r. Qed.

Lemma encoder_read_u16 {E} v rest : is_u16 v -> Encoder.read_u16 (E := E) (be_bytes 2 v ++ rest) = Ok v.
Proof.
  intros Hv. pose proof (be_value_be_bytes_small 2 v Hv) as Hb. pose proof (be_bytes_ok 2 v) as Ho.
  pose proof (length_be_bytes 2 v) as Hl.
  destruct (be_bytes 2 v) as [|a [|b [|c l]]]; try done. cbn [app].
  apply Forall_cons_1 in Ho as [Ha Ho]. apply Forall_cons_1 in Ho as [Hob _].
  assert (Encoder.read_u16 (E := E) (a :: b :: rest) = Ok (Z.lor (Z.shiftl a 8) b)) as ->.
  { unfold Encoder.read_u16, index, zlen. cbn [length]. rewrite !decide_True by lia. reflexivity. }
  rewrite lor_bytes by done. rewrite be_value_cons, be_value_1 in Hb. unfold zlen in Hb. cbn [length] in Hb. f_equal. lia.
Qed.

Lemma lxor_u8 a b : is_u8 a -> is_u8 b -> is_u8 (Z.lxor a b).
Proof.
  unfold is_u8. intros Ha Hb. split; [apply Z.lxor_nonneg; lia|].
  destruct (Z.eq_dec (Z.lxor a b) 0) as [->|Hne]; [lia|].
  assert (0 <= Z.lxor a b) by (apply Z.lxor_nonneg; lia).
  change 256 with (2 ^ 8). apply Z.log2_lt_pow2; [lia|]. eapply Z.le_lt_trans; [apply Z.log2_lxor; lia|].
  apply Z.max_lub_lt; (destruct (Z.eq_dec a 0), (Z.eq_dec b 0); subst; try (cbn; lia); apply Z.log2_lt_pow2; lia).
Qed.

Lemma lxor_cancel a b : Z.lxor (Z.lxor a b) b = a.
Proof. by rewrite Z.lxor_assoc, Z.lxor_nilpotent, Z.lxor_0_r. Qed.

(** ** Masking *)

Section Masks.
Context `{RingLaws}.
Implicit Types st : BeaconSerializer.

Lemma keystream_len st t s i : length (get_keystream st t s i) = 64%nat.
Proof. apply sha512_len. Qed.

Lemma index_ok {E} (l : bytes) i : 0 <= i < zlen l -> bytes_ok l -> exists b, index (E := E) l i = Ok b /\ is_u8 b.
Proof.
  intros Hi Hl. unfold index. rewrite decide_True by lia.
  destruct (l !! Z.to_nat i) as [b|] eqn:Hb; [|apply lookup_ge_None in Hb; unfold zlen in *; lia].
  exists b. split; [done|]. exact (Forall_lookup_1 _ _ _ _ Hl Hb).
Qed.

(** Masking twice with the same stream gives the data back. *)
Lemma mask_loop_spec {E} st t s data : forall mask pos iter,
  length mask = 64%nat -> bytes_ok mask -> 0 <= pos < 16 -> bytes_ok data ->
  exists r, mask_loop (E := E) st t s data mask pos iter = Ok r /\ length r = length data /\ bytes_ok r /\
    mask_loop (E := E) st t s r mask pos iter = Ok data.
Proof.
  induction data as [|d data IH]; intros mask pos iter Hm Ho Hp Hd; [by exists []|].
  apply Forall_cons_1 in Hd as [Hd Hds]. destruct (index_ok (E := E) mask pos) as (m & Hi & Hmu); [unfold zlen; lia|done|].
  cbn [mask_loop]. rewrite Hi. cbn [mbind outcome_bind]. destruct (decide (pos + 1 = 16)) as [Heq|Hne].
  - destruct (IH (get_keystream st t s (wrap8 (iter + 1))) 0 (wrap8 (iter + 1))) as (r & Hr & Hl & Hro & Hb);
      [apply keystream_len|apply sha512_ok|lia|done|].
    exists (Z.lxor d m :: r). rewrite Hr. cbn [mbind outcome_bind]. split; [done|]. split; [cbn; lia|].
    split; [constructor; [by apply lxor_u8|done]|].
    cbn [mask_loop]. rewrite Hi. cbn [mbind outcome_bind]. rewrite decide_True by done. rewrite Hb. cbn [mbind outcome_bind].
    by rewrite lxor_cancel.
  - destruct (IH mask (pos + 1) iter) as (r & Hr & Hl & Hro & Hb); [done|done|lia|done|].
    exists (Z.lxor d m :: r). rewrite Hr. cbn [mbind outcome_bind]. split; [done|]. split; [cbn; lia|].
    split; [constructor; [by apply lxor_u8|done]|].
    cbn [mask_loop]. rewrite Hi. cbn [mbind outcome_bind]. rewrite decide_False by done. rewrite Hb. cbn [mbind outcome_bind].
    by rewrite lxor_cancel.
Qed.

Lemma mask_spec {E} st data t s : bytes_ok data ->
  exists r, mask_with_keystream (E := E) st data t s = Ok r /\ length r = length data /\ bytes_ok r /\
    mask_with_keystream (E := E) st r t s = Ok data.
Proof. intros Hd. apply mask_loop_spec; [apply keystream_len|apply sha512_ok|lia|done]. Qed.

Lemma first_byte {E} l : length l = 64%nat -> bytes_ok l -> exists b, index (E := E) l 0 = Ok b /\ is_u8 b.
Proof. intros Hl Ho. apply index_ok; [unfold zlen; lia|done]. Qed.

Lemma encrypt_data_spec {E} st data : bytes_ok data ->
  exists c, encrypt_data (E := E) st data = Ok c /\ length c = S (length data) /\ bytes_ok c /\
    decrypt_data (E := E) st c = Ok (data, true).
Proof.
  intros Hd. destruct (first_byte (E := E) (sha512 data) (sha512_len _) (sha512_ok _)) as (s & Hs & Hsu).
  destruct (first_byte (E := E) (get_keystream st TYPE_SEED 0 0) (keystream_len _ _ _ _) (sha512_ok _)) as (k & Hk & Hku).
  destruct (mask_spec (E := E) st data TYPE_DATA s Hd) as (r & Hr & Hl & Ho & Hb).
  exists (r ++ [Z.lxor s k]). unfold encrypt_data. rewrite Hs. cbn [mbind outcome_bind]. rewrite Hr. cbn [mbind outcome_bind].
  rewrite Hk. cbn [mbind outcome_bind]. split; [done|]. rewrite length_app. split; [cbn; lia|].
  split; [apply Forall_app; split; [done|by repeat constructor; apply lxor_u8]|].
  unfold decrypt_data. rewrite last_snoc, Hk. cbn [mbind outcome_bind]. rewrite lxor_cancel.
  rewrite take_app_length' by (rewrite length_app; cbn; lia). rewrite Hb. cbn [mbind outcome_bind]. rewrite Hs. cbn [mbind outcome_bind].
  by rewrite bool_decide_eq_true_2.
Qed.

Lemma decrypt_data_total {E} st data : bytes_ok data -> data <> [] ->
  exists d ok, decrypt_data (E := E) st data = Ok (d, ok) /\ length d = (length data - 1)%nat /\ bytes_ok d.
Proof.
  intros Hd Hne. unfold decrypt_data. destruct (last data) as [b|] eqn:Hb; [|by apply last_None in Hb].
  destruct (first_byte (E := E) (get_keystream st TYPE_SEED 0 0) (keystream_len _ _ _ _) (sha512_ok _)) as (k & Hk & Hku).
  rewrite Hk. cbn [mbind outcome_bind].
  destruct (mask_spec (E := E) st (take (length data - 1) data) TYPE_DATA (Z.lxor b k)) as (r & Hr & Hl & Ho & _); [by apply Forall_take|].
  rewrite Hr. cbn [mbind outcome_bind].
  destruct (first_byte (E := E) (sha512 r) (sha512_len _) (sha512_ok _)) as (s & Hs & Hsu). rewrite Hs. cbn [mbind outcome_bind].
  eexists _, _. split; [done|]. split; [|done]. rewrite Hl, length_take. lia.
Qed.

(** ** The address list *)

(** What can be sent: addresses as the type has them. *)
Definition addr_ok (a : SocketAddr) : Prop :=
  match a with
  | V4 ip port => length ip = 4%nat /\ bytes_ok ip /\ is_u16 port
  | V6 ip port _ _ => length ip = 16%nat /\ bytes_ok ip /\ is_u16 port
  end.

Definition pair_ok (n : nat) (a : bytes * Z) : Prop := length a.1 = n /\ bytes_ok a.1 /\ is_u16 a.2.

Lemma v4addrs_ok peers : Forall addr_ok peers -> Forall (pair_ok 4) (v4addrs peers).
Proof. induction 1 as [|[ip port|ip port f s] peers Ha Hp IH]; [constructor| |exact IH]. by constructor. Qed.
Lemma v6addrs_ok peers : Forall addr_ok peers -> Forall (pair_ok 16) (v6addrs peers).
Proof. induction 1 as [|[ip port|ip port f s] peers Ha Hp IH]; [constructor|exact IH|]. by constructor. Qed.

Definition enc_pair (a : bytes * Z) : bytes := a.1 ++ be_bytes 2 a.2.

Lemma enc_pair_ok n a : pair_ok n a -> length (enc_pair a) = (n + 2)%nat /\ bytes_ok (enc_pair a).
Proof.
  intros (Hl & Ho & Hp). unfold enc_pair. rewrite length_app, length_be_bytes. split; [lia|].
  apply Forall_app. split; [done|apply be_bytes_ok].
Qed.

Lemma be_bytes_pair hi lo : is_u8 hi -> is_u8 lo -> be_bytes 2 (hi * 256 + lo) = [hi; lo].
Proof.
  intros Hh Hl. assert (bytes_ok [hi; lo]) as Ho by (apply Forall_cons_2; [done|]; apply Forall_cons_2; [done|constructor]).
  pose proof (be_bytes_be_value [hi; lo] Ho) as Hb.
  rewrite be_value_cons, be_value_1 in Hb. unfold zlen in Hb. cbn [length] in Hb.
  change (256 ^ Z.of_nat 1) with 256 in Hb. exact Hb.
Qed.

Lemma encode_segments_spec {E} n : forall ip, length ip = (2 * n)%nat -> bytes_ok ip -> encode_segments (E := E) ip = Ok ip.
Proof.
  induction n as [|n IH]; intros ip Hl Ho.
  - destruct ip; [done|cbn in Hl; lia].
  - destruct ip as [|hi [|lo ip]]; [cbn in Hl; lia|cbn in Hl; lia|].
    apply Forall_cons_1 in Ho as [Hh Ho]. apply Forall_cons_1 in Ho as [Hlo Ho].
    cbn [encode_segments]. rewrite encoder_write_u16. cbn [mbind outcome_bind].
    rewrite IH by (done || (cbn [length] in Hl; lia)). cbn [mbind outcome_bind]. by rewrite be_bytes_pair.
Qed.

Lemma encode_each_spec {E} (f : bytes * Z -> outcome E bytes) l :
  Forall (fun a => f a = Ok (enc_pair a)) l -> encode_each f l = Ok (concat (enc_pair <$> l)).
Proof.
  induction 1 as [|a l Ha Hl IH]; [done|]. cbn [encode_each]. rewrite Ha. cbn [mbind outcome_bind]. rewrite IH. done.
Qed.

Lemma encode_v4_spec {E} a : pair_ok 4 a -> encode_v4 (E := E) a = Ok (enc_pair a).
Proof. intros _. unfold encode_v4. by rewrite encoder_write_u16. Qed.
Lemma encode_v6_spec {E} a : pair_ok 16 a -> encode_v6 (E := E) a = Ok (enc_pair a).
Proof.
  intros (Hl & Ho & _). unfold encode_v6. rewrite (encode_segments_spec 8) by done. cbn [mbind outcome_bind].
  by rewrite encoder_write_u16.
Qed.

(** [bs] stands at [pos]. *)
Lemma slice_at {E} (pre bs rest : bytes) n : length bs = n ->
  slice (E := E) (zlen pre) (zlen pre + Z.of_nat n) (pre ++ bs ++ rest) = Ok bs.
Proof.
  intros <-. rewrite slice_ok; [|unfold zlen; lia|unfold zlen; rewrite !length_app; lia]. f_equal.
  rewrite drop_app_length' by (unfold zlen; lia). apply take_app_length'. lia.
Qed.

Lemma decode_v4_at {E} pre a rest : pair_ok 4 a -> decode_v4 (E := E) (pre ++ enc_pair a ++ rest) (zlen pre) = Ok (V4 a.1 a.2).
Proof.
  intros Ha. destruct (enc_pair_ok 4 a Ha) as [Hl Ho]. destruct Ha as (Hip & Hipo & Hp). unfold decode_v4.
  rewrite decide_True by (unfold zlen; rewrite !length_app, Hl; lia).
  pose proof (slice_at (E := E) pre (enc_pair a) rest 6 Hl) as Hs. change (Z.of_nat 6) with 6 in Hs. rewrite Hs.
  cbn [mbind outcome_bind]. unfold enc_pair.
  pose proof (slice_at (E := E) a.1 (be_bytes 2 a.2) [] 2 (length_be_bytes 2 _)) as H2. unfold zlen in H2 at 1 2. rewrite Hip, app_nil_r in H2.
  change (Z.of_nat 4) with 4 in H2. change (4 + Z.of_nat 2) with 6 in H2. rewrite H2. cbn [mbind outcome_bind].
  rewrite <- (app_nil_r (be_bytes 2 a.2)) at 1. rewrite encoder_read_u16 by done. cbn [mbind outcome_bind].
  by rewrite take_app_length' by done.
Qed.

Lemma read_segments_at {E} n : forall pre ip rest, length ip = (2 * n)%nat -> bytes_ok ip -> forall i, zlen pre = i * 2 ->
  read_segments (E := E) n i (pre ++ ip ++ rest) = Ok ip.
Proof.
  induction n as [|n IH]; intros pre ip rest Hl Ho i Hi.
  - destruct ip; [done|cbn in Hl; lia].
  - destruct ip as [|hi [|lo ip]]; [cbn in Hl; lia|cbn in Hl; lia|].
    apply Forall_cons_1 in Ho as [Hh Ho]. apply Forall_cons_1 in Ho as [Hlo Ho]. cbn [read_segments].
    pose proof (slice_at (E := E) pre [hi; lo] (ip ++ rest) 2 eq_refl) as Hs. rewrite Hi in Hs. change (Z.of_nat 2) with 2 in Hs.
    cbn [app] in *. rewrite Hs. cbn [mbind outcome_bind]. rewrite <- (be_bytes_pair hi lo) by done.
    rewrite <- (app_nil_r (be_bytes 2 _)) at 1. rewrite encoder_read_u16 by (unfold is_u8, is_u16 in *; lia). cbn [mbind outcome_bind].
    assert (pre ++ hi :: lo :: ip ++ rest = (pre ++ [hi; lo]) ++ ip ++ rest) as -> by (by rewrite <- (assoc_L app)).
    rewrite IH; [|cbn [length] in Hl; lia|done|unfold zlen in *; rewrite length_app; cbn [length]; lia].
    cbn [mbind outcome_bind]. by rewrite be_bytes_pair.
Qed.

Lemma decode_v6_at {E} pre a rest : pair_ok 16 a -> decode_v6 (E := E) (pre ++ enc_pair a ++ rest) (zlen pre) = Ok (V6 a.1 a.2 0 0).
Proof.
  intros Ha. destruct (enc_pair_ok 16 a Ha) as [Hl Ho]. destruct Ha as (Hip & Hipo & Hp). unfold decode_v6.
  rewrite decide_True by (unfold zlen; rewrite !length_app, Hl; lia).
  pose proof (slice_at (E := E) pre (enc_pair a) rest 18 Hl) as Hs. change (Z.of_nat 18) with 18 in Hs. rewrite Hs.
  cbn [mbind outcome_bind]. unfold enc_pair.
  pose proof (read_segments_at (E := E) 8 [] a.1 (be_bytes 2 a.2) Hip Hipo 0 eq_refl) as Hr. cbn [app] in Hr. rewrite Hr. cbn [mbind outcome_bind].
  pose proof (slice_at (E := E) a.1 (be_bytes 2 a.2) [] 2 (length_be_bytes 2 _)) as H2. unfold zlen in H2 at 1 2. rewrite Hip, app_nil_r in H2.
  change (Z.of_nat 16) with 16 in H2. change (16 + Z.of_nat 2) with 18 in H2. rewrite H2. cbn [mbind outcome_bind].
  rewrite <- (app_nil_r (be_bytes 2 a.2)) at 1. rewrite encoder_read_u16 by done. done.
Qed.

Lemma decode_each_at {E} (f : bytes -> Z -> outcome E SocketAddr) g n l : forall pre rest,
  (forall pre a rest, pair_ok n a -> f (pre ++ enc_pair a ++ rest) (zlen pre) = Ok (g a)) -> Forall (pair_ok n) l ->
  decode_each f (Z.of_nat n + 2) (length l) (pre ++ concat (enc_pair <$> l) ++ rest) (zlen pre) =
    Ok (g <$> l, zlen pre + (Z.of_nat n + 2) * zlen l).
Proof.
  induction l as [|a l IH]; intros pre rest Hf Hl; cbn [decode_each length fmap list_fmap concat].
  - do 2 f_equal. unfold zlen. cbn [length]. lia.
  - apply Forall_cons_1 in Hl as [Ha Hl]. destruct (enc_pair_ok n a Ha) as [Hel _].
    rewrite <- (assoc_L app). rewrite Hf by done. cbn [mbind outcome_bind]. rewrite (assoc_L app pre).
    replace (zlen pre + (Z.of_nat n + 2)) with (zlen (pre ++ enc_pair a)) by (unfold zlen; rewrite length_app, Hel; lia).
    rewrite IH by done. cbn [mbind outcome_bind]. do 2 f_equal. unfold zlen. rewrite length_app, Hel. cbn [length]. lia.
Qed.

Lemma concat_pairs_len n l : Forall (pair_ok n) l -> zlen (concat (enc_pair <$> l)) = (Z.of_nat n + 2) * zlen l.
Proof.
  induction 1 as [|a l Ha Hl IH]; cbn [fmap list_fmap concat]; [unfold zlen; cbn; lia|].
  destruct (enc_pair_ok n a Ha) as [Hel _]. unfold zlen in *. rewrite length_app, Hel. cbn [length].
  rewrite Nat2Z.inj_add, IH. lia.
Qed.

Lemma concat_pairs_ok n l : Forall (pair_ok n) l -> bytes_ok (concat (enc_pair <$> l)).
Proof.
  induction 1 as [|a l Ha Hl IH]; cbn [fmap list_fmap concat]; [constructor|]. apply Forall_app. split; [by apply (enc_pair_ok n)|done].
Qed.

Lemma hour_u16 now : is_u16 (now_hour_16 now).
Proof.
  unfold now_hour_16, is_u16. change 65535 with (Z.ones 16). rewrite Z.land_ones by lia.
  apply Z.mod_pos_bound. lia.
Qed.

(** The addresses a peer list carries: IPv4 first, without flow and scope. *)
Definition carried (peers : list SocketAddr) : list SocketAddr :=
  ((fun a => V4 a.1 a.2) <$> v4addrs peers) ++ ((fun a => V6 a.1 a.2 0 0) <$> v6addrs peers).

Definition fresh (now now' : Z) (ttl_hours : option Z) : Prop :=
  match ttl_hours with
  | Some ttl => wrap16 (now_hour_16 now' - now_hour_16 now) <= ttl
  | None => True
  end.

Lemma peerlist_bytes_spec {E} now peers : Forall addr_ok peers ->
  peerlist_bytes (E := E) now peers = Ok (be_bytes 2 (now_hour_16 now) ++ [wrap8 (zlen (v4addrs peers))] ++
    concat (enc_pair <$> v4addrs peers) ++ concat (enc_pair <$> v6addrs peers)).
Proof.
  intros Hp. unfold peerlist_bytes. pose proof (v4addrs_ok _ Hp) as H4. pose proof (v6addrs_ok _ Hp) as H6.
  rewrite (encode_each_spec encode_v4) by (eapply Forall_impl; [exact H4|]; intros a; apply encode_v4_spec).
  cbn [mbind outcome_bind]. rewrite (encode_each_spec encode_v6) by (eapply Forall_impl; [exact H6|]; intros a; apply encode_v6_spec). done.
Qed.

Lemma peerlist_parse_spec {E} now now' peers ttl_hours : Forall addr_ok peers -> zlen (v4addrs peers) < 256 -> fresh now now' ttl_hours ->
  peerlist_parse (E := E) now' (be_bytes 2 (now_hour_16 now) ++ [wrap8 (zlen (v4addrs peers))] ++
    concat (enc_pair <$> v4addrs peers) ++ concat (enc_pair <$> v6addrs peers)) ttl_hours = Ok (carried peers).
Proof.
  intros Hp Hn Hf. pose proof (v4addrs_ok _ Hp) as H4. pose proof (v6addrs_ok _ Hp) as H6.
  set (v4 := v4addrs peers) in *. set (v6 := v6addrs peers) in *.
  pose proof (concat_pairs_len _ _ H4) as L4. pose proof (concat_pairs_len _ _ H6) as L6. change (Z.of_nat 4 + 2) with 6 in L4. change (Z.of_nat 16 + 2) with 18 in L6.
  rewrite wrap_small by (unfold zlen in *; lia). set (hour := be_bytes 2 (now_hour_16 now)).
  assert (length hour = 2%nat) as Hh by apply length_be_bytes.
  set (data := hour ++ [zlen v4] ++ concat (enc_pair <$> v4) ++ concat (enc_pair <$> v6)).
  assert (zlen data = 3 + 6 * zlen v4 + 18 * zlen v6) as Hd.
  { unfold data, zlen in *. rewrite !length_app, Hh. cbn [length]. lia. }
  unfold peerlist_parse.
  assert (slice (E := E) 0 2 data = Ok hour) as -> by (apply (slice_at [] hour _ 2 Hh)).
  cbn [mbind outcome_bind]. rewrite <- (app_nil_r hour) at 1. unfold hour at 1. rewrite encoder_read_u16 by apply hour_u16. cbn [mbind outcome_bind].
  assert (match ttl_hours with Some ttl => expired (now_hour_16 now') (now_hour_16 now) ttl | None => false end = false) as ->.
  { destruct ttl_hours as [ttl|]; [|done]. cbn [fresh] in Hf. unfold expired. by rewrite bool_decide_eq_false_2 by lia. }
  assert (index (E := E) data 2 = Ok (zlen v4)) as ->.
  { unfold index. rewrite decide_True by lia. change (Z.to_nat 2) with 2%nat. unfold data. cbn [app]. by rewrite list_lookup_middle. }
  cbn [mbind outcome_bind]. rewrite Hd.
  replace (3 + 6 * zlen v4 + 18 * zlen v6 - 3 - zlen v4 * 6) with (18 * zlen v6) by lia.
  rewrite bool_decide_eq_false_2 by (unfold zlen in *; lia). cbn [orb].
  rewrite bool_decide_eq_false_2 by (rewrite Z.mul_comm, Z.mod_mul by lia; lia).
  replace (Z.to_nat (zlen v4)) with (length v4) by (unfold zlen; lia).
  pose proof (decode_each_at (E := E) decode_v4 (fun a => V4 a.1 a.2) 4 v4 (hour ++ [zlen v4]) (concat (enc_pair <$> v6)) decode_v4_at H4) as D4.
  change (Z.of_nat 4 + 2) with 6 in D4. rewrite <- (assoc_L app) in D4.
  assert (zlen (hour ++ [zlen v4]) = 3) as Hz by (unfold zlen; rewrite length_app, Hh; done). rewrite Hz in D4.
  fold data in D4. rewrite D4. cbn [mbind outcome_bind].
  replace (3 + 6 * zlen v4 + 18 * zlen v6 - (3 + 6 * zlen v4)) with (zlen v6 * 18) by lia. rewrite Z.div_mul by lia.
  replace (Z.to_nat (zlen v6)) with (length v6) by (unfold zlen; lia).
  pose proof (decode_each_at (E := E) decode_v6 (fun a => V6 a.1 a.2 0 0) 16 v6 (hour ++ [zlen v4] ++ concat (enc_pair <$> v4)) [] decode_v6_at H6) as D6.
  change (Z.of_nat 16 + 2) with 18 in D6. rewrite app_nil_r, <- !(assoc_L app) in D6.
  assert (zlen (hour ++ [zlen v4] ++ concat (enc_pair <$> v4)) = 3 + 6 * zlen v4) as Hz2.
  { unfold zlen in *. rewrite !length_app, Hh. cbn [length]. lia. }
  rewrite Hz2 in D6. fold data in D6. by rewrite D6.
Qed.

(** ** The text *)

Lemma digit_alnum c d : digit_value c = Some d -> is_ascii_alphanumeric c = true /\ 0 <= d < 62.
Proof.
  unfold digit_value, is_ascii_alphanumeric. intros Hc. rewrite bool_decide_eq_true.
  repeat (case_decide; [injection Hc as <-; split; [lia|]; try (rewrite Z.mod_small by lia); try lia; Z.div_mod_to_equations; lia|]). done.
Qed.

Lemma alnum_digit c : is_ascii_alphanumeric c = true -> exists d, digit_value c = Some d.
Proof.
  unfold digit_value, is_ascii_alphanumeric. rewrite bool_decide_eq_true. intros Hc.
  repeat (case_decide; [by eexists|]). lia.
Qed.

(** An alphanumeric text is a number. *)
Lemma from_base62_alnum cs : Forall (fun c => is_ascii_alphanumeric c = true) cs ->
  exists bs, from_base62 (String.string_of_list_ascii cs) = Ok bs /\ bytes_ok bs.
Proof.
  intros Hc. assert (exists ds, Forall2 (fun c d => digit_value c = Some d) cs ds /\ Forall (fun d => 0 <= d < 62) ds) as (ds & H2 & Hds).
  { induction Hc as [|c cs Hc Hcs (ds & IH1 & IH2)]; [by exists []|].
    destruct (alnum_digit c Hc) as [d Hd]. exists (d :: ds). split; [by constructor|]. constructor; [by apply (digit_alnum c)|done]. }
  unfold from_base62. rewrite String.list_ascii_of_string_of_list_ascii.
  destruct (from_base62_loop_spec cs ds [] H2 Hds) as (buf & -> & Hb & _); [done|].
  eexists. split; [done|]. cbn. apply Forall_reverse. exact (proj1 Hb).
Qed.

Lemma peerlist_encode_spec {E} st now peers : Forall addr_ok peers ->
  exists data c s, peerlist_bytes (E := E) now peers = Ok data /\ encrypt_data (E := E) st data = Ok c /\
    decrypt_data (E := E) st c = Ok (data, true) /\ length c = S (length data) /\
    peerlist_encode (E := E) st now peers = Ok s /\ from_base62 s = Ok (strip_zeros c) /\
    Forall (fun x => is_ascii_alphanumeric x = true) (String.list_ascii_of_string s).
Proof.
  intros Hp. pose proof (peerlist_bytes_spec (E := E) now peers Hp) as Hb. eexists.
  destruct (encrypt_data_spec (E := E) st (be_bytes 2 (now_hour_16 now) ++ [wrap8 (zlen (v4addrs peers))] ++
    concat (enc_pair <$> v4addrs peers) ++ concat (enc_pair <$> v6addrs peers))) as (c & He & Hl & Ho & Hd).
  { repeat (apply Forall_app; split).
    - apply be_bytes_ok.
    - apply Forall_cons_2; [|constructor]. apply Z.mod_pos_bound. lia.
    - by apply (concat_pairs_ok 4), v4addrs_ok.
    - by apply (concat_pairs_ok 16), v6addrs_ok. }
  destruct (base62_decode (E := E) c Ho) as (s & Hs & Hf). exists c, s. split; [exact Hb|]. split; [done|]. split; [done|]. split; [done|].
  split.
  { unfold peerlist_encode. rewrite Hb. cbn [mbind outcome_bind]. rewrite He. done. }
  split; [done|]. destruct (to_base62_spec (E := E) c Ho) as (cs & ds & Hs' & H2 & _). rewrite Hs in Hs'. injection Hs' as ->.
  rewrite String.list_ascii_of_string_of_list_ascii. clear -H2. induction H2 as [|x d cs ds Hx H2 IH]; constructor; [|done].
  by apply (digit_alnum x d).
Qed.

(** The encoded list decodes, when its first masked byte is not zero. *)
Lemma peerlist_roundtrip {E} st now now' peers ttl_hours :
  Forall addr_ok peers -> zlen (v4addrs peers) < 256 -> fresh now now' ttl_hours ->
  (forall data c, peerlist_bytes (E := E) now peers = Ok data -> encrypt_data (E := E) st data = Ok c -> hd 0 c <> 0) ->
  exists s, peerlist_encode (E := E) st now peers = Ok s /\
    peerlist_decode (E := E) st now' (String.list_ascii_of_string s) ttl_hours = Ok (carried peers) /\
    Forall (fun x => is_ascii_alphanumeric x = true) (String.list_ascii_of_string s).
Proof.
  intros Hp Hn Hf Hz. destruct (peerlist_encode_spec (E := E) st now peers Hp) as (data & c & s & Hb & He & Hd & Hl & Hs & Hfrom & Halnum).
  exists s. split; [done|]. split; [|done]. unfold peerlist_decode. rewrite String.string_of_list_ascii_of_string, Hfrom.
  assert (strip_zeros c = c) as ->.
  { specialize (Hz data c Hb He). destruct c as [|x c]; [done|]. cbn [hd strip_zeros] in *. by rewrite decide_False. }
  rewrite peerlist_bytes_spec in Hb by done. injection Hb as <-.
  rewrite decide_False. 2: { unfold zlen. rewrite Hl, !length_app, length_be_bytes. cbn [length]. lia. }
  rewrite Hd. cbn [mbind outcome_bind]. by apply peerlist_parse_spec.
Qed.

(** ** Finding the markers *)

Lemma length_text (s : string) : length (String.list_ascii_of_string s) = String.length s.
Proof. induction s as [|c s IH]; [done|]. cbn. by rewrite IH. Qed.

Lemma starts_with_spec pat s : starts_with pat s = true -> exists rest, s = pat ++ rest.
Proof.
  revert s. induction pat as [|p pat IH]; intros s Hs; [by exists s|].
  destruct s as [|c s]; [done|]. cbn [starts_with] in Hs. apply andb_true_iff in Hs as [Hp Hs].
  apply bool_decide_eq_true in Hp as ->. destruct (IH s Hs) as [rest ->]. by exists rest.
Qed.

Lemma starts_with_app pat rest : starts_with pat (pat ++ rest) = true.
Proof. induction pat as [|p pat IH]; [done|]. cbn. by rewrite bool_decide_eq_true_2. Qed.

Lemma find_spec pat s n : find pat s = Some n -> exists rest, drop n s = pat ++ rest /\ (n + length pat <= length s)%nat.
Proof.
  revert n. induction s as [|c s IH]; intros n; cbn [find].
  - destruct (starts_with pat []) eqn:Hs; [|done]. intros [= <-]. destruct (starts_with_spec _ _ Hs) as [rest Hr].
    exists rest. rewrite drop_0. split; [done|]. rewrite Hr, length_app. lia.
  - destruct (starts_with pat (c :: s)) eqn:Hs.
    + intros [= <-]. destruct (starts_with_spec _ _ Hs) as [rest Hr]. exists rest. rewrite drop_0. split; [done|]. rewrite Hr, length_app. lia.
    + destruct (find pat s) as [m|] eqn:Hm; [|done]. intros [= <-]. destruct (IH m eq_refl) as (rest & Hr & Hl).
      exists rest. split; [done|]. cbn [length]. lia.
Qed.

Lemma find_front pat rest : find pat (pat ++ rest) = Some 0%nat.
Proof. destruct (pat ++ rest) as [|c s] eqn:He; cbn [find]; rewrite <- He, starts_with_app; done. Qed.

Lemma slice_str_ok {E} a b s : (a <= b <= length s)%nat -> slice_str (E := E) a b s = Ok (take (b - a) (drop a s)).
Proof. intros Hab. unfold slice_str. by rewrite decide_True. Qed.

Lemma slice_rest {E} pos s : (pos <= length s)%nat -> slice_str (E := E) pos (length s) s = Ok (drop pos s).
Proof. intros Hp. rewrite slice_str_ok by lia. f_equal. apply take_ge. rewrite length_drop. lia. Qed.

Lemma marker_len {E} st t b : marker (E := E) st t = Ok b -> length b = 5%nat.
Proof.
  unfold marker. destruct (to_base62 _) as [s|e|]; [|done..]. cbn [mbind outcome_bind]. unfold slice_str.
  case_decide as Hd; [|done]. intros [= <-]. rewrite length_take, length_drop. lia.
Qed.

(** ** Arbitrary text *)

Lemma slice_total {E} a b (l : bytes) : 0 <= a <= b -> b <= zlen l -> bytes_ok l ->
  exists d, slice (E := E) a b l = Ok d /\ zlen d = b - a /\ bytes_ok d.
Proof.
  intros Ha Hb Ho. rewrite slice_ok by lia. eexists. split; [done|]. split; [|by apply Forall_take, Forall_drop].
  unfold zlen in *. rewrite length_take, length_drop. lia.
Qed.

Lemma read_u16_total {E} d : zlen d = 2 -> bytes_ok d -> exists v, Encoder.read_u16 (E := E) d = Ok v /\ is_u16 v.
Proof.
  intros Hl Ho. destruct d as [|a [|b [|c d]]]; unfold zlen in Hl; cbn [length] in Hl; try lia.
  apply Forall_cons_1 in Ho as [Ha Ho]. apply Forall_cons_1 in Ho as [Hb _].
  exists (a * 256 + b). split; [|unfold is_u8, is_u16 in *; lia]. rewrite <- (be_bytes_pair a b) by done.
  rewrite <- (app_nil_r (be_bytes 2 _)). apply encoder_read_u16. unfold is_u8, is_u16 in *; lia.
Qed.

Lemma decode_v4_total {E} data pos : bytes_ok data -> 0 <= pos -> pos + 6 <= zlen data -> exists a, decode_v4 (E := E) data pos = Ok a.
Proof.
  intros Ho Hp Hl. unfold decode_v4. rewrite decide_True by done.
  destruct (slice_total (E := E) pos (pos + 6) data ltac:(lia) Hl Ho) as (dat & -> & Hd & Hdo). cbn [mbind outcome_bind].
  destruct (slice_total (E := E) 4 6 dat ltac:(lia) ltac:(lia) Hdo) as (d & -> & Hd2 & Hdo2). cbn [mbind outcome_bind].
  destruct (read_u16_total (E := E) d ltac:(lia) Hdo2) as (v & -> & _). by eexists.
Qed.

Lemma read_segments_total {E} n : forall i dat, 0 <= i -> i * 2 + 2 * Z.of_nat n <= zlen dat -> bytes_ok dat ->
  exists ip, read_segments (E := E) n i dat = Ok ip.
Proof.
  induction n as [|n IH]; intros i dat Hi Hl Ho; [by eexists|]. cbn [read_segments].
  destruct (slice_total (E := E) (i * 2) (i * 2 + 2) dat ltac:(lia) ltac:(lia) Ho) as (d & -> & Hd & Hdo). cbn [mbind outcome_bind].
  destruct (read_u16_total (E := E) d ltac:(lia) Hdo) as (v & -> & _). cbn [mbind outcome_bind].
  destruct (IH (i + 1) dat ltac:(lia) ltac:(lia) Ho) as [ip ->]. by eexists.
Qed.

Lemma decode_v6_total {E} data pos : bytes_ok data -> 0 <= pos -> pos + 18 <= zlen data -> exists a, decode_v6 (E := E) data pos = Ok a.
Proof.
  intros Ho Hp Hl. unfold decode_v6. rewrite decide_True by done.
  destruct (slice_total (E := E) pos (pos + 18) data ltac:(lia) Hl Ho) as (dat & -> & Hd & Hdo). cbn [mbind outcome_bind].
  destruct (read_segments_total (E := E) 8 0 dat ltac:(lia) ltac:(lia) Hdo) as [ip ->]. cbn [mbind outcome_bind].
  destruct (slice_total (E := E) 16 18 dat ltac:(lia) ltac:(lia) Hdo) as (d & -> & Hd2 & Hdo2). cbn [mbind outcome_bind].
  destruct (read_u16_total (E := E) d ltac:(lia) Hdo2) as (v & -> & _). by eexists.
Qed.

Lemma decode_each_total {E} (f : bytes -> Z -> outcome E SocketAddr) size data n : forall pos,
  (forall pos, 0 <= pos -> pos + size <= zlen data -> exists a, f data pos = Ok a) -> 0 <= size -> 0 <= pos ->
  pos + size * Z.of_nat n <= zlen data ->
  exists l, decode_each f size n data pos = Ok (l, pos + size * Z.of_nat n).
Proof.
  induction n as [|n IH]; intros pos Hf Hs Hp Hl; cbn [decode_each]; [eexists; do 2 f_equal; lia|].
  destruct (Hf pos Hp ltac:(nia)) as [a ->]. cbn [mbind outcome_bind].
  destruct (IH (pos + size) Hf Hs ltac:(lia) ltac:(lia)) as [l ->]. cbn [mbind outcome_bind]. eexists. do 2 f_equal. lia.
Qed.

Lemma peerlist_parse_total {E} now data ttl_hours : bytes_ok data -> 3 <= zlen data ->
  exists l, peerlist_parse (E := E) now data ttl_hours = Ok l.
Proof.
  intros Ho Hl. unfold peerlist_parse. destruct (slice_total (E := E) 0 2 data ltac:(lia) ltac:(lia) Ho) as (d & -> & Hd & Hdo). cbn [mbind outcome_bind].
  destruct (read_u16_total (E := E) d ltac:(lia) Hdo) as (v & -> & _). cbn [mbind outcome_bind].
  destruct (match ttl_hours with Some ttl => expired (now_hour_16 now) v ttl | None => false end); [by eexists|].
  destruct (index_ok (E := E) data 2 ltac:(lia) Ho) as (n & -> & Hn). cbn [mbind outcome_bind]. unfold is_u8 in Hn.
  destruct (bool_decide (zlen data - 3 < n * 6)) eqn:Hb1; [by eexists|]. apply bool_decide_eq_false in Hb1. cbn [orb].
  destruct (bool_decide (0 < (zlen data - 3 - n * 6) mod 18)) eqn:Hb2; [by eexists|].
  destruct (decode_each_total (E := E) decode_v4 6 data (Z.to_nat n) 3) as [l4 ->]; [intros; by apply decode_v4_total|lia|lia|lia|].
  cbn [mbind outcome_bind]. set (pos := 3 + 6 * Z.of_nat (Z.to_nat n)).
  destruct (decode_each_total (E := E) decode_v6 18 data (Z.to_nat ((zlen data - pos) / 18)) pos) as [l6 ->];
    [intros; by apply decode_v6_total|lia|lia| |by eexists].
  assert (0 <= zlen data - pos) by (unfold pos; lia). pose proof (Z.mul_div_le (zlen data - pos) 18 ltac:(lia)).
  assert (0 <= (zlen data - pos) / 18) by (apply Z.div_pos; lia). lia.
Qed.

Lemma peerlist_decode_total {E} st now data ttl_hours : Forall (fun c => is_ascii_alphanumeric c = true) data ->
  exists l, peerlist_decode (E := E) st now data ttl_hours = Ok l.
Proof.
  intros Hc. destruct (from_base62_alnum data Hc) as (bs & Hbs & Ho). unfold peerlist_decode. rewrite Hbs.
  case_decide as Hd; [by eexists|]. destruct (decrypt_data_total (E := E) st bs Ho) as (d & ok & -> & Hl & Hdo).
  { intros ->. apply Hd. unfold zlen. cbn. lia. }
  cbn [mbind outcome_bind]. destruct ok; [|by eexists]. apply peerlist_parse_total; [done|]. unfold zlen in *. lia.
Qed.

(** The end marker is never found inside the begin marker. *)
Definition markers_apart (b e : list ascii) : Prop := forall rest n, find e (b ++ rest) = Some n -> (length b <= n)%nat.

Lemma decode_loop_total {E} st now b e data ttl_hours : length b = 5%nat -> markers_apart b e ->
  Forall (fun c => is_ascii_alphanumeric c = true) data ->
  forall fuel pos peers, (pos <= length data)%nat -> (length data - pos < fuel)%nat ->
  exists l, decode_loop (E := E) fuel st now b e data ttl_hours pos peers = Ok l.
Proof.
  intros Hb Hap Hc. induction fuel as [|fuel IH]; intros pos peers Hp Hf; [lia|]. cbn [decode_loop].
  rewrite slice_rest by done. cbn [mbind outcome_bind]. destruct (find b (drop pos data)) as [n|] eqn:Hn; [|by eexists].
  destruct (find_spec _ _ _ Hn) as (rest & Hr & Hl). rewrite length_drop in Hl. rewrite drop_drop in Hr.
  rewrite slice_rest by lia. cbn [mbind outcome_bind]. rewrite Hr.
  destruct (find e (b ++ rest)) as [k|] eqn:Hk; [|by eexists]. pose proof (Hap rest k Hk) as Hge.
  destruct (find_spec _ _ _ Hk) as (rest' & _ & Hl'). apply (f_equal length) in Hr. rewrite length_drop in Hr. rewrite <- Hr in Hl'.
  rewrite slice_str_ok by lia. cbn [mbind outcome_bind].
  destruct (peerlist_decode_total (E := E) st now (take (pos + n + k - (pos + n + length b)) (drop (pos + n + length b) data)) ttl_hours) as [l ->];
    [by apply Forall_take, Forall_drop|]. cbn [mbind outcome_bind]. apply IH; lia.
Qed.

Lemma sanitize_alnum text : Forall (fun c => is_ascii_alphanumeric c = true) (base_62_sanitize text).
Proof. apply Forall_forall. intros c Hc. apply list_elem_of_In, filter_In in Hc. apply Hc. Qed.

(** C25: scanning a text for beacons always ends with a list of peers, whatever
    the text: the loop advances, no slice, index or assertion fails and no base-62
    text is refused; provided the key's end marker does not overlap the end of its
    begin marker. *)
Theorem beacon_decode_total st now text ttl_hours b e :
  begin (E := Error) st = Ok b -> end_ (E := Error) st = Ok e -> markers_apart b e ->
  exists peers, decode (E := Error) st now text ttl_hours = Ok peers.
Proof.
  intros Hb He Ha. unfold decode. rewrite Hb, He. cbn [mbind outcome_bind].
  apply decode_loop_total; [by eapply marker_len|done|apply sanitize_alnum|lia|lia].
Qed.

(** With overlapping markers, a text of the begin marker and the rest of the end
    marker is enough to panic. *)
Theorem beacon_overlap_panics st now text ttl_hours b e rest n :
  begin (E := Error) st = Ok b -> end_ (E := Error) st = Ok e ->
  base_62_sanitize text = b ++ rest -> find e (b ++ rest) = Some n -> (n < length b)%nat ->
  decode (E := Error) st now text ttl_hours = Panic.
Proof.
  intros Hb He Ht Hf Hn. unfold decode. rewrite Hb, He, Ht. cbn [mbind outcome_bind decode_loop].
  rewrite slice_rest by lia. cbn [mbind outcome_bind]. rewrite drop_0, find_front. rewrite slice_rest by lia.
  cbn [mbind outcome_bind Nat.add]. rewrite drop_0, Hf. unfold slice_str. rewrite decide_False by lia. done.
Qed.

(** C24: a beacon hidden in a text gives back the peers it was made of, IPv4 before
    IPv6: a text whose letters and digits hold the beacon decodes to them, as long as
    it is not older than the time to live; provided the markers do not occur by
    accident in the text and the first masked byte is not zero. *)
Theorem beacon_roundtrip st now now' peers ttl_hours text pre post b e :
  Forall addr_ok peers -> zlen (v4addrs peers) < 256 -> fresh now now' ttl_hours ->
  (forall data c, peerlist_bytes (E := Error) now peers = Ok data -> encrypt_data (E := Error) st data = Ok c -> hd 0 c <> 0) ->
  begin (E := Error) st = Ok b -> end_ (E := Error) st = Ok e ->
  (forall s, peerlist_encode (E := Error) st now peers = Ok s ->
     base_62_sanitize text = pre ++ b ++ String.list_ascii_of_string s ++ e ++ post /\
     find b (pre ++ b ++ String.list_ascii_of_string s ++ e ++ post) = Some (length pre) /\
     find e (b ++ String.list_ascii_of_string s ++ e ++ post) = Some (length b + String.length s)%nat /\
     find b (String.list_ascii_of_string s ++ e ++ post) = None) ->
  exists s, encode (E := Error) st now peers = Ok (String.string_of_list_ascii b +:+ s +:+ String.string_of_list_ascii e) /\
    decode (E := Error) st now' text ttl_hours = Ok (carried peers).
Proof.
  intros Hp Hn Hf Hz Hb He Hfree. destruct (peerlist_roundtrip (E := Error) st now now' peers ttl_hours Hp Hn Hf Hz) as (s & Hs & Hd & Halnum).
  destruct (Hfree s Hs) as (Ht & Hpre & Hfe & Hfb). exists s. unfold encode, decode. rewrite Hb, He. cbn [mbind outcome_bind]. rewrite Hs. cbn [mbind outcome_bind].
  split; [done|]. rewrite Ht. pose proof (marker_len st _ b Hb) as Hbl. set (cs := String.list_ascii_of_string s) in *.
  assert (length cs = String.length s) as Hcl by apply length_text.
  rewrite <- Hcl in Hfe. set (rest := cs ++ e ++ post) in *. set (data := pre ++ b ++ rest) in *.
  assert (length data = (length pre + 5 + length cs + length e + length post)%nat) as Hdl by (unfold data, rest; rewrite !length_app; lia).
  assert (exists f, length data = S f) as [f Hlen] by (rewrite Hdl; exists (length pre + 4 + length cs + length e + length post)%nat; lia).
  assert (drop (length pre) data = b ++ rest) as Hdp by (unfold data; by rewrite drop_app_length).
  assert (drop (length pre + length b) data = rest) as Hdr by (rewrite <- drop_drop, Hdp; by rewrite drop_app_length).
  rewrite Hlen at 1. cbn [decode_loop]. rewrite (slice_rest 0) by lia. cbn [mbind outcome_bind]. rewrite drop_0, Hpre. cbn [Nat.add].
  rewrite (slice_rest (length pre)) by lia. cbn [mbind outcome_bind]. rewrite Hdp, Hfe.
  rewrite (slice_str_ok (length pre + length b) (length pre + (length b + length cs)) data) by lia. cbn [mbind outcome_bind].
  rewrite Hdr. replace (length pre + (length b + length cs) - (length pre + length b))%nat with (length cs) by lia.
  unfold rest at 1. rewrite take_app_length, Hd. cbn [mbind outcome_bind app].
  rewrite (slice_rest (length pre + length b)) by lia. cbn [mbind outcome_bind]. by rewrite Hdr, Hfb.
Qed.
End Masks.

(** ** The hypotheses can hold *)

Definition toy_beacon : BeaconSerializer := new [].
Definition toy_peers : list SocketAddr := [V6 (replicate 16 7) 81 0 0; V4 [1; 2; 3; 4] 80].

Lemma find_starts pat s n : find pat s = Some n -> starts_with pat (drop n s) = true.
Proof. intros Hf. destruct (find_spec _ _ _ Hf) as (rest & -> & _). apply starts_with_app. Qed.

Definition toy_begin : list ascii := String.list_ascii_of_string "1AFza".
Definition toy_end : list ascii := String.list_ascii_of_string "1OhzV".

Lemma toy_apart : markers_apart toy_begin toy_end.
Proof.
  intros rest n Hn. apply find_starts in Hn. destruct (decide (n < 5)%nat) as [Hl|Hl]; [|cbn; lia].
  do 5 (destruct n as [|n]; [discriminate Hn|]). lia.
Qed.

Lemma beacon_decode_total_witness :
  markers_apart toy_begin toy_end /\
  exists peers, decode (H := toy_ring) (E := Error) toy_beacon 7200 "1AFza, 0 and 1OhzV!" (Some 2) = Ok peers.
Proof.
  split; [exact toy_apart|].
  apply (beacon_decode_total (H := toy_ring) toy_beacon 7200 _ (Some 2) toy_begin toy_end);
    [by vm_compute|by vm_compute|exact toy_apart].
Defined.

Lemma beacon_roundtrip_witness :
  exists s, encode (H := toy_ring) (E := Error) toy_beacon 7200 toy_peers = Ok ("1AFza" +:+ s +:+ "1OhzV") /\
    decode (H := toy_ring) (E := Error) toy_beacon 10800 "See 1AFza28CgzG YZ4lmvpDCYgEfGPzxTL4vITnlFjjrvZ5-1OhzV, please." (Some 2)
      = Ok [V4 [1; 2; 3; 4] 80; V6 (replicate 16 7) 81 0 0].
Proof.
  apply (beacon_roundtrip (H := toy_ring) toy_beacon 7200 10800 toy_peers (Some 2) _
    (String.list_ascii_of_string "See") (String.list_ascii_of_string "please") toy_begin toy_end).
  - repeat constructor; by apply (bool_decide_unpack _); vm_compute.
  - by vm_compute.
  - by vm_compute.
  - intros data c Hd Hc. vm_compute in Hd. injection Hd as <-. vm_compute in Hc. injection Hc as <-. by vm_compute.
  - by vm_compute.
  - by vm_compute.
  - intros s Hs. vm_compute in Hs. injection Hs as <-. repeat split; by vm_compute.
Defined.
