(* ===== verification/Device.v ===== *)
(** * The network interface (src/src/device.rs)

    The trait [Device] as a class, with the mock device of the tests and the
    TUN/TAP device as instances, on the Linux target. What the kernel does (the
    device file, the ioctls, /proc) is the class [Host]. *)

From S2P Require Import Prelude Errors Util Types Core.

Inductive DeviceType : Type := Tun | Tap.

#[export] Instance DeviceType_eq_dec : EqDecision DeviceType.
Proof. solve_decision. Defined.

Module DeviceType.

Definition fmt (t : DeviceType) : string := match t with Tun => "tun" | Tap => "tap" end.

Definition from_str (text : string) : outcome string DeviceType :=
  let t := Mode.to_lowercase text in
  if decide (t = "tun"%string) then Ok Tun
  else if decide (t = "tap"%string) then Ok Tap
  else Err "Unknown device type"%string.

End DeviceType.

(** The trait: a call works on the device and the buffer passed along. *)
Class Device (D : Type) : Type := {
  get_type : D -> DeviceType;
  ifname : D -> string;
  read : ST (D * MsgBuffer) Error unit;
  write : ST (D * MsgBuffer) Error unit;
  get_ip : D -> Result bytes
}.

Definition on_dev {D E A} (m : ST D E A) : ST (D * MsgBuffer) E A := zoom fst (fun d s => (d, snd s)) m.
Definition on_buf {D E A} (m : ST MsgBuffer E A) : ST (D * MsgBuffer) E A := zoom snd (fun b s => (fst s, b)) m.

(** ** The mock device *)

Record MockDevice : Type := mkMockDevice { inbound : list bytes; outbound : list bytes }.

Module MockDevice.

Definition new : MockDevice := mkMockDevice [] [].
Definition put_inbound (data : bytes) (d : MockDevice) : MockDevice := mkMockDevice (inbound d ++ [data]) (outbound d).
Definition pop_outbound (d : MockDevice) : MockDevice * option bytes :=
  match outbound d with
  | [] => (d, None)
  | data :: rest => (mkMockDevice (inbound d) rest, Some data)
  end.
Definition has_inbound (d : MockDevice) : bool := negb (bool_decide (inbound d = [])).

Definition read : ST (MockDevice * MsgBuffer) Error unit :=
  d ← on_dev get;
  match inbound d with
  | data :: rest =>
      on_dev (modify (fun d => mkMockDevice rest (outbound d))) ;;
      on_buf (modify MsgBuffer.clear) ;;
      on_buf (modify (MsgBuffer.set_length (zlen data))) ;;
      on_buf (MsgBuffer.put_message data)
  | [] => throw (EDevice "empty")
  end.

Definition write : ST (MockDevice * MsgBuffer) Error unit :=
  data ← on_buf (fun b => (b, MsgBuffer.message b));
  on_dev (modify (fun d => mkMockDevice (inbound d) (outbound d ++ [data]))).

End MockDevice.

#[export] Instance mock_device : Device MockDevice := {|
  get_type _ := Tun;
  ifname _ := "mock0"%string;
  read := MockDevice.read;
  write := MockDevice.write;
  get_ip _ := Err (EDevice "Dummy devices have no IP address")
|}.

(** ** The TUN/TAP device *)

(** An open device file: [Read::read] into a slice of a given length,
    [write_all] and [flush]. *)
Class DeviceFile (F : Type) : Type := {
  file_read : nat -> ST F ErrorKind bytes;
  file_write_all : bytes -> ST F ErrorKind unit;
  file_flush : ST F ErrorKind unit
}.

Record TunTapDevice (F : Type) : Type := mkTunTapDevice { fd : F; tt_ifname : string; type_ : DeviceType }.
Arguments mkTunTapDevice {F} _ _ _.
Arguments fd {F} _.
Arguments tt_ifname {F} _.
Arguments type_ {F} _.

(** [map_err] on a call with state. *)
Definition map_err_st {S E F A} (f : E -> F) (m : ST S E A) : ST S F A := fun s =>
  let '(s, r) := m s in (s, map_err f r).

Definition IF_NAMESIZE : Z := 16.

(** The ioctls on an interface name and the files of /proc. *)
Class Host (W : Type) : Type := {
  (** the lines of a file, and its whole text *)
  read_lines : string -> ST W ErrorKind (list (outcome ErrorKind string));
  read_file : string -> ST W ErrorKind string;
  write_file : string -> string -> ST W ErrorKind unit;
  SIOCGIFMTU : string -> ST W ErrorKind Z;
  SIOCSIFMTU : string -> Z -> ST W ErrorKind unit;
  (** address family and address *)
  SIOCGIFADDR : string -> ST W ErrorKind (Z * bytes);
  SIOCSIFADDR : string -> Z * bytes -> ST W ErrorKind unit;
  SIOCGIFNETMASK : string -> ST W ErrorKind (Z * bytes);
  SIOCSIFNETMASK : string -> Z * bytes -> ST W ErrorKind unit;
  SIOCGIFFLAGS : string -> ST W ErrorKind Z;
  SIOCSIFFLAGS : string -> Z -> ST W ErrorKind unit
}.

Definition AF_INET : Z := 2.
Definition IFF_UP : Z := 1.
Definition IFF_RUNNING : Z := 64.

Section Host.
Context {W : Type} `{Host W}.

Abbreviation HM := (ST W ErrorKind).

(** [IfReq::new]: the name as it is passed to the kernel. *)
Definition ifreq (name : string) : HM string :=
  assert (bool_decide (Z.of_nat (String.length name) < IF_NAMESIZE)) ;;
  mret name.

Definition as_c_int (n : Z) : Z := let m := wrap32 n in if decide (m < 2 ^ 31) then m else m - 2 ^ 32.

Definition set_device_mtu (name : string) (mtu : Z) : HM unit :=
  name ← ifreq name; SIOCSIFMTU name (as_c_int mtu).
(** [value as usize] of a C int. *)
Definition get_device_mtu (name : string) : HM Z :=
  name ← ifreq name; value ← SIOCGIFMTU name; mret (wrap64 value).

Definition inet_only (x : Z * bytes) : HM bytes :=
  if decide (x.1 = AF_INET) then mret x.2 else throw AddrNotAvailable.
Definition get_device_addr (name : string) : HM bytes :=
  name ← ifreq name; x ← SIOCGIFADDR name; inet_only x.
Definition set_device_addr (name : string) (addr : bytes) : HM unit :=
  name ← ifreq name; SIOCSIFADDR name (AF_INET, addr).
Definition get_device_netmask (name : string) : HM bytes :=
  name ← ifreq name; x ← SIOCGIFNETMASK name; inet_only x.
Definition set_device_netmask (name : string) (addr : bytes) : HM unit :=
  name ← ifreq name; SIOCSIFNETMASK name (AF_INET, addr).

Definition set_device_enabled (name : string) (up : bool) : HM unit :=
  name ← ifreq name;
  value ← SIOCGIFFLAGS name;
  SIOCSIFFLAGS name (if up then Z.lor value (Z.lor IFF_UP IFF_RUNNING) else Z.land value (Z.lnot IFF_UP)).

(** The lines of the routing table, until the default route. *)
Fixpoint default_device_loop (lines : list (outcome ErrorKind string)) (best : option string) : outcome ErrorKind (option string) :=
  match lines with
  | [] => Ok best
  | line :: lines =>
      line ← line;
      let parts := Address.split_at (Ascii.ascii_of_nat 9) line in
      p1 ← index parts 1;
      if decide (p1 = "00000000"%string) then p0 ← index parts 0; Ok (Some p0)
      else
        p2 ← index parts 2;
        if decide (p2 <> "00000000"%string) then p0 ← index parts 0; default_device_loop lines (Some p0)
        else default_device_loop lines best
  end.

Definition get_default_device : HM string :=
  lines ← read_lines "/proc/net/route";
  best ← lift (default_device_loop lines None);
  match best with
  | Some name => mret name
  | None => throw NotFound
  end.

Definition rp_filter_path (device : string) : string := "/proc/sys/net/ipv4/conf/" +:+ device +:+ "/rp_filter".

(** [str::trim] on the white space of ASCII. *)
Definition is_whitespace (c : Ascii.ascii) : bool :=
  let n := Ascii.nat_of_ascii c in bool_decide ((9 <= n <= 13)%nat \/ n = 32%nat).
Fixpoint trim_start (s : list Ascii.ascii) : list Ascii.ascii :=
  match s with
  | c :: s' => if is_whitespace c then trim_start s' else s
  | [] => []
  end.
Definition trim (s : string) : string :=
  String.string_of_list_ascii (reverse (trim_start (reverse (trim_start (String.list_ascii_of_string s))))).

Definition get_rp_filter (device : string) : HM Z :=
  contents ← read_file (rp_filter_path device);
  lift (ok_or (Range.uint_from_str 256 (trim contents)) InvalidData).

Definition set_rp_filter (device : string) (val : Z) : HM unit :=
  write_file (rp_filter_path device) (Address.fmt_u16 val +:+ newline).

End Host.

Module TunTapDevice.
Section TunTap.
Context {F : Type} `{DeviceFile F} {W : Type} `{Host W}.
Implicit Types d : TunTapDevice F.

Definition default_path (_ : DeviceType) : string := "/dev/net/tun".

Definition get_overhead d : Z :=
  40 + 8 + EXTRA_LEN + Ring.TAG_LEN + 1 + match type_ d with Tap => 14 | Tun => 0 end.

Definition set_mtu d (value : option Z) : ST W ErrorKind unit :=
  value ← match value with
          | Some value => mret value
          | None =>
              default_device ← get_default_device;
              mtu ← get_device_mtu default_device;
              mret (wrap64 (mtu - get_overhead d))
          end;
  set_device_mtu (tt_ifname d) value.

Definition configure d (addr netmask : bytes) : ST W ErrorKind unit :=
  set_device_addr (tt_ifname d) addr ;;
  set_device_netmask (tt_ifname d) netmask ;;
  set_device_enabled (tt_ifname d) true.

Definition rp_filter d : ST W ErrorKind Z :=
  all ← get_rp_filter "all";
  own ← get_rp_filter (tt_ifname d);
  mret (Z.max all own).

Definition fix_rp_filter d : ST W ErrorKind unit :=
  all ← get_rp_filter "all";
  (if decide (1 < all) then set_rp_filter "all" 1 else mret ()) ;;
  own ← get_rp_filter (tt_ifname d);
  if decide (own <> 1) then set_rp_filter (tt_ifname d) 1 else mret ().

Definition on_fd {E A} (m : ST F E A) : ST (TunTapDevice F * MsgBuffer) E A :=
  on_dev (zoom fd (fun f d => mkTunTapDevice f (tt_ifname d) (type_ d)) m).

(** [fd.read(buffer.buffer())] overwrites the front of the slice. *)
Definition read : ST (TunTapDevice F * MsgBuffer) Error unit :=
  on_buf (modify MsgBuffer.clear) ;;
  view ← on_buf (fun b => (b, MsgBuffer.buffer b));
  bs ← on_fd (map_err_st (DeviceIo "Read error") (file_read (length view)));
  on_buf (modify (fun b => MsgBuffer.set_data (splice (Z.to_nat (buf_start b)) bs (buf_data b)) b)) ;;
  on_buf (modify (MsgBuffer.set_length (zlen bs))).

Definition write : ST (TunTapDevice F * MsgBuffer) Error unit :=
  data ← on_buf (fun b => (b, MsgBuffer.message b));
  on_fd (map_err_st (DeviceIo "Write error") (file_write_all data)) ;;
  on_fd (map_err_st (DeviceIo "Flush error") file_flush).

(** What [get_device_addr] answers does not depend on the device's state. *)
Definition get_ip (w : W) d : Result bytes := map_err (DeviceIo "Error getting IP address") (get_device_addr (tt_ifname d) w).2.

End TunTap.
End TunTapDevice.

#[export] Instance tuntap_device {F W} `{DeviceFile F} `{Host W} (w : W) : Device (TunTapDevice F) := {|
  get_type := type_;
  ifname := tt_ifname;
  read := TunTapDevice.read;
  write := TunTapDevice.write;
  get_ip := TunTapDevice.get_ip w
|}.

(** ** Filling the buffer *)

(** A cleared buffer takes a packet that fits behind its reserved space. *)
Lemma load_spec {D E} (d : D) b data : MsgBuffer.wf b -> bytes_ok data -> zlen data <= BUFFER_SIZE - space_before b ->
  exists b', (on_buf (modify MsgBuffer.clear) ;; on_buf (modify (MsgBuffer.set_length (zlen data))) ;;
              on_buf (MsgBuffer.put_message data)) (d, b) = ((d, b'), Ok (E := E) ()) /\
    MsgBuffer.wf b' /\ MsgBuffer.contents b' = data /\ buf_start b' = space_before b /\ space_before b' = space_before b.
Proof.
  intros Hb Hd Hl. destruct (clear_empty b Hb) as [_ Hs].
  destruct (clone_from_spec (E := E) (MsgBuffer.clear b) data) as (b' & Hc & Hw & Hcont & Hst & Hsp); [by apply clear_wf|done|by rewrite Hs|].
  exists b'. split; [|by rewrite Hst, Hsp].
  unfold MsgBuffer.clone_from in Hc. unfold mbind, ST_bind, modify in Hc |- *. unfold on_buf, zoom. cbn [fst snd].
  cbv beta iota in Hc. cbn [fst snd]. by rewrite Hc.
Qed.

(** A mock device hands out its packets in order and keeps those written. *)
Lemma mock_read_spec d b data rest : inbound d = data :: rest -> MsgBuffer.wf b -> bytes_ok data ->
  zlen data <= BUFFER_SIZE - space_before b ->
  exists b', MockDevice.read (d, b) = ((mkMockDevice rest (outbound d), b'), Ok ()) /\
    MsgBuffer.wf b' /\ MsgBuffer.contents b' = data /\ buf_start b' = space_before b /\ space_before b' = space_before b.
Proof.
  intros Hi Hb Hd Hl. destruct (load_spec (E := Error) (mkMockDevice rest (outbound d)) b data Hb Hd Hl) as (b' & He & Hb').
  exists b'. split; [|done]. unfold MockDevice.read, on_dev, zoom, get, modify at 1. unfold mbind at 1, ST_bind at 1. cbn [fst snd]. rewrite Hi.
  exact He.
Qed.

Lemma mock_write_spec d b : MsgBuffer.wf b ->
  MockDevice.write (d, b) = ((mkMockDevice (inbound d) (outbound d ++ [MsgBuffer.contents b]), b), Ok ()).
Proof.
  intros Hb. unfold MockDevice.write, on_dev, on_buf, zoom, modify. unfold mbind, ST_bind. cbn [fst snd]. by rewrite message_wf.
Qed.

(** ** The default interface *)

(** The rows of a routing table: interface, destination, gateway. *)
Definition is_default (row : list string) : bool := bool_decide (row !! 1%nat = Some "00000000"%string).
Definition has_gateway (row : list string) : bool := bool_decide (row !! 2%nat <> Some "00000000"%string).

(** The first default route, without one the last route with a gateway. *)
Fixpoint default_interface (rows : list (list string)) (best : option string) : option string :=
  match rows with
  | [] => best
  | row :: rows =>
      if is_default row then head row
      else default_interface rows (if has_gateway row then head row else best)
  end.

Lemma default_device_loop_spec lines best :
  Forall (fun line => 3 <= length (Address.split_at (Ascii.ascii_of_nat 9) line))%nat lines ->
  default_device_loop (Ok <$> lines) best =
    Ok (default_interface (Address.split_at (Ascii.ascii_of_nat 9) <$> lines) best).
Proof.
  intros Hl. revert best. induction Hl as [|line lines Hline Hl IH]; intros best; [done|].
  cbn [fmap list_fmap default_device_loop default_interface]. cbn [mbind outcome_bind].
  destruct (Address.split_at _ line) as [|p0 [|p1 [|p2 ps]]]; cbn [length] in Hline; try lia.
  change (index (E := ErrorKind) (p0 :: p1 :: p2 :: ps) 1) with (Ok (E := ErrorKind) p1). cbn [mbind outcome_bind].
  unfold is_default, has_gateway. cbn [lookup list_lookup head].
  case_decide as H1; [subst p1; by rewrite bool_decide_eq_true_2|].
  rewrite bool_decide_eq_false_2 by congruence.
  change (index (E := ErrorKind) (p0 :: p1 :: p2 :: ps) 2) with (Ok (E := ErrorKind) p2). cbn [mbind outcome_bind].
  case_decide as H2; [rewrite bool_decide_eq_true_2 by congruence|rewrite bool_decide_eq_false_2 by (intros Hn; apply Hn; congruence)];
    cbn; apply IH.
Qed.

(** The interface whose MTU counts is that of the first default route or, without
    one, of the last route with a gateway, and an error when there is neither. *)
Theorem default_device_spec `{Host W} w w' lines :
  read_lines "/proc/net/route" w = (w', Ok (Ok <$> lines)) ->
  Forall (fun line => 3 <= length (Address.split_at (Ascii.ascii_of_nat 9) line))%nat lines ->
  get_default_device w =
    (w', match default_interface (Address.split_at (Ascii.ascii_of_nat 9) <$> lines) None with
         | Some name => Ok name
         | None => Err NotFound
         end).
Proof.
  intros Hr Hl. unfold get_default_device. unfold mbind, ST_bind. rewrite Hr.
  unfold lift. rewrite default_device_loop_spec by done. by destruct (default_interface _ None).
Qed.

(** The table's heading counts as a route with a gateway: without any route the
    answer is the name of the first column. *)
Theorem heading_is_default_device `{Host W} w w' :
  read_lines "/proc/net/route" w =
    (w', Ok [Ok ("Iface" +:+ String (Ascii.ascii_of_nat 9) "Destination" +:+ String (Ascii.ascii_of_nat 9) "Gateway")%string]) ->
  get_default_device w = (w', Ok "Iface"%string).
Proof. intros Hr. unfold get_default_device. unfold mbind, ST_bind. by rewrite Hr. Qed.

(** ** The reverse path filter *)

(** Files keep what was written to them. *)
Class HostLaws (W : Type) `{Host W} : Prop := {
  read_pure p w : (read_file p w).1 = w;
  write_read p text w w' : write_file p text w = (w', Ok ()) -> (read_file p w').2 = Ok text;
  write_other p q text w w' r : write_file p text w = (w', r) -> p <> q -> (read_file q w').2 = (read_file q w).2
}.

Section RpFilter.
Context {W : Type} `{HostLaws W}.

Lemma text_app a b : String.list_ascii_of_string (a +:+ b) = String.list_ascii_of_string a ++ String.list_ascii_of_string b.
Proof. induction a as [|c a IH]; [done|]. change (String c a +:+ b) with (String c (a +:+ b)). cbn. by rewrite IH. Qed.

Lemma rp_filter_path_inj a b : rp_filter_path a = rp_filter_path b -> a = b.
Proof.
  unfold rp_filter_path. intros Hab. apply (f_equal String.list_ascii_of_string) in Hab. rewrite !text_app in Hab.
  apply app_inv_head, app_inv_tail in Hab. apply (f_equal String.string_of_list_ascii) in Hab.
  by rewrite !String.string_of_list_ascii_of_string in Hab.
Qed.

Lemma get_rp_filter_eq device w :
  get_rp_filter device w = (w, (text ← (read_file (rp_filter_path device) w).2; ok_or (Range.uint_from_str 256 (trim text)) InvalidData)).
Proof.
  unfold get_rp_filter. unfold mbind, ST_bind, outcome_bind. pose proof (read_pure (rp_filter_path device) w) as Hp.
  destruct (read_file (rp_filter_path device) w) as [w' [t|e|]]; cbn in *; subst; done.
Qed.

Lemma set_get_rp_filter device w w' : set_rp_filter device 1 w = (w', Ok ()) -> get_rp_filter device w' = (w', Ok 1).
Proof. intros Hw. rewrite get_rp_filter_eq. unfold set_rp_filter in Hw. by rewrite (write_read _ _ _ _ Hw). Qed.

(** One conditional write of the filter. *)
Lemma maybe_set_rp_filter (b : bool) device v w w' :
  (if b then set_rp_filter device 1 else mret ()) w = (w', Ok ()) -> (get_rp_filter device w).2 = Ok v ->
  (get_rp_filter device w').2 = Ok (if b then 1 else v) /\
  forall other, device <> other -> (get_rp_filter other w').2 = (get_rp_filter other w).2.
Proof.
  intros Hw Hv. destruct b; [|by injection Hw as <-]. split; [by rewrite (set_get_rp_filter _ _ _ Hw)|].
  intros other Hne. rewrite !get_rp_filter_eq. cbn [snd]. rewrite (write_other _ _ _ _ _ _ Hw); [done|].
  intros Hp. by apply Hne, rp_filter_path_inj.
Qed.

(** Once [fix_rp_filter] has succeeded, the filter in force on the device, the
    greater of its own setting and that for all devices, is 1. *)
Theorem rp_filter_fixed {F} (d : TunTapDevice F) w w' : tt_ifname d <> "all"%string ->
  (forall v, (get_rp_filter "all" w).2 = Ok v -> 0 <= v) ->
  TunTapDevice.fix_rp_filter d w = (w', Ok ()) -> (TunTapDevice.rp_filter d w').2 = Ok 1.
Proof.
  intros Hne Hpos Hf. unfold TunTapDevice.fix_rp_filter in Hf. unfold mbind, ST_bind in Hf.
  pose proof (get_rp_filter_eq "all" w) as Ha. destruct (get_rp_filter "all" w) as [w0 [v|e|]]; try done. injection Ha as -> Ha.
  specialize (Hpos v eq_refl).
  assert (get_rp_filter "all" w = (w, Ok v)) as Hall by (by rewrite get_rp_filter_eq, Ha).
  assert (forall (P : Prop) (dec : Decision P) (m n : ST W ErrorKind unit), (if decide P then m else n) = if bool_decide P then m else n) as Hdec.
  { intros P dec m n. case_bool_decide; [by rewrite decide_True|by rewrite decide_False]. }
  rewrite Hdec in Hf. set (b1 := bool_decide (1 < v)) in *.
  destruct ((if b1 then set_rp_filter "all" 1 else mret ()) w) as [w1 [[]|e|]] eqn:H1; try done.
  destruct (maybe_set_rp_filter b1 "all" v w w1 H1) as [Hall1 _]; [by rewrite Hall|].
  pose proof (get_rp_filter_eq (tt_ifname d) w1) as Ho. destruct (get_rp_filter (tt_ifname d) w1) as [w1' [u|e|]] eqn:Hown; try done.
  injection Ho as -> _. rewrite Hdec in Hf.
  destruct (maybe_set_rp_filter (bool_decide (u <> 1)) (tt_ifname d) u w1 w' Hf) as [Hown2 Hother]; [by rewrite Hown|].
  specialize (Hother "all"%string Hne). rewrite Hall1 in Hother.
  assert (forall device r, (get_rp_filter device w').2 = r -> get_rp_filter device w' = (w', r)) as Hget by (intros device r <-; by rewrite get_rp_filter_eq).
  unfold TunTapDevice.rp_filter. unfold mbind, ST_bind. rewrite (Hget _ _ Hother), (Hget _ _ Hown2). cbn. f_equal.
  subst b1. destruct (bool_decide (1 < v)) eqn:Hb1, (bool_decide (u <> 1)) eqn:Hb2;
    rewrite ?bool_decide_eq_true, ?bool_decide_eq_false in *; lia.
Qed.

End RpFilter.

(** ** A toy host: files only *)

Abbreviation ToyHost := (gmap string string).

#[export] Instance toy_host : Host ToyHost := {|
  read_lines p w := (w, match w !! p with Some t => Ok (Ok <$> Address.split_at (Ascii.ascii_of_nat 10) t) | None => Err NotFound end);
  read_file p w := (w, match w !! p with Some t => Ok t | None => Err NotFound end);
  write_file p t w := (<[p := t]> w, Ok ());
  SIOCGIFMTU _ w := (w, Ok 1500);
  SIOCSIFMTU _ _ w := (w, Ok ());
  SIOCGIFADDR _ w := (w, Ok (0, []));
  SIOCSIFADDR _ _ w := (w, Ok ());
  SIOCGIFNETMASK _ w := (w, Ok (0, []));
  SIOCSIFNETMASK _ _ w := (w, Ok ());
  SIOCGIFFLAGS _ w := (w, Ok 0);
  SIOCSIFFLAGS _ _ w := (w, Ok ())
|}.

#[export] Instance toy_host_laws : HostLaws ToyHost.
Proof.
  split; cbn.
  - done.
  - intros p t w w' [= <-]. by rewrite lookup_insert_eq.
  - intros p q t w w' r [= <- _] Hpq. by rewrite lookup_insert_ne.
Qed.

Definition toy_routes : string :=
  "Iface" +:+ String (Ascii.ascii_of_nat 9) ("Destination" +:+ String (Ascii.ascii_of_nat 9) ("Gateway" +:+ newline +:+
  "eth1" +:+ String (Ascii.ascii_of_nat 9) ("0A000000" +:+ String (Ascii.ascii_of_nat 9) ("00000000" +:+ newline +:+
  "eth0" +:+ String (Ascii.ascii_of_nat 9) ("00000000" +:+ String (Ascii.ascii_of_nat 9) "0100000A")))))%string.
Definition toy_files : ToyHost :=
  {["/proc/net/route" := toy_routes; rp_filter_path "all" := "2"%string; rp_filter_path "vpn0" := ("0" +:+ newline)%string]}.

Lemma default_device_spec_witness : (get_default_device toy_files).2 = Ok "eth0"%string.
Proof.
  rewrite (default_device_spec toy_files toy_files (Address.split_at (Ascii.ascii_of_nat 10) toy_routes)).
  - cbv. reflexivity.
  - change (read_lines (Host := toy_host) "/proc/net/route" toy_files) with
      (toy_files, match toy_files !! "/proc/net/route"%string with
                  | Some t => Ok (Ok <$> Address.split_at (Ascii.ascii_of_nat 10) t)
                  | None => Err NotFound
                  end : outcome ErrorKind (list (outcome ErrorKind string))).
    unfold toy_files at 2. by rewrite lookup_insert_eq.
  - set (lines := Address.split_at _ toy_routes). vm_compute in lines. subst lines.
    repeat (apply Forall_cons_2; [vm_compute; lia|]). constructor.
Defined.

Lemma rp_filter_fixed_witness :
  (TunTapDevice.rp_filter (mkTunTapDevice () "vpn0" Tun) (TunTapDevice.fix_rp_filter (mkTunTapDevice () "vpn0" Tun) toy_files).1).2 = Ok 1.
Proof.
  apply (rp_filter_fixed (mkTunTapDevice () "vpn0" Tun) toy_files).
  - done.
  - intros v Hv. vm_compute in Hv. injection Hv as <-. lia.
  - vm_compute. reflexivity.
Defined.
