(* ===== verification/Tuntap.v ===== *)
(** * Opening a TUN/TAP device (src/src/device.rs)

    How the device file becomes an interface with a name, and the four bytes that
    other systems than Linux put in front of the packets of a TUN device. *)

From S2P Require Import Prelude Errors Util Types Core Device Payload.

(** ** Text read from the kernel *)

(** [char::from_utf8]: the well-formed byte sequences. *)
Definition is_cont (b : Z) : bool := (128 <=? b) && (b <=? 191).
Fixpoint utf8_valid (bs : bytes) : bool :=
  match bs with
  | [] => true
  | a :: r =>
      if a <? 128 then utf8_valid r
      else
        match r with
        | [] => false
        | b :: r1 =>
            if (194 <=? a) && (a <=? 223) then is_cont b && utf8_valid r1
            else
              match r1 with
              | [] => false
              | c :: r2 =>
                  if (224 <=? a) && (a <=? 239) then
                    is_cont b && is_cont c && ((224 <? a) || (160 <=? b)) && (negb (a =? 237) || (b <=? 159)) && utf8_valid r2
                  else
                    match r2 with
                    | [] => false
                    | d :: r3 =>
                        if (240 <=? a) && (a <=? 244) then
                          is_cont b && is_cont c && is_cont d && ((240 <? a) || (144 <=? b)) && ((a <? 244) || (b <=? 143)) && utf8_valid r3
                        else false
                    end
              end
        end
  end.

Definition string_of_bytes (bs : bytes) : string :=
  String.string_of_list_ascii ((fun b => Ascii.ascii_of_nat (Z.to_nat b)) <$> bs).

(** [trim_end_matches('\0')], on the bytes. *)
Fixpoint drop_zeros (bs : bytes) : bytes :=
  match bs with
  | b :: r => if decide (b = 0) then drop_zeros r else bs
  | [] => []
  end.
Definition trim_zeros (bs : bytes) : bytes := reverse (drop_zeros (reverse bs)).

(** ** The device file *)

(** [OpenOptions::open] for reading and writing, and the ioctl that makes the file
    an interface: given a name and flags it fills in the sixteen bytes of the name. *)
Class TunDriver (F : Type) : Type := {
  open_device : string -> outcome ErrorKind F;
  TUNSETIFF : string -> Z -> ST F ErrorKind bytes
}.

Definition IFF_TUN : Z := 1.
Definition IFF_TAP : Z := 2.
Definition IFF_NO_PI : Z := 4096.

Module Tuntap.
Section Open.
Context {F : Type} `{TunDriver F}.

Definition device_flags (t : DeviceType) : Z :=
  match t with Tun => Z.lor IFF_TUN IFF_NO_PI | Tap => Z.lor IFF_TAP IFF_NO_PI end.

Definition new (ifname : string) (t : DeviceType) (path : option string) : outcome ErrorKind (TunTapDevice F) :=
  let path := match path with Some path => path | None => TunTapDevice.default_path t end in
  fd ← open_device path;
  '(fd, ifr_name) ← match (name ← ifreq (W := F) ifname; TUNSETIFF name (device_flags t)) fd with
                    | (fd, r) => ifr_name ← r; Ok (fd, ifr_name)
                    end;
  text ← ok_or (if utf8_valid ifr_name then Some ifr_name else None) InvalidData;
  Ok (mkTunTapDevice fd (string_of_bytes (trim_zeros text)) t).

(** [correct_data_after_read] and [correct_data_before_write] of the BSDs: a TUN
    device has the type of its packets in front of them. *)
Definition correct_data_after_read_bsd {E} (d : TunTapDevice F) : ST MsgBuffer E unit :=
  if decide (type_ d = Tun) then modify (fun b => MsgBuffer.set_start (wrap64 (MsgBuffer.get_start b + 4)) b) else mret ().

Definition correct_data_before_write_bsd {E} (d : TunTapDevice F) : ST MsgBuffer E unit :=
  if decide (type_ d = Tun) then
    modify (fun b => MsgBuffer.set_start (wrap64 (MsgBuffer.get_start b - 4)) b) ;;
    msg ← (fun b => (b, MsgBuffer.message b));
    first ← lift (index msg 4);
    let version := Z.shiftr first 4 in
    header ← (if decide (version = 4) then mret [0; 0; 8; 0]
              else if decide (version = 6) then mret [0; 0; 134; 221]
              else panic);
    MsgBuffer.put_message (splice 0 header msg)
  else mret ().

End Open.
End Tuntap.

(** ** The name of the interface *)

Lemma drop_zeros_length bs : (length (drop_zeros bs) <= length bs)%nat.
Proof. induction bs as [|b bs IH]; [done|]. cbn. case_decide; cbn; lia. Qed.

Lemma trim_zeros_last bs : (length (trim_zeros (bs ++ [0%Z])) <= length bs)%nat.
Proof.
  unfold trim_zeros. rewrite reverse_snoc, length_reverse. cbn [drop_zeros]. rewrite decide_True by done.
  etrans; [apply drop_zeros_length|]. by rewrite length_reverse.
Qed.

Lemma drop_zeros_replicate n bs : drop_zeros (replicate n 0 ++ bs) = drop_zeros bs.
Proof. induction n as [|n IH]; [done|]. cbn. by rewrite decide_True. Qed.

Lemma trim_zeros_padded name n : name <> [] -> last name <> Some 0 -> trim_zeros (name ++ replicate n 0) = name.
Proof.
  intros Hne Hl. unfold trim_zeros. rewrite reverse_app, reverse_replicate, drop_zeros_replicate.
  destruct (reverse name) as [|x l] eqn:Hr; [by apply (f_equal reverse) in Hr; rewrite reverse_involutive in Hr|].
  assert (name = reverse l ++ [x]) as Hn by (rewrite <- (reverse_involutive name), Hr; by rewrite reverse_cons).
  cbn [drop_zeros]. rewrite decide_False.
  - by rewrite <- Hr, reverse_involutive.
  - intros ->. apply Hl. by rewrite Hn, last_snoc.
Qed.

Lemma length_string_of_bytes bs : String.length (string_of_bytes bs) = length bs.
Proof. unfold string_of_bytes. induction bs as [|b bs IH]; [done|]. cbn. by rewrite IH. Qed.

(** The interface has the name the kernel gave it, which is what later calls on the
    interface pass to the kernel: as the kernel ends names with a zero byte, it
    always fits and none of these calls panics on it. *)
Theorem opened_name `{TunDriver F} name t path (d : TunTapDevice F) :
  Tuntap.new name t path = Ok d ->
  (forall fd n flags fd' ifr, TUNSETIFF n flags fd = (fd', Ok ifr) -> exists given, ifr = given ++ [0] /\ length given = 15%nat) ->
  Z.of_nat (String.length (tt_ifname d)) < IF_NAMESIZE /\ type_ d = t /\
  forall W (w : W), ifreq (W := W) (tt_ifname d) w = (w, Ok (tt_ifname d)).
Proof.
  intros Hn Hk. unfold Tuntap.new in Hn. set (p := match path with Some p => p | None => _ end) in Hn.
  destruct (open_device p) as [fd|e|]; [|done..]. cbn [mbind outcome_bind] in Hn.
  unfold mbind at 2, ST_bind, ifreq at 1 in Hn. unfold mbind, ST_bind, assert in Hn.
  case_bool_decide; [|done]. cbn [mret ST_ret] in Hn.
  destruct (TUNSETIFF name (Tuntap.device_flags t) fd) as [fd' [ifr|e|]] eqn:Hio; [|done..]. cbn in Hn.
  destruct (Hk _ _ _ _ _ Hio) as (given & -> & Hg). destruct (utf8_valid (given ++ [0])); [|done]. injection Hn as <-. cbn [tt_ifname type_].
  assert (Z.of_nat (String.length (string_of_bytes (trim_zeros (given ++ [0])))) < IF_NAMESIZE) as Hlt.
  { rewrite length_string_of_bytes. pose proof (trim_zeros_last given). unfold IF_NAMESIZE. lia. }
  split; [exact Hlt|]. split; [done|]. intros W w. unfold ifreq, assert, mbind, ST_bind. by rewrite bool_decide_eq_true_2.
Qed.

(** ** Packets of other systems *)

(** The view on the buffer, wider and narrower. *)
Lemma widen_spec b n : MsgBuffer.wf b -> 0 <= n <= buf_start b ->
  let b' := MsgBuffer.set_start (buf_start b - n) b in
  MsgBuffer.wf b' /\ exists old, zlen old = n /\ bytes_ok old /\ MsgBuffer.contents b' = old ++ MsgBuffer.contents b.
Proof.
  intros Hb Hn b'. pose proof Hb as (H1 & H2 & H3 & H4 & H5).
  assert (MsgBuffer.wf b') as Hb' by (unfold b'; split_and!; cbn; done || lia). split; [exact Hb'|].
  exists (take (Z.to_nat n) (drop (Z.to_nat (buf_start b - n)) (buf_data b))).
  split; [unfold zlen, BUFFER_SIZE in *; rewrite length_take, length_drop; lia|]. split; [by apply Forall_take, Forall_drop|].
  unfold MsgBuffer.contents, b'. cbn [buf_start buf_end buf_data MsgBuffer.set_start].
  replace (Z.to_nat (buf_end b - (buf_start b - n))) with (Z.to_nat n + Z.to_nat (buf_end b - buf_start b))%nat by lia.
  rewrite <- (take_take_drop _ (Z.to_nat n)). f_equal. rewrite drop_drop. do 2 f_equal. lia.
Qed.

Lemma narrow_spec b header rest : MsgBuffer.wf b -> MsgBuffer.contents b = header ++ rest ->
  MsgBuffer.contents (MsgBuffer.set_start (wrap64 (buf_start b + zlen header)) b) = rest.
Proof.
  intros Hb Hc. pose proof Hb as (H1 & H2 & H3 & H4 & H5).
  pose proof (length_contents b Hb) as Hl. rewrite Hc in Hl. unfold zlen in *. rewrite length_app in Hl.
  rewrite wrap64_small by (unfold BUFFER_SIZE in *; lia). unfold MsgBuffer.contents in *. cbn [buf_start buf_end buf_data MsgBuffer.set_start].
  apply (f_equal (drop (length header))) in Hc. rewrite drop_app_length in Hc. rewrite <- Hc, skipn_firstn_comm, drop_drop.
  f_equal; [lia|]. f_equal. lia.
Qed.

(** A packet a node has received from a peer, parsed and hands to the device gets a
    header that says what it is and the code never runs into its [unreachable!]; the
    same header is taken off when such a packet is read. *)
Theorem bsd_header_roundtrip {F} (d : TunTapDevice F) b addrs : type_ d = Tun ->
  MsgBuffer.wf b -> 4 <= buf_start b -> parse (P := Packet) (MsgBuffer.contents b) = Ok addrs ->
  exists b1 b2 header, Tuntap.correct_data_before_write_bsd (E := Error) d b = (b1, Ok ()) /\
    MsgBuffer.contents b1 = header ++ MsgBuffer.contents b /\ header ∈ [[0; 0; 8; 0]; [0; 0; 134; 221]] /\
    Tuntap.correct_data_after_read_bsd (E := Error) d b1 = (b2, Ok ()) /\ MsgBuffer.contents b2 = MsgBuffer.contents b.
Proof.
  intros Ht Hb Hs Hp. destruct (widen_spec b 4 Hb) as (Hw & old & Hl & Ho & Hc); [lia|]. cbn zeta in *.
  set (b0 := MsgBuffer.set_start (buf_start b - 4) b) in *. unfold zlen in Hl.
  unfold parse, parse_packet in Hp. destruct (MsgBuffer.contents b) as [|d0 data] eqn:Hd; [done|].
  assert (exists header, header ∈ [[0; 0; 8; 0]; [0; 0; 134; 221]] /\
    (if decide (Z.shiftr d0 4 = 4) then mret [0; 0; 8; 0] else if decide (Z.shiftr d0 4 = 6) then mret [0; 0; 134; 221] else panic : ST MsgBuffer Error bytes) b0 =
      (b0, Ok header)) as (header & Hh & Hheader).
  { case_decide; [eexists; split; [by left|done]|]. case_decide; [eexists; split; [by right; left|done]|done]. }
  assert (length header = 4%nat /\ bytes_ok header) as [Hhl Hho].
  { apply list_elem_of_In in Hh as [<-|[<-|[]]]; (split; [done|]); apply (bool_decide_unpack _); vm_compute; exact I. }
  assert (splice 0 header (old ++ d0 :: data) = header ++ d0 :: data) as Hsp.
  { unfold splice. cbn [take app Nat.add]. by rewrite drop_app_length' by lia. }
  destruct (put_message_spec (E := Error) b0 (splice 0 header (MsgBuffer.contents b0))) as (b1 & Hput & Hw1 & Hc1 & Hs1 & _); [done|..].
  { apply bytes_ok_splice; [done|]. by apply contents_bytes_ok. }
  { rewrite <- length_contents by done. unfold zlen. rewrite length_splice; [done|]. rewrite Hc, length_app. lia. }
  assert (index (E := Error) (old ++ d0 :: data) 4 = Ok d0) as Hindex.
  { unfold index. rewrite decide_True by lia. rewrite lookup_app_r by lia.
    by replace (Z.to_nat 4 - length old)%nat with 0%nat by lia. }
  exists b1, (MsgBuffer.set_start (wrap64 (buf_start b1 + 4)) b1), header. rewrite Hc, Hsp in Hc1. split_and!; try done.
  - unfold Tuntap.correct_data_before_write_bsd. rewrite decide_True by done. unfold mbind, ST_bind, modify, MsgBuffer.get_start.
    rewrite wrap64_small by (destruct Hb as (_ & _ & _ & ? & ?); unfold BUFFER_SIZE in *; lia). fold b0. rewrite message_wf, Hc by done.
    unfold lift at 1. rewrite Hindex. cbv beta iota. unfold mbind, ST_bind in Hheader. rewrite Hheader. by rewrite Hc in Hput.
  - unfold Tuntap.correct_data_after_read_bsd. by rewrite decide_True.
  - replace 4 with (zlen header) by (unfold zlen; lia). by apply narrow_spec.
Qed.
