(* ===== verification/Net.v ===== *)
(** * Sockets (src/src/net.rs, src/src/wsproxy.rs)

    The trait [Socket] as a class, with the UDP socket, the mock socket of the
    tests and the websocket proxy connection as instances. The operating
    system's socket and the websocket library are classes. *)

From S2P Require Import Prelude Errors Util Types Messages Device.

Definition DEFAULT_PORT : Z := 3210.

(** [Ipv4Addr::to_ipv6_mapped]. *)
Definition to_ipv6_mapped (ip : bytes) : bytes := replicate 10 0 ++ [255; 255] ++ ip.

Definition mapped_addr (addr : SocketAddr) : SocketAddr :=
  match addr with
  | V4 ip port => V6 (to_ipv6_mapped ip) port 0 0
  | V6 _ _ _ _ => addr
  end.

(** [str::parse::<SocketAddr>], left open like the parsers of IP addresses. *)
Class SocketParsers : Type := {
  #[global] ip_parsers :: Address.IpParsers;
  socket_addr_from_str : string -> option SocketAddr
}.

(** [str::parse::<IpAddr>] with a port. *)
Definition ip_with_port `{SocketParsers} (text : string) (port : Z) : option SocketAddr :=
  match Address.ipv4_from_str text with
  | Some ip => Some (V4 ip port)
  | None => (fun ip => V6 ip port 0 0) <$> Address.ipv6_from_str text
  end.

Definition UNSPECIFIED : bytes := replicate 16 0.

Definition strip_prefix (pre s : string) : option string :=
  if String.prefix pre s then Some (String.substring (String.length pre) (String.length s) s) else None.

Definition contains (c : Ascii.ascii) (s : string) : bool :=
  bool_decide (c ∈ String.list_ascii_of_string s).

(** [try_fail!] ends the program: [Panic]. *)
Definition parse_listen {E} `{SocketParsers} (addr : string) (default_port : Z) : outcome E SocketAddr :=
  match strip_prefix "*:" addr with
  | Some addr => port ← unwrap (Range.uint_from_str 65536 addr); Ok (V6 UNSPECIFIED port 0 0)
  | None =>
      if contains ":"%char addr then unwrap (socket_addr_from_str addr)
      else
        match Range.uint_from_str 65536 addr with
        | Some port => Ok (V6 UNSPECIFIED port 0 0)
        | None => unwrap (ip_with_port addr default_port)
        end
  end.

(** The trait. [send] is given the clock the mock socket reads; [listen] makes
    a socket and has no place in a class on sockets. *)
Class Socket (S : Type) : Type := {
  receive : ST (S * MsgBuffer) ErrorKind SocketAddr;
  send : Z -> bytes -> SocketAddr -> ST S ErrorKind Z;
  address : S -> outcome ErrorKind SocketAddr
}.

Definition set_port (port : Z) (addr : SocketAddr) : SocketAddr :=
  match addr with V4 ip _ => V4 ip port | V6 ip _ f s => V6 ip port f s end.
(** [SocketAddr::set_ip]: another kind of address starts with no flow and scope. *)
Definition set_ip (ip : SocketAddr) (addr : SocketAddr) : SocketAddr :=
  match ip, addr with
  | V4 i _, _ => V4 i (port_of addr)
  | V6 i _ _ _, V6 _ p f s => V6 i p f s
  | V6 i _ _ _, V4 _ p => V6 i p 0 0
  end.

(** ** The UDP socket *)

(** [bind], [recv_from] into a slice of a given length, [send_to], [local_addr]
    and the local address of a socket connected to 8.8.8.8. *)
Class UdpSys (U : Type) : Type := {
  bind : SocketAddr -> outcome ErrorKind U;
  recv_from : nat -> ST U ErrorKind (bytes * SocketAddr);
  send_to : bytes -> SocketAddr -> ST U ErrorKind Z;
  local_addr : U -> outcome ErrorKind SocketAddr;
  route_addr : U -> SocketAddr
}.

Module UdpSocket.
Section Udp.
Context {U : Type} `{UdpSys U}.

Definition listen `{SocketParsers} (addr : string) : outcome ErrorKind U :=
  addr ← parse_listen addr DEFAULT_PORT;
  bind (mapped_addr addr).

Definition receive : ST (U * MsgBuffer) ErrorKind SocketAddr :=
  on_buf (modify MsgBuffer.clear) ;;
  view ← on_buf (fun b => (b, MsgBuffer.buffer b));
  '(bs, addr) ← on_dev (recv_from (length view));
  on_buf (modify (fun b => MsgBuffer.set_data (splice (Z.to_nat (buf_start b)) bs (buf_data b)) b)) ;;
  on_buf (modify (MsgBuffer.set_length (zlen bs))) ;;
  mret addr.

Definition address (u : U) : outcome ErrorKind SocketAddr :=
  addr ← local_addr u;
  Ok (set_ip (route_addr u) addr).

End Udp.
End UdpSocket.

#[export] Instance udp_socket {U} `{UdpSys U} : Socket U := {|
  receive := UdpSocket.receive;
  send _ := send_to;
  address := UdpSocket.address
|}.

(** ** The mock socket *)

Record MockSocket : Type := mkMockSocket {
  nat_ : bool;
  nat_peers : gmap SocketAddr Z;
  ms_address : SocketAddr;
  ms_outbound : list (SocketAddr * bytes);
  ms_inbound : list (SocketAddr * bytes)
}.

Module MockSocket.

(** The flag of the thread is an argument. *)
Definition new (get_nat : bool) (address : SocketAddr) : MockSocket := mkMockSocket get_nat ∅ address [] [].

Definition push_inbound (from : SocketAddr) (data : bytes) (s : MockSocket) : MockSocket :=
  mkMockSocket (nat_ s) (nat_peers s) (ms_address s) (ms_outbound s) (ms_inbound s ++ [(from, data)]).

Definition put_inbound (now : Z) (from : SocketAddr) (data : bytes) (s : MockSocket) : MockSocket * bool :=
  if negb (nat_ s) then (push_inbound from data s, true)
  else
    match nat_peers s !! from with
    | Some timeout => if decide (now <= timeout) then (push_inbound from data s, true) else (s, false)
    | None => (s, false)
    end.

Definition pop_outbound (s : MockSocket) : MockSocket * option (SocketAddr * bytes) :=
  match ms_outbound s with
  | [] => (s, None)
  | x :: rest => (mkMockSocket (nat_ s) (nat_peers s) (ms_address s) rest (ms_inbound s), Some x)
  end.

Definition listen {E} `{SocketParsers} (get_nat : bool) (addr : string) : outcome E MockSocket :=
  addr ← parse_listen addr DEFAULT_PORT;
  Ok (new get_nat (mapped_addr addr)).

Definition receive : ST (MockSocket * MsgBuffer) ErrorKind SocketAddr :=
  s ← on_dev get;
  match ms_inbound s with
  | (addr, data) :: rest =>
      on_dev (modify (fun s => mkMockSocket (nat_ s) (nat_peers s) (ms_address s) (ms_outbound s) rest)) ;;
      on_buf (modify MsgBuffer.clear) ;;
      on_buf (modify (MsgBuffer.set_length (zlen data))) ;;
      on_buf (MsgBuffer.put_message data) ;;
      mret addr
  | [] => throw OtherKind
  end.

Definition send (now : Z) (data : bytes) (addr : SocketAddr) : ST MockSocket ErrorKind Z :=
  modify (fun s => mkMockSocket (nat_ s) (nat_peers s) (ms_address s) (ms_outbound s ++ [(addr, data)]) (ms_inbound s)) ;;
  modify (fun s => if nat_ s
                   then mkMockSocket (nat_ s) (<[addr := now + 300]> (nat_peers s)) (ms_address s) (ms_outbound s) (ms_inbound s)
                   else s) ;;
  mret (zlen data).

End MockSocket.

#[export] Instance mock_socket : Socket MockSocket := {|
  receive := MockSocket.receive;
  send := MockSocket.send;
  address s := Ok (ms_address s)
|}.

(** ** The websocket proxy (src/src/wsproxy.rs) *)

Definition write_addr {W} `{Write W} (addr : SocketAddr) (out : W) : outcome ErrorKind W :=
  match mapped_addr (mapped_addr addr) with
  | V6 ip port _ _ =>
      out ← ok_or (write_all ip out) OtherKind;
      ok_or (write_u16 port out) OtherKind
  | V4 _ _ => Panic
  end.

Definition read_addr {R} `{Read R} (r : R) : outcome ErrorKind (SocketAddr * R) :=
  '(ip, r) ← ok_or (read_exact 16 r) UnexpectedEof;
  '(port, r) ← ok_or (read_u16 r) UnexpectedEof;
  Ok (V6 ip port 0 0, r).

(** [tungstenite::Message]. *)
Inductive Message : Type := Text (s : string) | Binary (data : bytes) | Ping (data : bytes) | Pong (data : bytes) | Close.

(** The websocket library: [read_message] and [write_message]. *)
Class WebSocket (W : Type) : Type := {
  ws_read : ST W ErrorKind Message;
  ws_write : Message -> ST W ErrorKind unit
}.

(** One datagram as a frame. *)
Definition frame (addr : SocketAddr) (data : bytes) : outcome ErrorKind bytes :=
  msg ← write_addr (W := bytes) addr [];
  ok_or (write_all (W := bytes) data msg) OtherKind.

Section Proxy.
Context {W U : Type} `{WebSocket W} `{UdpSys U}.

(** The turns of the loop of [serve_proxy_connection]; whether it goes on. *)
Definition proxy_websocket : ST (W * U) ErrorKind bool :=
  msg ← zoom fst (fun w s => (w, s.2)) ws_read;
  match msg with
  | Binary data =>
      '(dst, _) ← lift (read_addr data);
      data ← lift (slice 18 (zlen data) data);
      zoom snd (fun u s => (s.1, u)) (send_to data dst) ;;
      mret true
  | Close => mret false
  | _ => mret true
  end.
Definition proxy_udp : ST (W * U) ErrorKind bool :=
  '(data, addr) ← zoom snd (fun u s => (s.1, u)) (recv_from (Z.to_nat 65535));
  msg ← lift (frame addr data);
  zoom fst (fun w s => (w, s.2)) (ws_write (Binary msg)) ;;
  mret true.
Definition proxy_timeout : ST (W * U) ErrorKind bool :=
  zoom fst (fun w s => (w, s.2)) (ws_write (Ping [])) ;; mret true.

Record ProxyConnection : Type := mkProxyConnection { pc_addr : SocketAddr; pc_socket : W }.

Abbreviation PM := (ST ProxyConnection ErrorKind).
Definition on_ws {A} (m : ST W ErrorKind A) : PM A := zoom pc_socket (fun w c => mkProxyConnection (pc_addr c) w) m.

(** [ProxyConnection::read_message], the loop given its number of turns. *)
Fixpoint read_message (fuel : nat) : PM bytes :=
  match fuel with
  | O => panic
  | S fuel =>
      msg ← on_ws ws_read;
      match msg with
      | Binary data => mret data
      | _ => read_message fuel
      end
  end.

(** [ProxyConnection::listen] from the connected websocket on. *)
Definition proxy_listen (fuel : nat) (socket : W) : ProxyConnection * outcome ErrorKind unit :=
  (addr_data ← read_message fuel;
   '(addr, _) ← lift (read_addr addr_data);
   modify (fun c => mkProxyConnection addr (pc_socket c))) (mkProxyConnection (V4 [0; 0; 0; 0] 0) socket).

Definition proxy_receive (fuel : nat) : ST (ProxyConnection * MsgBuffer) ErrorKind SocketAddr :=
  on_buf (modify MsgBuffer.clear) ;;
  data ← on_dev (read_message fuel);
  '(addr, _) ← lift (read_addr data);
  data ← lift (slice 18 (zlen data) data);
  on_buf (MsgBuffer.clone_from data) ;;
  mret addr.

Definition proxy_send (data : bytes) (addr : SocketAddr) : PM Z :=
  msg ← lift (frame addr data);
  on_ws (ws_write (Binary msg)) ;;
  mret (zlen data).

End Proxy.
Arguments ProxyConnection : clear implicits.
Arguments mkProxyConnection {W} _ _.
Arguments pc_addr {W} _.
Arguments pc_socket {W} _.

#[export] Instance proxy_socket {W} `{WebSocket W} (fuel : nat) : Socket (ProxyConnection W) := {|
  receive := proxy_receive fuel;
  send _ := proxy_send;
  address c := Ok (pc_addr c)
|}.

(** ** Theorems *)

Lemma addr_nice_mapped ip port : addr_nice (mapped_addr (V4 ip port)) = V4 ip port.
Proof. done. Qed.

Lemma mapped_mapped addr : mapped_addr (mapped_addr addr) = mapped_addr addr.
Proof. by destruct addr. Qed.

(** The octets of an address as an IPv6 address. *)
Definition octets (addr : SocketAddr) : bytes :=
  match mapped_addr addr with V4 ip _ => ip | V6 ip _ _ _ => ip end.

Lemma frame_spec addr data : frame addr data = Ok (octets addr ++ be_bytes 2 (port_of addr) ++ data).
Proof.
  unfold frame, write_addr. rewrite mapped_mapped. destruct addr as [ip port|ip port f s]; cbn -[be_bytes]; by rewrite <- ?app_assoc.
Qed.

Lemma length_octets addr : NodeInfo.addr_wf addr -> length (octets addr) = 16%nat.
Proof. destruct addr; intros [Hl _]; [|done]. unfold octets. cbn. by rewrite Hl. Qed.

Lemma read_addr_frame addr data : NodeInfo.addr_wf addr ->
  read_addr (R := bytes) (octets addr ++ be_bytes 2 (port_of addr) ++ data) = Ok (V6 (octets addr) (port_of addr) 0 0, data).
Proof.
  intros Ha. unfold read_addr. rewrite (read_exact_app 16) by by apply length_octets. cbn [ok_or mbind outcome_bind].
  rewrite read_u16_app; [done|]. by destruct addr; destruct Ha as (_ & _ & Hp).
Qed.

Lemma drop_frame addr data : NodeInfo.addr_wf addr ->
  drop 18 (octets addr ++ be_bytes 2 (port_of addr) ++ data) = data.
Proof.
  intros Ha. rewrite app_assoc. apply drop_app_length'. by rewrite length_app, length_octets, length_be_bytes.
Qed.

Lemma slice_frame {E} addr data : NodeInfo.addr_wf addr ->
  let msg := octets addr ++ be_bytes 2 (port_of addr) ++ data in slice (E := E) 18 (zlen msg) msg = Ok data.
Proof.
  intros Ha msg. rewrite slice_ok by (unfold zlen, msg; rewrite !length_app, length_octets, length_be_bytes by done; lia).
  f_equal. change (Z.to_nat 18) with 18%nat. unfold msg at 2. rewrite drop_frame by done. apply take_ge.
  unfold zlen, msg. rewrite !length_app, length_octets, length_be_bytes by done. lia.
Qed.

(** What a node behind the websocket proxy sends to an address, the proxy sends
    on to that address, byte for byte, with IPv4 addresses as mapped ones. *)
Theorem proxy_forwards {W U} `{WebSocket W} `{UdpSys U} (c c' : ProxyConnection W) (w : W) (u : U) data addr :
  NodeInfo.addr_wf addr ->
  proxy_send data addr c = (c', Ok (zlen data)) ->
  exists msg, ws_write (Binary msg) (pc_socket c) = (pc_socket c', Ok ()) /\
    forall w', ws_read w = (w', Ok (Binary msg)) ->
      (proxy_websocket (w, u)).1 = (w', (send_to data (V6 (octets addr) (port_of addr) 0 0) u).1) /\
      (is_ok (send_to data (V6 (octets addr) (port_of addr) 0 0) u).2 = true -> (proxy_websocket (w, u)).2 = Ok true).
Proof.
  intros Ha Hs. unfold proxy_send, lift, on_ws, zoom in Hs. rewrite frame_spec in Hs. unfold mbind, ST_bind in Hs.
  set (msg := octets addr ++ be_bytes 2 (port_of addr) ++ data) in *. exists msg.
  cbv beta iota in Hs. destruct (ws_write (Binary msg) (pc_socket c)) as [w1 [[]|e|]] eqn:Hw; try done.
  injection Hs as <-. split; [done|]. intros w' Hr. unfold proxy_websocket.
  unfold mbind, ST_bind, zoom. cbn [fst snd]. rewrite Hr. cbn [fst snd]. unfold lift.
  rewrite (read_addr_frame addr data Ha : read_addr (R := bytes) msg = _). cbv beta iota.
  unfold msg. rewrite (slice_frame addr data Ha).
  cbn [fst snd]. by destruct (send_to data _ u) as [u1 [n|e|]]; split; intros; simplify_eq/=.
Qed.

(** A message queue and a list of sent datagrams as the outside world. *)
#[export] Instance toy_websocket : WebSocket (list Message) := {|
  ws_read q := match q with m :: q => (q, Ok m) | [] => ([], Err OtherKind) end;
  ws_write m q := (q ++ [m], Ok ())
|}.
#[export] Instance toy_udp : UdpSys (list (SocketAddr * bytes)) := {|
  bind _ := Ok [];
  recv_from n q := match q with (a, d) :: q => (q, Ok (take n d, a)) | [] => ([], Err OtherKind) end;
  send_to d a q := (q ++ [(a, d)], Ok (zlen d));
  local_addr _ := Ok (V4 [0; 0; 0; 0] 0);
  route_addr _ := V4 [10; 0; 0; 1] 0
|}.

Lemma proxy_forwards_witness :
  exists msg, (proxy_websocket ([Binary msg], [])).1 =
    (([] : list Message), [(V6 (replicate 10 0 ++ [255; 255; 1; 2; 3; 4]) 3210 0 0, [7; 8; 9])]).
Proof.
  destruct (proxy_forwards (mkProxyConnection (V4 [0; 0; 0; 0] 0) ([] : list Message))
    (mkProxyConnection (V4 [0; 0; 0; 0] 0) [Binary (octets (V4 [1; 2; 3; 4] 3210) ++ be_bytes 2 3210 ++ [7; 8; 9])])
    [Binary (octets (V4 [1; 2; 3; 4] 3210) ++ be_bytes 2 3210 ++ [7; 8; 9])] [] [7; 8; 9] (V4 [1; 2; 3; 4] 3210)) as (msg & Hw & Hf).
  - split; [done|]. split; [apply (bool_decide_unpack _); vm_compute; exact I|unfold is_u16; lia].
  - by vm_compute.
  - apply (f_equal fst) in Hw. change ([Binary msg] = [Binary (octets (V4 [1; 2; 3; 4] 3210) ++ be_bytes 2 3210 ++ [7; 8; 9])]) in Hw.
    injection Hw as ->. exists (octets (V4 [1; 2; 3; 4] 3210) ++ be_bytes 2 3210 ++ [7; 8; 9]). apply Hf. reflexivity.
Defined.

(** ** The mock socket *)

Lemma seq_seq {S E A} (m1 m2 m3 : ST S E unit) (k : ST S E A) s s' :
  (m1 ;; m2 ;; m3) s = (s', Ok ()) -> (m1 ;; m2 ;; m3 ;; k) s = k s'.
Proof.
  unfold mbind, ST_bind. destruct (m1 s) as [s1 [[]|e|]]; [|done..].
  destruct (m2 s1) as [s2 [[]|e|]]; [|done..]. by destruct (m3 s2) as [s3 [[]|e|]]; intros [= <-].
Qed.

Lemma mock_receive_spec (s : MockSocket) b from data rest : ms_inbound s = (from, data) :: rest -> MsgBuffer.wf b -> bytes_ok data ->
  zlen data <= BUFFER_SIZE - space_before b ->
  exists b', MockSocket.receive (s, b) = ((mkMockSocket (nat_ s) (nat_peers s) (ms_address s) (ms_outbound s) rest, b'), Ok from) /\
    MsgBuffer.wf b' /\ MsgBuffer.contents b' = data /\ buf_start b' = space_before b /\ space_before b' = space_before b.
Proof.
  intros Hi Hb Hd Hl.
  destruct (load_spec (E := ErrorKind) (mkMockSocket (nat_ s) (nat_peers s) (ms_address s) (ms_outbound s) rest) b data Hb Hd Hl) as (b' & He & Hb').
  exists b'. split; [|done]. destruct s as [n np a o i]. cbn in Hi. subst i.
  exact (seq_seq _ _ _ (mret from) _ _ He).
Qed.

(** Behind a simulated NAT a datagram gets in only from an address that was sent
    to in the last 300 seconds, and then it is the last one received. *)
Theorem nat_filter_spec now sent data from data' (s : MockSocket) : nat_ s = true ->
  let s' := (MockSocket.send sent data from s).1 in
  MockSocket.put_inbound now from data' s' =
    if decide (now <= sent + 300) then (MockSocket.push_inbound from data' s', true) else (s', false).
Proof.
  intros Hn. unfold MockSocket.send, modify. unfold mbind, ST_bind. cbn. rewrite Hn. cbn. unfold MockSocket.put_inbound. cbn.
  by rewrite lookup_insert_eq.
Qed.
