(* ===== verification/Proxy.v ===== *)
(** * The websocket proxy as a service (src/src/wsproxy.rs)

    How a connection of the proxy starts, its loop, the accepting of connections,
    and the client's side of the start; what a client is told and given. *)

From S2P Require Import Prelude Errors Poll Util Types Messages Device Net.

(** TCP streams, and how they become websockets: [accept] on the server's side,
    parsing the URL and [connect] on the client's; [poll_new] is the creation of the
    poll descriptor. *)
Class TcpSys (T W : Type) : Type := {
  peer_addr : T -> outcome ErrorKind SocketAddr;
  set_nodelay : T -> outcome ErrorKind unit;
  accept : T -> outcome ErrorKind W;
  poll_new : outcome ErrorKind unit;
  connect_url : string -> outcome ErrorKind W;
  set_nodelay_ws : W -> outcome ErrorKind unit;
  tcp_bind : SocketAddr -> outcome ErrorKind unit
}.

Section Service.
Context {T W U : Type} `{TcpSys T W} `{WebSocket W} `{UdpSys U}.

(** [serve_proxy_connection] up to its loop: the address the peer is told. *)
Definition proxy_start (stream : T) : outcome ErrorKind (W * U) :=
  peer_addr stream ;;
  set_nodelay stream ;;
  websocket ← accept stream;
  udpsocket ← bind (V6 UNSPECIFIED 0 0 0);
  addr ← local_addr udpsocket;
  let addr := set_ip (route_addr udpsocket) addr in
  msg ← write_addr (W := bytes) addr [];
  let '(websocket, r) := ws_write (Binary msg) websocket in
  r ;;
  poll_new ;;
  Ok (websocket, udpsocket).

(** The loop, over what the waits give; [false] when the peer has closed. *)
Fixpoint proxy_loop (events : list WaitResult) : ST (W * U) ErrorKind bool :=
  match events with
  | [] => mret true
  | evt :: events =>
      go ← match evt with
           | WaitSocket => proxy_websocket
           | WaitDevice => proxy_udp
           | WaitTimeout => proxy_timeout
           | WaitError err => throw err
           end;
      if go : bool then proxy_loop events else mret false
  end.

Definition serve_proxy_connection (stream : T) (events : list WaitResult) : outcome ErrorKind bool :=
  s ← proxy_start stream;
  (proxy_loop events s).2.

(** [run_proxy], over the connections that come in: those given a thread. *)
Fixpoint proxy_accept (incoming : list (outcome ErrorKind T)) : outcome ErrorKind (list T) :=
  match incoming with
  | [] => Ok []
  | stream :: incoming =>
      stream ← stream;
      peer_addr stream ;;
      threads ← proxy_accept incoming;
      Ok (stream :: threads)
  end.
Definition run_proxy `{SocketParsers} (listen : string) (incoming : list (outcome ErrorKind T)) : outcome ErrorKind (list T) :=
  addr ← parse_listen listen 8080;
  tcp_bind addr ;;
  proxy_accept incoming.

(** [ProxyConnection::listen]. *)
Definition proxy_connect (fuel : nat) (url : string) : outcome ErrorKind (ProxyConnection W) :=
  socket ← connect_url url;
  set_nodelay_ws socket ;;
  let '(con, r) := proxy_listen fuel socket in
  r ;;
  Ok con.

(** ** What a client reads *)

(** [k] other messages, then [data]. *)
Inductive yields : nat -> W -> bytes -> W -> Prop :=
| yields_now w data w' : ws_read w = (w', Ok (Binary data)) -> yields 0 w data w'
| yields_later k w msg w1 data w' : ws_read w = (w1, Ok msg) -> (forall d, msg <> Binary d) -> yields k w1 data w' -> yields (S k) w data w'.

Lemma read_message_yields k w data w' fuel addr : yields k w data w' -> (k < fuel)%nat ->
  read_message fuel (mkProxyConnection addr w) = (mkProxyConnection addr w', Ok data).
Proof.
  intros Hy. revert fuel. induction Hy as [w data w' Hr|k w msg w1 data w' Hr Hm Hy IH]; intros [|fuel] Hk; try lia.
  - cbn [read_message]. unfold mbind, ST_bind, on_ws, zoom. cbn [pc_socket pc_addr]. by rewrite Hr.
  - cbn [read_message]. unfold mbind at 1, ST_bind, on_ws, zoom. cbn [pc_socket pc_addr]. rewrite Hr.
    cbn [pc_addr]. specialize (IH fuel ltac:(lia)). destruct msg as [s|d|d|d|]; [exact IH|by destruct (Hm d)|exact IH..].
Qed.

Lemma write_addr_spec addr : write_addr (W := bytes) addr [] = Ok (octets addr ++ be_bytes 2 (port_of addr)).
Proof.
  unfold write_addr. rewrite mapped_mapped. destruct addr as [ip port|ip port f s]; cbn -[be_bytes]; by rewrite <- ?app_assoc.
Qed.

(** A node behind the proxy knows its own address: what the proxy sends on a new
    connection the client takes for its address, and it is that of the UDP socket the
    proxy has opened for it, whatever other messages come first. *)
Theorem proxy_greets (stream : T) (w1 : W) (u : U) :
  proxy_start stream = Ok (w1, u) ->
  exists w0 addr msg, accept stream = Ok w0 /\ local_addr u = Ok addr /\ ws_write (Binary msg) w0 = (w1, Ok ()) /\
    forall k c c' fuel, NodeInfo.addr_wf (set_ip (route_addr u) addr) -> yields k c msg c' -> (k < fuel)%nat ->
      proxy_listen fuel c =
        (mkProxyConnection (V6 (octets (set_ip (route_addr u) addr)) (port_of (set_ip (route_addr u) addr)) 0 0) c', Ok ()).
Proof.
  unfold proxy_start. intros Hp. apply outcome_bind_ok in Hp as (? & _ & Hp). apply outcome_bind_ok in Hp as (? & _ & Hp).
  apply outcome_bind_ok in Hp as (w0 & Hacc & Hp). apply outcome_bind_ok in Hp as (u' & _ & Hp). apply outcome_bind_ok in Hp as (addr & Hl & Hp).
  rewrite write_addr_spec in Hp. apply outcome_bind_ok in Hp as (msg & [= <-] & Hp).
  set (a := set_ip (route_addr u') addr) in *. destruct (ws_write _ w0) as [w2 r] eqn:Hw.
  apply outcome_bind_ok in Hp as ([] & -> & Hp). apply outcome_bind_ok in Hp as (? & _ & Hp). injection Hp as -> ->.
  exists w0, addr, (octets a ++ be_bytes 2 (port_of a)). split_and!; [done..|].
  intros k c c' fuel Ha Hy Hk. unfold proxy_listen. unfold mbind, ST_bind. rewrite (read_message_yields _ _ _ _ _ _ Hy Hk).
  unfold lift. pose proof (read_addr_frame a [] Ha) as Hr. rewrite app_nil_r in Hr. by rewrite Hr.
Qed.

(** C40: a node behind the proxy gets what is sent to its address: a datagram the proxy receives for it
    arrives in the node's buffer as it was sent, with its sender. *)
Theorem proxy_delivers (w w' : W) (u u' : U) data addr :
  NodeInfo.addr_wf addr -> bytes_ok data -> recv_from (Z.to_nat 65535) u = (u', Ok (data, addr)) ->
  proxy_udp (w, u) = ((w', u'), Ok true) ->
  exists msg, ws_write (Binary msg) w = (w', Ok ()) /\
    forall k c c' a b fuel, yields k c msg c' -> (k < fuel)%nat -> MsgBuffer.wf b -> zlen data <= BUFFER_SIZE - space_before b ->
      exists b', proxy_receive fuel (mkProxyConnection a c, b) = ((mkProxyConnection a c', b'), Ok (V6 (octets addr) (port_of addr) 0 0)) /\
        MsgBuffer.wf b' /\ MsgBuffer.contents b' = data.
Proof.
  intros Ha Hd Hr Hu. unfold proxy_udp in Hu. unfold mbind, ST_bind, zoom in Hu. cbn [fst snd] in Hu. rewrite Hr in Hu. cbn [fst snd] in Hu.
  unfold lift in Hu. rewrite frame_spec in Hu. cbv beta iota in Hu. cbn [fst snd] in Hu.
  set (msg := octets addr ++ be_bytes 2 (port_of addr) ++ data) in *. exists msg.
  destruct (ws_write (Binary msg) w) as [w1 [[]|?|]]; [|done..]. injection Hu as <-. split; [done|].
  intros k c c' a b fuel Hy Hk Hb Hl. destruct (clear_empty b Hb) as [_ Hs].
  destruct (clone_from_spec (E := ErrorKind) (MsgBuffer.clear b) data) as (b' & Hc & Hw & Hcont & _); [by apply clear_wf|done|by rewrite Hs|].
  exists b'. split; [|done]. unfold proxy_receive. unfold mbind, ST_bind, on_buf, on_dev, zoom, modify. cbn [fst snd].
  rewrite (read_message_yields _ _ _ _ _ _ Hy Hk). cbn [fst snd]. unfold lift.
  rewrite (read_addr_frame addr data Ha : read_addr (R := bytes) msg = _). cbv beta iota.
  unfold msg. rewrite (slice_frame addr data Ha).   cbn [fst snd]. by rewrite Hc.
Qed.

End Service.

(** ** A toy client and proxy *)

#[export] Instance toy_tcp : TcpSys unit (list Message) := {|
  peer_addr _ := Ok (V4 [10; 0; 0; 9] 5000);
  set_nodelay _ := Ok ();
  accept _ := Ok [];
  poll_new := Ok ();
  connect_url _ := Ok [];
  set_nodelay_ws _ := Ok ();
  tcp_bind _ := Ok ()
|}.

Definition toy_greeting : bytes := octets (V4 [10; 0; 0; 1] 0) ++ be_bytes 2 0.

Lemma toy_yields msg : yields 1 [Pong []; Binary msg] msg ([] : list Message).
Proof. by eapply yields_later; [reflexivity| |by constructor]. Qed.

Lemma proxy_greets_witness :
  proxy_listen 2 [Pong []; Binary toy_greeting] =
    (mkProxyConnection (V6 (octets (V4 [10; 0; 0; 1] 0)) 0 0 0) [], Ok ()).
Proof.
  destruct (proxy_greets (T := unit) (U := list (SocketAddr * bytes)) () [Binary toy_greeting] []) as (w0 & addr & msg & Hacc & Hl & Hw & Hc).
  - by vm_compute.
  - injection Hacc as <-. injection Hl as <-. apply (f_equal fst) in Hw. change ([Binary msg] = [Binary toy_greeting]) in Hw. injection Hw as ->.
    apply (Hc 1%nat _ [] 2%nat); [|apply toy_yields|lia].
    split; [done|]. split; [apply (bool_decide_unpack _); vm_compute; exact I|unfold is_u16; cbn; lia].
Defined.

Lemma proxy_delivers_witness : exists b' c',
  proxy_receive 2 (mkProxyConnection (V4 [0; 0; 0; 0] 0) [Pong []; Binary (octets (V4 [1; 2; 3; 4] 53) ++ be_bytes 2 53 ++ [7; 8])], MsgBuffer.new 100) =
    ((c', b'), Ok (V6 (octets (V4 [1; 2; 3; 4] 53)) 53 0 0)) /\ MsgBuffer.contents b' = [7; 8].
Proof.
  set (m := octets (V4 [1; 2; 3; 4] 53) ++ be_bytes 2 53 ++ [7; 8]).
  destruct (proxy_delivers ([] : list Message) [Binary m] [(V4 [1; 2; 3; 4] 53, [7; 8])] [] [7; 8] (V4 [1; 2; 3; 4] 53)) as (msg & Hw & Hc).
  - split; [done|]. split; [apply (bool_decide_unpack _); vm_compute; exact I|unfold is_u16; cbn; lia].
  - apply (bool_decide_unpack _); vm_compute; exact I.
  - by vm_compute.
  - by vm_compute.
  - apply (f_equal fst) in Hw. change ([Binary msg] = [Binary m]) in Hw. injection Hw as ->.
    destruct (Hc 1%nat [Pong []; Binary m] [] (V4 [0; 0; 0; 0] 0) (MsgBuffer.new 100) 2%nat) as (b' & He & _ & Hb').
    + apply toy_yields.
    + lia.
    + apply new_wf. unfold BUFFER_SIZE. lia.
    + change (space_before (MsgBuffer.new 100)) with 100. unfold BUFFER_SIZE, zlen. cbn. lia.
    + by exists b', (mkProxyConnection (V4 [0; 0; 0; 0] 0) []).
Defined.
