(* ===== verification/Forwarding.v ===== *)
(** * Port forwarding (src/src/port_forwarding.rs)

    The router is the class [Gateway] (the crate [igd]); what the program asks of
    it, in which order, and when a lease is extended. *)

From S2P Require Import Prelude Errors Util.

Definition LEASE_TIME : Z := 1800.

(** [AddAnyPortError] and [AddPortError], as far as they are told apart. *)
Inductive AddPortError : Type := OnlyPermanentLeasesSupported | OtherAddError.

Class Gateway (G : Type) : Type := {
  get_external_ip : ST G unit bytes;
  add_any_port : bytes * Z -> Z -> ST G AddPortError Z;
  add_port : Z -> bytes * Z -> Z -> ST G AddPortError unit;
  remove_port : Z -> ST G unit unit
}.

Record PortForwarding (G : Type) : Type := mkPortForwarding {
  internal_addr : bytes * Z;
  external_addr : bytes * Z;
  gateway : G;
  next_extension : option Z
}.
Arguments mkPortForwarding {G} _ _ _ _.
Arguments internal_addr {G} _.
Arguments external_addr {G} _.
Arguments gateway {G} _.
Arguments next_extension {G} _.

Module PortForwarding.
Section Forwarding.
Context {G : Type} `{Gateway G}.

Definition get_forwarding (addr : bytes * Z) (port : Z) : ST G unit (Z * Z) :=
  if decide (port = 0) then
    r ← catch (add_any_port addr LEASE_TIME);
    match r with
    | Ok port => mret (port, LEASE_TIME)
    | Err OnlyPermanentLeasesSupported =>
        r ← catch (add_any_port addr 0);
        match r with
        | Ok port => mret (port, 0)
        | _ => throw ()
        end
    | _ => throw ()
    end
  else
    r ← catch (add_port port addr LEASE_TIME);
    match r with
    | Ok _ => mret (port, LEASE_TIME)
    | Err OnlyPermanentLeasesSupported =>
        r ← catch (add_port port addr 0);
        match r with
        | Ok _ => mret (port, 0)
        | _ => throw ()
        end
    | _ => throw ()
    end.

(** The first of the ports that can be had. *)
Fixpoint try_ports (addr : bytes * Z) (ports : list Z) : ST G unit (Z * Z) :=
  match ports with
  | [] => throw ()
  | port :: ports =>
      r ← catch (get_forwarding addr port);
      match r with
      | Ok a => mret a
      | _ => try_ports addr ports
      end
  end.

(** [rand::random()] answers [random i] the i-th time. *)
Definition get_any_forwarding (random : nat -> Z) (addr : bytes * Z) (port : Z) : ST G unit (Z * Z) :=
  try_ports addr ([port; 0] ++ ((fun i => wrap16 (port + i)) <$> [1; 2; 3; 4]) ++ (random <$> seq 0 5)).

(** From the gateway found on, with the internal address and the clock. *)
Definition new (random : nat -> Z) (now : Z) (internal_ip : bytes) (port : Z) (gateway : G) : option (PortForwarding G) :=
  let internal_addr := (internal_ip, port) in
  match get_external_ip gateway with
  | (gateway, Ok external_ip) =>
      match get_any_forwarding random internal_addr port gateway with
      | (gateway, Ok (port, timeout)) =>
          let external_addr := (external_ip, port) in
          let next_extension := if decide (0 < timeout) then Some (now + timeout - 60) else None in
          Some (mkPortForwarding internal_addr external_addr gateway next_extension)
      | _ => None
      end
  | _ => None
  end.

Definition check_extend (now : Z) (p : PortForwarding G) : PortForwarding G :=
  match next_extension p with
  | Some deadline =>
      if decide (now < deadline) then p
      else
        let '(gateway, _) := add_port (external_addr p).2 (internal_addr p) LEASE_TIME (gateway p) in
        mkPortForwarding (internal_addr p) (external_addr p) gateway (Some (now + LEASE_TIME - 60))
  | None => p
  end.

(** [Drop]. *)
Definition deactivate (p : PortForwarding G) : PortForwarding G :=
  let '(gateway, _) := remove_port (external_addr p).2 (gateway p) in
  mkPortForwarding (internal_addr p) (external_addr p) gateway (next_extension p).

Definition get_internal_ip (p : PortForwarding G) : SocketAddr := V4 (internal_addr p).1 (internal_addr p).2.
Definition get_external_ip (p : PortForwarding G) : SocketAddr := V4 (external_addr p).1 (external_addr p).2.

End Forwarding.
End PortForwarding.

(** ** Theorems *)

Section Theorems.
Context {G : Type} `{Gateway G}.
Implicit Types p : PortForwarding G.

(** The mapping stays the one obtained at the start. *)
Lemma check_extend_addr now p :
  internal_addr (PortForwarding.check_extend now p) = internal_addr p /\
  external_addr (PortForwarding.check_extend now p) = external_addr p.
Proof.
  unfold PortForwarding.check_extend. destruct (next_extension p) as [d|]; [|done].
  case_decide; [done|]. by destruct (add_port _ _ _ _).
Qed.

(** With a check at least every minute a lease of half an hour is always asked
    for anew before it runs out: after a check the extension is due later than the
    check, and a minute before the end of the lease. *)
Theorem lease_extended_in_time p t t' : is_Some (next_extension p) -> t <= t' <= t + 60 ->
  exists due, next_extension (PortForwarding.check_extend t p) = Some due /\ t < due /\ t' < due + 60 /\
    (due <= t' ->
      next_extension (PortForwarding.check_extend t' (PortForwarding.check_extend t p)) = Some (t' + LEASE_TIME - 60) /\
      gateway (PortForwarding.check_extend t' (PortForwarding.check_extend t p)) =
        (add_port (external_addr p).2 (internal_addr p) LEASE_TIME (gateway (PortForwarding.check_extend t p))).1).
Proof.
  intros [d Hd] Ht. set (p' := PortForwarding.check_extend t p).
  assert (exists due, next_extension p' = Some due /\ t < due) as (due & Hdue & Hlt).
  { subst p'. unfold PortForwarding.check_extend. rewrite Hd. case_decide; [by exists d|].
    destruct (add_port _ _ _ _) as [g r]. eexists. split; [reflexivity|]. unfold LEASE_TIME. lia. }
  exists due. split; [done|]. split; [done|]. split; [lia|]. intros Hle.
  destruct (check_extend_addr t p) as [Hi He]. fold p' in Hi, He.
  unfold PortForwarding.check_extend. rewrite Hdue. rewrite decide_False by lia. rewrite Hi, He.
  by destruct (add_port _ _ _ _).
Qed.

End Theorems.

(** A router that grants everything and remembers what it was asked for. *)
#[export] Instance toy_gateway : Gateway (list Z) := {|
  get_external_ip g := (g, Ok [1; 2; 3; 4]);
  add_any_port _ _ g := (g ++ [5000], Ok 5000);
  add_port port _ _ g := (g ++ [port], Ok ());
  remove_port _ g := (g, Ok ())
|}.

Lemma lease_extended_in_time_witness :
  exists p, PortForwarding.new (fun _ => 1) 0 [10; 0; 0; 1] 3210 ([] : list Z) = Some p /\
    exists due, next_extension (PortForwarding.check_extend 1700 p) = Some due /\ 1700 < due /\ 1750 < due + 60 /\
      gateway (PortForwarding.check_extend 1750 (PortForwarding.check_extend 1700 p)) = [3210; 3210].
Proof.
  eexists. split; [reflexivity|].
  edestruct (lease_extended_in_time (mkPortForwarding ([10; 0; 0; 1], 3210) ([1; 2; 3; 4], 3210) [3210] (Some 1740)) 1700 1750)
    as (due & Hdue & Hlt & Hlt' & Hext); [by eexists|lia|].
  exists due. split; [exact Hdue|]. split; [done|]. split; [done|].
  injection Hdue as <-. destruct Hext as [_ Hg]; [lia|]. exact Hg.
Defined.
