(* ===== verification/Configuration.v ===== *)
(** * Configuration (src/src/config.rs, src/src/oldconfig.rs)

    The settings of a node, the file and the arguments they come from, how these
    are merged, and the conversion of configuration files of version 1. Reading
    YAML and parsing the command line are left to serde and structopt. *)

From S2P Require Import Prelude Errors Util Types Device Net Base62 Ring Core Rotate Init Handshake Peer.

Definition DEFAULT_PEER_TIMEOUT : Z := 300.

Definition default_crypto : CryptoConfig := mkCryptoConfig None None None [] [].

(** ** The configuration file *)

Module ConfigFile.

Record Device : Type := mkDevice {
  type_ : option DeviceType;
  name : option string;
  path : option string;
  fix_rp_filter : option bool
}.

Record Beacon : Type := mkBeacon {
  store : option string;
  load : option string;
  interval : option Z;
  password : option string
}.

Record Statsd : Type := mkStatsd { server : option string; prefix : option string }.

Record ConfigFile : Type := mkConfigFile {
  device : option Device;
  ip : option string;
  advertise_addresses : option (list string);
  ifup : option string;
  ifdown : option string;
  crypto : CryptoConfig;
  listen : option string;
  peers : option (list string);
  peer_timeout : option Z;
  keepalive : option Z;
  beacon : option Beacon;
  mode : option Mode;
  switch_timeout : option Z;
  claims : option (list string);
  auto_claim : option bool;
  port_forwarding : option bool;
  pid_file : option string;
  stats_file : option string;
  statsd : option Statsd;
  user : option string;
  group : option string;
  hook : option string;
  hooks : gmap string string
}.

End ConfigFile.

(** ** The command line *)

Module Args.

(** [Command]: with all features; [Shell] is the shell's name. *)
Inductive Command : Type :=
| GenKey (password : option string)
| WsProxy (listen : string)
| MigrateConfig (config_file : string)
| Completion (shell : string)
| EditConfig (name : option string)
| Install (uninstall : bool).

Record Args : Type := mkArgs {
  config : option string;
  type_ : option DeviceType;
  device_path : option string;
  fix_rp_filter : bool;
  mode : option Mode;
  password : option string;
  private_key : option string;
  public_key : option string;
  trusted_keys : list string;
  algorithms : list string;
  claims : list string;
  no_auto_claim : bool;
  device : option string;
  listen : option string;
  peers : list string;
  peer_timeout : option Z;
  keepalive : option Z;
  switch_timeout : option Z;
  beacon_store : option string;
  beacon_load : option string;
  beacon_interval : option Z;
  beacon_password : option string;
  verbose : bool;
  quiet : bool;
  ip : option string;
  advertise_addresses : list string;
  ifup : option string;
  ifdown : option string;
  version : bool;
  no_port_forwarding : bool;
  daemon : bool;
  pid_file : option string;
  stats_file : option string;
  statsd_server : option string;
  statsd_prefix : option string;
  user : option string;
  group : option string;
  log_file : option string;
  hook : list string;
  cmd : option Command
}.

End Args.

(** ** The settings *)

Module Config.

Record Config : Type := mkConfig {
  device_type : DeviceType;
  device_name : string;
  device_path : option string;
  fix_rp_filter : bool;
  ip : option string;
  advertise_addresses : list string;
  ifup : option string;
  ifdown : option string;
  crypto : CryptoConfig;
  listen : string;
  peers : list string;
  peer_timeout : Z;
  keepalive : option Z;
  beacon_store : option string;
  beacon_load : option string;
  beacon_interval : Z;
  beacon_password : option string;
  mode : Mode;
  switch_timeout : Z;
  claims : list string;
  auto_claim : bool;
  port_forwarding : bool;
  daemonize : bool;
  pid_file : option string;
  stats_file : option string;
  statsd_server : option string;
  statsd_prefix : option string;
  user : option string;
  group : option string;
  hook : option string;
  hooks : gmap string string
}.

Definition default : Config := {|
  device_type := Tun;
  device_name := "vpncloud%d";
  device_path := None;
  fix_rp_filter := false;
  ip := None;
  advertise_addresses := [];
  ifup := None;
  ifdown := None;
  crypto := default_crypto;
  listen := "3210";
  peers := [];
  peer_timeout := DEFAULT_PEER_TIMEOUT;
  keepalive := None;
  beacon_store := None;
  beacon_load := None;
  beacon_interval := 3600;
  beacon_password := None;
  mode := Normal;
  switch_timeout := 300;
  claims := [];
  auto_claim := true;
  port_forwarding := true;
  daemonize := false;
  pid_file := None;
  stats_file := None;
  statsd_server := None;
  statsd_prefix := None;
  user := None;
  group := None;
  hook := None;
  hooks := ∅
|}.

(** [if let Some(val) = new { self.x = val }], [{ self.x = Some(val) }] and
    [{ self.x.append(&mut val) }]; no field is read after another is written. *)
Definition set {A} (new : option A) (old : A) : A := match new with Some val => val | None => old end.
Definition set_some {A} (new old : option A) : option A := match new with Some val => Some val | None => old end.
Definition append {A} (new : option (list A)) (old : list A) : list A := match new with Some val => old ++ val | None => old end.

Definition merge_crypto (password public_key private_key : option string) (trusted_keys algorithms : list string)
    (c : CryptoConfig) : CryptoConfig := {|
  cc_password := set_some password (cc_password c);
  cc_private_key := set_some private_key (cc_private_key c);
  cc_public_key := set_some public_key (cc_public_key c);
  cc_trusted_keys := cc_trusted_keys c ++ trusted_keys;
  cc_algorithms := match algorithms with [] => cc_algorithms c | _ => algorithms end
|}.

Definition merge_file (file : ConfigFile.ConfigFile) (self : Config) : Config := {|
  device_type := set (ConfigFile.device file ≫= ConfigFile.type_) (device_type self);
  device_name := set (ConfigFile.device file ≫= ConfigFile.name) (device_name self);
  device_path := set_some (ConfigFile.device file ≫= ConfigFile.path) (device_path self);
  fix_rp_filter := set (ConfigFile.device file ≫= ConfigFile.fix_rp_filter) (fix_rp_filter self);
  ip := set_some (ConfigFile.ip file) (ip self);
  advertise_addresses := append (ConfigFile.advertise_addresses file) (advertise_addresses self);
  ifup := set_some (ConfigFile.ifup file) (ifup self);
  ifdown := set_some (ConfigFile.ifdown file) (ifdown self);
  crypto := merge_crypto (cc_password (ConfigFile.crypto file)) (cc_public_key (ConfigFile.crypto file))
    (cc_private_key (ConfigFile.crypto file)) (cc_trusted_keys (ConfigFile.crypto file))
    (cc_algorithms (ConfigFile.crypto file)) (crypto self);
  listen := set (ConfigFile.listen file) (listen self);
  peers := append (ConfigFile.peers file) (peers self);
  peer_timeout := set (ConfigFile.peer_timeout file) (peer_timeout self);
  keepalive := set_some (ConfigFile.keepalive file) (keepalive self);
  beacon_store := set_some (ConfigFile.beacon file ≫= ConfigFile.store) (beacon_store self);
  beacon_load := set_some (ConfigFile.beacon file ≫= ConfigFile.load) (beacon_load self);
  beacon_interval := set (ConfigFile.beacon file ≫= ConfigFile.interval) (beacon_interval self);
  beacon_password := set_some (ConfigFile.beacon file ≫= ConfigFile.password) (beacon_password self);
  mode := set (ConfigFile.mode file) (mode self);
  switch_timeout := set (ConfigFile.switch_timeout file) (switch_timeout self);
  claims := append (ConfigFile.claims file) (claims self);
  auto_claim := set (ConfigFile.auto_claim file) (auto_claim self);
  port_forwarding := set (ConfigFile.port_forwarding file) (port_forwarding self);
  daemonize := daemonize self;
  pid_file := set_some (ConfigFile.pid_file file) (pid_file self);
  stats_file := set_some (ConfigFile.stats_file file) (stats_file self);
  statsd_server := set_some (ConfigFile.statsd file ≫= ConfigFile.server) (statsd_server self);
  statsd_prefix := set_some (ConfigFile.statsd file ≫= ConfigFile.prefix) (statsd_prefix self);
  user := set_some (ConfigFile.user file) (user self);
  group := set_some (ConfigFile.group file) (group self);
  hook := set_some (ConfigFile.hook file) (hook self);
  hooks := map_fold (fun k v hooks => <[k := v]> hooks) (hooks self) (ConfigFile.hooks file)
|}.

(** One [--hook]: [event:script] or the script for every event. *)
Definition merge_hook (hh : option string * gmap string string) (s : string) : option string * gmap string string :=
  match Range.split_once ":"%char s with
  | Some (name, script) => (hh.1, <[name := script]> hh.2)
  | None => (Some s, hh.2)
  end.

Definition merge_args (args : Args.Args) (self : Config) : Config :=
  let hooks_merged := fold_left merge_hook (Args.hook args) (hook self, hooks self) in {|
  device_type := set (Args.type_ args) (device_type self);
  device_name := set (Args.device args) (device_name self);
  device_path := set_some (Args.device_path args) (device_path self);
  fix_rp_filter := if Args.fix_rp_filter args then true else fix_rp_filter self;
  ip := set_some (Args.ip args) (ip self);
  advertise_addresses := advertise_addresses self ++ Args.advertise_addresses args;
  ifup := set_some (Args.ifup args) (ifup self);
  ifdown := set_some (Args.ifdown args) (ifdown self);
  crypto := merge_crypto (Args.password args) (Args.public_key args) (Args.private_key args)
    (Args.trusted_keys args) (Args.algorithms args) (crypto self);
  listen := set (Args.listen args) (listen self);
  peers := peers self ++ Args.peers args;
  peer_timeout := set (Args.peer_timeout args) (peer_timeout self);
  keepalive := set_some (Args.keepalive args) (keepalive self);
  beacon_store := set_some (Args.beacon_store args) (beacon_store self);
  beacon_load := set_some (Args.beacon_load args) (beacon_load self);
  beacon_interval := set (Args.beacon_interval args) (beacon_interval self);
  beacon_password := set_some (Args.beacon_password args) (beacon_password self);
  mode := set (Args.mode args) (mode self);
  switch_timeout := set (Args.switch_timeout args) (switch_timeout self);
  claims := claims self ++ Args.claims args;
  auto_claim := if Args.no_auto_claim args then false else auto_claim self;
  port_forwarding := if Args.no_port_forwarding args then false else port_forwarding self;
  daemonize := if Args.daemon args then true else daemonize self;
  pid_file := set_some (Args.pid_file args) (pid_file self);
  stats_file := set_some (Args.stats_file args) (stats_file self);
  statsd_server := set_some (Args.statsd_server args) (statsd_server self);
  statsd_prefix := set_some (Args.statsd_prefix args) (statsd_prefix self);
  user := set_some (Args.user args) (user self);
  group := set_some (Args.group args) (group self);
  hook := hooks_merged.1;
  hooks := hooks_merged.2
|}.

Definition into_config_file (self : Config) : ConfigFile.ConfigFile := {|
  ConfigFile.auto_claim := Some (auto_claim self);
  ConfigFile.claims := Some (claims self);
  ConfigFile.beacon := Some {|
    ConfigFile.store := beacon_store self;
    ConfigFile.load := beacon_load self;
    ConfigFile.interval := Some (beacon_interval self);
    ConfigFile.password := beacon_password self |};
  ConfigFile.device := Some {|
    ConfigFile.name := Some (device_name self);
    ConfigFile.path := device_path self;
    ConfigFile.type_ := Some (device_type self);
    ConfigFile.fix_rp_filter := Some (fix_rp_filter self) |};
  ConfigFile.crypto := crypto self;
  ConfigFile.group := group self;
  ConfigFile.user := user self;
  ConfigFile.ifup := ifup self;
  ConfigFile.ifdown := ifdown self;
  ConfigFile.ip := ip self;
  ConfigFile.advertise_addresses := Some (advertise_addresses self);
  ConfigFile.keepalive := keepalive self;
  ConfigFile.listen := Some (listen self);
  ConfigFile.mode := Some (mode self);
  ConfigFile.peer_timeout := Some (peer_timeout self);
  ConfigFile.peers := Some (peers self);
  ConfigFile.pid_file := pid_file self;
  ConfigFile.port_forwarding := Some (port_forwarding self);
  ConfigFile.stats_file := stats_file self;
  ConfigFile.statsd := Some {|
    ConfigFile.server := statsd_server self;
    ConfigFile.prefix := statsd_prefix self |};
  ConfigFile.switch_timeout := Some (switch_timeout self);
  ConfigFile.hook := hook self;
  ConfigFile.hooks := hooks self
|}.

(** [u32] arithmetic: [peer_timeout / 2 - 60] wraps below. *)
Definition get_keepalive (self : Config) : Z :=
  match keepalive self with
  | Some dur => dur
  | None => Z.max (wrap32 (peer_timeout self / 2 - 60)) 1
  end.

(** The command [call_hook] starts for an event: script and environment. *)
Definition call_hook (event : string) (envs : list (string * string)) (self : Config)
    : option (string * list (string * string)) :=
  let script := set_some (hooks self !! event) (hook self) in
  (fun script => (script, envs ++ [("EVENT", event)])) <$> script.

End Config.

(** ** Version 1 *)

Module OldConfigFile.

Inductive OldCryptoMethod : Type := ChaCha20 | AES256 | AES128.

Record OldConfigFile : Type := mkOldConfigFile {
  device_type : option DeviceType;
  device_name : option string;
  device_path : option string;
  ifup : option string;
  ifdown : option string;
  crypto : option OldCryptoMethod;
  shared_key : option string;
  magic : option string;
  port : option Z;
  listen : option string;
  peers : option (list string);
  peer_timeout : option Z;
  keepalive : option Z;
  beacon_store : option string;
  beacon_load : option string;
  beacon_interval : option Z;
  mode : option Mode;
  dst_timeout : option Z;
  subnets : option (list string);
  port_forwarding : option bool;
  pid_file : option string;
  stats_file : option string;
  statsd_server : option string;
  statsd_prefix : option string;
  user : option string;
  group : option string
}.

Definition convert (self : OldConfigFile) : ConfigFile.ConfigFile := {|
  ConfigFile.auto_claim := None;
  ConfigFile.beacon := Some {|
    ConfigFile.interval := beacon_interval self;
    ConfigFile.load := beacon_load self;
    ConfigFile.store := beacon_store self;
    ConfigFile.password := shared_key self |};
  ConfigFile.claims := subnets self;
  ConfigFile.crypto := {|
    cc_algorithms := [];
    cc_password := Some (Config.set (shared_key self) "none");
    cc_private_key := None;
    cc_public_key := None;
    cc_trusted_keys := [] |};
  ConfigFile.device := Some {|
    ConfigFile.fix_rp_filter := None;
    ConfigFile.name := device_name self;
    ConfigFile.path := device_path self;
    ConfigFile.type_ := device_type self |};
  ConfigFile.group := group self;
  ConfigFile.ifdown := ifdown self;
  ConfigFile.ifup := ifup self;
  ConfigFile.ip := None;
  ConfigFile.advertise_addresses := None;
  ConfigFile.keepalive := keepalive self;
  ConfigFile.listen := match listen self with Some l => Some l | None => Address.fmt_u16 <$> port self end;
  ConfigFile.mode := mode self;
  ConfigFile.peer_timeout := peer_timeout self;
  ConfigFile.peers := peers self;
  ConfigFile.pid_file := pid_file self;
  ConfigFile.port_forwarding := port_forwarding self;
  ConfigFile.stats_file := stats_file self;
  ConfigFile.statsd := Some {|
    ConfigFile.prefix := statsd_prefix self;
    ConfigFile.server := statsd_server self |};
  ConfigFile.switch_timeout := dst_timeout self;
  ConfigFile.user := user self;
  ConfigFile.hook := None;
  ConfigFile.hooks := ∅
|}.

End OldConfigFile.

(** ** Main (src/src/main.rs) *)

(** What [main] settles on: the defaults, then the file, then the arguments. *)
Definition main_config (file : option ConfigFile.ConfigFile) (args : Args.Args) : Config.Config :=
  let config := Config.default in
  let config := match file with Some file => Config.merge_file file config | None => config end in
  Config.merge_args args config.

(** The error is the text of the source. *)
Definition parse_ip_netmask `{Address.IpParsers} (addr : string) : outcome string (bytes * bytes) :=
  let '(ip_str, len_str) := match Range.split_once "/"%char addr with
                            | Some parts => parts
                            | None => (addr, "24"%string)
                            end in
  prefix_len ← ok_or (Range.uint_from_str 256 len_str) ("Invalid prefix length: " +:+ len_str)%string;
  if decide (32 < prefix_len) then Err ("Invalid prefix length: " +:+ Address.fmt_u16 prefix_len)%string
  else
    ip ← ok_or (Address.ipv4_from_str ip_str) ("Invalid ip address: " +:+ ip_str)%string;
    netmask ← unwrap (let shift := 32 - prefix_len in
                      if decide (shift < 32) then Some (wrap32 (Z.shiftl (2 ^ 32 - 1) shift)) else None);
    Ok (ip, be_bytes 4 netmask).

(** A peer of the configuration with the default port, unless it has a port.
    [find(..).unwrap_or(0)] of the colon and of the bracket. *)
Fixpoint find_char (c : Ascii.ascii) (s : string) : option nat :=
  match s with
  | EmptyString => None
  | String x s' => if decide (x = c) then Some 0%nat else S <$> find_char c s'
  end.
Definition peer_with_port (addr : string) : string :=
  if decide (Config.set (find_char ":" addr) 0 <= Config.set (find_char "]" addr) 0)%nat
  then addr +:+ ":" +:+ Address.fmt_u16 DEFAULT_PORT else addr.

(** ** Theorems *)

Lemma fold_insert_empty (m : gmap string string) : map_fold (fun k v hooks => <[k := v]> hooks) ∅ m = m.
Proof. apply (map_fold_weak_ind (fun r m => r = m)); [done|]. by intros i x m' r _ ->. Qed.

Lemma set_some_none {A} (o : option A) : Config.set_some o None = o.
Proof. by destruct o. Qed.

Lemma merge_into_config_file c : Config.daemonize c = false -> Config.merge_file (Config.into_config_file c) Config.default = c.
Proof.
  intros Hd. unfold Config.merge_file, Config.into_config_file, Config.merge_crypto. cbn.
  rewrite fold_insert_empty. destruct c as [? ? ? ? ? ? ? ? [? ? ? ? [|]]]; cbn in *; by rewrite Hd, !set_some_none.
Qed.

(** C37: a configuration written to a file and read into the defaults comes back,
    every setting of it: all but the flag for the background, which has no place
    in the file. *)
Theorem config_file_roundtrip c : Config.daemonize c = false ->
  Config.merge_file (Config.into_config_file c) Config.default = c.
Proof. apply merge_into_config_file. Qed.

Lemma config_file_roundtrip_witness :
  Config.merge_file (Config.into_config_file (Config.merge_args
    {| Args.config := None; Args.type_ := Some Tap; Args.device_path := None; Args.fix_rp_filter := true; Args.mode := Some Switch;
       Args.password := Some "secret"%string; Args.private_key := None; Args.public_key := None; Args.trusted_keys := ["abc"%string];
       Args.algorithms := ["aes128"%string]; Args.claims := ["10.0.0.0/8"%string]; Args.no_auto_claim := true; Args.device := None;
       Args.listen := None; Args.peers := ["a:1"%string]; Args.peer_timeout := Some 60; Args.keepalive := None; Args.switch_timeout := None;
       Args.beacon_store := None; Args.beacon_load := None; Args.beacon_interval := None; Args.beacon_password := None;
       Args.verbose := false; Args.quiet := false; Args.ip := None; Args.advertise_addresses := []; Args.ifup := None; Args.ifdown := None;
       Args.version := false; Args.no_port_forwarding := true; Args.daemon := false; Args.pid_file := None; Args.stats_file := None;
       Args.statsd_server := None; Args.statsd_prefix := None; Args.user := None; Args.group := None; Args.log_file := None;
       Args.hook := ["vpn_started:a"%string; "b"%string]; Args.cmd := None |} Config.default)) Config.default =
  {| Config.device_type := Tap; Config.device_name := "vpncloud%d"; Config.device_path := None; Config.fix_rp_filter := true;
     Config.ip := None; Config.advertise_addresses := []; Config.ifup := None; Config.ifdown := None;
     Config.crypto := mkCryptoConfig (Some "secret"%string) None None ["abc"%string] ["aes128"%string];
     Config.listen := "3210"; Config.peers := ["a:1"%string]; Config.peer_timeout := 60; Config.keepalive := None;
     Config.beacon_store := None; Config.beacon_load := None; Config.beacon_interval := 3600; Config.beacon_password := None;
     Config.mode := Switch; Config.switch_timeout := 300; Config.claims := ["10.0.0.0/8"%string]; Config.auto_claim := false;
     Config.port_forwarding := false; Config.daemonize := false; Config.pid_file := None; Config.stats_file := None;
     Config.statsd_server := None; Config.statsd_prefix := None; Config.user := None; Config.group := None;
     Config.hook := Some "b"%string; Config.hooks := {["vpn_started"%string := "a"%string]} |}.
Proof. etransitivity; [apply config_file_roundtrip; reflexivity|]. vm_compute. reflexivity. Defined.

(** C38: a converted file of version 1 can be started with: its keys are never
    refused, they come from the shared key (["none"] without one), and only nodes
    with that key are trusted. *)
Theorem converted_config_usable `{RingLaws} (test_speed : Algorithm -> Z) (node_id : NodeId) (old : OldConfigFile.OldConfigFile) :
  let config := Config.merge_file (OldConfigFile.convert old) Config.default in
  exists node, Crypto.new test_speed node_id (Config.crypto config) = Ok node /\
    Crypto.keypair_from_password (E := Error) (Config.set (OldConfigFile.shared_key old) "none"%string) = Ok (cn_key_pair node) /\
    cn_trusted_keys node = [ed25519_public_key (cn_key_pair node)] /\
    allow_unencrypted (cn_algorithms node) = false.
Proof.
  cbn. unfold Crypto.new. cbn. unfold Crypto.keypair_from_password.
  destruct (from_seed_unchecked (Crypto.password_seed _)) as [k|] eqn:Hk.
  2: { apply from_seed_len in Hk. destruct (Hk (pbkdf2_len _ _ _)). }
  cbn. eexists. split; [reflexivity|]. done.
Qed.

Lemma converted_config_usable_witness :
  exists node, Crypto.new (H := toy_ring) (fun _ => 0) (replicate 16 1)
    (Config.crypto (Config.merge_file (OldConfigFile.convert (OldConfigFile.mkOldConfigFile None None None None None None
      (Some "key"%string) None (Some 3211) None None None None None None None None None None None None None None None None None)) Config.default)) = Ok node /\
    cn_trusted_keys node = [ed25519_public_key (Ring := toy_ring) (cn_key_pair node)].
Proof.
  destruct (converted_config_usable (H := toy_ring) (fun _ => 0) (replicate 16 1) (OldConfigFile.mkOldConfigFile None None None None None None
      (Some "key"%string) None (Some 3211) None None None None None None None None None None None None None None None None None)) as (node & Hn & _ & Ht & _).
  exists node. exact (conj Hn Ht).
Defined.

(** The interval between peer lists is at most half the peer timeout, and at
    least a second, when the timeout is at least two minutes; below that the
    subtraction wraps and the interval is over 136 years. *)
Theorem keepalive_spec c : Config.keepalive c = None -> 0 <= Config.peer_timeout c < 2 ^ 32 ->
  if decide (120 <= Config.peer_timeout c)
  then 1 <= Config.get_keepalive c <= Config.peer_timeout c / 2
  else 2 ^ 32 - 60 <= Config.get_keepalive c.
Proof.
  intros Hk Hp. unfold Config.get_keepalive. rewrite Hk. unfold wrap.
  case_decide as Ht.
  - rewrite Z.mod_small; [|Z.div_mod_to_equations; lia]. Z.div_mod_to_equations; lia.
  - replace ((Config.peer_timeout c / 2 - 60) mod 2 ^ 32) with (Config.peer_timeout c / 2 - 60 + 2 ^ 32); [Z.div_mod_to_equations; lia|].
    apply (Z.mod_unique _ _ (-1)); [left|]; Z.div_mod_to_equations; lia.
Qed.

Lemma keepalive_spec_witness :
  2 ^ 32 - 60 <= Config.get_keepalive (Config.merge_file (ConfigFile.mkConfigFile None None None None None default_crypto None None
    (Some 60) None None None None None None None None None None None None None ∅) Config.default).
Proof.
  exact (keepalive_spec (Config.merge_file (ConfigFile.mkConfigFile None None None None None default_crypto None None
    (Some 60) None None None None None None None None None None None None None ∅) Config.default) eq_refl ltac:(cbn; lia)).
Defined.

(** ** The netmask *)

Lemma split_once_spec c a b : c ∉ String.list_ascii_of_string a -> Range.split_once c (a +:+ String c b) = Some (a, b).
Proof.
  induction a as [|x a IH]; intros Hc.
  - change (EmptyString +:+ String c b) with (String c b). cbn [Range.split_once]. by rewrite decide_True.
  - change (String x a +:+ String c b) with (String x (a +:+ String c b)). cbn [Range.split_once String.list_ascii_of_string] in *.
    apply not_elem_of_cons in Hc as [Hx Hc]. rewrite decide_False by done. by rewrite IH.
Qed.

Lemma fmt_small n : 0 <= n < 256 -> Range.uint_from_str 256 (Address.fmt_u16 n) = Some n.
Proof.
  intros Hn. assert (Forall (fun n => Range.uint_from_str 256 (Address.fmt_u16 n) = Some n) (seqZ 0 256)) as Hall.
  { apply (bool_decide_unpack _). vm_compute. exact I. }
  rewrite Forall_forall in Hall. apply Hall. apply elem_of_seqZ. lia.
Qed.

(** An address with a prefix length parses to the address and the mask of that
    many leading ones; lengths over 32 are refused and length 0 panics. *)
Theorem ip_netmask_spec `{Address.IpParsers} ip_str ip len : 0 <= len < 256 ->
  "/"%char ∉ String.list_ascii_of_string ip_str -> Address.ipv4_from_str ip_str = Some ip ->
  parse_ip_netmask (ip_str +:+ "/" +:+ Address.fmt_u16 len) =
    if decide (32 < len) then Err ("Invalid prefix length: " +:+ Address.fmt_u16 len)%string
    else if decide (len = 0) then Panic
    else Ok (ip, be_bytes 4 (2 ^ 32 - 2 ^ (32 - len))).
Proof.
  intros Hl Hs Hip. unfold parse_ip_netmask. change ("/" +:+ Address.fmt_u16 len)%string with (String "/" (Address.fmt_u16 len)).
  rewrite split_once_spec by done. rewrite fmt_small by done. cbn [ok_or mbind outcome_bind].
  case_decide as Hd; [done|]. rewrite Hip. cbn [ok_or mbind outcome_bind]. destruct (decide (len = 0)) as [->|H0].
  - by rewrite decide_False by lia.
  - rewrite decide_True by lia. cbn [unwrap mbind outcome_bind]. do 2 f_equal. f_equal.
    rewrite Z.shiftl_mul_pow2 by lia. unfold wrap. symmetry. apply (Z.mod_unique _ _ (2 ^ (32 - len) - 1)).
    + left. pose proof (Z.pow_pos_nonneg 2 (32 - len) ltac:(lia) ltac:(lia)).
      pose proof (Z.pow_le_mono_r 2 (32 - len) 32 ltac:(lia) ltac:(lia)). lia.
    + ring.
Qed.

Definition sample_parsers : Address.IpParsers :=
  Address.Build_IpParsers (fun s => if decide (s = "10.0.0.1"%string) then Some [10; 0; 0; 1] else None) (fun _ => None).

Lemma ip_netmask_spec_witness :
  parse_ip_netmask (H := sample_parsers) "10.0.0.1/0" = Panic /\
  parse_ip_netmask (H := sample_parsers) "10.0.0.1/20" = Ok ([10; 0; 0; 1], [255; 255; 240; 0]).
Proof.
  split.
  - apply (ip_netmask_spec (H := sample_parsers) "10.0.0.1" [10; 0; 0; 1] 0); [lia| |reflexivity].
    apply (bool_decide_unpack _). vm_compute. exact I.
  - etransitivity; [apply (ip_netmask_spec (H := sample_parsers) "10.0.0.1" [10; 0; 0; 1] 20); [lia| |reflexivity]|vm_compute; reflexivity].
    apply (bool_decide_unpack _). vm_compute. exact I.
Defined.
