(* ===== verification/Cloud.v ===== *)
(** * The node (src/src/cloud.rs)

    [GenericCloud]: the peers, the handshakes under way, the forwarding table and
    the periodic work, over any device, socket, router and operating system. The
    clock is read once per operation and given to it. *)

From stdpp Require Import pretty.
From S2P Require Import Prelude Errors Poll Util Types Table Traffic Report Payload Messages Device Net Forwarding.
From S2P Require Import Ring Core Rotate Init Handshake Peer Beacon Configuration.

Definition MAX_RECONNECT_INTERVAL : Z := 3600.
Definition RESOLVE_INTERVAL : Z := 300.
Definition OWN_ADDRESS_RESET_INTERVAL : Z := 300.
Definition SPACE_BEFORE : Z := 100.

Record PeerData `{Ring} : Type := mkPeerData {
  pd_addrs : AddrList;
  pd_last_seen : Z;
  pd_timeout : Z;
  pd_peer_timeout : Z;
  pd_node_id : NodeId;
  pd_crypto : PeerCrypto NodeInfo
}.

Definition set_crypto `{Ring} (c : PeerCrypto NodeInfo) (p : PeerData) : PeerData :=
  mkPeerData _ (pd_addrs p) (pd_last_seen p) (pd_timeout p) (pd_peer_timeout p) (pd_node_id p) c.

Record ReconnectEntry : Type := mkReconnectEntry {
  re_address : option (string * Z);
  re_resolved : AddrList;
  re_tries : Z;
  re_timeout : Z;
  re_next : Z;
  re_final_timeout : option Z
}.

Record GenericCloud `{Ring} (D S W G : Type) : Type := mkCloud {
  gc_node_id : NodeId;
  config : Config.Config;
  learning : bool;
  broadcast : bool;
  peers : gmap SocketAddr PeerData;
  reconnect_peers : list ReconnectEntry;
  own_addresses : AddrList;
  pending_inits : gmap SocketAddr (PeerCrypto NodeInfo);
  table : ClaimTable;
  socket : S;
  device : D;
  claims : RangeList;
  crypto : CryptoNode;
  next_peers : Z;
  peer_timeout_publish : Z;
  update_freq : Z;
  stats_file : bool;
  statsd_server : option string;
  next_housekeep : Z;
  next_stats_out : Z;
  next_beacon : Z;
  next_own_address_reset : Z;
  port_forwarding : option (PortForwarding G);
  traffic : TrafficStats;
  beacon_serializer : BeaconSerializer;
  outside : W
}.
Arguments mkCloud {_ D S W G} _ _ _ _ _ _ _ _ _ _ _ _ _ _ _ _ _ _ _ _ _ _ _ _ _ _.
Arguments gc_node_id {_ D S W G} _.
Arguments config {_ D S W G} _.
Arguments learning {_ D S W G} _.
Arguments broadcast {_ D S W G} _.
Arguments peers {_ D S W G} _.
Arguments reconnect_peers {_ D S W G} _.
Arguments own_addresses {_ D S W G} _.
Arguments pending_inits {_ D S W G} _.
Arguments table {_ D S W G} _.
Arguments socket {_ D S W G} _.
Arguments device {_ D S W G} _.
Arguments claims {_ D S W G} _.
Arguments crypto {_ D S W G} _.
Arguments next_peers {_ D S W G} _.
Arguments peer_timeout_publish {_ D S W G} _.
Arguments update_freq {_ D S W G} _.
Arguments stats_file {_ D S W G} _.
Arguments statsd_server {_ D S W G} _.
Arguments next_housekeep {_ D S W G} _.
Arguments next_stats_out {_ D S W G} _.
Arguments next_beacon {_ D S W G} _.
Arguments next_own_address_reset {_ D S W G} _.
Arguments port_forwarding {_ D S W G} _.
Arguments traffic {_ D S W G} _.
Arguments beacon_serializer {_ D S W G} _.
Arguments outside {_ D S W G} _.

(** The rest of the machine: name resolution, the random choices of the crate
    [rand], files, commands, and how addresses are printed. *)
Class System (W : Type) : Type := {
  to_socket_addrs : string -> W -> option (list SocketAddr);
  partial_shuffle : nat -> list PeerInfo -> W -> W * list PeerInfo;
  choose_multiple : nat -> list SocketAddr -> W -> W * list SocketAddr;
  run_hook : string * list (string * string) -> W -> W;
  path_exists : string -> W -> bool;
  remove_file : string -> ST W ErrorKind unit;
  (** [File::create], [writeln!] and [set_permissions] *)
  create_file : string -> string -> ST W ErrorKind unit;
  read_to_string : string -> ST W ErrorKind string;
  (** a command with its environment, in the background *)
  spawn : string -> list (string * string) -> ST W ErrorKind unit;
  (** the statistics file is emptied and the text written *)
  write_stats : string -> ST W ErrorKind unit;
  show_addr : SocketAddr -> string
}.

(** The error of another type in a computation. *)
Definition with_err {S E F A} (f : E -> F) (m : ST S E A) : ST S F A := fun s =>
  let '(s, r) := m s in (s, map_err f r).

(** Text of a number. *)
Definition number (n : Z) : string := pretty n.

Module GenericCloud.
Section Cloud.
Context `{Ring} {D S W G P : Type}.
Context `{Device D} `{Socket S} `{System W} `{Gateway G} `{SocketParsers} `{Protocol P}.

Abbreviation Cloud := (GenericCloud D S W G).
Implicit Types c : Cloud.

Definition set_peers (x : gmap SocketAddr PeerData) c : Cloud :=
  mkCloud (gc_node_id c) (config c) (learning c) (broadcast c) x (reconnect_peers c) (own_addresses c) (pending_inits c) (table c) (socket c) (device c) (claims c) (crypto c) (next_peers c) (peer_timeout_publish c) (update_freq c) (stats_file c) (statsd_server c) (next_housekeep c) (next_stats_out c) (next_beacon c) (next_own_address_reset c) (port_forwarding c) (traffic c) (beacon_serializer c) (outside c).
Definition set_reconnect_peers (x : list ReconnectEntry) c : Cloud :=
  mkCloud (gc_node_id c) (config c) (learning c) (broadcast c) (peers c) x (own_addresses c) (pending_inits c) (table c) (socket c) (device c) (claims c) (crypto c) (next_peers c) (peer_timeout_publish c) (update_freq c) (stats_file c) (statsd_server c) (next_housekeep c) (next_stats_out c) (next_beacon c) (next_own_address_reset c) (port_forwarding c) (traffic c) (beacon_serializer c) (outside c).
Definition set_own_addresses (x : AddrList) c : Cloud :=
  mkCloud (gc_node_id c) (config c) (learning c) (broadcast c) (peers c) (reconnect_peers c) x (pending_inits c) (table c) (socket c) (device c) (claims c) (crypto c) (next_peers c) (peer_timeout_publish c) (update_freq c) (stats_file c) (statsd_server c) (next_housekeep c) (next_stats_out c) (next_beacon c) (next_own_address_reset c) (port_forwarding c) (traffic c) (beacon_serializer c) (outside c).
Definition set_pending_inits (x : gmap SocketAddr (PeerCrypto NodeInfo)) c : Cloud :=
  mkCloud (gc_node_id c) (config c) (learning c) (broadcast c) (peers c) (reconnect_peers c) (own_addresses c) x (table c) (socket c) (device c) (claims c) (crypto c) (next_peers c) (peer_timeout_publish c) (update_freq c) (stats_file c) (statsd_server c) (next_housekeep c) (next_stats_out c) (next_beacon c) (next_own_address_reset c) (port_forwarding c) (traffic c) (beacon_serializer c) (outside c).
Definition set_table (x : ClaimTable) c : Cloud :=
  mkCloud (gc_node_id c) (config c) (learning c) (broadcast c) (peers c) (reconnect_peers c) (own_addresses c) (pending_inits c) x (socket c) (device c) (claims c) (crypto c) (next_peers c) (peer_timeout_publish c) (update_freq c) (stats_file c) (statsd_server c) (next_housekeep c) (next_stats_out c) (next_beacon c) (next_own_address_reset c) (port_forwarding c) (traffic c) (beacon_serializer c) (outside c).
Definition set_socket (x : S) c : Cloud :=
  mkCloud (gc_node_id c) (config c) (learning c) (broadcast c) (peers c) (reconnect_peers c) (own_addresses c) (pending_inits c) (table c) x (device c) (claims c) (crypto c) (next_peers c) (peer_timeout_publish c) (update_freq c) (stats_file c) (statsd_server c) (next_housekeep c) (next_stats_out c) (next_beacon c) (next_own_address_reset c) (port_forwarding c) (traffic c) (beacon_serializer c) (outside c).
Definition set_device (x : D) c : Cloud :=
  mkCloud (gc_node_id c) (config c) (learning c) (broadcast c) (peers c) (reconnect_peers c) (own_addresses c) (pending_inits c) (table c) (socket c) x (claims c) (crypto c) (next_peers c) (peer_timeout_publish c) (update_freq c) (stats_file c) (statsd_server c) (next_housekeep c) (next_stats_out c) (next_beacon c) (next_own_address_reset c) (port_forwarding c) (traffic c) (beacon_serializer c) (outside c).
Definition set_next_peers (x : Z) c : Cloud :=
  mkCloud (gc_node_id c) (config c) (learning c) (broadcast c) (peers c) (reconnect_peers c) (own_addresses c) (pending_inits c) (table c) (socket c) (device c) (claims c) (crypto c) x (peer_timeout_publish c) (update_freq c) (stats_file c) (statsd_server c) (next_housekeep c) (next_stats_out c) (next_beacon c) (next_own_address_reset c) (port_forwarding c) (traffic c) (beacon_serializer c) (outside c).
Definition set_next_housekeep (x : Z) c : Cloud :=
  mkCloud (gc_node_id c) (config c) (learning c) (broadcast c) (peers c) (reconnect_peers c) (own_addresses c) (pending_inits c) (table c) (socket c) (device c) (claims c) (crypto c) (next_peers c) (peer_timeout_publish c) (update_freq c) (stats_file c) (statsd_server c) x (next_stats_out c) (next_beacon c) (next_own_address_reset c) (port_forwarding c) (traffic c) (beacon_serializer c) (outside c).
Definition set_next_stats_out (x : Z) c : Cloud :=
  mkCloud (gc_node_id c) (config c) (learning c) (broadcast c) (peers c) (reconnect_peers c) (own_addresses c) (pending_inits c) (table c) (socket c) (device c) (claims c) (crypto c) (next_peers c) (peer_timeout_publish c) (update_freq c) (stats_file c) (statsd_server c) (next_housekeep c) x (next_beacon c) (next_own_address_reset c) (port_forwarding c) (traffic c) (beacon_serializer c) (outside c).
Definition set_next_beacon (x : Z) c : Cloud :=
  mkCloud (gc_node_id c) (config c) (learning c) (broadcast c) (peers c) (reconnect_peers c) (own_addresses c) (pending_inits c) (table c) (socket c) (device c) (claims c) (crypto c) (next_peers c) (peer_timeout_publish c) (update_freq c) (stats_file c) (statsd_server c) (next_housekeep c) (next_stats_out c) x (next_own_address_reset c) (port_forwarding c) (traffic c) (beacon_serializer c) (outside c).
Definition set_next_own_address_reset (x : Z) c : Cloud :=
  mkCloud (gc_node_id c) (config c) (learning c) (broadcast c) (peers c) (reconnect_peers c) (own_addresses c) (pending_inits c) (table c) (socket c) (device c) (claims c) (crypto c) (next_peers c) (peer_timeout_publish c) (update_freq c) (stats_file c) (statsd_server c) (next_housekeep c) (next_stats_out c) (next_beacon c) x (port_forwarding c) (traffic c) (beacon_serializer c) (outside c).
Definition set_port_forwarding (x : option (PortForwarding G)) c : Cloud :=
  mkCloud (gc_node_id c) (config c) (learning c) (broadcast c) (peers c) (reconnect_peers c) (own_addresses c) (pending_inits c) (table c) (socket c) (device c) (claims c) (crypto c) (next_peers c) (peer_timeout_publish c) (update_freq c) (stats_file c) (statsd_server c) (next_housekeep c) (next_stats_out c) (next_beacon c) (next_own_address_reset c) x (traffic c) (beacon_serializer c) (outside c).
Definition set_traffic (x : TrafficStats) c : Cloud :=
  mkCloud (gc_node_id c) (config c) (learning c) (broadcast c) (peers c) (reconnect_peers c) (own_addresses c) (pending_inits c) (table c) (socket c) (device c) (claims c) (crypto c) (next_peers c) (peer_timeout_publish c) (update_freq c) (stats_file c) (statsd_server c) (next_housekeep c) (next_stats_out c) (next_beacon c) (next_own_address_reset c) (port_forwarding c) x (beacon_serializer c) (outside c).
Definition set_beacon_serializer (x : BeaconSerializer) c : Cloud :=
  mkCloud (gc_node_id c) (config c) (learning c) (broadcast c) (peers c) (reconnect_peers c) (own_addresses c) (pending_inits c) (table c) (socket c) (device c) (claims c) (crypto c) (next_peers c) (peer_timeout_publish c) (update_freq c) (stats_file c) (statsd_server c) (next_housekeep c) (next_stats_out c) (next_beacon c) (next_own_address_reset c) (port_forwarding c) (traffic c) x (outside c).
Definition set_outside (x : W) c : Cloud :=
  mkCloud (gc_node_id c) (config c) (learning c) (broadcast c) (peers c) (reconnect_peers c) (own_addresses c) (pending_inits c) (table c) (socket c) (device c) (claims c) (crypto c) (next_peers c) (peer_timeout_publish c) (update_freq c) (stats_file c) (statsd_server c) (next_housekeep c) (next_stats_out c) (next_beacon c) (next_own_address_reset c) (port_forwarding c) (traffic c) (beacon_serializer c) x.

Abbreviation CM := (ST (Env Cloud) Error).

(** *** Calls on the parts *)

Definition field {A} (f : Cloud -> A) : CM A := on_self (gets f).
Definition update (f : Cloud -> Cloud) : CM unit := on_self (modify f).
Definition on_traffic (f : TrafficStats -> TrafficStats) : CM unit := update (fun c => set_traffic (f (traffic c)) c).
Definition on_table (f : ClaimTable -> ClaimTable) : CM unit := update (fun c => set_table (f (table c)) c).
Definition on_outside {E A} (m : ST W E A) : ST (Env Cloud) E A := on_self (zoom outside set_outside m).
(** Length and contents of the buffer passed along. *)
Definition msg_len : CM Z := on_out (gets MsgBuffer.len).
Definition msg_bytes : CM bytes := on_out (fun b => (b, MsgBuffer.message b)).

(** A buffer of its own for a part of an operation. *)
Definition with_buffer {A} (b : MsgBuffer) (m : CM A) : CM A := fun e =>
  let '(e', r) := m (mkEnv (self e) b (rng e)) in (mkEnv (self e') (out e) (rng e'), r).

(** An operation of the crypto of a peer, of a pending handshake, and of one that is
    in neither map yet, with what became of it and its result. *)
Definition on_peer {A} (addr : SocketAddr) (p : PeerData) (m : ST (Env (PeerCrypto NodeInfo)) Error A) : CM A :=
  on_part (fun _ => pd_crypto p) (fun i c => set_peers (<[addr := set_crypto i p]> (peers c)) c) m.
Definition on_pending {A} (addr : SocketAddr) (i : PeerCrypto NodeInfo) (m : ST (Env (PeerCrypto NodeInfo)) Error A) : CM A :=
  on_part (fun _ => i) (fun i c => set_pending_inits (<[addr := i]> (pending_inits c)) c) m.
Definition on_new {A} (i : PeerCrypto NodeInfo) (m : ST (Env (PeerCrypto NodeInfo)) Error A)
    : CM (PeerCrypto NodeInfo * outcome Error A) := fun e =>
  match m (mkEnv i (out e) (rng e)) with
  | (e', Panic) => (mkEnv (self e) (out e') (rng e'), Panic)
  | (e', r) => (mkEnv (self e) (out e') (rng e'), Ok (self e', r))
  end.

Definition call_hook (event : string) (envs : list (string * string)) : CM unit :=
  update (fun c => match Config.call_hook event envs (config c) with
                   | Some cmd => set_outside (run_hook cmd (outside c)) c
                   | None => c
                   end).
Definition debug_addr (addr : SocketAddr) : string := show_addr addr.

(** [Socket::send] of a whole datagram. *)
Definition send_datagram (now : Z) (data : bytes) (addr : SocketAddr) : CM unit :=
  r ← catch (on_self (zoom socket set_socket (send now data addr)));
  match r with
  | Ok written => if decide (written = zlen data) then mret () else throw (ESocket "Sent out truncated packet")
  | Err e => throw (SocketIo "IOError when sending" e)
  | Panic => panic
  end.

(** *** Sending *)

Definition send_to (now : Z) (addr : SocketAddr) : CM unit :=
  len ← msg_len;
  on_traffic (TrafficStats.count_out_traffic addr len) ;;
  data ← msg_bytes;
  send_datagram now data addr.

Definition send_msg (now : Z) (addr : SocketAddr) (type_ : Z) : CM unit :=
  ps ← field peers;
  match ps !! addr with
  | Some peer =>
      on_peer addr peer (PeerCrypto.send_message type_) ;;
      send_to now addr
  | None => throw (EMessage "Sending to node that is not a peer")
  end.

(** One peer of a broadcast of [msg]; the buffer is the one of the copies. *)
Definition broadcast_one (now : Z) (type_ : Z) (msg : MsgBuffer) (addr : SocketAddr) : CM unit :=
  on_out (modify (MsgBuffer.set_start (MsgBuffer.get_start msg))) ;;
  on_out (modify (MsgBuffer.set_length (MsgBuffer.len msg))) ;;
  data ← lift (MsgBuffer.message msg);
  on_out (MsgBuffer.put_message data) ;;
  ps ← field peers;
  match ps !! addr with
  | Some peer =>
      on_peer addr peer (PeerCrypto.send_message type_) ;;
      send_to now addr
  | None => mret ()
  end.

Definition broadcast_msg (now : Z) (type_ : Z) : CM unit :=
  msg ← on_out get;
  ps ← field peers;
  with_buffer (MsgBuffer.new 100) (for_each (broadcast_one now type_ msg) (map_to_list ps).*1).

(** *** Addresses and connections *)

Definition reset_own_addresses : ST (Env Cloud) ErrorKind unit :=
  on_self (modify (set_own_addresses [])) ;;
  c ← on_self get;
  socket_addr ← lift (mapped_addr <$> address (socket c));
  advertised ← lift (mapM (fun addr => parse_listen addr (port_of socket_addr)) (Config.advertise_addresses (config c)));
  on_self (modify (set_own_addresses (advertised ++ [socket_addr] ++
    match port_forwarding c with
    | Some pfw => [PortForwarding.get_internal_ip pfw; PortForwarding.get_external_ip pfw]
    | None => []
    end))).

Definition add_reconnect_peer (now : Z) (add : string) : CM unit :=
  c ← on_self get;
  let resolved := match resolve add (to_socket_addrs add (outside c)) with Ok addrs => addrs | _ => [] end in
  update (set_reconnect_peers (reconnect_peers c ++ [mkReconnectEntry (Some (add, now)) resolved 0 1 now None])).

(** At most twenty of the peers. *)
Definition create_node_info : CM NodeInfo :=
  c ← on_self get;
  let infos := (fun x => mkPeerInfo (Some (pd_node_id x.2)) (pd_addrs x.2)) <$> map_to_list (peers c) in
  infos ← (if decide (20 < length infos)%nat
           then (infos ← on_outside (fun w => let '(w, l) := partial_shuffle 20 infos w in (w, Ok l));
                 mret (take 20 infos))
           else mret infos);
  mret (mkNodeInfo (gc_node_id c) infos (claims c) (Some (peer_timeout_publish c)) (own_addresses c)).

(** Connected, the node itself, or under way. *)
Definition known (addr : SocketAddr) c : bool :=
  bool_decide (is_Some (peers c !! addr)) || bool_decide (addr ∈ own_addresses c) || bool_decide (is_Some (pending_inits c !! addr)).

Definition connect_sock (now : Z) (addr : SocketAddr) : CM unit :=
  let addr := mapped_addr addr in
  skip ← field (known addr);
  if skip : bool then mret ()
  else
    payload ← create_node_info;
    node ← field crypto;
    peer_crypto ← on_rng (PeerCrypto.peer_instance node payload);
    with_buffer (MsgBuffer.new SPACE_BEFORE) (
      '(peer_crypto, r) ← on_new peer_crypto PeerCrypto.initialize;
      lift r ;;
      update (fun c => set_pending_inits (<[addr := peer_crypto]> (pending_inits c)) c) ;;
      send_to now addr).

(** [.ok()]. *)
Definition ignore_err {A} (m : CM A) : CM unit := catch m ;; mret ().

(** [name] is how the address is printed, [resolved] what it resolves to. *)
Definition connect (now : Z) (name : string) (resolved : option (list SocketAddr)) : CM unit :=
  addrs ← lift (resolve name resolved);
  let addrs := mapped_addr <$> addrs in
  c ← on_self get;
  if existsb (fun addr => known addr c) addrs then mret ()
  else
    match addrs with
    | addr :: _ => call_hook "peer_connecting" [("PEER", debug_addr (addr_nice addr)); ("IFNAME", ifname (device c))]%string
    | [] => mret ()
    end ;;
    for_each (fun a => ignore_err (connect_sock now a)) addrs.

Definition connect_list (now : Z) (addrs : list SocketAddr) : CM unit := connect now "" (Some addrs).

(** *** Periodic work *)

(** What [every_second] of a handshake or a peer gave: [true] to drop it. *)
Definition second_result (now : Z) (addr : SocketAddr) (r : outcome Error (MessageResult NodeInfo)) : CM bool :=
  match r with
  | Err _ => mret true
  | Ok NoResult => mret false
  | Ok Reply => send_to now addr ;; mret false
  | _ => panic
  end.

Fixpoint pending_seconds (now : Z) (addrs : list SocketAddr) : CM (list SocketAddr) :=
  match addrs with
  | [] => mret []
  | addr :: addrs =>
      on_out (modify MsgBuffer.clear) ;;
      m ← field pending_inits;
      init ← lift (unwrap (m !! addr));
      r ← catch (on_pending addr init PeerCrypto.every_second);
      dead ← second_result now addr r;
      del ← pending_seconds now addrs;
      mret (if dead : bool then addr :: del else del)
  end.
Fixpoint peer_seconds (now : Z) (addrs : list SocketAddr) : CM (list SocketAddr) :=
  match addrs with
  | [] => mret []
  | addr :: addrs =>
      on_out (modify MsgBuffer.clear) ;;
      m ← field peers;
      peer ← lift (unwrap (m !! addr));
      r ← catch (on_peer addr peer PeerCrypto.every_second);
      dead ← second_result now addr r;
      del ← peer_seconds now addrs;
      mret (if dead : bool then addr :: del else del)
  end.

Definition drop_dead (now : Z) (addr : SocketAddr) : CM unit :=
  update (fun c => set_pending_inits (delete addr (pending_inits c)) c) ;;
  ps ← field peers;
  update (set_peers (delete addr ps)) ;;
  if decide (is_Some (ps !! addr)) then connect_sock now addr else mret ().

Definition crypto_housekeep (now : Z) : CM unit :=
  del ← with_buffer (MsgBuffer.new SPACE_BEFORE) (
    ps ← field pending_inits;
    del ← pending_seconds now (map_to_list ps).*1;
    ps ← field peers;
    del' ← peer_seconds now (map_to_list ps).*1;
    mret (del ++ del'));
  for_each (drop_dead now) del.

(** One entry of [reconnect_peers] in the second loop of [reconnect_to_peers];
    [resolve_host] answers for the system. *)
Definition schedule (now : Z) (connected : SocketAddr -> bool) (resolve_host : string -> option (list SocketAddr))
    (e : ReconnectEntry) : ReconnectEntry :=
  let e := if existsb connected (re_resolved e)
           then mkReconnectEntry (re_address e) (re_resolved e) 0 1 (now + 1) (re_final_timeout e) else e in
  let e := match re_address e with
           | Some (address, next_resolve) =>
               if decide (next_resolve <= now) then
                 let resolved := match resolve address (resolve_host address) with
                                 | Ok addrs => addrs
                                 | _ =>
                                     let name := (address +:+ ":" +:+ Address.fmt_u16 DEFAULT_PORT)%string in
                                     match resolve name (resolve_host name) with
                                     | Ok addrs => addrs
                                     | _ => re_resolved e
                                     end
                                 end in
                 mkReconnectEntry (Some (address, now + RESOLVE_INTERVAL)) resolved (re_tries e) (re_timeout e) (re_next e) (re_final_timeout e)
               else e
           | None => e
           end in
  if decide (now < re_next e) then e
  else
    let tries := wrap16 (re_tries e + 1) in
    let '(tries, timeout) := if decide (10 < tries) then (0, wrap16 (re_timeout e * 2)) else (tries, re_timeout e) in
    let timeout := if decide (MAX_RECONNECT_INTERVAL < timeout) then MAX_RECONNECT_INTERVAL else timeout in
    mkReconnectEntry (re_address e) (re_resolved e) tries timeout (now + timeout) (re_final_timeout e).

Definition due (now : Z) (e : ReconnectEntry) : bool := bool_decide (re_next e <= now).

Definition reconnect_to_peers (now : Z) : CM unit :=
  entries ← field reconnect_peers;
  for_each (fun e => if due now e then connect_list now (re_resolved e) else mret ()) entries ;;
  update (fun c => set_reconnect_peers
    (schedule now (fun addr => bool_decide (is_Some (peers c !! addr))) (fun name => to_socket_addrs name (outside c)) <$> reconnect_peers c) c) ;;
  update (fun c => set_reconnect_peers
    (filter (fun e => now <= match re_final_timeout e with Some t => t | None => now end) (reconnect_peers c)) c).

(** The beacon, with the path of the configuration. *)
Definition command_of (path : string) : option string := strip_prefix "|" path.

Definition write_to_cmd (now : Z) (peers : list SocketAddr) (cmd : string) : CM unit :=
  st ← field beacon_serializer;
  b ← lift (BeaconSerializer.begin st);
  data ← lift (BeaconSerializer.peerlist_encode st now peers);
  e ← lift (BeaconSerializer.end_ st);
  let b := String.string_of_list_ascii b in
  let e := String.string_of_list_ascii e in
  with_err (BeaconIo "Failed to call beacon command")
    (on_outside (spawn cmd [("begin", b); ("data", data); ("end", e); ("beacon", (b +:+ data +:+ e)%string)]))%string.

Definition write_to_file (now : Z) (peers : list SocketAddr) (path : string) : CM unit :=
  st ← field beacon_serializer;
  beacon ← lift (BeaconSerializer.encode st now peers);
  with_err (BeaconIo "Failed to write beacon to file")
    (there ← on_outside (gets (path_exists path));
     (if there : bool then on_outside (remove_file path) else mret ()) ;;
     on_outside (create_file path (beacon +:+ newline)%string)).

Definition store_beacon (now : Z) : CM unit :=
  c ← on_self get;
  match Config.beacon_store (config c) with
  | Some path =>
      peers ← on_outside (fun w => let '(w, l) := choose_multiple 3 (own_addresses c) w in (w, Ok l));
      match command_of path with
      | Some cmd => write_to_cmd now peers cmd
      | None => write_to_file now peers path
      end
  | None => mret ()
  end.

Definition read_from_cmd (cmd : string) : CM unit :=
  st ← field beacon_serializer;
  b ← lift (BeaconSerializer.begin st);
  e ← lift (BeaconSerializer.end_ st);
  with_err (BeaconIo "Failed to call beacon command")
    (on_outside (spawn cmd [("begin", String.string_of_list_ascii b); ("end", String.string_of_list_ascii e)]))%string.

Definition read_from_file (now : Z) (path : string) (ttl_hours : option Z) : CM (list SocketAddr) :=
  st ← field beacon_serializer;
  contents ← with_err (BeaconIo "Failed to read beacon from file") (on_outside (read_to_string path));
  lift (BeaconSerializer.decode st now contents ttl_hours).

Definition load_beacon (now : Z) : CM unit :=
  c ← on_self get;
  match Config.beacon_load (config c) with
  | Some path =>
      match command_of path with
      | Some cmd => read_from_cmd cmd
      | None =>
          peers ← read_from_file now path (Some 50);
          for_each (connect_sock now) peers
      end
  | None => mret ()
  end.

(** The message of [send_stats_to_statsd]. *)
Definition in_out (t : TrafficEntry) (m : StatsdMsg) : StatsdMsg :=
  let m := StatsdMsg.with_ns "inbound" (fun m =>
    StatsdMsg.add "packets" (number (in_packets t)) "c" (StatsdMsg.add "bytes" (number (in_bytes t)) "c" m)) m in
  StatsdMsg.with_ns "outbound" (fun m =>
    StatsdMsg.add "packets" (number (out_packets t)) "c" (StatsdMsg.add "bytes" (number (out_bytes t)) "c" m)) m.
Definition statsd_message c : string :=
  let peer_traffic := TrafficStats.total_peer_traffic (traffic c) in
  let payload_traffic := TrafficStats.total_payload_traffic (traffic c) in
  let dropped := ts_dropped (traffic c) in
  let prefix := Config.set (Config.statsd_prefix (config c)) "vpncloud"%string in
  StatsdMsg.build (StatsdMsg.with_ns prefix (fun m =>
    let m := StatsdMsg.add "peer_count" (number (Z.of_nat (size (peers c)))) "g" m in
    let m := StatsdMsg.add "table_cache_entries" (number (ClaimTable.cache_len (table c))) "g" m in
    let m := StatsdMsg.add "table_claims" (number (ClaimTable.claim_len (table c))) "g" m in
    let m := StatsdMsg.with_ns "traffic" (fun m =>
      let m := StatsdMsg.with_ns "protocol" (in_out peer_traffic) m in
      StatsdMsg.with_ns "payload" (in_out payload_traffic) m) m in
    let m := StatsdMsg.with_ns "invalid_protocol_traffic" (fun m =>
      StatsdMsg.add "packets" (number (in_packets dropped)) "c" (StatsdMsg.add "bytes" (number (in_bytes dropped)) "c" m)) m in
    StatsdMsg.with_ns "dropped_payload" (fun m =>
      StatsdMsg.add "packets" (number (out_packets dropped)) "c" (StatsdMsg.add "bytes" (number (out_bytes dropped)) "c" m)) m)
    StatsdMsg.new).

Definition send_stats_to_statsd (now : Z) : CM unit :=
  c ← on_self get;
  match statsd_server c with
  | Some endpoint =>
      addrs ← lift (resolve endpoint (to_socket_addrs endpoint (outside c)));
      match addrs with
      | addr :: _ => send_datagram now (as_bytes (statsd_message c)) addr
      | [] => mret ()
      end
  | None => mret ()
  end.

(** The text of the statistics file. *)
Definition peer_line (now : Z) (p : SocketAddr * PeerData) : Result string :=
  algo ← PeerCrypto.algorithm_name (pd_crypto p.2);
  Ok ("  - " +:+ quoted (show_addr (addr_nice p.1)) +:+ ": { ttl_secs: " +:+ number (pd_timeout p.2 - now) +:+ ", crypto: " +:+ algo +:+ " }")%string.
Definition stats_text (now : Z) c : Result string :=
  peers ← mapM (peer_line now) (map_to_list (peers c));
  Ok (lines (["peers:"%string] ++ peers ++ [""%string] ++ table_lines show_addr now (table c) ++ [""%string] ++ traffic_lines show_addr (traffic c) ++ [""%string])).

Definition write_out_stats (now : Z) : CM unit :=
  c ← on_self get;
  if stats_file c then
    text ← lift (stats_text now c);
    with_err (FileIo "Failed to write stats file") (on_outside (write_stats text))
  else mret ().

Definition forget_peer (now : Z) (addr : SocketAddr) : CM unit :=
  update (fun c => set_peers (delete addr (peers c)) c) ;;
  on_table (ClaimTable.remove_claims now addr) ;;
  connect_sock now addr.

(** The interval until the next peer list, in [u16] arithmetic. *)
Definition min_peer_timeout c : Z :=
  match (fun x => pd_peer_timeout x.2) <$> map_to_list (peers c) with
  | [] => DEFAULT_PEER_TIMEOUT
  | t :: ts => fold_right Z.min t ts
  end.
Definition peer_list_interval c : Z := Z.min (update_freq c) (Z.max (wrap16 (min_peer_timeout c / 2 - 60)) 1).

Definition send_peer_list (now : Z) : CM unit :=
  info ← create_node_info;
  with_buffer (MsgBuffer.new SPACE_BEFORE) (
    on_out (NodeInfo.encode info) ;;
    broadcast_msg now MESSAGE_TYPE_NODE_INFO) ;;
  update (fun c => set_next_peers (now + peer_list_interval c) c).

(** [system_now] is the clock of the port forwarding. *)
Definition housekeep (now system_now : Z) : CM unit :=
  c ← on_self get;
  for_each (forget_peer now) (filter (fun x => pd_timeout x.2 < now) (map_to_list (peers c))).*1 ;;
  on_table (ClaimTable.housekeep now) ;;
  crypto_housekeep now ;;
  update (fun c => set_port_forwarding (PortForwarding.check_extend system_now <$> port_forwarding c) c) ;;
  t ← field next_peers;
  (if decide (t <= now) then send_peer_list now else mret ()) ;;
  reconnect_to_peers now ;;
  t ← field next_stats_out;
  (if decide (t < now) then
     write_out_stats now ;;
     send_stats_to_statsd now ;;
     update (set_next_stats_out (now + STATS_INTERVAL)) ;;
     on_traffic (TrafficStats.period (Some 5))
   else mret ()) ;;
  results ← on_self (zoom beacon_serializer set_beacon_serializer BeaconSerializer.get_cmd_results);
  match results with
  | Some peers => for_each (connect_sock now) peers
  | None => mret ()
  end ;;
  t ← field next_beacon;
  (if decide (t < now) then
     store_beacon now ;;
     load_beacon now ;;
     update (fun c => set_next_beacon (now + Config.beacon_interval (config c)) c)
   else mret ()) ;;
  t ← field next_own_address_reset;
  if decide (t <= now) then
    with_err (SocketIo "Failed to get own addresses") reset_own_addresses ;;
    update (set_next_own_address_reset (now + OWN_ADDRESS_RESET_INTERVAL))
  else mret ().

(** *** Payload from the device *)

Definition handle_interface_data (now : Z) : CM unit :=
  data ← msg_bytes;
  '(src, dst) ← lift (parse (P := P) data);
  len ← msg_len;
  on_traffic (TrafficStats.count_out_payload dst src len) ;;
  found ← on_self (zoom table set_table (fun t => let '(t, r) := ClaimTable.lookup now dst t in (t, Ok r)));
  match found with
  | Some addr =>
      send_msg now addr MESSAGE_TYPE_DATA ;;
      ps ← field peers;
      if decide (is_Some (ps !! addr)) then mret ()
      else
        on_table (ClaimTable.remove_claims now addr) ;;
        connect_sock now addr
  | None =>
      b ← field broadcast;
      if b : bool then broadcast_msg now MESSAGE_TYPE_DATA
      else on_traffic (TrafficStats.count_dropped_payload len)
  end.

(** *** Peers *)

Definition connect_to_peer (now : Z) (peer : PeerInfo) : CM unit :=
  c ← on_self get;
  if existsb (fun addr => bool_decide (is_Some (peers c !! addr))) (pi_addrs peer) then mret ()
  else
    match pi_node_id peer with
    | Some node_id =>
        if decide (gc_node_id c = node_id) then
          update (fun c => set_own_addresses
            (fold_left (fun own addr => if decide (addr ∈ own) then own else own ++ [addr]) (pi_addrs peer) (own_addresses c)) c)
        else if existsb (fun x => bool_decide (pd_node_id x.2 = node_id)) (map_to_list (peers c)) then mret ()
        else connect_list now (pi_addrs peer)
    | None => connect_list now (pi_addrs peer)
    end.
Definition connect_to_peers (now : Z) (peers : list PeerInfo) : CM unit := for_each (connect_to_peer now) peers.

(** The addresses of a peer: the one it is seen at, then the others it names. *)
Definition peer_addrs (addr : SocketAddr) (addrs : AddrList) : AddrList :=
  fold_left (fun l a => if decide (a ∈ l) then l else l ++ [a]) addrs [addr].

Definition update_peer_info (now : Z) (addr : SocketAddr) (info : option NodeInfo) : CM unit :=
  c ← on_self get;
  match peers c !! addr with
  | Some peer =>
      let addrs := match info with Some info => peer_addrs addr (ni_addrs info) | None => pd_addrs peer end in
      update (set_peers (<[addr := mkPeerData _ addrs now (now + Config.peer_timeout (config c)) (pd_peer_timeout peer)
                                     (pd_node_id peer) (pd_crypto peer)]> (peers c))) ;;
      match info with
      | Some info =>
          on_table (ClaimTable.set_claims now addr (ni_claims info)) ;;
          connect_to_peers now (ni_peers info)
      | None => mret ()
      end
  | None => mret ()
  end.

Definition add_new_peer (now : Z) (addr : SocketAddr) (info : NodeInfo) : CM unit :=
  c ← on_self get;
  call_hook "peer_connected" [("PEER", debug_addr (addr_nice addr)); ("IFNAME", ifname (device c));
    ("CLAIMS", join " " (Range.fmt <$> ni_claims info)); ("NODE_ID", bytes_to_hex (ni_node_id info))]%string ;;
  c ← on_self get;
  match pending_inits c !! addr with
  | Some init =>
      update (set_pending_inits (delete addr (pending_inits c))) ;;
      update (set_peers (<[addr := mkPeerData _ (ni_addrs info) now (now + Config.peer_timeout (config c))
        (Config.set (ni_peer_timeout info) DEFAULT_PEER_TIMEOUT) (ni_node_id info) init]> (peers c))) ;;
      update_peer_info now addr (Some info)
  | None => mret ()
  end.

Definition remove_peer (now : Z) (addr : SocketAddr) : CM unit :=
  c ← on_self get;
  match peers c !! addr with
  | Some peer =>
      update (set_peers (delete addr (peers c))) ;;
      on_table (ClaimTable.remove_claims now addr) ;;
      call_hook "peer_disconnected" [("PEER", debug_addr addr); ("IFNAME", ifname (device c));
        ("NODE_ID", bytes_to_hex (pd_node_id peer))]%string
  | None => mret ()
  end.

(** *** Messages from the network *)

Definition on_device {A} (m : ST (D * MsgBuffer) Error A) : CM A := fun e =>
  let '(d, b, r) := m (device (self e), out e) in (mkEnv (set_device d (self e)) b (rng e), r).

Definition handle_payload_from (now : Z) (peer : SocketAddr) : CM unit :=
  data ← msg_bytes;
  '(src, dst) ← lift (parse (P := P) data);
  len ← msg_len;
  on_traffic (TrafficStats.count_in_payload src dst len) ;;
  on_device write ;;
  l ← field learning;
  if l : bool then on_table (ClaimTable.cache now src peer) else mret ().

Definition count_invalid : CM unit :=
  len ← msg_len;
  on_traffic (TrafficStats.count_invalid_protocol len).

Definition handle_message (now : Z) (src : SocketAddr) (msg_result : MessageResult NodeInfo) : CM unit :=
  match msg_result with
  | Peer.Message type_ =>
      if decide (type_ = MESSAGE_TYPE_DATA) then handle_payload_from now src
      else if decide (type_ = MESSAGE_TYPE_NODE_INFO) then
        data ← msg_bytes;
        info ← catch (lift (NodeInfo.decode data));
        match info with
        | Ok info => update_peer_info now src (Some info)
        | Err err => count_invalid ;; throw err
        | Panic => panic
        end
      else if decide (type_ = MESSAGE_TYPE_KEEPALIVE) then update_peer_info now src None
      else if decide (type_ = MESSAGE_TYPE_CLOSE) then remove_peer now src
      else count_invalid ;; throw (EMessage "Unknown message type")
  | Initialized info => add_new_peer now src info
  | InitializedWithReply info => add_new_peer now src info ;; send_to now src
  | Reply => send_to now src
  | NoResult => mret ()
  end.

(** An init message of a node with no handshake under way. *)
Definition handle_new_init (now : Z) (src : SocketAddr) : CM (MessageResult NodeInfo) :=
  payload ← create_node_info;
  node ← field crypto;
  init ← on_rng (PeerCrypto.peer_instance node payload);
  '(init, r) ← on_new init PeerCrypto.handle_message;
  match r with
  | Ok res =>
      d ← field device;
      call_hook "peer_connecting" [("PEER", debug_addr (addr_nice src)); ("IFNAME", ifname d)]%string ;;
      update (fun c => set_pending_inits (<[src := init]> (pending_inits c)) c) ;;
      mret res
  | Err err => count_invalid ;; throw err
  | Panic => panic
  end.

(** The end of [handle_net_message]: the result of the crypto is acted on. *)
Definition finish (now : Z) (src : SocketAddr) (m : CM (MessageResult NodeInfo)) : CM unit :=
  msg_result ← catch m;
  match msg_result with
  | Ok val => handle_message now src val
  | Err err => count_invalid ;; throw err
  | Panic => panic
  end.

Definition handle_net_message (now : Z) (src : SocketAddr) : CM unit :=
  let src := mapped_addr src in
  c ← on_self get;
  match pending_inits c !! src with
  | Some init => finish now src (on_pending src init PeerCrypto.handle_message)
  | None =>
      data ← msg_bytes;
      if is_init_message data : bool then
        match peers c !! src with
        | Some peer =>
            if PeerCrypto.has_init (pd_crypto peer) : bool then finish now src (on_peer src peer PeerCrypto.handle_message)
            else res ← handle_new_init now src; handle_message now src res
        | None => res ← handle_new_init now src; handle_message now src res
        end
      else
        match peers c !! src with
        | Some peer => finish now src (on_peer src peer PeerCrypto.handle_message)
        | None => count_invalid
        end
  end.

(** *** Events *)

Definition on_socket {A} (m : ST (S * MsgBuffer) ErrorKind A) : ST (Env Cloud) ErrorKind A := fun e =>
  let '(s, b, r) := m (socket (self e), out e) in (mkEnv (set_socket s (self e)) b (rng e), r).

(** [try_fail!] ends the program. *)
Definition or_fail {E F A} (m : ST (Env Cloud) E A) : ST (Env Cloud) F A := fun e =>
  match m e with
  | (e', Ok a) => (e', Ok a)
  | (e', _) => (e', Panic)
  end.

Definition handle_socket_event (now : Z) : CM unit :=
  src ← or_fail (on_socket receive);
  len ← msg_len;
  on_traffic (TrafficStats.count_in_traffic src len) ;;
  r ← catch (handle_net_message now src);
  match r with
  | Err (CryptoInitFatal _) =>
      update (fun c => set_pending_inits (delete src (pending_inits c)) c) ;;
      d ← field device;
      call_hook "peer_disconnected" [("PEER", debug_addr (addr_nice src)); ("IFNAME", ifname d)]%string
  | _ => mret ()
  end.

Definition handle_device_event (now : Z) : CM unit :=
  or_fail (E := Error) (on_device read) ;;
  ignore_err (handle_interface_data now).

(** One turn of the loop of [run]: the flag for a failed wait, or the end. *)
Definition turn (now system_now : Z) (interrupted : bool) (evt : WaitResult) (poll_error : bool) : CM (option bool) :=
  poll_error ← match evt with
               | WaitError _ => if poll_error then panic else mret true
               | WaitTimeout => mret poll_error
               | WaitSocket => handle_socket_event now ;; mret poll_error
               | WaitDevice => handle_device_event now ;; mret poll_error
               end;
  t ← field next_housekeep;
  if decide (t < now) then
    if interrupted then mret None
    else
      ignore_err (housekeep now system_now) ;;
      update (set_next_housekeep (now + 1)) ;;
      mret (Some false)
  else mret (Some poll_error).

(** The end of [run]. *)
Definition shutdown (now : Z) : CM unit :=
  d ← field device;
  call_hook "vpn_shutdown" [("IFNAME", ifname d)]%string ;;
  on_out (modify MsgBuffer.clear) ;;
  ignore_err (broadcast_msg now MESSAGE_TYPE_CLOSE) ;;
  c ← on_self get;
  match Config.beacon_store (config c) with
  | Some path =>
      there ← on_outside (gets (path_exists path));
      if there : bool then catch (on_outside (E := ErrorKind) (remove_file path)) ;; mret () else mret ()
  | None => mret ()
  end.

(** *** A new node *)

Definition learning_broadcast (m : Mode) (t : DeviceType) : bool * bool :=
  match m with
  | Normal => match t with Tap => (true, true) | Tun => (false, false) end
  | Router => (false, false)
  | Switch => (true, true)
  | Hub => (false, true)
  end.

(** The claims of the configuration and the address of the device. *)
Definition node_claims {E} (conf : Config.Config) (device : D) : outcome E RangeList :=
  claims ← mapM (fun s => unwrap (match Range.from_str s with Ok r => Some r | _ => None end)) (Config.claims conf);
  Ok (claims ++
    (if bool_decide (get_type device = Tun) && Config.auto_claim conf
     then match get_ip device with
          | Ok ip => [mkRange (Address.from_ipv4 ip) 32]
          | _ => []
          end
     else [])).

(** [node_id] is what [random()] gave, [test_speed] what was measured. *)
Definition new (test_speed : Algorithm -> Z) (node_id : NodeId) (now : Z) (conf : Config.Config) (socket : S) (device : D)
    (port_forwarding : option (PortForwarding G)) (stats_file : bool) (outside : W) : outcome Error Cloud :=
  let '(learning, broadcast) := learning_broadcast (Config.mode conf) (Config.device_type conf) in
  claims ← node_claims conf device;
  crypto ← unwrap (match Crypto.new test_speed node_id (Config.crypto conf) with Ok n => Some n | _ => None end);
  let beacon_key := match Config.beacon_password conf with Some s => as_bytes s | None => [] end in
  Ok (mkCloud node_id conf learning broadcast ∅ [] [] ∅
        (ClaimTable.new (Config.switch_timeout conf) (Config.peer_timeout conf)) socket device claims crypto
        now (wrap16 (Config.peer_timeout conf)) (wrap16 (Config.get_keepalive conf)) stats_file (Config.statsd_server conf)
        now (now + STATS_INTERVAL) now (now + OWN_ADDRESS_RESET_INTERVAL) port_forwarding TrafficStats.default
        (BeaconSerializer.new beacon_key) outside).

(** [initialize], the last step of [new]. *)
Definition initialize : CM unit := fun e =>
  match reset_own_addresses e with
  | (e', Panic) => (e', Panic)
  | (e', _) => (e', Ok ())
  end.

End Cloud.
End GenericCloud.

(** ** A toy system, for the witnesses *)

Definition ToySystem : Type := unit.

#[export] Instance toy_system : System ToySystem := {|
  to_socket_addrs _ _ := None;
  partial_shuffle _ l w := (w, l);
  choose_multiple n l w := (w, take n l);
  run_hook _ w := w;
  path_exists _ _ := false;
  remove_file _ w := (w, Ok ());
  create_file _ _ w := (w, Ok ());
  read_to_string _ w := (w, Ok ""%string);
  spawn _ _ w := (w, Ok ());
  write_stats _ w := (w, Ok ());
  show_addr _ := ""%string
|}.

#[export] Instance toy_socket_parsers : SocketParsers := {|
  ip_parsers := no_ip_parsers;
  socket_addr_from_str _ := None
|}.

Definition toy_addr (n : Z) : SocketAddr := mapped_addr (V4 [10; 0; 0; n] 3210).

(** A node with a single peer, and maybe a claim of it. *)
Definition toy_cloud (peer : SocketAddr) (c : CryptoCore) (claims : list ClaimEntry) (device : MockDevice)
    : GenericCloud MockDevice MockSocket ToySystem (list Z) :=
  mkCloud (toy_id 1) Config.default true true {[peer := mkPeerData toy_ring [] 0 300 300 (toy_id 2) (toy_ready_peer c)]} [] [] ∅
    (mkClaimTable ∅ 300 claims 300) (MockSocket.new false (toy_addr 1)) device [] (toy_node (toy_id 1) (fun _ => 0))
    0 300 90 false None 0 60 0 300 None TrafficStats.default (BeaconSerializer.new []) ().
