(* ===== verification/Delivery.v ===== *)
(** * From device to device (src/src/cloud.rs)

    What one node reads from its device reaches the device of the node that claims
    its destination: [handle_device_event], the socket, [handle_socket_event]. *)

From S2P Require Import Prelude Errors Util Types Table Traffic Payload Messages Device Net Forwarding.
From S2P Require Import Ring Core Rotate Init Handshake Peer Beacon Configuration Cloud.

Import GenericCloud.

(** ** Computing with the parts of a node *)

Section Eqs.
Context `{Ring} {D S W G : Type}.
Implicit Types c : GenericCloud D S W G.

Lemma on_peer_eq {A} addr p (m : ST (Env (PeerCrypto NodeInfo)) Error A) c b r :
  on_peer addr p m (mkEnv c b r) =
    (let '(e, res) := m (mkEnv (pd_crypto p) b r) in
     (mkEnv (set_peers (<[addr := Cloud.set_crypto (self e) p]> (peers c)) c) (out e) (rng e), res)).
Proof. done. Qed.

Lemma msg_bytes_eq c b r : MsgBuffer.wf b -> msg_bytes (mkEnv c b r) = (mkEnv c b r, Ok (MsgBuffer.contents b)).
Proof. intros Hb. unfold msg_bytes, on_out, zoom. cbn [self out rng]. by rewrite message_wf. Qed.

Lemma outside_same c : set_outside (outside c) c = c.
Proof. by destruct c. Qed.

Lemma hook_keeps `{Device D} `{System W} (ev : string) envs c b r : exists w, call_hook ev envs (mkEnv c b r) = (mkEnv (set_outside w c) b r, Ok ()).
Proof.
  unfold call_hook, update, on_self, zoom, modify. cbn. destruct (Config.call_hook _ _ _) as [cmd|].
  - by exists (run_hook cmd (outside c)).
  - exists (outside c). by rewrite outside_same.
Qed.

End Eqs.

Section Delivery.
Context `{RingLaws} {W G P : Type} `{System W} `{Gateway G} `{SocketParsers} `{Protocol P}.

Abbreviation Node := (GenericCloud MockDevice MockSocket W G).
Implicit Types c : Node.

(** The node when it has opened a sealed datagram of a connected peer. *)
Definition opened c (src : SocketAddr) (pd : PeerData) (core : CryptoCore) (n : Z) (rest : list (SocketAddr * bytes)) : Node :=
  set_peers (<[src := Cloud.set_crypto (PeerCrypto.set_core (Some core) (pd_crypto pd)) pd]> (peers c))
    (set_traffic (TrafficStats.count_in_traffic src n (traffic c))
      (set_socket (mkMockSocket (nat_ (socket c)) (nat_peers (socket c)) (ms_address (socket c)) (ms_outbound (socket c)) rest) c)).

(** A sealed message of a connected peer is opened and acted on. *)
Lemma socket_event_opens now c b r src pd packet sealed rest cy' t :
  ms_inbound (socket c) = (src, sealed) :: rest -> mapped_addr src = src ->
  MsgBuffer.wf b -> bytes_ok sealed -> zlen sealed <= BUFFER_SIZE - space_before b ->
  pending_inits c !! src = None -> peers c !! src = Some pd ->
  is_init_message sealed = false ->
  (forall m, MsgBuffer.wf m -> MsgBuffer.contents m = sealed ->
    exists b', PeerCrypto.handle_message (mkEnv (pd_crypto pd) m r) =
      (mkEnv (PeerCrypto.set_core (Some (cy' m)) (pd_crypto pd)) b' r, Ok (Peer.Message t)) /\
      MsgBuffer.wf b' /\ MsgBuffer.contents b' = packet) ->
  exists m b', MsgBuffer.wf m /\ MsgBuffer.contents m = sealed /\ MsgBuffer.wf b' /\ MsgBuffer.contents b' = packet /\
    forall e, GenericCloud.handle_message (P := P) now src (Peer.Message t) (mkEnv (opened c src pd (cy' m) (MsgBuffer.len m) rest) b' r) = (e, Ok ()) ->
      handle_socket_event (P := P) now (mkEnv c b r) = (e, Ok ()).
Proof.
  intros Hin Hmap Hb Hso Hsl Hpend Hpeer Hni Hopen.
  destruct (mock_receive_spec (socket c) b src sealed rest Hin Hb Hso Hsl) as (b1 & Hrec & Hb1 & Hc1 & _ & _).
  set (s1 := mkMockSocket _ _ _ _ _) in Hrec.
  destruct (Hopen b1 Hb1 Hc1) as (b2 & Hhm & Hb2 & Hc2).
  exists b1, b2. do 4 (split; [done|]). intros e He.
  unfold handle_socket_event.
  rewrite (bind_ok _ _ _ (mkEnv (set_socket s1 c) b1 r) src).
  2: { unfold or_fail, on_socket. cbn [self out rng]. unfold receive, mock_socket. by rewrite Hrec. }
  set (c1 := set_socket s1 c).
  rewrite (bind_ok _ _ _ (mkEnv c1 b1 r) (MsgBuffer.len b1)) by done.
  set (c2 := set_traffic (TrafficStats.count_in_traffic src (MsgBuffer.len b1) (traffic c1)) c1).
  rewrite (bind_ok _ _ _ (mkEnv c2 b1 r) ()) by done.
  assert (handle_net_message (P := P) now src (mkEnv c2 b1 r) = (e, Ok ())) as Hnet.
  { unfold handle_net_message. rewrite Hmap. rewrite (bind_ok _ _ _ (mkEnv c2 b1 r) c2) by done.
    change (pending_inits c2) with (pending_inits c). rewrite Hpend.
    rewrite (bind_ok _ _ _ _ _ (msg_bytes_eq c2 b1 r Hb1)). rewrite Hc1, Hni.
    change (peers c2) with (peers c). rewrite Hpeer. unfold finish.
    rewrite (bind_ok _ _ _ (mkEnv (opened c src pd (cy' b1) (MsgBuffer.len b1) rest) b2 r) (Ok (Peer.Message t))); [exact He|].
    unfold catch. by rewrite on_peer_eq, Hhm. }
  rewrite (bind_ok _ _ _ e (Ok ())) by (unfold catch; by rewrite Hnet). done.
Qed.

(** ** Sealed datagrams *)

(** Whoever holds [cy] opens the datagram to [packet], a message of type [t], and
    ends in step with [cx]. *)
Definition opens_to (datagram packet : bytes) (t : Z) (cx cy : CryptoCore) : Prop :=
  bytes_ok datagram /\ is_init_message datagram = false /\ zlen datagram = zlen packet + 1 + EXTRA_LEN + TAG_LEN /\
  forall (sy : PeerCrypto NodeInfo) m r, secured sy cy -> MsgBuffer.wf m -> MsgBuffer.contents m = datagram ->
    exists cy' b, PeerCrypto.handle_message (mkEnv sy m r) = (mkEnv (PeerCrypto.set_core (Some cy') sy) b r, Ok (Peer.Message t)) /\
      MsgBuffer.wf b /\ MsgBuffer.contents b = packet /\ linked cx cy' /\ linked cy' cx.

(** What one end of a connection needs to send. *)
Definition can_send (sx : PeerCrypto NodeInfo) (cx cy : CryptoCore) : Prop :=
  secured sx cx /\ linked cx cy /\ linked cy cx /\ nonce_left cx.

Lemma sealed_opens sx cx cy m r t : can_send sx cx cy -> MsgBuffer.wf m -> EXTRA_LEN < buf_start m -> buf_end m + TAG_LEN <= BUFFER_SIZE ->
  is_u8 t -> t <> MESSAGE_TYPE_ROTATION ->
  exists cx' b, PeerCrypto.send_message t (mkEnv sx m r) = (mkEnv (PeerCrypto.set_core (Some cx') sx) b r, Ok ()) /\ MsgBuffer.wf b /\
    opens_to (MsgBuffer.contents b) (MsgBuffer.contents m) t cx' cy.
Proof.
  intros (Hsx & Hl1 & Hl2 & Hn) Hm Hr1 Hr2 Ht Hnt.
  set (sy0 := PeerCrypto.set_core (Some cy) sx). assert (secured sy0 cy) as Hsy0 by (split; [done|apply Hsx]).
  destruct (peer_message_delivered sx sy0 cx cy m r t Hsx Hsy0 Hl1 Hl2 Hn Hm Hr1 Hr2 Ht Hnt) as (cx' & b & Hs & Hb & (k & l & Hk & Hki) & Hsize & _).
  exists cx', b. split; [done|]. split; [done|]. split; [by apply contents_bytes_ok|]. split.
  { rewrite Hk. cbn. by apply bool_decide_eq_false_2. }
  split; [done|]. intros sy m' r' Hsy Hm' Hmc'.
  destruct (peer_message_delivered sx sy cx cy m r t Hsx Hsy Hl1 Hl2 Hn Hm Hr1 Hr2 Ht Hnt) as (cx2 & b2 & Hs2 & _ & _ & _ & Hd).
  rewrite Hs in Hs2. injection Hs2 as Hc <-. subst cx2. by apply Hd.
Qed.

(** The same for a packet in a buffer with the usual space before it. *)
Lemma packet_sealed sx cx cy m packet r t : can_send sx cx cy -> MsgBuffer.wf m -> MsgBuffer.contents m = packet -> buf_start m = SPACE_BEFORE ->
  zlen packet <= 65000 -> is_u8 t -> t <> MESSAGE_TYPE_ROTATION ->
  exists cx' b, PeerCrypto.send_message t (mkEnv sx m r) = (mkEnv (PeerCrypto.set_core (Some cx') sx) b r, Ok ()) /\ MsgBuffer.wf b /\
    opens_to (MsgBuffer.contents b) packet t cx' cy.
Proof.
  intros Hcan Hm <- Hs Hlen Ht Hnt. pose proof (length_contents m Hm) as Hlm.
  apply (sealed_opens _ cx); try done; unfold SPACE_BEFORE, EXTRA_LEN, TAG_LEN, BUFFER_SIZE in *; lia.
Qed.

(** [cb] is connected to [addr] through [pb], can receive and has nothing else to. *)
Definition receives (cb : Node) (bb : MsgBuffer) (addr : SocketAddr) (pb : PeerData) (cy : CryptoCore) : Prop :=
  peers cb !! addr = Some pb /\ pending_inits cb !! addr = None /\ mapped_addr addr = addr /\ ms_inbound (socket cb) = [] /\
  secured (pd_crypto pb) cy /\ MsgBuffer.wf bb /\ space_before bb = SPACE_BEFORE.

(** The node with a datagram that has come in. *)
Definition arrived (addr : SocketAddr) (datagram : bytes) (c : Node) : Node :=
  set_socket (MockSocket.push_inbound addr datagram (socket c)) c.

Lemma datagram_opened now cb bb rb addr pb cx cy datagram packet t :
  receives cb bb addr pb cy -> opens_to datagram packet t cx cy -> zlen packet <= 65000 ->
  exists m cy' b, linked cx cy' /\ linked cy' cx /\ MsgBuffer.wf b /\ MsgBuffer.contents b = packet /\
    forall e, GenericCloud.handle_message (P := P) now addr (Peer.Message t)
        (mkEnv (opened (arrived addr datagram cb) addr pb cy' (MsgBuffer.len m) []) b rb) = (e, Ok ()) ->
      handle_socket_event (P := P) now (mkEnv (arrived addr datagram cb) bb rb) = (e, Ok ()).
Proof.
  intros (Hpb & Hpend & Hmap & Hinb & Hsy & Hbb & Hspb) (Hdo & Hni & Hsize & Hd) Hlen. unfold SPACE_BEFORE in *.
  set (open m := PeerCrypto.handle_message (mkEnv (pd_crypto pb) m rb)).
  set (next m := match pc_core (self (open m).1) with Some core => core | None => cy end).
  assert (forall m, MsgBuffer.wf m -> MsgBuffer.contents m = datagram -> exists b,
    PeerCrypto.handle_message (mkEnv (pd_crypto pb) m rb) = (mkEnv (PeerCrypto.set_core (Some (next m)) (pd_crypto pb)) b rb, Ok (Peer.Message t)) /\
    MsgBuffer.wf b /\ MsgBuffer.contents b = packet /\ linked cx (next m) /\ linked (next m) cx) as Hopen.
  { intros m Hm Hmc. destruct (Hd (pd_crypto pb) m rb Hsy Hm Hmc) as (cy' & b & Hh & Hb & Hc & Hl).
    assert (next m = cy') as -> by (unfold next, open; by rewrite Hh). by exists b. }
  destruct (socket_event_opens now (arrived addr datagram cb) bb rb addr pb packet datagram [] next t) as (m & b & Hm & Hmc & Hb & Hc & Hevent); try done.
  - cbn. by rewrite Hinb.
  - rewrite Hsize. unfold EXTRA_LEN, TAG_LEN, BUFFER_SIZE in *. lia.
  - intros m Hm Hmc. destruct (Hopen m Hm Hmc) as (b & Hh & Hb & Hc & _). by exists b.
  - destruct (Hopen m Hm Hmc) as (_ & _ & _ & _ & Hl1 & Hl2). exists m, (next m), b. do 4 (split; [done|]). exact Hevent.
Qed.

(** A payload goes to the device; the connection stays usable. *)
Lemma datagram_delivered now cb bb rb addr pb cx cy datagram packet ps pdst :
  receives cb bb addr pb cy -> opens_to datagram packet MESSAGE_TYPE_DATA cx cy -> zlen packet <= 65000 ->
  parse (P := P) packet = Ok (ps, pdst) ->
  exists cb' bb', handle_socket_event (P := P) now (mkEnv (arrived addr datagram cb) bb rb) = (mkEnv cb' bb' rb, Ok ()) /\
    outbound (device cb') = outbound (device cb) ++ [packet] /\
    table cb' = (if learning cb then ClaimTable.cache now ps addr (table cb) else table cb) /\
    exists pb' cy', peers cb' !! addr = Some pb' /\ secured (pd_crypto pb') cy' /\ linked cx cy' /\ linked cy' cx.
Proof.
  intros Hr Ho Hlen Hparse.
  destruct (datagram_opened now cb bb rb addr pb cx cy datagram packet MESSAGE_TYPE_DATA Hr Ho Hlen)
    as (m & cy' & b & Hl1 & Hl2 & Hb & Hc & Hevent). destruct Hr as (_ & _ & _ & _ & Hsy & _).
  set (c3 := opened _ addr pb cy' _ []) in Hevent.
  set (c4 := set_traffic (TrafficStats.count_in_payload ps pdst (MsgBuffer.len b) (traffic c3)) c3).
  set (c5 := set_device (mkMockDevice (inbound (device cb)) (outbound (device cb) ++ [packet])) c4).
  set (c6 := if learning cb then set_table (ClaimTable.cache now ps addr (table c5)) c5 else c5).
  exists c6, b. split.
  { apply Hevent. unfold GenericCloud.handle_message. rewrite decide_True by done.
    unfold handle_payload_from. rewrite (bind_ok _ _ _ _ _ (msg_bytes_eq c3 b rb Hb)). rewrite Hc.
    rewrite (bind_ok _ _ _ (mkEnv c3 b rb) (ps, pdst)) by (unfold lift; by rewrite Hparse). cbn beta iota.
    rewrite (bind_ok _ _ _ (mkEnv c3 b rb) (MsgBuffer.len b)) by done.
    rewrite (bind_ok _ _ _ (mkEnv c4 b rb) ()) by done.
    rewrite (bind_ok _ _ _ (mkEnv c5 b rb) ()).
    2: { unfold on_device. cbn [self out rng]. unfold write, mock_device.
         change (device c4) with (device cb). rewrite (mock_write_spec (device cb) b Hb), Hc. done. }
    rewrite (bind_ok _ _ _ (mkEnv c5 b rb) (learning cb)) by done.
    unfold c6. by destruct (learning cb). }
  unfold c6. destruct (learning cb); (split; [done|]; split; [done|]);
    (eexists _, cy'; split; [apply lookup_insert_eq|]; split; [split; [done|apply Hsy]|done]).
Qed.

(** What the device hands over, for a destination claimed by a connected peer, leaves
    as one sealed datagram for that peer. *)
Lemma device_event_sends now c b r packet rest dst_peer pd ps pdst cx' :
  inbound (device c) = packet :: rest -> MsgBuffer.wf b -> bytes_ok packet ->
  EXTRA_LEN < space_before b -> space_before b + zlen packet + TAG_LEN <= BUFFER_SIZE ->
  parse (P := P) packet = Ok (ps, pdst) ->
  (ClaimTable.lookup now pdst (table c)).2 = Some dst_peer ->
  peers c !! dst_peer = Some pd ->
  (forall m, MsgBuffer.wf m -> MsgBuffer.contents m = packet -> buf_start m = space_before b ->
    exists b', PeerCrypto.send_message MESSAGE_TYPE_DATA (mkEnv (pd_crypto pd) m r) =
      (mkEnv (PeerCrypto.set_core (Some (cx' m)) (pd_crypto pd)) b' r, Ok ()) /\ MsgBuffer.wf b') ->
  exists m b' c', MsgBuffer.wf m /\ MsgBuffer.contents m = packet /\ buf_start m = space_before b /\
    PeerCrypto.send_message MESSAGE_TYPE_DATA (mkEnv (pd_crypto pd) m r) =
      (mkEnv (PeerCrypto.set_core (Some (cx' m)) (pd_crypto pd)) b' r, Ok ()) /\ MsgBuffer.wf b' /\
    handle_device_event (P := P) now (mkEnv c b r) = (mkEnv c' b' r, Ok ()) /\
    ms_outbound (socket c') = ms_outbound (socket c) ++ [(dst_peer, MsgBuffer.contents b')] /\
    peers c' = <[dst_peer := Cloud.set_crypto (PeerCrypto.set_core (Some (cx' m)) (pd_crypto pd)) pd]> (peers c) /\
    inbound (device c') = rest /\ outbound (device c') = outbound (device c).
Proof.
  intros Hin Hb Hpo Hex Hlen Hparse Hlook Hpeer Hseal.
  destruct (mock_read_spec (device c) b packet rest Hin Hb Hpo) as (b1 & Hread & Hb1 & Hc1 & Hs1 & _); [unfold TAG_LEN in *; lia|].
  destruct (Hseal b1 Hb1 Hc1 Hs1) as (b2 & Hsend & Hb2).
  set (c1 := set_device (mkMockDevice rest (outbound (device c))) c).
  set (c2 := set_traffic (TrafficStats.count_out_payload pdst ps (MsgBuffer.len b1) (traffic c1)) c1).
  set (c3 := set_table (ClaimTable.lookup now pdst (table c)).1 c2).
  set (c4 := set_peers (<[dst_peer := Cloud.set_crypto (PeerCrypto.set_core (Some (cx' b1)) (pd_crypto pd)) pd]> (peers c3)) c3).
  set (c5 := set_traffic (TrafficStats.count_out_traffic dst_peer (MsgBuffer.len b2) (traffic c4)) c4).
  set (s6 := (MockSocket.send now (MsgBuffer.contents b2) dst_peer (socket c)).1).
  set (c6 := set_socket s6 c5).
  assert (send_to now dst_peer (mkEnv c4 b2 r) = (mkEnv c6 b2 r, Ok ())) as Hto.
  { unfold send_to. rewrite (bind_ok _ _ _ (mkEnv c4 b2 r) (MsgBuffer.len b2)) by done.
    rewrite (bind_ok _ _ _ (mkEnv c5 b2 r) ()) by done. rewrite (bind_ok _ _ _ _ _ (msg_bytes_eq c5 b2 r Hb2)).
    unfold send_datagram. rewrite (bind_ok _ _ _ (mkEnv c6 b2 r) (Ok (zlen (MsgBuffer.contents b2)))) by done.
    cbn beta iota. by rewrite decide_True. }
  assert (send_msg now dst_peer MESSAGE_TYPE_DATA (mkEnv c3 b1 r) = (mkEnv c6 b2 r, Ok ())) as Hmsg.
  { unfold send_msg. rewrite (bind_ok _ _ _ (mkEnv c3 b1 r) (peers c)) by done. rewrite Hpeer.
    rewrite (bind_ok _ _ _ (mkEnv c4 b2 r) ()); [exact Hto|]. by rewrite on_peer_eq, Hsend. }
  assert (handle_interface_data (P := P) now (mkEnv c1 b1 r) = (mkEnv c6 b2 r, Ok ())) as Hdata.
  { unfold handle_interface_data. rewrite (bind_ok _ _ _ _ _ (msg_bytes_eq c1 b1 r Hb1)). rewrite Hc1.
    rewrite (bind_ok _ _ _ (mkEnv c1 b1 r) (ps, pdst)) by (unfold lift; by rewrite Hparse). cbn beta iota.
    rewrite (bind_ok _ _ _ (mkEnv c1 b1 r) (MsgBuffer.len b1)) by done.
    rewrite (bind_ok _ _ _ (mkEnv c2 b1 r) ()) by done.
    rewrite (bind_ok _ _ _ (mkEnv c3 b1 r) (Some dst_peer)).
    2: { unfold on_self, zoom. cbn [self out rng]. change (table c2) with (table c). unfold c3.
         destruct (ClaimTable.lookup now pdst (table c)) as [t' o]. cbn [fst snd] in *. by subst o. }
    cbn beta iota. rewrite (bind_ok _ _ _ _ _ Hmsg). rewrite (bind_ok _ _ _ (mkEnv c6 b2 r) (peers c6)) by done.
    rewrite decide_True; [done|]. change (peers c6) with (<[dst_peer := Cloud.set_crypto (PeerCrypto.set_core (Some (cx' b1)) (pd_crypto pd)) pd]> (peers c)).
    rewrite lookup_insert_eq. by eexists. }
  exists b1, b2, c6. split; [done|]. split; [done|]. split; [done|]. split; [done|]. split; [done|]. split.
  { unfold handle_device_event. rewrite (bind_ok _ _ _ (mkEnv c1 b1 r) ()).
    2: { unfold or_fail, on_device. cbn [self out rng]. unfold read, mock_device. by rewrite Hread. }
    unfold ignore_err. rewrite (bind_ok _ _ _ (mkEnv c6 b2 r) (Ok ())); [done|]. unfold catch. by rewrite Hdata. }
  split; [|done]. unfold c6, s6, MockSocket.send, modify. unfold mbind, ST_bind. cbn. by destruct (nat_ (socket c)).
Qed.

(** What [ca] reads from its device is written to the device of [cb], and both can go on. *)
Definition delivers_packet now now' (ca cb : Node) ba bb ra rb addr_a addr_b packet ps : Prop :=
  exists ca' ba' datagram, handle_device_event (P := P) now (mkEnv ca ba ra) = (mkEnv ca' ba' ra, Ok ()) /\
    ms_outbound (socket ca') = ms_outbound (socket ca) ++ [(addr_b, datagram)] /\
    exists cb' bb', handle_socket_event (P := P) now' (mkEnv (set_socket (MockSocket.push_inbound addr_a datagram (socket cb)) cb) bb rb)
        = (mkEnv cb' bb' rb, Ok ()) /\
      outbound (device cb') = outbound (device cb) ++ [packet] /\
      table cb' = (if learning cb then ClaimTable.cache now' ps addr_a (table cb) else table cb) /\
      exists pa' pb' cx' cy', peers ca' !! addr_b = Some pa' /\ peers cb' !! addr_a = Some pb' /\
        secured (pd_crypto pa') cx' /\ secured (pd_crypto pb') cy' /\ linked cx' cy' /\ linked cy' cx'.

Lemma packet_goes now now' (ca cb : Node) ba bb ra rb addr_a addr_b pa pb cx cy packet rest ps pdst :
  inbound (device ca) = packet :: rest -> bytes_ok packet -> parse (P := P) packet = Ok (ps, pdst) ->
  (ClaimTable.lookup now pdst (table ca)).2 = Some addr_b ->
  peers ca !! addr_b = Some pa -> can_send (pd_crypto pa) cx cy -> receives cb bb addr_a pb cy ->
  MsgBuffer.wf ba -> space_before ba = SPACE_BEFORE -> zlen packet <= 65000 ->
  delivers_packet now now' ca cb ba bb ra rb addr_a addr_b packet ps.
Proof.
  intros Hin Hpo Hparse Hlook Hpa Hcan Hrecv Hba Hspa Hlen. pose proof Hcan as (Hsx & _). unfold SPACE_BEFORE in Hspa.
  assert (forall m, MsgBuffer.wf m -> MsgBuffer.contents m = packet -> buf_start m = space_before ba -> exists cx' b',
    PeerCrypto.send_message MESSAGE_TYPE_DATA (mkEnv (pd_crypto pa) m ra) = (mkEnv (PeerCrypto.set_core (Some cx') (pd_crypto pa)) b' ra, Ok ()) /\
    MsgBuffer.wf b' /\ opens_to (MsgBuffer.contents b') packet MESSAGE_TYPE_DATA cx' cy) as Hseal.
  { intros m Hm Hc Hs. rewrite Hspa in Hs. by apply (packet_sealed _ cx). }
  set (send m := PeerCrypto.send_message MESSAGE_TYPE_DATA (mkEnv (pd_crypto pa) m ra)).
  set (next m := match pc_core (self (send m).1) with Some core => core | None => cx end).
  destruct (device_event_sends now ca ba ra packet rest addr_b pa ps pdst next) as (m & ba' & ca' & Hm & Hmc & Hms & Hsend & Hba' & Hdev & Hout & Hpeers & _);
    try done; try (unfold EXTRA_LEN, TAG_LEN, BUFFER_SIZE; lia).
  { intros m Hm Hmc Hms. destruct (Hseal m Hm Hmc Hms) as (cx' & b' & Hse & Hb' & _).
    assert (next m = cx') as -> by (unfold next, send; by rewrite Hse). by exists b'. }
  destruct (Hseal m Hm Hmc Hms) as (cx' & b' & Hse & _ & Ho).
  rewrite Hsend in Hse. injection Hse as Hcore Heq. subst b'.
  exists ca', ba', (MsgBuffer.contents ba'). split; [done|]. split; [done|].
  destruct (datagram_delivered now' cb bb rb addr_a pb cx' cy (MsgBuffer.contents ba') packet ps pdst)
    as (cb' & bb' & Hsock & Hdevout & Htab & pb' & cy' & Hpb' & Hsy' & Hl3 & Hl4); try done.
  exists cb', bb'. do 3 (split; [done|]). exists (Cloud.set_crypto (PeerCrypto.set_core (Some (next m)) (pd_crypto pa)) pa), pb', cx', cy'.
  rewrite Hpeers, lookup_insert_eq. do 2 (split; [done|]). split; [split; [by rewrite <- Hcore|apply Hsx]|]. done.
Qed.

(** C2: a packet read from the device of one node is written, unchanged, to the device
    of the node that claims its destination, when the two are connected: it leaves
    sealed, as one datagram for that peer, is opened there and, on a learning node,
    teaches it where the sender is; the connection stays usable both ways. *)
Theorem packet_delivered now now' (ca cb : Node) ba bb ra rb addr_a addr_b pa pb cx cy packet rest ps pdst :
  inbound (device ca) = packet :: rest -> bytes_ok packet -> parse (P := P) packet = Ok (ps, pdst) ->
  (ClaimTable.lookup now pdst (table ca)).2 = Some addr_b ->
  peers ca !! addr_b = Some pa -> peers cb !! addr_a = Some pb -> pending_inits cb !! addr_a = None ->
  mapped_addr addr_a = addr_a -> ms_inbound (socket cb) = [] ->
  secured (pd_crypto pa) cx -> secured (pd_crypto pb) cy -> linked cx cy -> linked cy cx -> nonce_left cx ->
  MsgBuffer.wf ba -> MsgBuffer.wf bb -> space_before ba = SPACE_BEFORE -> space_before bb = SPACE_BEFORE ->
  zlen packet <= 65000 ->
  exists ca' ba' datagram, handle_device_event (P := P) now (mkEnv ca ba ra) = (mkEnv ca' ba' ra, Ok ()) /\
    ms_outbound (socket ca') = ms_outbound (socket ca) ++ [(addr_b, datagram)] /\
    exists cb' bb', handle_socket_event (P := P) now' (mkEnv (set_socket (MockSocket.push_inbound addr_a datagram (socket cb)) cb) bb rb)
        = (mkEnv cb' bb' rb, Ok ()) /\
      outbound (device cb') = outbound (device cb) ++ [packet] /\
      table cb' = (if learning cb then ClaimTable.cache now' ps addr_a (table cb) else table cb) /\
      exists pa' pb' cx' cy', peers ca' !! addr_b = Some pa' /\ peers cb' !! addr_a = Some pb' /\
        secured (pd_crypto pa') cx' /\ secured (pd_crypto pb') cy' /\ linked cx' cy' /\ linked cy' cx'.
Proof.
  intros Hin Hpo Hparse Hlook Hpa Hpb Hpend Hmap Hinb Hsx Hsy Hl1 Hl2 Hn Hba Hbb Hspa Hspb Hlen.
  by apply (packet_goes now now' ca cb ba bb ra rb addr_a addr_b pa pb cx cy packet rest ps pdst).
Qed.

End Delivery.

(** ** The hypotheses can hold *)

Definition toy_packet : bytes := [69; 0; 0; 20; 0; 0; 0; 0; 64; 17; 0; 0; 192; 168; 1; 1; 192; 168; 2; 7].
Definition toy_claim : ClaimEntry :=
  mkClaimEntry (toy_addr 2) (mkRange (mkAddress (Address.pad [192; 168; 2; 0]) 4) 24) 300.
Definition toy_sender : GenericCloud MockDevice MockSocket ToySystem (list Z) :=
  toy_cloud (toy_addr 2) (toy_core true) [toy_claim] (mkMockDevice [toy_packet] []).
Definition toy_receiver : GenericCloud MockDevice MockSocket ToySystem (list Z) :=
  toy_cloud (toy_addr 1) (toy_core false) [] (mkMockDevice [] []).

Lemma packet_delivered_witness :
  exists ca' ba' datagram, handle_device_event (P := Packet) 10 (mkEnv toy_sender (MsgBuffer.new SPACE_BEFORE) (toy_rng 1)) = (mkEnv ca' ba' (toy_rng 1), Ok ()) /\
    exists cb' bb', handle_socket_event (P := Packet) 11
        (mkEnv (set_socket (MockSocket.push_inbound (toy_addr 1) datagram (socket toy_receiver)) toy_receiver) (MsgBuffer.new SPACE_BEFORE) (toy_rng 2))
        = (mkEnv cb' bb' (toy_rng 2), Ok ()) /\
      outbound (device cb') = [toy_packet].
Proof.
  pose proof (new_wf SPACE_BEFORE ltac:(unfold SPACE_BEFORE, BUFFER_SIZE; lia)) as Hnew.
  destruct (packet_delivered (P := Packet) 10 11 toy_sender toy_receiver (MsgBuffer.new SPACE_BEFORE) (MsgBuffer.new SPACE_BEFORE) (toy_rng 1) (toy_rng 2)
    (toy_addr 1) (toy_addr 2) (mkPeerData toy_ring [] 0 300 300 (toy_id 2) (toy_ready_peer (toy_core true)))
    (mkPeerData toy_ring [] 0 300 300 (toy_id 2) (toy_ready_peer (toy_core false))) (toy_core true) (toy_core false) toy_packet []
    (mkAddress (Address.pad [192; 168; 1; 1]) 4) (mkAddress (Address.pad [192; 168; 2; 7]) 4))
    as (ca' & ba' & datagram & Hd & _ & cb' & bb' & Hs & Ho & _).
  - reflexivity.
  - apply (bool_decide_unpack _). vm_compute. exact I.
  - vm_compute. reflexivity.
  - vm_compute. reflexivity.
  - apply lookup_singleton_eq.
  - apply lookup_singleton_eq.
  - reflexivity.
  - reflexivity.
  - reflexivity.
  - by split.
  - by split.
  - exact (toy_linked true).
  - exact (toy_linked false).
  - eapply (new_nonce_left toy_key true (toy_rng 3)). vm_compute. reflexivity.
  - exact Hnew.
  - exact Hnew.
  - exact eq_refl.
  - exact eq_refl.
  - vm_compute. discriminate.
  - exists ca', ba', datagram. split; [exact Hd|]. exists cb', bb'. split; [exact Hs|exact Ho].
Defined.
