(* ===== verification/Meeting.v ===== *)
(** * Two nodes meet (src/src/cloud.rs)

    From [connect] to the first packet: a node that knows nothing but an address, and
    the one at that address, go through the handshake over their sockets, take each
    other for peers and announce their claims; a packet for one of these then finds
    its way. *)

From S2P Require Import Prelude Errors Util Types Table Traffic Payload Messages Device Net Forwarding.
From S2P Require Import Ring Core Rotate Init Handshake Peer Beacon Configuration Cloud Delivery.

Import GenericCloud.

(** ** The parts *)

Section Parts.
Context `{RingLaws} {W G P : Type} `{System W} `{Gateway G} `{SocketParsers} `{Protocol P}.

Abbreviation Node := (GenericCloud MockDevice MockSocket W G).
Implicit Types c : Node.

(** The same node, but for its counters and for what its hooks did to the machine. *)
Definition like c c' : Prop := exists tr w, c' = set_traffic tr (set_outside w c).

Lemma like_traffic c tr : like c (set_traffic tr c).
Proof. exists tr, (outside c). by destruct c. Qed.
Lemma like_refl c : like c c.
Proof. exists (traffic c), (outside c). by destruct c. Qed.
Lemma like_trans c1 c2 c3 : like c1 c2 -> like c2 c3 -> like c1 c3.
Proof. intros (tr & w & ->) (tr' & w' & ->). by exists tr', w'. Qed.

(** The socket when a datagram has been handed to it. *)
Definition after_send (now : Z) (addr : SocketAddr) (data : bytes) (s : MockSocket) : MockSocket := (MockSocket.send now data addr s).1.

Lemma after_send_spec now addr data (s : MockSocket) :
  ms_outbound (after_send now addr data s) = ms_outbound s ++ [(addr, data)] /\ ms_inbound (after_send now addr data s) = ms_inbound s.
Proof. unfold after_send, MockSocket.send, modify, mbind, ST_bind. cbn. by destruct (nat_ s). Qed.

Definition sends (now : Z) (addr : SocketAddr) (data : bytes) c : Node := set_socket (after_send now addr data (socket c)) c.

Lemma send_to_eq now addr c b r : MsgBuffer.wf b -> exists c', send_to now addr (mkEnv c b r) = (mkEnv c' b r, Ok ()) /\
  like (sends now addr (MsgBuffer.contents b) c) c'.
Proof.
  intros Hb. set (c1 := set_traffic (TrafficStats.count_out_traffic addr (MsgBuffer.len b) (traffic c)) c).
  exists (set_socket (after_send now addr (MsgBuffer.contents b) (socket c)) c1). split.
  - unfold send_to. rewrite (bind_ok _ _ _ (mkEnv c b r) (MsgBuffer.len b)) by done.
    rewrite (bind_ok _ _ _ (mkEnv c1 b r) ()) by done. rewrite (bind_ok _ _ _ _ _ (msg_bytes_eq c1 b r Hb)).
    unfold send_datagram. rewrite (bind_ok _ _ _ (mkEnv (set_socket (after_send now addr (MsgBuffer.contents b) (socket c)) c1) b r) (Ok (zlen (MsgBuffer.contents b)))) by done.
    cbn beta iota. by rewrite decide_True.
  - exists (traffic c1), (outside c). by destruct c.
Qed.

(** What a node without peers tells about itself. *)
Definition own_info c : NodeInfo := mkNodeInfo (gc_node_id c) [] (claims c) (Some (peer_timeout_publish c)) (own_addresses c).

Lemma own_info_eq c b r : peers c = ∅ -> create_node_info (mkEnv c b r) = (mkEnv c b r, Ok (own_info c)).
Proof.
  intros Hp. unfold create_node_info. rewrite (bind_ok _ _ _ (mkEnv c b r) c) by done. rewrite Hp, map_to_list_empty.
  rewrite fmap_nil. rewrite decide_False by (cbn [length]; lia). by rewrite (bind_ok _ _ _ (mkEnv c b r) []).
Qed.

(** The crypto of a new connection. *)
Definition salted (node : CryptoNode) (r : Rng) : bytes :=
  let salt := (fill 4 r).1 in salt ++ take 16 (sha256 (salt ++ cn_node_id node)).

Definition new_init (node : CryptoNode) (info : NodeInfo) (r : Rng) : InitState NodeInfo :=
  mkInitState (cn_node_id node) (salted node r) info (cn_key_pair node) (cn_trusted_keys node) None STAGE_PING 60 None None (cn_algorithms node) None 0.
Definition new_peer (node : CryptoNode) (info : NodeInfo) (r : Rng) : PeerCrypto NodeInfo :=
  mkPeerCrypto (cn_node_id node) (Some (new_init node info r)) None false None 0.

Lemma instance_eq {E} node (info : NodeInfo) r :
  PeerCrypto.peer_instance (E := E) node info r = ((fill 4 r).2, Ok (new_peer node info r)).
Proof.
  unfold PeerCrypto.peer_instance, PeerCrypto.new, InitState.new, random, mbind, ST_bind, new_peer, new_init, salted.
  by destruct (fill 4 r) as [salt r'].
Qed.

Lemma new_peer_awaiting node (info : NodeInfo) r : awaiting (new_peer node info r) (new_init node info r).
Proof. by split; [|split; [|split]]. Qed.

Lemma on_new_eq {A} (x : PeerCrypto NodeInfo) (m : ST (Env (PeerCrypto NodeInfo)) Error A) c b r e a :
  m (mkEnv x b r) = (e, Ok a) -> on_new x m (mkEnv c b r) = (mkEnv c (out e) (rng e), Ok (self e, Ok a)).
Proof. intros Hm. unfold on_new. cbn [self out rng]. by rewrite Hm. Qed.

(** ** What happens at a node *)

(** *** It connects *)

Lemma connect_sock_eq now addr c b r ex : mapped_addr addr = addr -> known addr c = false -> peers c = ∅ ->
  PeerCrypto.initialize (mkEnv (new_peer (crypto c) (own_info c) r) (MsgBuffer.new SPACE_BEFORE) (fill 4 r).2) = (ex, Ok ()) ->
  MsgBuffer.wf (out ex) ->
  exists c', connect_sock now addr (mkEnv c b r) = (mkEnv c' b (rng ex), Ok ()) /\
    like (sends now addr (MsgBuffer.contents (out ex)) (set_pending_inits (<[addr := self ex]> (pending_inits c)) c)) c'.
Proof.
  intros Hmap Hk Hp Hini Hw. set (c1 := set_pending_inits (<[addr := self ex]> (pending_inits c)) c).
  destruct (send_to_eq now addr c1 (out ex) (rng ex) Hw) as (c' & Hsend & Hl). exists c'. split; [|exact Hl].
  unfold connect_sock. rewrite Hmap. rewrite (bind_ok _ _ _ (mkEnv c b r) false) by (unfold field, on_self, zoom, gets; cbn [self out rng]; by rewrite Hk).
  cbn beta iota. rewrite (bind_ok _ _ _ _ _ (own_info_eq c b r Hp)). rewrite (bind_ok _ _ _ (mkEnv c b r) (crypto c)) by done.
  rewrite (bind_ok _ _ _ (mkEnv c b (fill 4 r).2) (new_peer (crypto c) (own_info c) r)).
  2: { unfold on_rng, zoom. cbn [self out rng]. by rewrite instance_eq. }
  unfold with_buffer. cbn [self out rng]. rewrite (bind_ok _ _ _ (mkEnv c (out ex) (rng ex)) (self ex, Ok ())) by (by apply on_new_eq).
  cbn beta iota. rewrite (bind_ok _ _ _ (mkEnv c (out ex) (rng ex)) ()) by done. rewrite (bind_ok _ _ _ (mkEnv c1 (out ex) (rng ex)) ()) by done.
  by rewrite Hsend.
Qed.

Lemma connect_sends now name addr c b r ex : mapped_addr addr = addr -> known addr c = false -> peers c = ∅ ->
  PeerCrypto.initialize (mkEnv (new_peer (crypto c) (own_info c) r) (MsgBuffer.new SPACE_BEFORE) (fill 4 r).2) = (ex, Ok ()) ->
  MsgBuffer.wf (out ex) ->
  exists c', connect now name (Some [addr]) (mkEnv c b r) = (mkEnv c' b (rng ex), Ok ()) /\
    like (sends now addr (MsgBuffer.contents (out ex)) (set_pending_inits (<[addr := self ex]> (pending_inits c)) c)) c'.
Proof.
  intros Hmap Hk Hp Hini Hw. unfold connect. assert (resolve name (Some [addr]) = Ok [addr]) as -> by reflexivity.
  rewrite (bind_ok _ _ _ (mkEnv c b r) [addr]) by done. cbn [fmap list_fmap]. rewrite Hmap.
  rewrite (bind_ok _ _ _ (mkEnv c b r) c) by done. cbn [existsb]. rewrite Hk. cbn [orb].
  destruct (hook_keeps "peer_connecting" [("PEER", debug_addr (addr_nice addr)); ("IFNAME", ifname (device c))]%string c b r) as [w Hh].
  rewrite (bind_ok _ _ _ _ _ Hh).
  destruct (connect_sock_eq now addr (set_outside w c) b r ex Hmap Hk Hp Hini Hw) as (c' & Hc & Hl). exists c'. split.
  - cbn [for_each]. rewrite (bind_ok _ _ _ (mkEnv c' b (rng ex)) ()); [done|]. unfold ignore_err.
    rewrite (bind_ok _ _ _ (mkEnv c' b (rng ex)) (Ok ())); [done|]. unfold catch. by rewrite Hc.
  - eapply like_trans; [|exact Hl]. by exists (traffic c), w.
Qed.

(** *** A datagram comes in *)

Definition loop_buffer (b : MsgBuffer) : Prop := MsgBuffer.wf b /\ space_before b = SPACE_BEFORE.

Lemma socket_event_runs now c src data b r : ms_inbound (socket c) = [] -> loop_buffer b -> bytes_ok data -> zlen data <= 65000 ->
  exists m c0, loop_buffer m /\ MsgBuffer.contents m = data /\ like c c0 /\
    forall e, handle_net_message (P := P) now src (mkEnv c0 m r) = (e, Ok ()) ->
      handle_socket_event (P := P) now (mkEnv (arrived src data c) b r) = (e, Ok ()).
Proof.
  intros Hin [Hb Hsp] Hd Hl.
  destruct (mock_receive_spec (socket (arrived src data c)) b src data []) as (m & Hrec & Hm & Hmc & _ & Hms); try done.
  { cbn. by rewrite Hin. } { rewrite Hsp. unfold SPACE_BEFORE, BUFFER_SIZE. lia. }
  set (c0 := set_traffic (TrafficStats.count_in_traffic src (MsgBuffer.len m) (traffic c)) c).
  exists m, c0. split; [split; [exact Hm|congruence]|]. split; [exact Hmc|]. split; [apply like_traffic|]. intros e He.
  assert (set_socket (mkMockSocket (nat_ (socket c)) (nat_peers (socket c)) (ms_address (socket c)) (ms_outbound (socket c)) []) (arrived src data c) = c) as Hc.
  { destruct c as [? ? ? ? ? ? ? ? ? sk ? ? ? ? ? ? ? ? ? ? ? ? ? ? ? ?]. cbn in Hin. destruct sk. cbn in Hin. by subst. }
  unfold handle_socket_event. rewrite (bind_ok _ _ _ (mkEnv c m r) src).
  2: { unfold or_fail, on_socket. cbn [self out rng]. unfold receive, mock_socket. rewrite Hrec. do 2 f_equal. exact Hc. }
  rewrite (bind_ok _ _ _ (mkEnv c m r) (MsgBuffer.len m)) by done. rewrite (bind_ok _ _ _ (mkEnv c0 m r) ()) by done.
  rewrite (bind_ok _ _ _ e (Ok ())); [done|]. unfold catch. by rewrite He.
Qed.

(** The first message of a stranger: answered, and remembered. *)
Lemma stranger_answered now src c b r e : mapped_addr src = src -> pending_inits c !! src = None -> peers c = ∅ ->
  MsgBuffer.wf b -> is_init_message (MsgBuffer.contents b) = true ->
  PeerCrypto.handle_message (mkEnv (new_peer (crypto c) (own_info c) r) b (fill 4 r).2) = (e, Ok Reply) -> MsgBuffer.wf (out e) ->
  exists c', handle_net_message (P := P) now src (mkEnv c b r) = (mkEnv c' (out e) (rng e), Ok ()) /\
    like (sends now src (MsgBuffer.contents (out e)) (set_pending_inits (<[src := self e]> (pending_inits c)) c)) c'.
Proof.
  intros Hmap Hpend Hp Hb Hini Hh Hw.
  destruct (hook_keeps "peer_connecting" [("PEER", debug_addr (addr_nice src)); ("IFNAME", ifname (device c))]%string c (out e) (rng e)) as [w Hhook].
  set (c1 := set_pending_inits (<[src := self e]> (pending_inits c)) (set_outside w c)).
  destruct (send_to_eq now src c1 (out e) (rng e) Hw) as (c' & Hsend & Hl). exists c'. split.
  2: { eapply like_trans; [|exact Hl]. by exists (traffic c), w. }
  unfold handle_net_message. rewrite Hmap. rewrite (bind_ok _ _ _ (mkEnv c b r) c) by done. rewrite Hpend.
  rewrite (bind_ok _ _ _ _ _ (msg_bytes_eq c b r Hb)). rewrite Hini, Hp, lookup_empty.
  rewrite (bind_ok _ _ _ (mkEnv c1 (out e) (rng e)) Reply); [exact Hsend|].
  unfold handle_new_init. rewrite (bind_ok _ _ _ _ _ (own_info_eq c b r Hp)). rewrite (bind_ok _ _ _ (mkEnv c b r) (crypto c)) by done.
  rewrite (bind_ok _ _ _ (mkEnv c b (fill 4 r).2) (new_peer (crypto c) (own_info c) r)).
  2: { unfold on_rng, zoom. cbn [self out rng]. by rewrite instance_eq. }
  rewrite (bind_ok _ _ _ (mkEnv c (out e) (rng e)) (self e, Ok Reply)) by (by apply on_new_eq). cbn beta iota.
  rewrite (bind_ok _ _ _ (mkEnv c (out e) (rng e)) (device c)) by done. rewrite (bind_ok _ _ _ _ _ Hhook).
  by rewrite (bind_ok _ _ _ (mkEnv c1 (out e) (rng e)) ()).
Qed.

(** *** The handshake succeeds *)

Definition peer_of (now : Z) (src : SocketAddr) (info : NodeInfo) (i : PeerCrypto NodeInfo) c : PeerData :=
  mkPeerData _ (peer_addrs src (ni_addrs info)) now (now + Config.peer_timeout (config c)) (Config.set (ni_peer_timeout info) DEFAULT_PEER_TIMEOUT)
    (ni_node_id info) i.

(** A pending connection has become a peer. *)
Definition joined (now : Z) (src : SocketAddr) (info : NodeInfo) (i : PeerCrypto NodeInfo) c : Node :=
  set_table (ClaimTable.set_claims now src (ni_claims info) (table c))
    (set_peers (<[src := peer_of now src info i c]> (peers c)) (set_pending_inits (delete src (pending_inits c)) c)).

Lemma add_new_peer_eq now src info i c b r : pending_inits c !! src = Some i -> ni_peers info = [] ->
  exists c', add_new_peer now src info (mkEnv c b r) = (mkEnv c' b r, Ok ()) /\ like (joined now src info i c) c'.
Proof.
  intros Hpend Hnone. unfold add_new_peer. rewrite (bind_ok _ _ _ (mkEnv c b r) c) by done.
  destruct (hook_keeps "peer_connected" [("PEER", debug_addr (addr_nice src)); ("IFNAME", ifname (device c));
    ("CLAIMS", join " " (Range.fmt <$> ni_claims info)); ("NODE_ID", bytes_to_hex (ni_node_id info))]%string c b r) as [w Hhook].
  rewrite (bind_ok _ _ _ _ _ Hhook). set (c1 := set_outside w c). rewrite (bind_ok _ _ _ (mkEnv c1 b r) c1) by done.
  change (pending_inits c1) with (pending_inits c). rewrite Hpend.
  set (c2 := set_pending_inits (delete src (pending_inits c1)) c1).
  rewrite (bind_ok _ _ _ (mkEnv c2 b r) ()) by done.
  set (pd := mkPeerData _ (ni_addrs info) now _ _ _ i). set (c3 := set_peers (<[src := pd]> (peers c1)) c2).
  rewrite (bind_ok _ _ _ (mkEnv c3 b r) ()) by done. exists (set_table (ClaimTable.set_claims now src (ni_claims info) (table c))
    (set_peers (<[src := peer_of now src info i c]> (<[src := pd]> (peers c))) c2)). split.
  - unfold update_peer_info. rewrite (bind_ok _ _ _ (mkEnv c3 b r) c3) by done. change (peers c3) with (<[src := pd]> (peers c)).
    rewrite lookup_insert_eq.
    rewrite (bind_ok _ _ _ (mkEnv (set_peers (<[src := peer_of now src info i c]> (<[src := pd]> (peers c))) c2) b r) ()) by done.
    rewrite Hnone. by rewrite (bind_ok _ _ _ (mkEnv (set_table (ClaimTable.set_claims now src (ni_claims info) (table c))
      (set_peers (<[src := peer_of now src info i c]> (<[src := pd]> (peers c))) c2)) b r) ()).
  - rewrite insert_insert_eq. by exists (traffic c), w.
Qed.

Lemma pending_succeeds now src c b r e i info : mapped_addr src = src -> pending_inits c !! src = Some i ->
  PeerCrypto.handle_message (mkEnv i b r) = (e, Ok (InitializedWithReply info)) -> MsgBuffer.wf (out e) -> ni_peers info = [] ->
  exists c', handle_net_message (P := P) now src (mkEnv c b r) = (mkEnv c' (out e) (rng e), Ok ()) /\
    like (sends now src (MsgBuffer.contents (out e)) (joined now src info (self e) c)) c'.
Proof.
  intros Hmap Hpend Hh Hw Hnone. set (c1 := set_pending_inits (<[src := self e]> (pending_inits c)) c).
  destruct (add_new_peer_eq now src info (self e) c1 (out e) (rng e)) as (c2 & Hadd & Hl2); [apply lookup_insert_eq|done|].
  destruct (send_to_eq now src c2 (out e) (rng e) Hw) as (c' & Hsend & Hl). exists c'. split.
  - unfold handle_net_message. rewrite Hmap. rewrite (bind_ok _ _ _ (mkEnv c b r) c) by done. rewrite Hpend. unfold finish.
    rewrite (bind_ok _ _ _ (mkEnv c1 (out e) (rng e)) (Ok (InitializedWithReply info))).
    2: { unfold catch, on_pending, on_part, zoom. cbn [self out rng]. by rewrite Hh. }
    unfold GenericCloud.handle_message. by rewrite (bind_ok _ _ _ _ _ Hadd).
  - eapply like_trans; [|exact Hl]. destruct Hl2 as (tr & w & ->). exists tr, w. unfold joined. cbn [pending_inits c1 set_pending_inits].
    unfold c1 at 1. cbn [pending_inits set_pending_inits]. rewrite delete_insert_eq. reflexivity.
Qed.

(** *** A sealed message of the rotation *)

Lemma rotation_taken now src c b r e pd : mapped_addr src = src -> pending_inits c !! src = None -> peers c !! src = Some pd ->
  MsgBuffer.wf b -> is_init_message (MsgBuffer.contents b) = false ->
  PeerCrypto.handle_message (mkEnv (pd_crypto pd) b r) = (e, Ok NoResult) ->
  handle_net_message (P := P) now src (mkEnv c b r) = (mkEnv (set_peers (<[src := Cloud.set_crypto (self e) pd]> (peers c)) c) (out e) (rng e), Ok ()).
Proof.
  intros Hmap Hpend Hpd Hb Hini Hh. unfold handle_net_message. rewrite Hmap. rewrite (bind_ok _ _ _ (mkEnv c b r) c) by done. rewrite Hpend.
  rewrite (bind_ok _ _ _ _ _ (msg_bytes_eq c b r Hb)). rewrite Hini, Hpd. unfold finish.
  rewrite (bind_ok _ _ _ (mkEnv (set_peers (<[src := Cloud.set_crypto (self e) pd]> (peers c)) c) (out e) (rng e)) (Ok NoResult)); [done|].
  unfold catch. by rewrite on_peer_eq, Hh.
Qed.

End Parts.

(** ** What a datagram does *)

Section Events.
Context `{RingLaws} {W G P : Type} `{System W} `{Gateway G} `{SocketParsers} `{Protocol P}.

Abbreviation Node := (GenericCloud MockDevice MockSocket W G).
Implicit Types c : Node.

(** A buffer of the main loop into which [d] was received. *)
Definition holding (d : bytes) (m : MsgBuffer) : Prop := loop_buffer m /\ MsgBuffer.contents m = d.

Lemma holding_arrives m b : holding (MsgBuffer.contents b) m -> arrives m b.
Proof. intros [[Hm Hs] Hc]. split; [exact Hm|]. split; [exact Hc|]. rewrite Hs. unfold SPACE_BEFORE. lia. Qed.

(** Bytes that fit the buffers of a node. *)
Definition on_wire (init : bool) (d : bytes) : Prop := bytes_ok d /\ is_init_message d = init /\ zlen d <= 65000.

Lemma datagram_wire init b : datagram init b -> on_wire init (MsgBuffer.contents b).
Proof. intros (Hw & Hi & Hl). split; [by apply contents_bytes_ok|]. split; [exact Hi|lia]. Qed.

Lemma like_fields c c' : like c c' -> peers c' = peers c /\ pending_inits c' = pending_inits c /\ table c' = table c /\ socket c' = socket c /\
  device c' = device c /\ claims c' = claims c /\ crypto c' = crypto c /\ own_info c' = own_info c /\ learning c' = learning c.
Proof. by intros (tr & w & ->). Qed.

Lemma sends_fields now a d c : let c' := sends now a d c in
  peers c' = peers c /\ pending_inits c' = pending_inits c /\ table c' = table c /\ device c' = device c /\
  ms_outbound (socket c') = ms_outbound (socket c) ++ [(a, d)] /\ ms_inbound (socket c') = ms_inbound (socket c).
Proof. cbn zeta. destruct (after_send_spec now a d (socket c)) as [Ho Hi]. by split_and!. Qed.

Lemma sent_fields now a d c c' : like (sends now a d c) c' ->
  peers c' = peers c /\ pending_inits c' = pending_inits c /\ table c' = table c /\ device c' = device c /\
  ms_outbound (socket c') = ms_outbound (socket c) ++ [(a, d)] /\ ms_inbound (socket c') = ms_inbound (socket c).
Proof. intros (tr & w & ->). exact (sends_fields now a d c). Qed.

Lemma stranger_event now src d c b r :
  ms_inbound (socket c) = [] -> loop_buffer b -> on_wire true d -> mapped_addr src = src -> pending_inits c !! src = None -> peers c = ∅ ->
  (forall m, holding d m -> exists e, PeerCrypto.handle_message (mkEnv (new_peer (crypto c) (own_info c) r) m (fill 4 r).2) = (e, Ok Reply) /\ MsgBuffer.wf (out e)) ->
  exists m e c', holding d m /\ PeerCrypto.handle_message (mkEnv (new_peer (crypto c) (own_info c) r) m (fill 4 r).2) = (e, Ok Reply) /\
    handle_socket_event (P := P) now (mkEnv (arrived src d c) b r) = (mkEnv c' (out e) (rng e), Ok ()) /\
    like (sends now src (MsgBuffer.contents (out e)) (set_pending_inits (<[src := self e]> (pending_inits c)) c)) c'.
Proof.
  intros Hin Hb (Hd & Hini & Hlen) Hmap Hpend Hp Hrun.
  destruct (socket_event_runs now c src d b r Hin Hb Hd Hlen) as (m & c0 & Hm & Hmc & Hl0 & Hev).
  destruct (Hrun m (conj Hm Hmc)) as (e & Hh & Hw). destruct Hl0 as (tr & w & ->).
  destruct (stranger_answered now src (set_traffic tr (set_outside w c)) m r e Hmap Hpend Hp (proj1 Hm) ltac:(by rewrite Hmc) Hh Hw) as (c' & Hnet & Hl).
  exists m, e, c'. split; [done|]. split; [exact Hh|]. split; [by apply Hev|]. eapply like_trans; [|exact Hl]. by exists tr, w.
Qed.

Lemma success_event now src d c b r i info :
  ms_inbound (socket c) = [] -> loop_buffer b -> on_wire true d -> mapped_addr src = src -> pending_inits c !! src = Some i -> ni_peers info = [] ->
  (forall m, holding d m -> exists e, PeerCrypto.handle_message (mkEnv i m r) = (e, Ok (InitializedWithReply info)) /\ MsgBuffer.wf (out e)) ->
  exists m e c', holding d m /\ PeerCrypto.handle_message (mkEnv i m r) = (e, Ok (InitializedWithReply info)) /\
    handle_socket_event (P := P) now (mkEnv (arrived src d c) b r) = (mkEnv c' (out e) (rng e), Ok ()) /\
    like (sends now src (MsgBuffer.contents (out e)) (joined now src info (self e) c)) c'.
Proof.
  intros Hin Hb (Hd & Hini & Hlen) Hmap Hpend Hnone Hrun.
  destruct (socket_event_runs now c src d b r Hin Hb Hd Hlen) as (m & c0 & Hm & Hmc & Hl0 & Hev).
  destruct (Hrun m (conj Hm Hmc)) as (e & Hh & Hw). destruct Hl0 as (tr & w & ->).
  destruct (pending_succeeds now src (set_traffic tr (set_outside w c)) m r e i info Hmap Hpend Hh Hw Hnone) as (c' & Hnet & Hl).
  exists m, e, c'. split; [done|]. split; [exact Hh|]. split; [by apply Hev|]. eapply like_trans; [|exact Hl]. by exists tr, w.
Qed.

Lemma rotation_event now src d c b r pd :
  ms_inbound (socket c) = [] -> loop_buffer b -> on_wire false d -> mapped_addr src = src -> pending_inits c !! src = None -> peers c !! src = Some pd ->
  (forall m, holding d m -> exists e, PeerCrypto.handle_message (mkEnv (pd_crypto pd) m r) = (e, Ok NoResult)) ->
  exists m e c', holding d m /\ PeerCrypto.handle_message (mkEnv (pd_crypto pd) m r) = (e, Ok NoResult) /\
    handle_socket_event (P := P) now (mkEnv (arrived src d c) b r) = (mkEnv c' (out e) (rng e), Ok ()) /\
    like (set_peers (<[src := Cloud.set_crypto (self e) pd]> (peers c)) c) c'.
Proof.
  intros Hin Hb (Hd & Hini & Hlen) Hmap Hpend Hpd Hrun.
  destruct (socket_event_runs now c src d b r Hin Hb Hd Hlen) as (m & c0 & Hm & Hmc & Hl0 & Hev).
  destruct (Hrun m (conj Hm Hmc)) as (e & Hh). destruct Hl0 as (tr & w & ->). eexists m, e, _. split; [done|]. split; [exact Hh|]. split.
  - apply Hev. apply (rotation_taken now src (set_traffic tr (set_outside w c)) m r e pd Hmap Hpend Hpd (proj1 Hm) ltac:(by rewrite Hmc) Hh).
  - by exists tr, w.
Qed.

(** ** Claims *)

Lemma sole_claimant now now' addr peer (cl : RangeList) (t : ClaimTable) :
  0 < now -> 0 <= claim_timeout t -> ct_claims t = [] -> ct_cache t = ∅ -> Forall Range.canonical cl ->
  (exists r, r ∈ cl /\ Range.matches r addr = true) ->
  (ClaimTable.lookup now' addr (ClaimTable.set_claims now peer cl t)).2 = Some peer.
Proof.
  intros Hnow Ht Hcl Hca Hcan (r & Hr & Hm). pose proof (set_claims_entries now peer cl t) as Hent. rewrite Hcl in Hent. cbn [ClaimTable.refresh_loop fst snd] in Hent.
  set (t' := ClaimTable.set_claims now peer cl t) in *. unfold ClaimTable.lookup.
  destruct (ct_cache t' !! Address.key addr) as [v|] eqn:Hv; [apply set_claims_cache in Hv as [Hv _]; [by rewrite Hca in Hv|done]|].
  destruct (lookup_loop_spec addr (ct_claims t') None (-1)) as [[_ Hno]|(pre & e & suf & -> & Hsplit & _)].
  - assert (mkClaimEntry peer r (now + claim_timeout t) ∈ ct_claims t') as Hin by (apply Hent; [done|done|split; [cbn; lia|right; by exists r]]).
    specialize (Hno _ Hin Hm). rewrite Forall_forall in Hcan. destruct (Hcan r Hr) as [_ Hu]. unfold is_u8 in Hu. cbn in Hno. lia.
  - assert (e ∈ ct_claims t') as Hin by (rewrite Hsplit; apply elem_of_app; right; by left).
    apply Hent in Hin as [_ [Hn|(r' & _ & ->)]]; [by apply elem_of_nil in Hn|done..].
Qed.

End Events.

(** ** The meeting *)

Section Meeting.
Context `{RingLaws} {W G P : Type} `{System W} `{Gateway G} `{SocketParsers} `{Protocol P}.

Abbreviation Node := (GenericCloud MockDevice MockSocket W G).
Implicit Types c : Node.

(** A node without connections, that can tell about itself. *)
Definition newcomer c : Prop :=
  peers c = ∅ /\ ms_inbound (socket c) = [] /\ node_info_ok (own_info c) /\
  ct_claims (table c) = [] /\ ct_cache (table c) = ∅ /\ 0 <= claim_timeout (table c).

(** Nodes that trust each other's key and would choose the same algorithm. *)
Record introduced (a b : CryptoNode) (alg : Algorithm) : Prop := {
  in_algos : algorithms_wf (cn_algorithms a) /\ algorithms_wf (cn_algorithms b);
  in_trust_a : trusts (cn_trusted_keys a) (ed25519_public_key (cn_key_pair b));
  in_trust_b : trusts (cn_trusted_keys b) (ed25519_public_key (cn_key_pair a));
  in_select_a : exists speed, InitState.select_algorithm (cn_algorithms a) (cn_algorithms b) = Ok (Some (alg, speed));
  in_select_b : exists speed, InitState.select_algorithm (cn_algorithms b) (cn_algorithms a) = Ok (Some (alg, speed))
}.

Lemma new_init_side node info r : algorithms_wf (cn_algorithms node) -> node_info_ok info -> side_wf (new_init node info r).
Proof.
  intros Ha Hi. destruct (init_new_side (cn_node_id node) info (cn_key_pair node) (cn_trusted_keys node) (cn_algorithms node) r (fill 4 r).2
    (new_init node info r)) as [Hs _]; [|exact Ha|exact Hi|exact Hs].
  unfold InitState.new, random, mbind, ST_bind, new_init, salted. by destruct (fill 4 r) as [salt r'].
Qed.

Lemma introduced_compatible a b alg ia ib ra rb : introduced a b alg -> node_info_ok ia -> node_info_ok ib -> salted a ra <> salted b rb ->
  compatible (new_init a ia ra) (new_init b ib rb) alg.
Proof.
  intros [[Ha Hb] Hta Htb Hsa Hsb] Hia Hib Hne. by split; [apply new_init_side|apply new_init_side|..].
Qed.

(** [c'] is [c], with the [other] node as its only peer, at [src]. *)
Record met (now : Z) (src : SocketAddr) (other c c' : Node) (pd : PeerData) : Prop := {
  mt_peers : peers c' = {[src := pd]};
  mt_pending : pending_inits c' !! src = None;
  mt_table : table c' = ClaimTable.set_claims now src (claims other) (table c);
  mt_device : device c' = device c;
  mt_inbound : ms_inbound (socket c') = [];
  mt_id : pd_node_id pd = gc_node_id other
}.

Lemma joined_met now now' src d other i c c1 c' : peers c1 = ∅ -> table c1 = table c -> device c1 = device c -> ms_inbound (socket c1) = [] ->
  like (sends now' src d (joined now src (NodeInfo.keep (own_info other)) i c1)) c' ->
  met now src other c c' (peer_of now src (NodeInfo.keep (own_info other)) i c1).
Proof.
  intros Hp Ht Hd Hi Hl. set (c2 := joined now src (NodeInfo.keep (own_info other)) i c1) in *.
  destruct (sent_fields _ _ _ _ _ Hl) as (Lp & Li & Lt & Ld & _ & Lin).
  split; [| | | | |done].
  - rewrite Lp. change (peers c2) with (<[src := peer_of now src (NodeInfo.keep (own_info other)) i c1]> (peers c1)). rewrite Hp. apply insert_empty.
  - rewrite Li. apply lookup_delete_eq.
  - rewrite Lt, <- Ht. done.
  - by rewrite Ld, <- Hd.
  - rewrite Lin. exact Hi.
Qed.

Lemma met_crypto now src other c c1 c' pd i : met now src other c c1 pd ->
  like (set_peers (<[src := Cloud.set_crypto i pd]> (peers c1)) c1) c' -> met now src other c c' (Cloud.set_crypto i pd).
Proof.
  intros [Mp Mi Mt Md Min Mid] Hl. destruct (like_fields _ _ Hl) as (Lp & Li & Lt & Ls & Ld & _).
  split; [|by rewrite Li|by rewrite Lt|by rewrite Ld|by rewrite Ls|exact Mid].
  rewrite Lp. cbn [peers set_peers]. rewrite Mp. apply insert_singleton_eq.
Qed.

(** Packets that [ca] had on its device for the claims of [cb] now go there. *)
Definition packets_flow (ca cb ca' cb' : Node) addr_a addr_b : Prop :=
  forall now now' packet rest ps pdst r ba bb ra rb,
    inbound (device ca) = packet :: rest -> bytes_ok packet -> zlen packet <= 65000 -> parse (P := P) packet = Ok (ps, pdst) ->
    r ∈ claims cb -> Range.matches r pdst = true -> loop_buffer ba -> loop_buffer bb ->
    delivers_packet (P := P) now now' ca' cb' ba bb ra rb addr_a addr_b packet ps.

Lemma met_packets now now' (ca cb ca' cb' : Node) addr_a addr_b pa pb cx cy : newcomer ca -> newcomer cb -> 0 < now -> mapped_addr addr_a = addr_a ->
  met now addr_b cb ca ca' pa -> met now' addr_a ca cb cb' pb -> can_send (pd_crypto pa) cx cy -> secured (pd_crypto pb) cy ->
  packets_flow ca cb ca' cb' addr_a addr_b.
Proof.
  intros (_ & _ & _ & Hct & Hcc & Hto) (_ & _ & [Hcan _] & _) Hnow Hmap Ma Mb Hsend Hsec n n' packet rest ps pdst r ba bb ra rb Hin Hpo Hlen Hparse Hr Hm [Hba Hsa] [Hbb Hsb].
  eapply (packet_goes n n' ca' cb' ba bb ra rb addr_a addr_b pa pb cx cy packet rest ps pdst); try done.
  - by rewrite (mt_device _ _ _ _ _ _ Ma).
  - rewrite (mt_table _ _ _ _ _ _ Ma). apply sole_claimant; [done..| |by exists r]. apply Hcan.
  - rewrite (mt_peers _ _ _ _ _ _ Ma). apply lookup_singleton_eq.
  - split; [rewrite (mt_peers _ _ _ _ _ _ Mb); apply lookup_singleton_eq|]. split; [apply (mt_pending _ _ _ _ _ _ Mb)|].
    split; [exact Hmap|]. split; [apply (mt_inbound _ _ _ _ _ _ Mb)|]. by split.
Qed.

(** From the pong on. *)
Lemma pong_received now3 now4 now5 (ca ca1 cb cb1 : Node) addr_a addr_b x y pong ba2 ra2 :
  mapped_addr addr_a = addr_a -> mapped_addr addr_b = addr_b ->
  peers ca1 = ∅ -> table ca1 = table ca -> device ca1 = device ca -> ms_inbound (socket ca1) = [] -> pending_inits ca1 !! addr_b = Some x ->
  peers cb1 = ∅ -> table cb1 = table cb -> device cb1 = device cb -> ms_inbound (socket cb1) = [] -> pending_inits cb1 !! addr_a = Some y ->
  datagram true pong -> after_pong x y pong (own_info ca) (own_info cb) -> loop_buffer ba2 ->
  exists ea2 peng, handle_socket_event (P := P) now3 (mkEnv (arrived addr_b (MsgBuffer.contents pong) ca1) ba2 ra2) = (ea2, Ok ()) /\
    ms_outbound (socket (self ea2)) = ms_outbound (socket ca1) ++ [(addr_b, peng)] /\
  forall bb2 rb2, loop_buffer bb2 ->
  exists eb2 rotation, handle_socket_event (P := P) now4 (mkEnv (arrived addr_a peng cb1) bb2 rb2) = (eb2, Ok ()) /\
    ms_outbound (socket (self eb2)) = ms_outbound (socket cb1) ++ [(addr_a, rotation)] /\
  forall ba3 ra3, loop_buffer ba3 ->
  exists ea3 pa pb cx cy, handle_socket_event (P := P) now5 (mkEnv (arrived addr_b rotation (self ea2)) ba3 ra3) = (ea3, Ok ()) /\
    met now3 addr_b cb ca (self ea3) pa /\ met now4 addr_a ca cb (self eb2) pb /\
    can_send (pd_crypto pa) cx cy /\ can_send (pd_crypto pb) cy cx.
Proof.
  intros Hma Hmb P1 T1 D1 N1 I1 P2 T2 D2 N2 I2 Dey Hrun2 Hba2.
  destruct (success_event now3 addr_b (MsgBuffer.contents pong) ca1 ba2 ra2 x (NodeInfo.keep (own_info cb))) as (m2 & ex2 & ca2 & Hm2 & Hh2 & Hev2 & L3);
    [done|exact Hba2|by apply datagram_wire|exact Hmb|exact I1|done|..].
  { intros m Hm. destruct (Hrun2 m ra2 (holding_arrives _ _ Hm)) as (e & He & Hd & _). exists e. split; [exact He|apply Hd]. }
  destruct (Hrun2 m2 ra2 (holding_arrives _ _ Hm2)) as (ex2' & Hh2' & Dex2 & Hrun3). rewrite Hh2 in Hh2'. injection Hh2' as <-.
  destruct (sent_fields _ _ _ _ _ L3) as (_ & _ & _ & _ & O3 & N3). eexists _, _. split; [exact Hev2|]. split; [exact O3|].
  pose proof (joined_met now3 now3 addr_b _ cb (self ex2) ca ca1 ca2 P1 T1 D1 N1 L3) as Ma.
  intros bb2 rb2 Hbb2.
  destruct (success_event now4 addr_a (MsgBuffer.contents (out ex2)) cb1 bb2 rb2 y (NodeInfo.keep (own_info ca))) as (m3 & ey2 & cb2 & Hm3 & Hh3 & Hev3 & L4);
    [done|exact Hbb2|by apply datagram_wire|exact Hma|exact I2|done|..].
  { intros m Hm. destruct (Hrun3 m rb2 (holding_arrives _ _ Hm)) as (e & He & Hd & _). exists e. split; [exact He|apply Hd]. }
  destruct (Hrun3 m3 rb2 (holding_arrives _ _ Hm3)) as (ey2' & Hh3' & Dey2 & _ & Hrun4). rewrite Hh3 in Hh3'. injection Hh3' as <-.
  destruct (sent_fields _ _ _ _ _ L4) as (_ & _ & _ & _ & O4 & N4). eexists _, _. split; [exact Hev3|]. split; [exact O4|].
  pose proof (joined_met now4 now4 addr_a _ ca (self ey2) cb cb1 cb2 P2 T2 D2 N2 L4) as Mb.
  intros ba3 ra3 Hba3. pose proof Ma as [Pa3 Ia3 _ _ Na3 _].
  destruct (rotation_event now5 addr_b (MsgBuffer.contents (out ey2)) ca2 ba3 ra3 (peer_of now3 addr_b (NodeInfo.keep (own_info cb)) (self ex2) ca1))
    as (m4 & ex3 & ca3 & Hm4 & Hh4 & Hev4 & L5);
    [exact Na3|exact Hba3|by apply datagram_wire|exact Hmb|exact Ia3|rewrite Pa3; apply lookup_singleton_eq|..].
  { intros m Hm. destruct (Hrun4 m ra3 (holding_arrives _ _ Hm)) as (e & _ & _ & He & _). by exists e. }
  destruct (Hrun4 m4 ra3 (holding_arrives _ _ Hm4)) as (ex3' & cx & cy & Hh4' & Hsx & Hsy & Hl1 & Hl2 & Hu1 & Hu2).
  change (pd_crypto _) with (self ex2) in Hh4. rewrite Hh4 in Hh4'. injection Hh4' as <-.
  pose proof (met_crypto _ _ _ _ _ _ _ _ Ma L5) as Ma'. pose proof (used_left 1 cx ltac:(lia) Hu1) as Hleft1. pose proof (used_left 2 cy ltac:(lia) Hu2) as Hleft2.
  eexists _, _, _, cx, cy. split; [exact Hev4|]. split; [exact Ma'|]. split; [exact Mb|]. by split.
Qed.

(** C1: two nodes that know nothing but an address meet. One calls [connect]; both
    do nothing but handle what comes in: ping, pong, peng and the first message of
    the rotation, each sent as one datagram. Then each has the other as its only peer
    with its node id and its claims, nothing is pending, the connection works both
    ways, and the packets either has for the claims of the other are delivered. *)
Theorem nodes_meet name now1 now2 now3 now4 now5 (ca cb : Node) alg addr_a addr_b ba ra :
  newcomer ca -> newcomer cb -> introduced (crypto ca) (crypto cb) alg -> 0 < now3 -> 0 < now4 ->
  mapped_addr addr_a = addr_a -> mapped_addr addr_b = addr_b -> known addr_b ca = false -> pending_inits cb !! addr_a = None ->
  exists ca1 ra1 ping, connect now1 name (Some [addr_b]) (mkEnv ca ba ra) = (mkEnv ca1 ba ra1, Ok ()) /\
    ms_outbound (socket ca1) = ms_outbound (socket ca) ++ [(addr_b, ping)] /\
  forall bb rb, loop_buffer bb -> salted (crypto ca) ra <> salted (crypto cb) rb ->
  exists eb1 pong, handle_socket_event (P := P) now2 (mkEnv (arrived addr_a ping cb) bb rb) = (eb1, Ok ()) /\
    ms_outbound (socket (self eb1)) = ms_outbound (socket cb) ++ [(addr_a, pong)] /\
  forall ba2 ra2, loop_buffer ba2 ->
  exists ea2 peng, handle_socket_event (P := P) now3 (mkEnv (arrived addr_b pong ca1) ba2 ra2) = (ea2, Ok ()) /\
    ms_outbound (socket (self ea2)) = ms_outbound (socket ca1) ++ [(addr_b, peng)] /\
  forall bb2 rb2, loop_buffer bb2 ->
  exists eb2 rotation, handle_socket_event (P := P) now4 (mkEnv (arrived addr_a peng (self eb1)) bb2 rb2) = (eb2, Ok ()) /\
    ms_outbound (socket (self eb2)) = ms_outbound (socket (self eb1)) ++ [(addr_a, rotation)] /\
  forall ba3 ra3, loop_buffer ba3 ->
  exists ea3 pa pb cx cy, handle_socket_event (P := P) now5 (mkEnv (arrived addr_b rotation (self ea2)) ba3 ra3) = (ea3, Ok ()) /\
    met now3 addr_b cb ca (self ea3) pa /\ met now4 addr_a ca cb (self eb2) pb /\
    can_send (pd_crypto pa) cx cy /\ can_send (pd_crypto pb) cy cx /\
    packets_flow ca cb (self ea3) (self eb2) addr_a addr_b /\ packets_flow cb ca (self eb2) (self ea3) addr_b addr_a.
Proof.
  intros Na Nb Hint Hn3 Hn4 Hma Hmb Hka Hpb. pose proof Na as (Pa & Ia & Oa & _). pose proof Nb as (Pb & Ib & Ob & _).
  pose proof (in_algos _ _ _ Hint) as [Ga Gb]. set (i := new_init (crypto ca) (own_info ca) ra).
  pose proof (new_wf SPACE_BEFORE ltac:(unfold SPACE_BEFORE, BUFFER_SIZE; lia)) as Hnew.
  destruct (peer_initialize (new_peer (crypto ca) (own_info ca) ra) i (MsgBuffer.new SPACE_BEFORE) (fill 4 ra).2) as (ex & _ & _ & _ & b1 & Hini & Hfr & _);
    [apply new_peer_awaiting|done|by apply new_init_side|done|by apply bool_decide_eq_true_2|cbn; unfold SPACE_BEFORE; lia|].
  destruct (connect_sends now1 name addr_b ca ba ra ex Hmb Hka Pa Hini (proj1 Hfr)) as (ca1 & Hcon & L1).
  destruct (sent_fields _ _ _ _ _ L1) as (P1 & I1 & T1 & D1 & O1 & N1). exists ca1, (rng ex), (MsgBuffer.contents (out ex)). split; [exact Hcon|]. split; [exact O1|].
  intros bb rb Hbb Hne. pose proof (introduced_compatible _ _ alg _ _ ra rb Hint Oa Ob Hne) as Hcp.
  destruct (connect_run _ _ _ _ alg (MsgBuffer.new SPACE_BEFORE) (fill 4 ra).2 (new_peer_awaiting (crypto ca) (own_info ca) ra)
    (new_peer_awaiting (crypto cb) (own_info cb) rb) Hcp) as (ex' & Hini' & Dex & Hrun);
    [done|done|done|by apply bool_decide_eq_true_2|cbn; unfold SPACE_BEFORE; lia|]. rewrite Hini in Hini'. injection Hini' as <-.
  destruct (stranger_event now2 addr_a (MsgBuffer.contents (out ex)) cb bb rb Ib Hbb (datagram_wire _ _ Dex) Hma Hpb Pb) as (m1 & ey & cb1 & Hm1 & Hh1 & Hev1 & L2).
  { intros m Hm. destruct (Hrun m (fill 4 rb).2 (holding_arrives _ _ Hm)) as (e & He & Hd & _). exists e. split; [exact He|apply Hd]. }
  destruct (Hrun m1 (fill 4 rb).2 (holding_arrives _ _ Hm1)) as (ey' & Hh1' & Dey & Hrun2). rewrite Hh1 in Hh1'. injection Hh1' as <-.
  destruct (sent_fields _ _ _ _ _ L2) as (P2 & I2 & T2 & D2 & O2 & N2). eexists _, _. split; [exact Hev1|]. split; [exact O2|]. cbn [self].
  intros ba2 ra2 Hba2.
  destruct (pong_received now3 now4 now5 ca ca1 cb cb1 addr_a addr_b (self ex) (self ey) (out ey) ba2 ra2) as (ea2 & peng & Hev2 & O3 & Hrest);
    try first [done | by rewrite ?P1, ?N1, ?P2, ?N2 | rewrite ?I1, ?I2; apply lookup_insert_eq].
  exists ea2, peng. split; [exact Hev2|]. split; [exact O3|]. intros bb2 rb2 Hbb2. destruct (Hrest bb2 rb2 Hbb2) as (eb2 & rot & Hev3 & O4 & Hlast).
  exists eb2, rot. split; [exact Hev3|]. split; [exact O4|]. intros ba3 ra3 Hba3. destruct (Hlast ba3 ra3 Hba3) as (ea3 & pa & pb & cx & cy & Hev4 & Ma & Mb & Sa & Sb).
  exists ea3, pa, pb, cx, cy. split; [exact Hev4|]. split; [exact Ma|]. split; [exact Mb|]. split; [exact Sa|]. split; [exact Sb|]. split.
  - by apply (met_packets now3 now4 ca cb (self ea3) (self eb2) addr_a addr_b pa pb cx cy Na Nb Hn3 Hma Ma Mb Sa (proj1 Sb)).
  - by apply (met_packets now4 now3 cb ca (self eb2) (self ea3) addr_b addr_a pb pa cy cx Nb Na Hn4 Hmb Mb Ma Sb (proj1 Sa)).
Qed.

End Meeting.

(** ** Two toy nodes *)

Definition toy_speed (a : Algorithm) : Z :=
  match a with AES_128_GCM => 1142292480 | AES_256_GCM => 1140457472 | CHACHA20_POLY1305 => 1137180672 end.

Definition toy_newcomer (n : Z) (cl : RangeList) (device : MockDevice) : GenericCloud MockDevice MockSocket ToySystem (list Z) :=
  mkCloud (toy_id n) Config.default true true ∅ [] [] ∅ (mkClaimTable ∅ 300 [] 300) (MockSocket.new false (toy_addr n)) device cl
    (toy_node (toy_id n) toy_speed) 0 300 90 false None 0 60 0 300 None TrafficStats.default (BeaconSerializer.new []) ().

Definition toy_subnet : Range := mkRange (mkAddress (Address.pad [192; 168; 2; 0]) 4) 24.
Definition toy_caller : GenericCloud MockDevice MockSocket ToySystem (list Z) := toy_newcomer 1 [] (mkMockDevice [toy_packet] []).
Definition toy_called : GenericCloud MockDevice MockSocket ToySystem (list Z) := toy_newcomer 2 [toy_subnet] (mkMockDevice [] []).

Lemma toy_id_wf n : is_u8 n -> NodeInfo.id_wf (toy_id n).
Proof. intros Hn. split; [done|]. by apply Forall_replicate. Qed.

Lemma toy_caller_ok : newcomer toy_caller.
Proof.
  split; [done|]. split; [done|]. split; [|by split_and!]. split; [|vm_compute; discriminate].
  split; [apply toy_id_wf; unfold is_u8; lia|]. split; [by apply Forall_nil|]. split; [by apply Forall_nil|]. split; [|by apply Forall_nil].
  intros t [= <-]. unfold is_u16. cbn. lia.
Qed.

Lemma toy_called_ok : newcomer toy_called.
Proof.
  split; [done|]. split; [done|]. split; [|by split_and!]. split; [|vm_compute; discriminate].
  split; [apply toy_id_wf; unfold is_u8; lia|]. split; [by apply Forall_nil|]. split; [|split; [|by apply Forall_nil]].
  - apply Forall_singleton. apply (bool_decide_unpack _). vm_compute. exact I.
  - intros t [= <-]. unfold is_u16. cbn. lia.
Qed.

Lemma toy_introduced : introduced (crypto toy_caller) (crypto toy_called) AES_128_GCM.
Proof.
  split; [split; apply (bool_decide_unpack _); vm_compute; exact I|apply trusts_one|apply trusts_one|..]; exists 1142292480; vm_compute; reflexivity.
Qed.

Lemma toy_loop_buffer : loop_buffer (MsgBuffer.new SPACE_BEFORE).
Proof. split; [apply new_wf; unfold SPACE_BEFORE, BUFFER_SIZE; lia|exact eq_refl]. Qed.

(** They meet, and the packet on the first one's device goes to the second. *)
Lemma nodes_meet_witness : exists (ea eb : GenericCloud MockDevice MockSocket ToySystem (list Z)) ba bb ra rb,
  delivers_packet (P := Packet) 15 16 ea eb ba bb ra rb (toy_addr 1) (toy_addr 2) toy_packet (mkAddress (Address.pad [192; 168; 1; 1]) 4).
Proof.
  destruct (nodes_meet (P := Packet) "node" 10 11 12 13 14 toy_caller toy_called AES_128_GCM (toy_addr 1) (toy_addr 2) (MsgBuffer.new SPACE_BEFORE) (toy_rng 1)
    toy_caller_ok toy_called_ok toy_introduced eq_refl eq_refl eq_refl eq_refl eq_refl eq_refl) as (ca1 & ra1 & ping & _ & _ & H1).
  destruct (H1 (MsgBuffer.new SPACE_BEFORE) (toy_rng 2) toy_loop_buffer) as (eb1 & pong & _ & _ & H2); [vm_compute; discriminate|].
  destruct (H2 (MsgBuffer.new SPACE_BEFORE) (toy_rng 3) toy_loop_buffer) as (ea2 & peng & _ & _ & H3).
  destruct (H3 (MsgBuffer.new SPACE_BEFORE) (toy_rng 4) toy_loop_buffer) as (eb2 & rotation & _ & _ & H4).
  destruct (H4 (MsgBuffer.new SPACE_BEFORE) (toy_rng 5) toy_loop_buffer) as (ea3 & pa & pb & cx & cy & _ & _ & _ & _ & _ & Hflow & _).
  exists (self ea3), (self eb2), (MsgBuffer.new SPACE_BEFORE), (MsgBuffer.new SPACE_BEFORE), (toy_rng 6), (toy_rng 7).
  refine (Hflow 15 16 toy_packet [] _ (mkAddress (Address.pad [192; 168; 2; 7]) 4) toy_subnet _ _ _ _ eq_refl _ _ _ _ _ toy_loop_buffer toy_loop_buffer).
  - apply (bool_decide_unpack _). vm_compute. exact I.
  - vm_compute. discriminate.
  - vm_compute. reflexivity.
  - by apply list_elem_of_singleton.
  - vm_compute. reflexivity.
Defined.
