(* ===== verification/Forgeries.v ===== *)
(** * What cannot be authenticated changes nothing (src/src/cloud.rs, src/src/crypto)

    A datagram from the network is an init message, which a trusted key has to have
    signed, or a sealed one, which has to open under a key of its connection. Of
    one that is neither, nothing is left in the node but the counters; or it is too
    short to be sealed, and ends the program. *)

From S2P Require Import Prelude Errors Util Types Traffic Payload Messages Device Net Forwarding.
From S2P Require Import Ring Core Rotate Init Handshake Peer Beacon Configuration Cloud Delivery Meeting.

Import GenericCloud.

(** ** One connection *)

Section Connection.
Context `{RingLaws}.
Implicit Types (i : PeerCrypto NodeInfo) (m : MsgBuffer).

(** A sealed message is taken: there is room in it for the slot, the nonce and the tag,
    its nonce is not too old, and it opens under the key of the slot. *)
Definition accepted (core : CryptoCore) (msg : bytes) : bool :=
  bool_decide (EXTRA_LEN + TAG_LEN <= zlen msg) &&
  match keys core !! Z.to_nat (CryptoCore.extra_key_id msg) with
  | Some k =>
      let nonce := CryptoCore.extra_nonce (nonce_half core) msg in
      negb (Nonce.ltb nonce (min_nonce k)) && (open_in_place (algorithm_of (ck_key k)) (key_bytes (ck_key k)) nonce (drop 8 msg)).2
  | None => false
  end.

(** No trusted key has signed what follows the first byte. The signature is looked for in
    all of the buffer, also behind the message. *)
Definition unsigned (trusted_keys : list bytes) m : Prop :=
  forall x tail, MsgBuffer.buffer (E := Error) m = Ok (x :: tail) -> ~ signed_by trusted_keys tail.

(** Neither signed nor sealed for this connection, or empty. On a connection that has settled for
    no encryption nothing is a forgery. *)
Definition forged_for i m : Prop :=
  if is_init_message (MsgBuffer.contents m) then forall st, pc_init i = Some st -> unsigned (is_trusted_keys st) m
  else MsgBuffer.contents m = [] \/ pc_unencrypted i = false /\ forall core, pc_core i = Some core -> accepted core (MsgBuffer.contents m) = false.

(** The core of the connection has four slots: it is an array of four in the source, and a list
    here. *)
Definition sound i : Prop := forall core, pc_core i = Some core -> length (keys core) = 4%nat.

(** A message that is not an init message, on an encrypted connection with keys, without room
    for the slot, the nonce and the tag: [decrypt] asserts that there is. *)
Definition crashes i (msg : bytes) : bool :=
  negb (bool_decide (msg = [])) && negb (is_init_message msg) && bool_decide (zlen msg < EXTRA_LEN + TAG_LEN) &&
  negb (pc_unencrypted i) && bool_decide (pc_core i <> None).

(** The error is not one that ends the handshake. *)
Definition harmless (er : Error) : Prop := forall s, er <> CryptoInitFatal s.

Lemma decrypt_refused core m r : length (keys core) = 4%nat -> MsgBuffer.wf m -> EXTRA_LEN + TAG_LEN <= zlen (MsgBuffer.contents m) ->
  accepted core (MsgBuffer.contents m) = false ->
  exists b er, CryptoCore.decrypt (mkEnv core m r) = (mkEnv core b r, Err er) /\ harmless er.
Proof.
  intros Hc Hm Hl Ha. unfold accepted in Ha. rewrite bool_decide_eq_true_2 in Ha by done. cbn [andb] in Ha.
  pose proof (length_contents m Hm) as Hlen. rewrite Hlen in Hl.
  destruct (decrypt_eq (mkEnv core m r) Hc Hm Hl) as (k & Hk & Hd). cbn [self out rng] in *. cbn zeta in Hd.
  set (msg := MsgBuffer.contents m) in *. rewrite Hk in Ha. cbn zeta in Ha.
  assert (CryptoCore.set_key (CryptoCore.extra_key_id msg) k core = core) as Hsame.
  { unfold CryptoCore.set_key, CryptoCore.set_keys. rewrite list_insert_id by done. by destruct core. }
  unfold CryptoCore.decrypt_with_key in Hd. destruct (Nonce.ltb _ (min_nonce k)).
  { destruct Hd as (b & -> & _). rewrite Hsame. by eexists b, _. }
  cbn [negb andb] in Ha. destruct (open_in_place _ _ _ _) as [d ok]. cbn [snd] in Ha. subst ok.
  destruct Hd as (b & -> & _). rewrite Hsame. by eexists b, _.
Qed.

(** All of the buffer from its start on. *)
Lemma buffer_wf {E} m : MsgBuffer.wf m -> MsgBuffer.buffer (E := E) m = Ok (drop (Z.to_nat (buf_start m)) (buf_data m)).
Proof.
  intros (Hl & _ & _ & Hs & He). unfold MsgBuffer.buffer, zlen, BUFFER_SIZE in *. rewrite slice_ok by (unfold zlen; lia). f_equal.
  apply take_ge. rewrite length_drop. lia.
Qed.

Lemma init_refused i m r x l : MsgBuffer.wf m -> MsgBuffer.contents m = x :: l -> is_init_message (x :: l) = true ->
  (forall st, pc_init i = Some st -> unsigned (is_trusted_keys st) m) ->
  exists b er, PeerCrypto.handle_message (mkEnv i m r) = (mkEnv i b r, Err er) /\ harmless er.
Proof.
  intros Hm Hc Hx Hu. apply bool_decide_eq_true_1 in Hx as ->.
  destruct (take_prefix_spec (E := Error) m _ _ Hm Hc) as (Ht & Hw & _).
  destruct (buffer_contents (E := Error) m Hm) as [rest Hb]. rewrite Hc in Hb. cbn [app] in Hb.
  set (m' := MsgBuffer.set_start (buf_start m + 1) m) in *.
  assert (MsgBuffer.buffer (E := Error) m' = Ok (l ++ rest)) as Hb'.
  { rewrite buffer_wf in Hb |- * by done. injection Hb as Hb. f_equal. change (buf_data m') with (buf_data m).
    change (buf_start m') with (buf_start m + 1). pose proof Hm as (_ & _ & _ & Hs & _).
    replace (Z.to_nat (buf_start m + 1)) with (Z.to_nat (buf_start m) + 1)%nat by lia. by rewrite <- drop_drop, Hb. }
  assert (PeerCrypto.handle_message (mkEnv i m r) = PeerCrypto.handle_init_message (mkEnv i m' r)) as ->.
  { unfold PeerCrypto.handle_message.
    rewrite (bind_ok _ _ _ (mkEnv i m r) false) by (unfold on_out, zoom, gets; cbn [self out rng]; by rewrite (nonempty m _ _ Hm Hc)).
    cbn beta iota. rewrite (bind_ok _ _ _ (mkEnv i m r) (INIT_MESSAGE_FIRST_BYTE :: l ++ rest)).
    2: { unfold on_out, zoom. cbn [self out rng]. by rewrite Hb. }
    cbn [is_init_message]. rewrite bool_decide_eq_true_2 by done. by rewrite (bind_ok _ _ _ _ _ (on_out_eq _ i m r _ _ Ht)). }
  destruct (pc_init i) as [st|] eqn:Hi.
  2: { exists m', (InvalidCryptoState "Initialization already finished"). split; [|done].
       unfold PeerCrypto.handle_init_message, PeerCrypto.in_init, PeerCrypto.get_init, mbind, ST_bind, on_self, zoom, get, lift.
       cbn [self out rng]. by rewrite Hi. }
  assert (bytes_ok (l ++ rest)) as Hok.
  { rewrite buffer_wf in Hb' by done. injection Hb' as <-. apply Forall_drop, Hw. }
  destruct (read_from_unsigned (l ++ rest) (is_trusted_keys st) Hok (Hu st eq_refl _ _ Hb)) as [er Her].
  exists m', er. split; [|intros s ->; by apply (read_from_recoverable (l ++ rest) (is_trusted_keys st) s)].
  unfold PeerCrypto.handle_init_message. unfold mbind at 1, ST_bind at 1. rewrite (in_init_eq _ _ _ _ _ Hi).
  unfold InitState.handle_init, mbind, ST_bind, on_out, on_self, zoom, get, lift. cbn [self out rng]. rewrite Hb'. cbn [self out rng]. rewrite Her.
  cbn [self out rng]. unfold PeerCrypto.set_init. rewrite <- Hi. by destruct i.
Qed.

Lemma sealed_refused i m r x l : MsgBuffer.wf m -> MsgBuffer.contents m = x :: l -> is_init_message (x :: l) = false ->
  pc_unencrypted i = false ->
  (forall core, pc_core i = Some core -> length (keys core) = 4%nat /\ EXTRA_LEN + TAG_LEN <= zlen (x :: l) /\ accepted core (x :: l) = false) ->
  exists b er, PeerCrypto.handle_message (mkEnv i m r) = (mkEnv i b r, Err er) /\ harmless er.
Proof.
  intros Hm Hc Hx Hu Hcore. destruct (buffer_contents (E := Error) m Hm) as [rest Hb]. rewrite Hc in Hb.
  assert (exists b er, PeerCrypto.decrypt_message (mkEnv i m r) = (mkEnv i b r, Err er) /\ harmless er) as (b & er & Hd & Her).
  { unfold PeerCrypto.decrypt_message. rewrite (bind_ok _ _ _ (mkEnv i m r) i) by done. rewrite Hu.
    destruct (pc_core i) as [core|] eqn:Hi.
    - destruct (Hcore core eq_refl) as (Hw & Hl & Ha). rewrite <- Hc in Hl, Ha.
      destruct (decrypt_refused core m r Hw Hm Hl Ha) as (b & er & Hd & Her). exists b, er. split; [|done].
      rewrite (in_core_eq _ _ _ _ _ Hi), Hd. cbn [self out rng]. unfold PeerCrypto.set_core. rewrite <- Hi. by destruct i.
    - exists m, (InvalidCryptoState "Crypto core not ready yet"). split; [|done].
      unfold PeerCrypto.in_core, PeerCrypto.get_core, mbind, ST_bind, on_self, zoom, get, lift. cbn [self out rng]. by rewrite Hi. }
  exists b, er. split; [|exact Her]. unfold PeerCrypto.handle_message.
  rewrite (bind_ok _ _ _ (mkEnv i m r) false) by (unfold on_out, zoom, gets; cbn [self out rng]; by rewrite (nonempty m _ _ Hm Hc)).
  cbn beta iota. rewrite (bind_ok _ _ _ (mkEnv i m r) ((x :: l) ++ rest)).
  2: { unfold on_out, zoom. cbn [self out rng]. by rewrite Hb. }
  assert (is_init_message ((x :: l) ++ rest) = false) as -> by exact Hx.
  unfold mbind at 1, ST_bind at 1. by rewrite Hd.
Qed.

Lemma empty_refused i m r : MsgBuffer.wf m -> MsgBuffer.contents m = [] ->
  exists b er, PeerCrypto.handle_message (mkEnv i m r) = (mkEnv i b r, Err er) /\ harmless er.
Proof.
  intros Hm Hc. exists m, (InvalidCryptoState "No message in buffer"). split; [|done]. unfold PeerCrypto.handle_message.
  rewrite (bind_ok _ _ _ (mkEnv i m r) true); [done|]. unfold on_out, zoom, gets. cbn [self out rng].
  by rewrite (proj2 (is_empty_contents m Hm) Hc).
Qed.

Lemma forgery_refused i m r : sound i -> MsgBuffer.wf m -> forged_for i m -> crashes i (MsgBuffer.contents m) = false ->
  exists b er, PeerCrypto.handle_message (mkEnv i m r) = (mkEnv i b r, Err er) /\ harmless er.
Proof.
  intros Hs Hm Hf Hcr. unfold forged_for, crashes in *. destruct (MsgBuffer.contents m) as [|x l] eqn:Hc; [by apply empty_refused|].
  destruct (is_init_message (x :: l)) eqn:Hx; [by apply (init_refused i m r x l)|].
  destruct Hf as [?|[Hu Ha]]; [done|]. apply (sealed_refused i m r x l); [done..|]. intros core Hcore. split; [by apply Hs|]. split; [|by apply Ha].
  rewrite Hu, Hcore in Hcr. rewrite (bool_decide_eq_false_2 (x :: l = [])), (bool_decide_eq_true_2 (Some core <> None)) in Hcr by done.
  cbn [negb andb] in Hcr. rewrite !andb_true_r in Hcr. apply bool_decide_eq_false_1 in Hcr. lia.
Qed.

Lemma init_no_crash i msg : is_init_message msg = true -> crashes i msg = false.
Proof. intros Hx. unfold crashes. rewrite Hx. by rewrite andb_false_r. Qed.

Lemma crash_panics i m r : MsgBuffer.wf m -> crashes i (MsgBuffer.contents m) = true ->
  exists e, PeerCrypto.handle_message (mkEnv i m r) = (e, Panic).
Proof.
  intros Hm Hcr. unfold crashes in Hcr. destruct (MsgBuffer.contents m) as [|x l] eqn:Hc; [done|].
  apply andb_true_iff in Hcr as [Hcr Hcore]. apply andb_true_iff in Hcr as [Hcr Hu%negb_true_iff].
  apply andb_true_iff in Hcr as [Hx Hl%bool_decide_eq_true_1]. apply andb_true_iff in Hx as [_ Hx%negb_true_iff].
  apply bool_decide_eq_true_1 in Hcore. destruct (pc_core i) as [core|] eqn:Hi; [|done]. clear Hcore.
  destruct (buffer_contents (E := Error) m Hm) as [rest Hb]. rewrite Hc in Hb.
  assert (CryptoCore.decrypt (mkEnv core m r) = (mkEnv core m r, Panic)) as Hd.
  { apply short_message_panics; [done|]. pose proof (length_contents m Hm) as Hlen. rewrite Hc in Hlen. lia. }
  eexists. unfold PeerCrypto.handle_message.
  rewrite (bind_ok _ _ _ (mkEnv i m r) false) by (unfold on_out, zoom, gets; cbn [self out rng]; by rewrite (nonempty m _ _ Hm Hc)).
  cbn beta iota. rewrite (bind_ok _ _ _ (mkEnv i m r) ((x :: l) ++ rest)).
  2: { unfold on_out, zoom. cbn [self out rng]. by rewrite Hb. }
  assert (is_init_message ((x :: l) ++ rest) = false) as -> by exact Hx.
  unfold PeerCrypto.decrypt_message, mbind at 1, ST_bind at 1.
  rewrite (bind_ok _ _ _ (mkEnv i m r) i) by done. rewrite Hu. rewrite (in_core_eq _ _ _ _ _ Hi), Hd. reflexivity.
Qed.
End Connection.

(** ** The node *)

Section Node.
Context `{RingLaws} {D S W G P : Type}.
Context `{Device D} `{Socket S} `{System W} `{Gateway G} `{SocketParsers} `{Protocol P}.

Abbreviation Node := (GenericCloud D S W G).
Implicit Types (c : Node) (m : MsgBuffer).

(** All of the node but its counters and what is outside of it: the connections with
    their keys and nonces, the handshakes, the table, the device, the socket, the timers. *)
Definition untouched c c' : Prop := exists tr w, c' = set_traffic tr (set_outside w c).

Lemma untouched_refl c : untouched c c.
Proof. exists (traffic c), (outside c). by destruct c. Qed.
Lemma untouched_trans c1 c2 c3 : untouched c1 c2 -> untouched c2 c3 -> untouched c1 c3.
Proof. intros (tr & w & ->) (tr' & w' & ->). by exists tr', w'. Qed.
Lemma untouched_traffic c tr : untouched c (set_traffic tr c).
Proof. exists tr, (outside c). by destruct c. Qed.

(** What comes from [src] is given to the handshake with it, to its connection, or, as
    an init message, to a new handshake; whichever it is cannot authenticate it. *)
Definition forged c (src : SocketAddr) m : Prop :=
  match pending_inits c !! src with
  | Some i => forged_for i m
  | None =>
      match peers c !! src with
      | Some p =>
          if is_init_message (MsgBuffer.contents m) && negb (PeerCrypto.has_init (pd_crypto p))
          then unsigned (cn_trusted_keys (crypto c)) m else forged_for (pd_crypto p) m
      | None => is_init_message (MsgBuffer.contents m) = true -> unsigned (cn_trusted_keys (crypto c)) m
      end
  end.

(** An operation after which nothing has changed, with an error that is not fatal or
    without one. *)
Definition refuses (o : ST (Env Node) Error unit) c m r : Prop :=
  exists c' m' r' res, o (mkEnv c m r) = (mkEnv c' m' r', res) /\ untouched c c' /\ (res = Ok () \/ exists er, res = Err er /\ harmless er).

Lemma invalid_eq (er : Error) c m r : harmless er -> refuses (count_invalid ;; throw er) c m r.
Proof.
  intros Her. eexists (set_traffic _ c), m, r, (Err er). split; [reflexivity|]. split; [apply untouched_traffic|]. right. by exists er.
Qed.

Lemma finish_refused now src (o : ST (Env Node) Error (MessageResult NodeInfo)) c m r m' r' er :
  o (mkEnv c m r) = (mkEnv c m' r', Err er) -> harmless er -> refuses (finish (P := P) now src o) c m r.
Proof.
  intros Ho Her. unfold refuses, finish. rewrite (bind_ok _ _ _ (mkEnv c m' r') (Err er)) by (unfold catch; by rewrite Ho).
  by apply invalid_eq.
Qed.

(** The connection with [src]: the handshake that is under way, or the peer's. *)
Definition connection c (src : SocketAddr) : option (PeerCrypto NodeInfo) :=
  match pending_inits c !! src with Some i => Some i | None => pd_crypto <$> peers c !! src end.

(** The message is too short for the connection with [src]. *)
Definition ends_program c (src : SocketAddr) (msg : bytes) : bool :=
  match connection c src with Some i => crashes i msg | None => false end.

Definition sound_with c (src : SocketAddr) : Prop := forall i, connection c src = Some i -> sound i.

Lemma pending_refused now src c m r i : pending_inits c !! src = Some i -> sound i -> MsgBuffer.wf m -> forged_for i m ->
  crashes i (MsgBuffer.contents m) = false ->
  refuses (finish (P := P) now src (on_pending src i PeerCrypto.handle_message)) c m r.
Proof.
  intros Hi Hs Hm Hf Hcr. destruct (forgery_refused i m r Hs Hm Hf Hcr) as (b & er & Hh & Her). apply (finish_refused _ _ _ _ _ _ b r er); [|done].
  unfold on_pending, on_part, zoom. cbn [self out rng]. rewrite Hh. cbn [self out rng]. rewrite insert_id by done. by destruct c.
Qed.

Lemma peer_refused now src c m r p : peers c !! src = Some p -> sound (pd_crypto p) -> MsgBuffer.wf m -> forged_for (pd_crypto p) m ->
  crashes (pd_crypto p) (MsgBuffer.contents m) = false ->
  refuses (finish (P := P) now src (on_peer src p PeerCrypto.handle_message)) c m r.
Proof.
  intros Hp Hs Hm Hf Hcr. destruct (forgery_refused (pd_crypto p) m r Hs Hm Hf Hcr) as (b & er & Hh & Her). apply (finish_refused _ _ _ _ _ _ b r er); [|done].
  unfold on_peer, on_part, zoom. cbn [self out rng]. rewrite Hh. cbn [self out rng].
  rewrite insert_id; [by destruct c|]. rewrite Hp. by destruct p.
Qed.

Lemma info_untouched c m r : exists w info, create_node_info (mkEnv c m r) = (mkEnv (set_outside w c) m r, Ok info).
Proof.
  unfold create_node_info. rewrite (bind_ok _ _ _ (mkEnv c m r) c) by done. cbn zeta. case_decide.
  - unfold on_outside, on_self, zoom, mbind, ST_bind, mret, ST_ret. cbn [self out rng]. destruct (partial_shuffle _ _ _) as [w l]. by eexists w, _.
  - exists (outside c). eexists. unfold mbind, ST_bind, mret, ST_ret. f_equal. by destruct c.
Qed.

Lemma stranger_refused now src c m r : MsgBuffer.wf m -> is_init_message (MsgBuffer.contents m) = true ->
  unsigned (cn_trusted_keys (crypto c)) m ->
  refuses (res ← handle_new_init now src; GenericCloud.handle_message (P := P) now src res) c m r.
Proof.
  intros Hm Hx Hu. destruct (info_untouched c m r) as (w & info & Hinfo). set (c1 := set_outside w c) in *.
  destruct (forgery_refused (new_peer (crypto c) info r) m (fill 4 r).2) as (b & er & Hh & Her); [by intros core [=]|done| |by apply init_no_crash|].
  { unfold forged_for. rewrite Hx. intros st [= <-]. exact Hu. }
  destruct (invalid_eq er c1 b (fill 4 r).2 Her) as (c2 & m2 & r2 & res & Heq & Hun & Hres). unfold refuses.
  assert (untouched c c2) as Hall by (eapply untouched_trans; [|exact Hun]; exists (traffic c), w; by destruct c).
  assert (handle_new_init now src (mkEnv c m r) = (count_invalid ;; throw er) (mkEnv c1 b (fill 4 r).2)) as Hn.
  { unfold handle_new_init. rewrite (bind_ok _ _ _ _ _ Hinfo). rewrite (bind_ok _ _ _ (mkEnv c1 m r) (crypto c)) by done.
    rewrite (bind_ok _ _ _ (mkEnv c1 m (fill 4 r).2) (new_peer (crypto c) info r)).
    2: { unfold on_rng, zoom. cbn [self out rng]. by rewrite instance_eq. }
    rewrite (bind_ok _ _ _ (mkEnv c1 b (fill 4 r).2) (new_peer (crypto c) info r, Err er)); [done|].
    unfold on_new. cbn [self out rng]. by rewrite Hh. }
  exists c2, m2, r2, (Err er). split; [|split; [exact Hall|right; by exists er]].
  unfold mbind, ST_bind. rewrite Hn. cbn in Heq |- *. by injection Heq as <- <- <- _.
Qed.

Lemma net_message_refused now src c m r : sound_with c (mapped_addr src) -> MsgBuffer.wf m -> forged c (mapped_addr src) m ->
  ends_program c (mapped_addr src) (MsgBuffer.contents m) = false ->
  refuses (handle_net_message (P := P) now src) c m r.
Proof.
  intros Hs Hm Hf Hcr. unfold forged in Hf. unfold ends_program, sound_with, connection in *. unfold handle_net_message.
  set (a := mapped_addr src) in *.
  unfold refuses. rewrite (bind_ok _ _ _ (mkEnv c m r) c) by done.
  destruct (pending_inits c !! a) as [i|] eqn:Hi; [apply pending_refused; auto|].
  rewrite (bind_ok _ _ _ _ _ (msg_bytes_eq c m r Hm)). destruct (peers c !! a) as [p|] eqn:Hp.
  - specialize (Hs (pd_crypto p) eq_refl).
    destruct (is_init_message (MsgBuffer.contents m)) eqn:Hx; cbn [andb] in Hf; [|by apply peer_refused].
    destruct (PeerCrypto.has_init (pd_crypto p)); cbn [negb] in Hf; [by apply peer_refused|by apply stranger_refused].
  - destruct (is_init_message (MsgBuffer.contents m)) eqn:Hx; [apply stranger_refused; auto|].
    eexists (set_traffic _ c), m, r, (Ok ()). split; [reflexivity|]. split; [apply untouched_traffic|by left].
Qed.

Lemma finish_panics now src (o : ST (Env Node) Error (MessageResult NodeInfo)) s :
  (exists e, o s = (e, Panic)) -> exists e, finish (P := P) now src o s = (e, Panic).
Proof. intros [e Ho]. exists e. unfold finish, mbind, ST_bind, catch. by rewrite Ho. Qed.

Lemma net_message_panics now src c m r : MsgBuffer.wf m -> ends_program c (mapped_addr src) (MsgBuffer.contents m) = true ->
  exists e, handle_net_message (P := P) now src (mkEnv c m r) = (e, Panic).
Proof.
  intros Hm Hcr. unfold ends_program, connection in Hcr. unfold handle_net_message. set (a := mapped_addr src) in *.
  rewrite (bind_ok _ _ _ (mkEnv c m r) c) by done. destruct (pending_inits c !! a) as [i|].
  - apply finish_panics. destruct (crash_panics i m r Hm Hcr) as [e He]. eexists. unfold on_pending, on_part, zoom. cbn [self out rng]. by rewrite He.
  - rewrite (bind_ok _ _ _ _ _ (msg_bytes_eq c m r Hm)). destruct (peers c !! a) as [p|]; [|done]. cbn [fmap option_fmap option_map] in Hcr.
    destruct (is_init_message (MsgBuffer.contents m)) eqn:Hx; [by rewrite init_no_crash in Hcr|].
    apply finish_panics. destruct (crash_panics (pd_crypto p) m r Hm Hcr) as [e He]. eexists. unfold on_peer, on_part, zoom. cbn [self out rng]. by rewrite He.
Qed.

(** C7: only who holds a trusted key, or the key of a connection, can change a node. A datagram that no trusted key has signed (an init
    message), or that does not open under the key of its connection or replays a nonce that is too old (any other), is dropped: whatever
    state the node is in, its connections with their keys and nonces, the handshakes under way, the table, the device and all the rest are
    as before but for the counters; nothing is sent, and the node goes on. There is one exception, and it is exact: from an address the
    node has an encrypted connection with, a datagram that is neither empty nor an init message and is shorter than 24 bytes ends the
    program. The only condition on the node is that the core of the connection has its four slots. On a connection that has settled for
    no encryption nothing is authenticated, so there are no forgeries on it. *)
Theorem forgery_changes_nothing now c b r s m src :
  receive (socket c, b) = ((s, m), Ok src) -> MsgBuffer.wf m -> sound_with c (mapped_addr src) -> forged c (mapped_addr src) m ->
  if ends_program c (mapped_addr src) (MsgBuffer.contents m)
  then exists e, handle_socket_event (P := P) now (mkEnv c b r) = (e, Panic)
  else exists c' m' r', handle_socket_event (P := P) now (mkEnv c b r) = (mkEnv c' m' r', Ok ()) /\ untouched (set_socket s c) c'.
Proof.
  intros Hrec Hm Hs Hf. set (c1 := set_traffic (TrafficStats.count_in_traffic src (MsgBuffer.len m) (traffic c)) (set_socket s c)).
  assert (sound_with c1 (mapped_addr src) /\ forged c1 (mapped_addr src) m /\
    ends_program c1 (mapped_addr src) (MsgBuffer.contents m) = ends_program c (mapped_addr src) (MsgBuffer.contents m)) as (Hs1 & Hf1 & Heq) by done.
  rewrite <- Heq. unfold handle_socket_event. rewrite (bind_ok _ _ _ (mkEnv (set_socket s c) m r) src).
  2: { unfold or_fail, on_socket. cbn [self out rng]. by rewrite Hrec. }
  rewrite (bind_ok _ _ _ (mkEnv (set_socket s c) m r) (MsgBuffer.len m)) by done. rewrite (bind_ok _ _ _ (mkEnv c1 m r) ()) by done.
  destruct (ends_program c1 (mapped_addr src) (MsgBuffer.contents m)) eqn:Hcr.
  - destruct (net_message_panics now src c1 m r Hm Hcr) as [e He]. exists e. unfold mbind, ST_bind, catch. by rewrite He.
  - destruct (net_message_refused now src c1 m r Hs1 Hm Hf1 Hcr) as (c' & m' & r' & res & Hnet & Hun & Hres).
    exists c', m', r'. split; [|eapply untouched_trans; [apply untouched_traffic|exact Hun]].
    rewrite (bind_ok _ _ _ (mkEnv c' m' r') res).
    + destruct Hres as [->|(er & -> & Her)]; [done|]. destruct er as [|s'| | | | | | | | | | | |]; try done. by destruct (Her s').
    + unfold catch. rewrite Hnet. by destruct Hres as [->|(er & -> & _)].
Qed.

End Node.

(** ** The hypotheses can hold *)

(** Thirty-two bytes under no key, and eight. *)
Definition toy_forgery : bytes := [0; 0; 0; 0; 0; 0; 0; 7; 1; 2; 3; 4; 5; 6; 7; 8; 1; 2; 3; 4; 5; 6; 7; 8; 1; 2; 3; 4; 5; 6; 7; 8].
Definition toy_stub : bytes := take 8 toy_forgery.

Lemma toy_forged (text : bytes) (m : MsgBuffer) : text = toy_forgery \/ text = toy_stub -> MsgBuffer.contents m = text ->
  sound_with toy_receiver (toy_addr 1) /\ forged toy_receiver (toy_addr 1) m.
Proof.
  intros Ht Hm. unfold forged, sound_with, connection, toy_receiver, toy_cloud. cbn [pending_inits peers]. rewrite lookup_empty, lookup_singleton_eq, Hm.
  split; [intros i [= <-] core [= <-]; reflexivity|].
  assert (is_init_message text = false) as -> by (destruct Ht as [-> | ->]; reflexivity).
  cbn [andb]. unfold forged_for. rewrite Hm. assert (is_init_message text = false) as -> by (destruct Ht as [-> | ->]; reflexivity).
  right. split; [done|]. intros core [= <-]. destruct Ht as [-> | ->]; vm_compute; reflexivity.
Qed.

Lemma toy_arrives (text : bytes) : text = toy_forgery \/ text = toy_stub ->
  exists m, receive (socket (arrived (toy_addr 1) text toy_receiver), MsgBuffer.new SPACE_BEFORE) = ((socket toy_receiver, m), Ok (toy_addr 1)) /\
    MsgBuffer.wf m /\ MsgBuffer.contents m = text.
Proof.
  intros Ht. pose proof (new_wf SPACE_BEFORE ltac:(unfold SPACE_BEFORE, BUFFER_SIZE; lia)) as Hnew.
  destruct (mock_receive_spec (socket (arrived (toy_addr 1) text toy_receiver)) (MsgBuffer.new SPACE_BEFORE) (toy_addr 1) text []
    eq_refl Hnew) as (m & Hrec & Hm & Hc & _).
  - destruct Ht as [-> | ->]; apply (bool_decide_unpack _); vm_compute; exact I.
  - destruct Ht as [-> | ->]; vm_compute; discriminate.
  - exists m. exact (conj Hrec (conj Hm Hc)).
Qed.

(** The one is dropped, the other ends the program. *)
Lemma forgery_changes_nothing_witness :
  (exists (c' : GenericCloud MockDevice MockSocket ToySystem (list Z)) m' r',
    handle_socket_event (P := Packet) 11 (mkEnv (arrived (toy_addr 1) toy_forgery toy_receiver) (MsgBuffer.new SPACE_BEFORE) (toy_rng 2)) = (mkEnv c' m' r', Ok ()) /\
    untouched toy_receiver c') /\
  exists e, handle_socket_event (P := Packet) 11 (mkEnv (arrived (toy_addr 1) toy_stub toy_receiver) (MsgBuffer.new SPACE_BEFORE) (toy_rng 2)) = (e, Panic).
Proof.
  split.
  - destruct (toy_arrives toy_forgery (or_introl eq_refl)) as (m & Hrec & Hm & Hc).
    destruct (toy_forged toy_forgery m (or_introl eq_refl) Hc) as [Hs Hf].
    pose proof (forgery_changes_nothing (P := Packet) 11 (arrived (toy_addr 1) toy_forgery toy_receiver) (MsgBuffer.new SPACE_BEFORE) (toy_rng 2)
      (socket toy_receiver) m (toy_addr 1) Hrec Hm Hs Hf) as Hx. rewrite Hc in Hx. exact Hx.
  - destruct (toy_arrives toy_stub (or_intror eq_refl)) as (m & Hrec & Hm & Hc).
    destruct (toy_forged toy_stub m (or_intror eq_refl) Hc) as [Hs Hf].
    pose proof (forgery_changes_nothing (P := Packet) 11 (arrived (toy_addr 1) toy_stub toy_receiver) (MsgBuffer.new SPACE_BEFORE) (toy_rng 2)
      (socket toy_receiver) m (toy_addr 1) Hrec Hm Hs Hf) as Hx. rewrite Hc in Hx. exact Hx.
Defined.
