(* ===== verification/Triples.v ===== *)
(** * Reasoning about computations with state and errors

    [wp m Q X s]: run from [s], [m] ends with a value and a state as [Q] says, or
    with an error and a state as [X] says, or panics. The rules follow the
    operations of the monad; [keeps] and [no_err] are the two uses made of it. *)

From S2P Require Import Prelude Ring Util.

Definition wp {S E A} (m : ST S E A) (Q : A -> S -> Prop) (X : E -> S -> Prop) (s : S) : Prop :=
  match m s with
  | (s', Ok a) => Q a s'
  | (s', Err e) => X e s'
  | (_, Panic) => True
  end.

(** [I] holds again after [m], whether it returns a value or an error. *)
Definition keeps {S E A} (I : S -> Prop) (m : ST S E A) : Prop := forall s, I s -> wp m (fun _ => I) (fun _ => I) s.

(** [m] returns a value (or panics). *)
Definition no_err {S E A} (m : ST S E A) : Prop := forall s, wp m (fun _ _ => True) (fun _ _ => False) s.

Section Rules.
Context {S E : Type}.

Lemma wp_mono {A} (m : ST S E A) (Q Q' : A -> S -> Prop) (X X' : E -> S -> Prop) s :
  wp m Q X s -> (forall a s, Q a s -> Q' a s) -> (forall e s, X e s -> X' e s) -> wp m Q' X' s.
Proof. unfold wp. destruct (m s) as [s' [a|e|]]; auto. Qed.

Lemma wp_and {A} (m : ST S E A) (Q Q' : A -> S -> Prop) (X X' : E -> S -> Prop) s :
  wp m Q X s -> wp m Q' X' s -> wp m (fun a s => Q a s /\ Q' a s) (fun e s => X e s /\ X' e s) s.
Proof. unfold wp. destruct (m s) as [s' [a|e|]]; auto. Qed.

Lemma wp_bind {A B} (m : ST S E A) (f : A -> ST S E B) Q X s :
  wp m (fun a => wp (f a) Q X) X s -> wp (m ≫= f) Q X s.
Proof. unfold wp, mbind, ST_bind. by destruct (m s) as [s' [a|e|]]. Qed.

(** A step about which nothing needs to be known. *)
Lemma wp_skip {A B} (m : ST S E A) (f : A -> ST S E B) Q (X : E -> S -> Prop) s :
  (forall a s', wp (f a) Q X s') -> (forall e s', X e s') -> wp (m ≫= f) Q X s.
Proof. intros Hf HX. apply wp_bind. unfold wp at 1. destruct (m s) as [s' [a|e|]]; auto. Qed.

Lemma wp_ret {A} (a : A) Q (X : E -> S -> Prop) s : Q a s -> wp (mret a) Q X s.
Proof. done. Qed.
Lemma wp_get Q (X : E -> S -> Prop) s : Q s s -> wp get Q X s.
Proof. done. Qed.
Lemma wp_throw {A} (e : E) (Q : A -> S -> Prop) X s : X e s -> wp (throw e) Q X s.
Proof. done. Qed.
Lemma wp_panic {A} (Q : A -> S -> Prop) (X : E -> S -> Prop) s : wp panic Q X s.
Proof. exact I. Qed.
Lemma wp_lift {A} (o : outcome E A) (Q : A -> S -> Prop) X s :
  (forall a, o = Ok a -> Q a s) -> (forall e, o = Err e -> X e s) -> wp (lift o) Q X s.
Proof. unfold wp, lift. destruct o; auto. Qed.
Lemma wp_assert b Q (X : E -> S -> Prop) s : (b = true -> Q () s) -> wp (assert b) Q X s.
Proof. destruct b; [by intros Hq; apply Hq|done]. Qed.

Lemma wp_for_each {A} (I : S -> Prop) (X : E -> S -> Prop) (f : A -> ST S E unit) l s :
  (forall x s, x ∈ l -> I s -> wp (f x) (fun _ => I) X s) -> I s -> wp (for_each f l) (fun _ => I) X s.
Proof.
  revert s. induction l as [|x l IH]; intros s Hf Hs; [done|]. apply wp_bind.
  eapply wp_mono; [apply Hf; [by left|done]| |done]. intros ? s' Hs'. apply IH; [|done]. intros y s'' Hy. apply Hf. by right.
Qed.

End Rules.

Lemma wp_catch {S E F A} (m : ST S E A) Q (X : F -> S -> Prop) s :
  wp m (fun a => Q (Ok a)) (fun e => Q (Err e)) s -> wp (catch m) Q X s.
Proof. unfold wp, catch. by destruct (m s) as [s' [a|e|]]. Qed.

Lemma wp_zoom {S T E A} (prj : S -> T) (upd : T -> S -> S) (m : ST T E A) Q X s :
  wp m (fun a t => Q a (upd t s)) (fun e t => X e (upd t s)) (prj s) -> wp (zoom prj upd m) Q X s.
Proof. unfold wp, zoom. by destruct (m (prj s)) as [t [a|e|]]. Qed.

(** *** Invariants *)

Section Keeps.
Context {S E : Type} (I : S -> Prop).

Lemma keeps_bind {A B} (m : ST S E A) (f : A -> ST S E B) : keeps I m -> (forall a, keeps I (f a)) -> keeps I (m ≫= f).
Proof. intros Hm Hf s Hs. apply wp_bind. eapply wp_mono; [by apply Hm| |done]. intros a s'. apply Hf. Qed.
Lemma keeps_ret {A} (a : A) : keeps I (mret (M := ST S E) a).
Proof. by intros s Hs. Qed.
Lemma keeps_get : keeps I (get (E := E)).
Proof. by intros s Hs. Qed.
Lemma keeps_lift {A} (o : outcome E A) : keeps I (lift o).
Proof. intros s Hs. by destruct o. Qed.
Lemma keeps_throw {A} (e : E) : keeps I (throw (A := A) e).
Proof. by intros s Hs. Qed.
Lemma keeps_panic {A} : keeps I (panic (E := E) (A := A)).
Proof. by intros s Hs. Qed.
Lemma keeps_modify f : (forall s, I s -> I (f s)) -> keeps I (modify (E := E) f).
Proof. intros Hf s Hs. by apply Hf. Qed.
Lemma keeps_for_each {A} (f : A -> ST S E unit) l : (forall x, keeps I (f x)) -> keeps I (for_each f l).
Proof. intros Hf s Hs. apply wp_for_each; [|done]. intros x s' _. apply Hf. Qed.
Lemma keeps_wp {A} (m : ST S E A) (Q : A -> S -> Prop) X s :
  keeps I m -> I s -> (forall a s, I s -> Q a s) -> (forall e s, I s -> X e s) -> wp m Q X s.
Proof. intros Hm Hs HQ HX. eapply wp_mono; [by apply Hm|exact HQ|exact HX]. Qed.

End Keeps.

Lemma keeps_catch {S E F A} (I : S -> Prop) (m : ST S E A) : keeps I m -> keeps I (catch (F := F) m).
Proof. intros Hm s Hs. apply wp_catch. eapply wp_mono; [by apply Hm|done..]. Qed.

Create HintDb keeps.
#[export] Hint Resolve keeps_ret keeps_get keeps_lift keeps_throw keeps_panic keeps_catch keeps_for_each keeps_bind : keeps.

(** *** No errors *)

Section NoErr.
Context {S E : Type}.

Lemma no_err_bind {A B} (m : ST S E A) (f : A -> ST S E B) : no_err m -> (forall a, no_err (f a)) -> no_err (m ≫= f).
Proof. intros Hm Hf s. apply wp_bind. eapply wp_mono; [by apply Hm| |done]. intros a s' _. apply Hf. Qed.
Lemma no_err_ret {A} (a : A) : no_err (mret (M := ST S E) a).
Proof. by intros s. Qed.
Lemma no_err_get : no_err (get (S := S) (E := E)).
Proof. by intros s. Qed.
Lemma no_err_gets {A} (f : S -> A) : no_err (gets (E := E) f).
Proof. by intros s. Qed.
Lemma no_err_modify f : no_err (modify (S := S) (E := E) f).
Proof. by intros s. Qed.
Lemma no_err_panic {A} : no_err (panic (S := S) (E := E) (A := A)).
Proof. by intros s. Qed.
Lemma no_err_assert b : no_err (assert (S := S) (E := E) b).
Proof. by destruct b; intros s. Qed.
Lemma no_err_lift {A} (o : outcome E A) : (forall e, o <> Err e) -> no_err (lift (S := S) o).
Proof. intros Ho s. destruct o as [a|e|]; [done|by destruct (Ho e)|done]. Qed.
Lemma no_err_unwrap {A} (o : option A) : no_err (lift (S := S) (E := E) (unwrap o)).
Proof. by destruct o; intros s. Qed.

End NoErr.

Lemma no_err_zoom {S T E A} (prj : S -> T) (upd : T -> S -> S) (m : ST T E A) : no_err m -> no_err (zoom prj upd m).
Proof. intros Hm s. apply wp_zoom. apply Hm. Qed.

Create HintDb no_err.
#[export] Hint Resolve no_err_bind no_err_ret no_err_get no_err_gets no_err_modify no_err_panic no_err_assert no_err_unwrap no_err_zoom : no_err.

Section EnvRules.
Context `{Ring} {A : Type}.

Lemma no_err_fill {E} n : no_err (random (E := E) n).
Proof. intros s. unfold wp, random. by destruct (fill n s). Qed.

(** The calls on a part of the surroundings. *)
Lemma no_err_on_self {E X} (m : ST A E X) : no_err m -> no_err (on_self m).
Proof. apply no_err_zoom. Qed.
Lemma no_err_on_out {E X} (m : ST MsgBuffer E X) : no_err m -> no_err (on_out (A := A) m).
Proof. apply no_err_zoom. Qed.
Lemma no_err_on_rng {E X} (m : ST Rng E X) : no_err m -> no_err (on_rng (A := A) m).
Proof. apply no_err_zoom. Qed.

End EnvRules.

(** What the message buffer does never fails with an error. *)
Section Buffers.
Context {E : Type}.

Lemma no_err_view : no_err (fun b : MsgBuffer => (b, MsgBuffer.message (E := E) b)).
Proof. intros b. unfold wp, MsgBuffer.message, slice. by case_decide. Qed.
Lemma no_err_whole : no_err (fun b : MsgBuffer => (b, MsgBuffer.buffer (E := E) b)).
Proof. intros b. unfold wp, MsgBuffer.buffer, slice. by case_decide. Qed.
Lemma no_err_put_message bs : no_err (MsgBuffer.put_message (E := E) bs).
Proof. intros b. unfold wp, MsgBuffer.put_message, MsgBuffer.message, slice. repeat case_decide; done. Qed.
Lemma no_err_prepend_byte x : no_err (MsgBuffer.prepend_byte (E := E) x).
Proof.
  unfold MsgBuffer.prepend_byte. apply no_err_bind; [apply no_err_modify|intros _]. apply no_err_bind; [apply no_err_gets|intros start].
  intros b. unfold wp, MsgBuffer.store. by case_decide.
Qed.
Lemma no_err_take_prefix : no_err (MsgBuffer.take_prefix (E := E)).
Proof. intros b. unfold wp, MsgBuffer.take_prefix, index. case_decide; [|done]. by destruct (buf_data b !! _). Qed.
Lemma no_err_write_cursor f : no_err (MsgBuffer.write_cursor (E := E) f).
Proof. intros b. unfold wp, MsgBuffer.write_cursor, MsgBuffer.buffer, slice. case_decide; [|done]. by destruct (f _). Qed.

End Buffers.

#[export] Hint Resolve no_err_fill no_err_on_self no_err_on_out no_err_on_rng no_err_view no_err_whole no_err_put_message
  no_err_prepend_byte no_err_take_prefix no_err_write_cursor : no_err.

(** Follows the structure of the computation. *)
Ltac no_err := repeat first
  [ progress (intros; eauto 2 with no_err; fail)
  | apply no_err_bind; [|intros ?]
  | apply no_err_on_self | apply no_err_on_out | apply no_err_on_rng
  | progress case_match
  | progress (eauto 2 with no_err) ].
