(* ===== verification/Stages.v ===== *)
(** * The stages of a connection (src/src/crypto/common.rs)

    A connection under way has no core and hands out no messages; once it has
    succeeded its handshake only repeats itself and closes, and no call on it fails
    in a way that would end it. *)

From S2P Require Import Prelude Errors Util Types Messages Ring Core Rotate Init Handshake Peer Triples.

Import PeerCrypto.

(** ** Calls on the surroundings *)

Section Env.
Context `{Ring} {A E X : Type}.

Lemma wp_on_self (m : ST A E X) Q R (e : Env A) :
  wp m (fun x a => Q x (mkEnv a (out e) (rng e))) (fun er a => R er (mkEnv a (out e) (rng e))) (self e) -> wp (on_self m) Q R e.
Proof. intros Hw. exact (wp_zoom _ _ m Q R e Hw). Qed.
Lemma wp_on_out (m : ST MsgBuffer E X) Q R (e : Env A) :
  wp m (fun x b => Q x (mkEnv (self e) b (rng e))) (fun er b => R er (mkEnv (self e) b (rng e))) (out e) -> wp (on_out m) Q R e.
Proof. intros Hw. exact (wp_zoom _ _ m Q R e Hw). Qed.
Lemma wp_on_rng (m : ST Rng E X) Q R (e : Env A) :
  wp m (fun x r => Q x (mkEnv (self e) (out e) r)) (fun er r => R er (mkEnv (self e) (out e) r)) (rng e) -> wp (on_rng m) Q R e.
Proof. intros Hw. exact (wp_zoom _ _ m Q R e Hw). Qed.
Lemma wp_on_part {B} (get : A -> B) set (m : ST (Env B) E X) Q R (e : Env A) :
  wp m (fun x b => Q x (mkEnv (set (self b) (self e)) (out b) (rng b))) (fun er b => R er (mkEnv (set (self b) (self e)) (out b) (rng b)))
    (mkEnv (get (self e)) (out e) (rng e)) -> wp (on_part get set m) Q R e.
Proof. intros Hw. exact (wp_zoom _ _ m Q R e Hw). Qed.

(** What holds of the object alone. *)
Definition of_self (I : A -> Prop) (e : Env A) : Prop := I (self e).

Lemma keeps_on_out (I : A -> Prop) (m : ST MsgBuffer E X) : keeps (of_self I) (on_out m).
Proof. intros e He. apply wp_on_out. unfold wp. by destruct (m (out e)) as [b [x|er|]]. Qed.
Lemma keeps_on_rng (I : A -> Prop) (m : ST Rng E X) : keeps (of_self I) (on_rng m).
Proof. intros e He. apply wp_on_rng. unfold wp. by destruct (m (rng e)) as [b [x|er|]]. Qed.
Lemma keeps_on_self (I : A -> Prop) (m : ST A E X) : keeps I m -> keeps (of_self I) (on_self m).
Proof. intros Hm e He. apply wp_on_self. eapply wp_mono; [by apply Hm|done..]. Qed.

End Env.

#[export] Hint Resolve keeps_on_out keeps_on_rng keeps_on_self : keeps.

(** ** The handshake *)

Section Stages.
Context `{Ring} {P : Type} `{Payload P}.
Implicit Types i : PeerCrypto P.

Definition done_stage (st : InitState P) : Prop := next_stage st = WAITING_TO_CLOSE \/ next_stage st = CLOSING.

Lemma stage_pos (msg : InitMsg) : 1 <= InitMsg.stage msg <= 3.
Proof. destruct msg; cbn; unfold STAGE_PING, STAGE_PONG, STAGE_PENG; lia. Qed.

(** A handshake that reports success is over. *)
Lemma handle_msg_success msg e :
  wp (InitState.handle_msg (P := P) msg)
    (fun r e => match r with Continue => True | Success _ _ => done_stage (self e) end) (fun _ _ => True) e.
Proof.
  unfold InitState.handle_msg. apply wp_skip; [|done]. intros s e1. destruct msg.
  - apply wp_skip; [|done]. intros [privk pubk] e2. do 4 (apply wp_skip; [|done]; intros ? ?). done.
  - do 6 (apply wp_skip; [|done]; intros ? [? ? ?]). by left.
  - apply wp_skip; [|done]. intros p [s2 b2 r2]. by right.
Qed.

Lemma handle_init_success e :
  wp (InitState.handle_init (P := P))
    (fun r e => match r with Continue => True | Success _ _ => done_stage (self e) end) (fun _ _ => True) e.
Proof.
  unfold InitState.handle_init. do 2 (apply wp_skip; [|done]; intros ? ?). apply wp_skip; [|done]. intros [msg signer] e3.
  apply wp_skip; [|done]. intros ? e4. case_match; [done|]. apply wp_skip; [|done]. intros [] e5; [|done].
  apply wp_skip; [|done]. intros ? e6. apply handle_msg_success.
Qed.

(** After it is over it only repeats its last message. *)
Lemma keeps_repeat : keeps (of_self done_stage) (InitState.repeat_last_message (P := P) (E := Error)).
Proof.
  unfold InitState.repeat_last_message. apply keeps_bind; [apply keeps_on_self; by intros s Hs|]. intros [bs|]; [|auto with keeps].
  apply keeps_bind; [auto with keeps|intros n]. apply keeps_bind; auto with keeps.
Qed.

Lemma check_stage_done msg e : done_stage (self e) ->
  wp (InitState.check_stage (P := P) msg) (fun r e => r = false /\ done_stage (self e)) (fun _ e => done_stage (self e)) e.
Proof.
  intros Hd. unfold InitState.check_stage. apply wp_bind, wp_on_self, wp_get. destruct e as [s b r]. cbn [self out rng] in *.
  pose proof (stage_pos msg). unfold done_stage, WAITING_TO_CLOSE, CLOSING in Hd.
  rewrite decide_False by (intros Heq; rewrite Heq in *; lia). rewrite decide_False by (intros [Heq _]; unfold STAGE_PONG in *; lia).
  case_decide; [by apply wp_ret|]. destruct (last_message s); [|by apply wp_throw].
  apply wp_bind. eapply keeps_wp; [apply keeps_repeat|exact Hd|intros [] e' He'; by apply wp_ret|done].
Qed.

Lemma handle_init_done e : done_stage (self e) ->
  wp (InitState.handle_init (P := P)) (fun r e => r = Continue /\ done_stage (self e)) (fun _ e => done_stage (self e)) e.
Proof.
  intros Hd. unfold InitState.handle_init.
  apply wp_bind. eapply keeps_wp; [apply keeps_on_out|exact Hd| |done]. intros buf e1 He1.
  apply wp_bind, wp_on_self, wp_get. apply wp_bind, wp_lift; [|by intros er _; destruct e1]. intros [msg signer] _.
  destruct e1 as [s b r]. cbn [self out rng] in *.
  apply wp_bind. eapply keeps_wp; [apply keeps_on_out|exact He1| |done]. intros [] e2 He2.
  case_match; [by apply wp_throw|]. apply wp_bind. eapply wp_mono; [by apply check_stage_done| |done].
  intros proceed e3 [-> He3]. by apply wp_ret.
Qed.

Lemma init_second_done e : done_stage (self e) ->
  wp (InitState.every_second (P := P)) (fun _ e => done_stage (self e)) (fun _ _ => False) e.
Proof.
  intros Hd. destruct e as [s b r]. unfold InitState.every_second. apply wp_bind, wp_on_self, wp_get.
  cbn [self out rng] in *. destruct Hd as [Hd|Hd]; rewrite Hd.
  - rewrite decide_True by done. case_decide; apply wp_on_self; unfold wp, modify; [by right|by left].
  - rewrite decide_False by done. rewrite decide_True by done. apply wp_ret. by right.
Qed.

(** ** The crypto of a peer *)

(** Success has been reported: the handshake is over, and keys only rotate with a core. *)
Definition settled i : Prop :=
  (forall st, pc_init i = Some st -> done_stage st) /\ (is_Some (pc_rotation i) -> is_Some (pc_core i)).

(** Success has not been reported yet. *)
Definition fresh i : Prop := pc_core i = None /\ pc_unencrypted i = false /\ pc_rotation i = None.

Lemma wp_in_init {A} (m : ST (Env (InitState P)) Error A) Q X e :
  (forall st, pc_init (self e) = Some st ->
    wp m (fun a e' => Q a (mkEnv (set_init (Some (self e')) (self e)) (out e') (rng e')))
      (fun er e' => X er (mkEnv (set_init (Some (self e')) (self e)) (out e') (rng e'))) (mkEnv st (out e) (rng e))) ->
  (pc_init (self e) = None -> X (InvalidCryptoState "Initialization already finished") e) -> wp (in_init (P := P) m) Q X e.
Proof.
  destruct e as [i b r]. cbn [self out rng]. intros Hs Hn. unfold wp, in_init, get_init. unfold mbind, ST_bind.
  unfold on_self, zoom, get, lift. cbn [self out rng]. destruct (pc_init i) as [st|]; [|by apply Hn].
  specialize (Hs st eq_refl). cbn. unfold on_part, zoom. cbn [self out rng]. unfold wp in Hs. by destruct (m _) as [e' [a|er|]].
Qed.

Lemma wp_in_core {A} (m : ST (Env CryptoCore) Error A) Q X e :
  (forall c, pc_core (self e) = Some c ->
    wp m (fun a e' => Q a (mkEnv (set_core (Some (self e')) (self e)) (out e') (rng e')))
      (fun er e' => X er (mkEnv (set_core (Some (self e')) (self e)) (out e') (rng e'))) (mkEnv c (out e) (rng e))) ->
  (pc_core (self e) = None -> X (InvalidCryptoState "Crypto core not ready yet") e) -> wp (in_core (P := P) m) Q X e.
Proof.
  destruct e as [i b r]. cbn [self out rng]. intros Hs Hn. unfold wp, in_core, get_core. unfold mbind, ST_bind.
  unfold on_self, zoom, get, lift. cbn [self out rng]. destruct (pc_core i) as [c|]; [|by apply Hn].
  specialize (Hs c eq_refl). cbn. unfold on_part, zoom. cbn [self out rng]. unfold wp in Hs. by destruct (m _) as [e' [a|er|]].
Qed.

Lemma wp_in_rotation {A} (m : ST (Env RotationState) Error A) Q X e :
  (forall rot, pc_rotation (self e) = Some rot ->
    wp m (fun a e' => Q a (mkEnv (set_rotation (Some (self e')) (self e)) (out e') (rng e')))
      (fun er e' => X er (mkEnv (set_rotation (Some (self e')) (self e)) (out e') (rng e'))) (mkEnv rot (out e) (rng e))) ->
  (pc_rotation (self e) = None -> X (InvalidCryptoState "Key rotation not initialized") e) -> wp (in_rotation (P := P) m) Q X e.
Proof.
  destruct e as [i b r]. cbn [self out rng]. intros Hs Hn. unfold wp, in_rotation, get_rotation. unfold mbind, ST_bind.
  unfold on_self, zoom, get, lift. cbn [self out rng]. destruct (pc_rotation i) as [c|]; [|by apply Hn].
  specialize (Hs c eq_refl). cbn. unfold on_part, zoom. cbn [self out rng]. unfold wp in Hs. by destruct (m _) as [e' [a|er|]].
Qed.

(** *** A settled connection stays settled *)

Lemma settled_core i c : settled i -> settled (set_core (Some c) i).
Proof. intros [Hi Hr]. split; [exact Hi|]. by eexists. Qed.
Lemma settled_rotation i rot : settled i -> is_Some (pc_rotation i) -> settled (set_rotation (Some rot) i).
Proof. intros [Hi Hr] Hs. split; [exact Hi|]. intros _. by apply Hr. Qed.

Lemma wp_any {S E A} (m : ST S E A) (Q : A -> S -> Prop) X s : (forall a s', Q a s') -> (forall e s', X e s') -> wp m Q X s.
Proof. intros HQ HX. unfold wp. destruct (m s) as [s' [a|er|]]; auto. Qed.

Lemma keeps_in_core {A} (m : ST (Env CryptoCore) Error A) : keeps (of_self settled) (in_core (P := P) m).
Proof. intros e He. apply wp_in_core; [|done]. intros c _. apply wp_any; intros; by apply settled_core. Qed.
Lemma keeps_in_rotation {A} (m : ST (Env RotationState) Error A) : keeps (of_self settled) (in_rotation (P := P) m).
Proof. intros e He. apply wp_in_rotation; [|done]. intros rot Hr. apply wp_any; intros; apply settled_rotation; [done|by eexists|done|by eexists]. Qed.

Lemma keeps_self_get (I : PeerCrypto P -> Prop) {E} : keeps (of_self I) (on_self (get (E := E))).
Proof. apply keeps_on_self, keeps_get. Qed.

Lemma keeps_crypt : keeps (of_self settled) (encrypt_message (P := P)) /\ keeps (of_self settled) (decrypt_message (P := P)).
Proof.
  split; (apply keeps_bind; [apply keeps_self_get|intros s]); (case_match; [apply keeps_ret|apply keeps_in_core]).
Qed.

Lemma keeps_get_core : keeps (of_self settled) (get_core (P := P)).
Proof. apply keeps_bind; [apply keeps_self_get|intros s; apply keeps_lift]. Qed.

Lemma keeps_install rot : keeps (of_self settled) (install_key (P := P) rot).
Proof.
  unfold install_key. apply keeps_bind; [apply keeps_get_core|intros core]. do 3 (apply keeps_bind; [apply keeps_lift|intros ?]). apply keeps_in_core.
Qed.

Lemma keeps_rotate_message data : keeps (of_self settled) (handle_rotate_message (P := P) data).
Proof.
  unfold handle_rotate_message. apply keeps_bind; [apply keeps_self_get|intros s]. case_match; [apply keeps_ret|].
  apply keeps_bind; [apply keeps_in_rotation|intros [rot|]; [apply keeps_install|apply keeps_ret]].
Qed.

Lemma keeps_send_message t : keeps (of_self settled) (send_message (P := P) t).
Proof.
  unfold send_message. apply keeps_bind; [unfold assert; case_match; [apply keeps_ret|apply keeps_panic]|intros _].
  apply keeps_bind; [apply keeps_on_out|intros _; apply keeps_crypt].
Qed.

(** No init message is reported as success a second time. *)
Definition not_initialized (r : MessageResult P) : Prop :=
  match r with Initialized _ | InitializedWithReply _ => False | _ => True end.

Lemma settled_message e : settled (self e) ->
  wp (handle_message (P := P)) (fun r e => not_initialized r /\ settled (self e)) (fun _ e => settled (self e)) e.
Proof.
  intros Hs. unfold handle_message. apply wp_bind. eapply keeps_wp; [apply keeps_on_out|exact Hs| |done]. intros empty e1 He1.
  case_match; [by apply wp_throw|].
  apply wp_bind. eapply keeps_wp; [apply keeps_on_out|exact He1| |done]. intros buf e2 He2. case_match.
  - apply wp_bind. eapply keeps_wp; [apply keeps_on_out|exact He2| |done]. intros x e3 He3.
    unfold handle_init_message. apply wp_bind, wp_in_init; [|done]. intros st Hst. destruct He3 as [Hi Hr].
    eapply wp_mono; [apply handle_init_done; by apply Hi| |].
    + intros r e4 [-> He4]. apply wp_bind. eapply keeps_wp with (I := of_self settled).
      * unfold prepend_unless_empty. apply keeps_bind; [apply keeps_on_out|intros []; [apply keeps_ret|apply keeps_on_out]].
      * split; [|exact Hr]. by intros ? [= <-].
      * intros [] e5 He5. by apply wp_ret.
      * done.
    + intros er e4 He4. split; [|exact Hr]. by intros ? [= <-].
  - apply wp_bind. eapply keeps_wp; [apply keeps_crypt|exact He2| |done]. intros x e3 He3.
    apply wp_bind. eapply keeps_wp; [apply keeps_on_out|exact He3| |done]. intros t e4 He4. case_decide; [|by apply wp_ret].
    apply wp_bind. eapply keeps_wp; [apply keeps_on_out|exact He4| |done]. intros buf' e5 He5.
    apply wp_bind. eapply keeps_wp; [apply keeps_rotate_message|exact He5| |done]. intros y e6 He6.
    apply wp_bind. eapply keeps_wp; [apply keeps_on_out|exact He6| |done]. intros z e7 He7. by apply wp_ret.
Qed.

(** *** No call on a settled connection fails on its own account *)

Lemma no_err_slice {S E} a b (l : bytes) : no_err (lift (S := S) (slice (E := E) a b l)).
Proof. apply no_err_lift. intros e. unfold slice. by case_decide. Qed.
Lemma no_err_index {S E X} (l : list X) n : no_err (lift (S := S) (index (E := E) l n)).
Proof. apply no_err_lift. intros e. unfold index. case_decide; [|done]. by destruct (l !! _). Qed.
Lemma no_err_unbound {S E} algo bs : no_err (lift (S := S) (unbound_key (E := E) algo bs)).
Proof. apply no_err_lift. intros e. unfold unbound_key. by case_decide. Qed.
Lemma no_err_algorithm {S E} c : no_err (lift (S := S) (CryptoCore.algorithm (E := E) c)).
Proof.
  apply no_err_lift. intros e. unfold CryptoCore.algorithm, index. case_decide; [|done]. by destruct (keys c !! _).
Qed.
#[local] Hint Resolve no_err_slice no_err_index no_err_unbound no_err_algorithm : no_err.

Lemma no_err_encrypt {E} : no_err (CryptoCore.encrypt (E := E)).
Proof. unfold CryptoCore.encrypt. no_err. Qed.

Lemma no_err_key {E} key half : no_err (CryptoKey.new (E := E) key half).
Proof. unfold CryptoKey.new, Nonce.random, random_data. no_err. Qed.

Lemma no_err_rotate_key {E} key id use : no_err (CryptoCore.rotate_key (E := E) key id use).
Proof. unfold CryptoCore.rotate_key. pose proof (no_err_key (E := E) key). no_err. Qed.

Lemma no_err_send {E} m : no_err (RotationState.send (E := E) m).
Proof. unfold RotationState.send. no_err. Qed.
Lemma no_err_create_key {E} : no_err (RotationState.create_key (E := E)).
Proof. intros r. unfold wp, RotationState.create_key. by destruct (ecdh_generate r). Qed.
#[local] Hint Resolve no_err_encrypt no_err_rotate_key no_err_send no_err_create_key : no_err.

Lemma no_err_cycle {E} : no_err (RotationState.cycle (E := E)).
Proof. unfold RotationState.cycle. no_err. Qed.
Lemma no_err_new {E X} b : no_err (RotationState.new (E := E) (A := X) b).
Proof. unfold RotationState.new. no_err. Qed.

(** A settled connection with a rotation: nothing in the way of its keys. *)
Definition armed i : Prop := settled i /\ is_Some (pc_rotation i) /\ is_Some (pc_core i).

Definition no_failure {A} (I : PeerCrypto P -> Prop) (m : ST (Env (PeerCrypto P)) Error A) : Prop :=
  forall e, I (self e) -> wp m (fun _ e => I (self e)) (fun _ _ => False) e.

Lemma no_failure_bind {A B} I (m : ST (Env (PeerCrypto P)) Error A) (f : A -> ST (Env (PeerCrypto P)) Error B) :
  no_failure I m -> (forall a, no_failure I (f a)) -> no_failure I (m ≫= f).
Proof. intros Hm Hf e He. apply wp_bind. eapply wp_mono; [by apply Hm| |done]. intros a e'. apply Hf. Qed.
Lemma no_failure_ret {A} I (a : A) : no_failure I (mret a).
Proof. by intros e He. Qed.
Lemma no_failure_out {A} I (m : ST MsgBuffer Error A) : no_err m -> no_failure I (on_out m).
Proof. intros Hm e He. apply wp_on_out. eapply wp_mono; [by apply Hm|done|done]. Qed.
Lemma no_failure_lift {A} I (o : outcome Error A) : (forall e, o <> Err e) -> no_failure I (lift o).
Proof. intros Ho e He. apply wp_lift; [done|]. intros er Her. by destruct (Ho er). Qed.
Lemma no_failure_self I f : (forall i, I i -> I (f i)) -> no_failure I (on_self (modify f)).
Proof. intros Hf e He. apply wp_on_self. by apply Hf. Qed.
Lemma no_failure_get I : no_failure I (on_self get).
Proof. by intros e He. Qed.

Lemma armed_core i c : armed i -> armed (set_core (Some c) i).
Proof. intros (Hs & Hr & Hc). split; [by apply settled_core|]. split; [exact Hr|by eexists]. Qed.
Lemma armed_rotation i r : armed i -> armed (set_rotation (Some r) i).
Proof. intros (Hs & Hr & Hc). split; [by apply settled_rotation|]. split; [by eexists|exact Hc]. Qed.

Lemma armed_in_core {A} (m : ST (Env CryptoCore) Error A) : no_err m -> no_failure armed (in_core (P := P) m).
Proof.
  intros Hm e He. apply wp_in_core.
  - intros c _. eapply wp_mono; [apply Hm| |done]. intros a e' _. by apply armed_core.
  - intros Hn. destruct He as (_ & _ & [c Hc]). congruence.
Qed.
Lemma armed_in_rotation {A} (m : ST (Env RotationState) Error A) : no_err m -> no_failure armed (in_rotation (P := P) m).
Proof.
  intros Hm e He. apply wp_in_rotation.
  - intros c _. eapply wp_mono; [apply Hm| |done]. intros a e' _. by apply armed_rotation.
  - intros Hn. destruct He as (_ & [c Hc] & _). congruence.
Qed.
Lemma armed_get_core : no_failure armed (get_core (P := P)).
Proof.
  intros e (Hs & Hr & [c Hc]). unfold get_core. apply wp_bind, wp_on_self, wp_get. destruct e as [i b r]. cbn [self out rng] in *.
  rewrite Hc. by apply wp_lift; [intros ? _; split; [done|split; [done|by eexists]]|].
Qed.

Lemma armed_encrypt : no_failure armed (encrypt_message (P := P)).
Proof.
  unfold encrypt_message. apply no_failure_bind; [apply no_failure_get|intros s]. case_match; [apply no_failure_ret|].
  apply armed_in_core, no_err_encrypt.
Qed.
Lemma armed_install rot : no_failure armed (install_key (P := P) rot).
Proof.
  unfold install_key. apply no_failure_bind; [apply armed_get_core|intros core].
  apply no_failure_bind; [apply no_failure_lift; intros e; unfold CryptoCore.algorithm, index; case_decide; [by destruct (keys core !! _)|done]|intros algo].
  apply no_failure_bind; [apply no_failure_lift; intros e; unfold slice; by case_decide|intros k].
  apply no_failure_bind; [apply no_failure_lift; intros e; unfold unbound_key; by case_decide|intros key].
  apply armed_in_core, no_err_rotate_key.
Qed.

Lemma armed_rotate : no_failure armed (rotate_every_second (P := P)).
Proof.
  unfold rotate_every_second. apply no_failure_bind; [apply no_failure_get|intros s]. case_match; [|apply no_failure_ret].
  apply no_failure_bind; [by apply no_failure_self|intros _]. apply no_failure_bind; [apply no_failure_get|intros s'].
  case_decide; [|apply no_failure_ret]. apply no_failure_bind; [by apply no_failure_self|intros _].
  apply no_failure_bind; [apply armed_in_rotation, no_err_cycle|intros rot].
  apply no_failure_bind; [destruct rot; [apply armed_install|apply no_failure_ret]|intros _].
  apply no_failure_bind; [apply no_failure_out, no_err_gets|intros []]; [apply no_failure_ret|].
  apply no_failure_bind; [apply no_failure_out, no_err_prepend_byte|intros _].
  apply no_failure_bind; [apply armed_encrypt|intros _; apply no_failure_ret].
Qed.

Lemma settled_second e : settled (self e) ->
  wp (every_second (P := P)) (fun _ e => settled (self e)) (fun _ _ => False) e.
Proof.
  intros Hs. unfold every_second.
  apply wp_bind. eapply wp_mono; [apply (no_failure_out settled); [apply no_err_modify|exact Hs]| |done]. intros x e1 He1.
  apply wp_bind, wp_on_self, wp_get. destruct e1 as [i b r]. cbn [self out rng] in *.
  assert (wp (match pc_core i with
              | Some core => on_self (modify (set_core (Some (CryptoCore.every_second core))))
              | None => mret ()
              end) (fun _ e => settled (self e) /\ pc_init (self e) = pc_init i) (fun (_ : Error) _ => False) (mkEnv i b r)) as Hcore.
  { destruct (pc_core i); [|by apply wp_ret]. apply wp_on_self. split; [by apply settled_core|done]. }
  apply wp_bind. eapply wp_mono; [exact Hcore| |done]. intros y e2 [He2 Hi2].
  assert (wp (match pc_init i with Some _ => in_init InitState.every_second | None => mret () end)
    (fun _ e => settled (self e)) (fun _ _ => False) e2) as Hinit.
  { destruct (pc_init i) eqn:Hi; [|by apply wp_ret]. destruct He2 as [Hs2 Hr2]. apply wp_in_init; [|congruence]. intros st Hst.
    eapply wp_mono; [apply init_second_done; by apply Hs2| |done]. intros z e3 He3. split; [|exact Hr2]. by intros ? [= <-]. }
  apply wp_bind. eapply wp_mono; [exact Hinit| |done]. intros z e3 He3.
  apply (no_failure_bind settled); [apply no_failure_get|intros s|exact He3].
  apply no_failure_bind; [|intros _].
  { case_decide; [|apply no_failure_ret]. apply no_failure_self. intros j [_ Hj]. by split. }
  apply no_failure_bind; [apply no_failure_out, no_err_gets|intros []].
  2: { apply no_failure_bind; [apply no_failure_out, no_err_prepend_byte|intros _; apply no_failure_ret]. }
  intros e4 He4. destruct (pc_rotation (self e4)) as [rot|] eqn:Hrot.
  - eapply wp_mono; [apply armed_rotate|by intros a e5 (Hs5 & _)|done]. split; [done|]. split; [by eexists|]. apply He4. by eexists.
  - unfold rotate_every_second. destruct e4 as [j b4 r4]. cbn [self] in *. apply wp_bind, wp_on_self, wp_get. cbn [self out rng]. rewrite Hrot. by apply wp_ret.
Qed.

(** ** A connection under way *)

Lemma fresh_init st i : fresh i -> fresh (set_init st i).
Proof. done. Qed.

(** Its timer keeps it under way, also when it gives up. *)
Lemma fresh_second e : fresh (self e) -> wp (every_second (P := P)) (fun _ e => fresh (self e)) (fun _ e => fresh (self e)) e.
Proof.
  intros Hf. unfold every_second. apply wp_bind. eapply keeps_wp; [apply keeps_on_out|exact Hf| |done]. intros x e1 He1.
  apply wp_bind, wp_on_self, wp_get. destruct e1 as [i b r]. cbn [self out rng] in *. destruct He1 as (Hc & Hu & Hr). cbn [self] in *. rewrite Hc.
  apply wp_bind, wp_ret.
  assert (wp (match pc_init i with Some _ => in_init InitState.every_second | None => mret () end)
    (fun _ e => fresh (self e)) (fun _ e => fresh (self e)) (mkEnv i b r)) as Hinit.
  { destruct (pc_init i); [|by apply wp_ret]. apply wp_in_init; [|done]. intros st _. by apply wp_any. }
  apply wp_bind. eapply wp_mono; [exact Hinit| |done]. intros y e2 He2.
  assert (forall f, (forall i, fresh i -> fresh (f i)) -> keeps (of_self fresh) (on_self (modify (E := Error) f))) as Hself.
  { intros f Hff. by apply keeps_on_self, keeps_modify. }
  eapply keeps_wp with (I := of_self fresh); [|exact He2|done|done].
  apply keeps_bind; [apply keeps_self_get|intros s]. apply keeps_bind; [case_decide; [by apply Hself|apply keeps_ret]|intros _].
  apply keeps_bind; [apply keeps_on_out|intros []]; [|apply keeps_bind; [apply keeps_on_out|intros _; apply keeps_ret]].
  unfold rotate_every_second. intros [j b4 r4] (Hc4 & Hu4 & Hr4). cbn [self] in *.
  apply wp_bind, wp_on_self, wp_get. cbn [self out rng]. rewrite Hr4. by apply wp_ret.
Qed.

(** A message either leaves it under way, or is the one that settles it; it never
    carries anything for the node. *)
Definition after_message (r : MessageResult P) i : Prop :=
  match r with
  | Message _ => False
  | Initialized _ | InitializedWithReply _ => settled i
  | Reply | NoResult => fresh i
  end.

(** On the way from the success to the answer, with the core that was taken. *)
Definition settling (core : option CryptoCore) i : Prop :=
  (forall st, pc_init i = Some st -> done_stage st) /\ (is_Some core -> is_Some (pc_core i)) /\
  (pc_unencrypted i = false -> is_Some core) /\ (is_Some (pc_rotation i) -> is_Some core).

Lemma settling_settled core i : settling core i -> settled i.
Proof. intros (Hi & Hc & _ & Hr). split; [exact Hi|]. intros Hrot. by apply Hc, Hr. Qed.

Lemma settling_encrypt core : no_failure (settling core) (encrypt_message (P := P)).
Proof.
  intros e He. unfold encrypt_message. apply wp_bind, wp_on_self, wp_get. destruct e as [i b r]. cbn [self out rng] in *.
  destruct (pc_unencrypted i) eqn:Hu; [by apply wp_ret|]. destruct He as (Hi & Hc & Hn & Hr). apply wp_in_core.
  - intros c _. eapply wp_mono; [apply no_err_encrypt| |done]. intros x e' _. split; [exact Hi|]. split; [by eexists|]. by split.
  - intros Hnone. cbn [self] in Hnone. destruct (Hc (Hn Hu)) as [c Hcc]. congruence.
Qed.

Lemma no_failure_of {A} I (m : ST (Env (PeerCrypto P)) Error A) : keeps (of_self I) m -> no_err m -> no_failure I m.
Proof.
  intros Hk Hn e He. specialize (Hk e He). specialize (Hn e). unfold wp in *. destruct (m e) as [e' [a|er|]]; done.
Qed.

Lemma keeps_new_rotation I b : keeps (of_self I) (RotationState.new (A := PeerCrypto P) (E := Error) b).
Proof.
  unfold RotationState.new. destruct b; [|apply keeps_ret]. apply keeps_bind; [apply keeps_on_rng|intros [k p]].
  apply keeps_bind; [apply keeps_on_out|intros _; apply keeps_ret].
Qed.

(** What is left of [handle_init_message] then. *)
Lemma settling_rest core (initiator : bool) (p : P) :
  no_failure (settling core)
    ((match core with
      | Some _ =>
          rotation ← RotationState.new (negb initiator);
          on_self (modify (set_rotation (Some rotation)))
      | None => mret ()
      end) ;;
      if initiator then mret (InitializedWithReply p)
      else
        s ← on_self (A := PeerCrypto P) get;
        if pc_unencrypted s then mret (Initialized p)
        else
          empty ← on_out (gets MsgBuffer.is_empty);
          assert (negb empty) ;;
          on_out (MsgBuffer.prepend_byte MESSAGE_TYPE_ROTATION) ;;
          encrypt_message ;;
          mret (InitializedWithReply p)).
Proof.
  apply no_failure_bind; [|intros _].
  - destruct core as [core|]; [|apply no_failure_ret]. apply no_failure_bind; [apply no_failure_of; [apply keeps_new_rotation|apply no_err_new]|].
    intros rot. apply no_failure_self. intros i (Hi & Hc & Hn & Hr). split; [exact Hi|]. split; [exact Hc|]. split; [exact Hn|by eexists].
  - destruct initiator; [apply no_failure_ret|]. apply no_failure_bind; [apply no_failure_get|intros s]. case_match; [apply no_failure_ret|].
    apply no_failure_bind; [apply no_failure_out, no_err_gets|intros empty].
    apply no_failure_bind; [apply no_failure_of; [unfold assert; case_match; [apply keeps_ret|apply keeps_panic]|apply no_err_assert]|intros _].
    apply no_failure_bind; [apply no_failure_out, no_err_prepend_byte|intros _].
    apply no_failure_bind; [apply settling_encrypt|intros _; apply no_failure_ret].
Qed.

(** And what it answers. *)
Lemma rest_result (core : option CryptoCore) (initiator : bool) (p : P) (e : Env (PeerCrypto P)) :
  wp ((match core with
      | Some _ =>
          rotation ← RotationState.new (negb initiator);
          on_self (modify (set_rotation (Some rotation)))
      | None => mret ()
      end) ;;
      if initiator then mret (InitializedWithReply p)
      else
        s ← on_self (A := PeerCrypto P) get;
        if pc_unencrypted s then mret (Initialized p)
        else
          empty ← on_out (gets MsgBuffer.is_empty);
          assert (negb empty) ;;
          on_out (MsgBuffer.prepend_byte MESSAGE_TYPE_ROTATION) ;;
          encrypt_message ;;
          mret (InitializedWithReply p)) (fun r _ => r = Initialized p \/ r = InitializedWithReply p) (fun (_ : Error) _ => True) e.
Proof.
  apply wp_skip; [|done]. intros _ e1. destruct initiator; [apply wp_ret; by right|]. apply wp_skip; [|done]. intros s e2.
  case_match; [apply wp_ret; by left|]. do 4 (apply wp_skip; [|done]; intros ? ?). apply wp_ret. by right.
Qed.

Lemma fresh_init_message e : fresh (self e) ->
  wp (handle_init_message (P := P)) (fun r e => after_message r (self e)) (fun _ e => fresh (self e)) e.
Proof.
  intros Hf. unfold handle_init_message. apply wp_bind, wp_in_init; [|done]. intros st Hst.
  eapply wp_mono; [apply handle_init_success| |intros; exact Hf]. intros res e1 Hres. set (i1 := set_init (Some (self e1)) (self e)).
  apply wp_bind. eapply keeps_wp with (I := of_self (fun j => j = i1)).
  { unfold prepend_unless_empty. apply keeps_bind; [apply keeps_on_out|intros []; [apply keeps_ret|apply keeps_on_out]]. }
  { done. } 2: { intros er e2 ->. exact Hf. }
  intros x [j b2 r2] Hj. unfold of_self in Hj. cbn [self] in Hj. subst j. destruct res as [|p initiator]; [apply wp_ret; exact Hf|].
  apply wp_bind, wp_in_init; [|done]. intros st2 Hst2. cbn [self out rng pc_init set_init i1] in Hst2. injection Hst2 as <-.
  apply wp_on_self. unfold wp at 1, InitState.take_core. cbn [self out rng]. set (core := is_crypto (self e1)).
  apply wp_bind, wp_on_self. unfold wp at 1, modify. cbn [self out rng].
  set (i3 := set_core core (set_init (Some (InitState.set_crypto None (self e1))) i1)).
  assert (wp (match core with None => on_self (modify (E := Error) (set_unencrypted (P := P) true)) | Some _ => mret () end)
    (fun _ e => settling core (self e) /\ is_Some (pc_init (self e))) (fun (_ : Error) _ => False) (mkEnv i3 b2 r2)) as Hun.
  { destruct Hf as (Hc & Hu & Hr). destruct core as [cc|] eqn:Hcore.
    - apply wp_ret. split; [|by eexists]. split; [by intros ? [= <-]|]. split; [by eexists|]. split; [by eexists|].
      unfold i3, i1. cbn. rewrite Hr. by intros [? [=]].
    - apply wp_on_self. split; [|by eexists]. split; [by intros ? [= <-]|]. split; [by intros [? [=]]|]. split; [done|].
      unfold i3, i1. cbn. by rewrite Hr. }
  apply wp_bind. eapply wp_mono; [exact Hun| |done]. intros y [i4 b4 r4] [Hs4 [st4 Hst4]]. cbn [self] in *.
  apply wp_bind. unfold get_init. apply wp_bind, wp_on_self, wp_get. cbn [self out rng]. rewrite Hst4.
  apply wp_lift; [|done]. intros init [= <-].
  apply wp_bind. apply wp_mono with (Q := fun _ e => settling core (self e)) (X := fun _ _ => False); [| |done].
  { case_decide; [|by apply wp_ret]. apply wp_on_self. destruct Hs4 as (_ & Hc4). split; [by intros ? [=]|exact Hc4]. }
  intros z e5 He5. eapply wp_mono; [apply wp_and; [apply (settling_rest core initiator p), He5|apply (rest_result core initiator p)]| |by intros er e6 [[] _]].
  intros r e6 [He6 [-> | ->]]; by apply (settling_settled core).
Qed.

Lemma fresh_message e : fresh (self e) ->
  wp (handle_message (P := P)) (fun r e => after_message r (self e)) (fun _ e => fresh (self e)) e.
Proof.
  intros Hf. unfold handle_message. apply wp_bind. eapply keeps_wp; [apply keeps_on_out|exact Hf| |done]. intros empty e1 He1.
  case_match; [by apply wp_throw|].
  apply wp_bind. eapply keeps_wp; [apply keeps_on_out|exact He1| |done]. intros buf e2 He2. case_match.
  - apply wp_bind. eapply keeps_wp; [apply keeps_on_out|exact He2| |done]. intros x e3 He3. by apply fresh_init_message.
  - apply wp_bind. unfold decrypt_message. apply wp_bind, wp_on_self, wp_get. destruct e2 as [i b r]. destruct He2 as (Hc & Hu & Hr).
    cbn [self out rng] in *. rewrite Hu. apply wp_in_core; [|done]. cbn [self]. congruence.
Qed.

Lemma fresh_new {E} node_id payload key_pair trusted algorithms r :
  match new (P := P) (E := E) node_id payload key_pair trusted algorithms r with (_, Ok i) => fresh i | _ => True end.
Proof. unfold new. unfold mbind, ST_bind. by destruct (InitState.new _ _ _ _ _ r) as [r' [i|e|]]. Qed.

Lemma fresh_initialize : keeps (of_self fresh) (initialize (P := P)).
Proof.
  unfold initialize, get_init. apply keeps_bind; [apply keeps_bind; [apply keeps_self_get|intros s; apply keeps_lift]|intros init].
  case_decide; [apply keeps_throw|]. apply keeps_bind; [|intros _; apply keeps_on_out].
  intros e He. apply wp_in_init; [|done]. intros st _. by apply wp_any.
Qed.

End Stages.
