(* ===== verification/Routing.v ===== *)
(** * Peers, handshakes and routes (src/src/cloud.rs)

    An invariant of the whole node over every operation of it: what waits in
    [pending_inits] is a handshake under way, what is in [peers] has finished one,
    and the table routes to connected peers only. *)

From S2P Require Import Prelude Errors Util Types Table Traffic Payload Messages Device Net Forwarding.
From S2P Require Import Ring Core Rotate Init Handshake Peer Beacon Configuration Cloud.
From S2P Require Import Triples Stages Delivery.

Import GenericCloud.

(** ** The peers a table routes to *)

Definition routed (ok : SocketAddr -> Prop) (t : ClaimTable) : Prop :=
  (forall e, e ∈ ct_claims t -> ok (ce_peer e)) /\ (forall k v, ct_cache t !! k = Some v -> ok (cv_peer v)).

Section Routed.
Implicit Types (ok : SocketAddr -> Prop) (t : ClaimTable).

Lemma routed_mono ok ok' t : (forall a, ok a -> ok' a) -> routed ok t -> routed ok' t.
Proof. intros Hok [He Hc]. split; eauto. Qed.

Lemma routed_housekeep ok now t : routed ok t -> routed ok (ClaimTable.housekeep now t).
Proof.
  intros [He Hc]. split; [intros e [? _]%claim_in_housekeep; auto|].
  intros k v [? _]%cache_in_housekeep. eauto.
Qed.

Lemma routed_cache ok now addr peer t : ok peer -> routed ok t -> routed ok (ClaimTable.cache now addr peer t).
Proof.
  intros Hp [He Hc]. split; [exact He|]. intros k v. cbn. rewrite lookup_insert_Some.
  intros [[_ <-]|[_ Hk]]; [done|by eapply Hc].
Qed.

Lemma routed_found ok now addr t t' peer : routed ok t -> ClaimTable.lookup now addr t = (t', Some peer) -> ok peer /\ routed ok t'.
Proof.
  intros [He Hc]. unfold ClaimTable.lookup. destruct (ct_cache t !! _) as [v|] eqn:Hv; [intros [= <- <-]; split; [by eapply Hc|done]|].
  pose proof (lookup_loop_spec addr (ct_claims t) None (-1)) as Hl.
  destruct (ClaimTable.lookup_loop addr (ct_claims t) None (-1)) as [e|]; [|done]. intros [= <- <-].
  destruct Hl as [[? _]|(pre & e0 & suf & [= ->] & Hsplit & _)]; [done|].
  assert (ok (ce_peer e0)) as Hok by (apply He; rewrite Hsplit; apply elem_of_app; right; by left).
  split; [done|]. split; [exact He|]. intros k v. cbn. rewrite lookup_insert_Some.
  intros [[_ <-]|[_ Hk]]; [done|by eapply Hc].
Qed.

Lemma routed_lookup ok now addr t : routed ok t -> routed ok (ClaimTable.lookup now addr t).1.
Proof.
  intros Ht. destruct (ClaimTable.lookup now addr t) as [t' [peer|]] eqn:Hl; [by apply (routed_found ok _ _ _ _ _ Ht) in Hl as [_ ?]|].
  unfold ClaimTable.lookup in Hl. destruct (ct_cache t !! _); [done|]. destruct (ClaimTable.lookup_loop _ _ _ _); [done|]. by injection Hl as <-.
Qed.

Lemma routed_zero_cache ok peer c :
  (forall k v, c !! k = Some v -> ok (cv_peer v)) -> forall k v, ClaimTable.zero_cache peer c !! k = Some v -> ok (cv_peer v).
Proof. intros Hc k v (v0 & Hv & ->)%cache_in_zero. case_decide; cbn; by eapply Hc. Qed.

Lemma routed_set_claims ok now peer cl t : ok peer -> routed ok t -> routed ok (ClaimTable.set_claims now peer cl t).
Proof.
  intros Hp [He Hc]. unfold ClaimTable.set_claims. destruct (ClaimTable.refresh_loop _ _ _ _) as [es rest] eqn:Hes. apply routed_housekeep.
  split; cbn; [|by apply routed_zero_cache].
  intros e [He'|(r & -> & _)%list_elem_of_fmap]%elem_of_app; [|done].
  destruct (refresh_loop_origin (now + claim_timeout t) peer cl (ct_claims t) e) as (e0 & Hin & -> & _); [by rewrite Hes|auto].
Qed.

(** Nothing is left of a peer that was removed. *)
Lemma routed_remove_claims ok now peer t : 0 < now ->
  routed ok t -> routed (fun a => ok a /\ a <> peer) (ClaimTable.remove_claims now peer t).
Proof.
  intros Hnow [He Hc]. unfold ClaimTable.remove_claims. split.
  - intros e [(e0 & -> & Hin)%list_elem_of_fmap Ht]%claim_in_housekeep. case_decide; cbn in *; [lia|]. auto.
  - intros k v [(v0 & Hv & ->)%cache_in_zero Ht]%cache_in_housekeep. case_decide; cbn in *; [lia|]. split; [by eapply Hc|done].
Qed.

End Routed.

(** ** The invariant *)

Section Sound.
Context `{Ring} {D S W G P : Type}.
Context `{Device D} `{Socket S} `{System W} `{Gateway G} `{SocketParsers} `{Protocol P}.

Abbreviation Node := (GenericCloud D S W G).
Abbreviation CM := (ST (Env Node) Error).
Implicit Types (c : Node) (addr src : SocketAddr).

Definition staged c : Prop :=
  (forall a i, pending_inits c !! a = Some i -> fresh i) /\ (forall a p, peers c !! a = Some p -> settled (pd_crypto p)).
Definition connected c (a : SocketAddr) : Prop := is_Some (peers c !! a).
Definition routes c : Prop := routed (connected c) (table c).

(** No peer has a second handshake under way. *)
Definition disjoint c : Prop := forall a, is_Some (pending_inits c !! a) -> peers c !! a = None.

(** The routes are only claimed under [guard]. *)
Variable guard : Prop.
Definition sound c : Prop := staged c /\ (guard -> routes c).

Definition K {A E} (m : ST (Env Node) E A) : Prop := keeps (of_self sound) m.

(** *** Operations that leave peers, handshakes and table alone *)

Definition same c c' : Prop := peers c' = peers c /\ pending_inits c' = pending_inits c /\ table c' = table c.

Lemma same_sound c c' : same c c' -> sound c -> sound c'.
Proof. unfold sound, staged, routes, connected. intros (-> & -> & ->). done. Qed.

Definition quiet {A E} (m : ST (Env Node) E A) : Prop :=
  forall e, wp m (fun _ e' => same (self e) (self e')) (fun _ e' => same (self e) (self e')) e.

Lemma same_refl c : same c c.
Proof. done. Qed.
Lemma same_trans c1 c2 c3 : same c1 c2 -> same c2 c3 -> same c1 c3.
Proof. unfold same. intros (-> & -> & ->) (-> & -> & ->). done. Qed.

Lemma quiet_bind {A B E} (m : ST (Env Node) E A) (f : A -> ST (Env Node) E B) : quiet m -> (forall a, quiet (f a)) -> quiet (m ≫= f).
Proof.
  intros Hm Hf e. apply wp_bind. eapply wp_mono; [apply Hm| |done]. intros a e1 He1.
  eapply wp_mono; [apply Hf| |]; intros ? e2 He2; exact (same_trans _ _ _ He1 He2).
Qed.
Lemma quiet_ret {A E} (a : A) : quiet (E := E) (mret a).
Proof. by intros e. Qed.
Lemma quiet_throw {A E} (er : E) : quiet (throw (A := A) er).
Proof. by intros e. Qed.
Lemma quiet_panic {A E} : quiet (panic (E := E) (A := A)).
Proof. by intros e. Qed.
Lemma quiet_lift {A E} (o : outcome E A) : quiet (lift o).
Proof. intros e. by destruct o. Qed.
Lemma quiet_catch {A E F} (m : ST (Env Node) E A) : quiet m -> quiet (E := F) (catch m).
Proof. intros Hm e. apply wp_catch. eapply wp_mono; [apply Hm|done..]. Qed.
Lemma quiet_out {A E} (m : ST MsgBuffer E A) : quiet (on_out m).
Proof. intros e. apply wp_on_out. unfold wp. by destruct (m (out e)) as [? []]. Qed.
Lemma quiet_rng {A E} (m : ST Rng E A) : quiet (on_rng m).
Proof. intros e. apply wp_on_rng. unfold wp. by destruct (m (rng e)) as [? []]. Qed.
Lemma quiet_gets {A E} (f : Node -> A) : quiet (on_self (gets (E := E) f)).
Proof. by intros e. Qed.
Lemma quiet_get {E} : quiet (on_self (get (E := E))).
Proof. by intros e. Qed.
Lemma quiet_modify {E} f : (forall c, same c (f c)) -> quiet (on_self (modify (E := E) f)).
Proof. intros Hf e. apply Hf. Qed.
Lemma quiet_zoom {T A E} (prj : Node -> T) upd (m : ST T E A) : (forall x c, same c (upd x c)) -> quiet (on_self (zoom prj upd m)).
Proof. intros Hu e. apply wp_on_self, wp_zoom. unfold wp. destruct (m _) as [? []]; [apply Hu|apply Hu|done]. Qed.
Lemma quiet_with_err {A E F} (f : E -> F) (m : ST (Env Node) E A) : quiet m -> quiet (with_err f m).
Proof. intros Hm e. specialize (Hm e). unfold wp, with_err in *. by destruct (m e) as [? []]. Qed.
Lemma quiet_for_each {A E} (f : A -> ST (Env Node) E unit) l : (forall a, quiet (f a)) -> quiet (for_each f l).
Proof. intros Hf. induction l; [apply quiet_ret|]. by apply quiet_bind. Qed.
Lemma quiet_K {A E} (m : ST (Env Node) E A) : quiet m -> K m.
Proof. intros Hm e He. eapply wp_mono; [apply Hm| |]; intros ? e2 He2; exact (same_sound _ _ He2 He). Qed.

End Sound.

Create HintDb quiet.
#[export] Hint Resolve quiet_bind quiet_ret quiet_throw quiet_panic quiet_lift quiet_catch quiet_out quiet_rng quiet_gets quiet_get
  quiet_with_err quiet_for_each : quiet.

(** Follows the structure of a computation that does not touch them. *)
Ltac quiet := repeat first
  [ progress (intros; eauto 2 with quiet; fail)
  | apply quiet_modify; intros ?; by repeat case_match
  | apply quiet_zoom; intros ? ?; done
  | apply quiet_with_err | apply quiet_catch | apply quiet_for_each; intros ?
  | apply quiet_bind; [|intros ?]
  | progress case_match ].

Section Operations.
Context `{Ring} {D S W G P : Type}.
Context `{Device D} `{Socket S} `{System W} `{Gateway G} `{SocketParsers} `{Protocol P}.
Variable guard : Prop.

Abbreviation Node := (GenericCloud D S W G).
Abbreviation CM := (ST (Env Node) Error).
Abbreviation sound := (sound (D := D) (S := S) (W := W) (G := G) guard).
Abbreviation K := (K (D := D) (S := S) (W := W) (G := G) guard).
Implicit Types (c : Node) (addr src : SocketAddr).

Lemma quiet_field {A} (f : Node -> A) : quiet (field f).
Proof. apply quiet_gets. Qed.
Lemma quiet_update f : (forall c, same c (f c)) -> quiet (update f).
Proof. apply quiet_modify. Qed.
Lemma quiet_traffic f : quiet (on_traffic (D := D) (S := S) (W := W) (G := G) f).
Proof. by apply quiet_modify. Qed.
Lemma quiet_outside {A E} (m : ST W E A) : quiet (on_outside (D := D) (S := S) (G := G) m).
Proof. by apply quiet_zoom. Qed.
Lemma quiet_len : quiet (msg_len (D := D) (S := S) (W := W) (G := G)).
Proof. apply quiet_out. Qed.
Lemma quiet_bytes : quiet (msg_bytes (D := D) (S := S) (W := W) (G := G)).
Proof. apply quiet_out. Qed.
Lemma quiet_hook ev envs : quiet (call_hook (D := D) (S := S) (G := G) ev envs).
Proof. apply quiet_update. intros c. by case_match. Qed.
Lemma quiet_on_device {A} (m : ST (D * MsgBuffer) Error A) : quiet (on_device (S := S) (W := W) (G := G) m).
Proof. intros e. unfold wp, on_device. by destruct (m _) as [[? ?] []]. Qed.
Lemma quiet_on_socket {A} (m : ST (S * MsgBuffer) ErrorKind A) : quiet (on_socket (D := D) (W := W) (G := G) m).
Proof. intros e. unfold wp, on_socket. by destruct (m _) as [[? ?] []]. Qed.
Lemma quiet_or_fail {E F A} (m : ST (Env Node) E A) : quiet m -> quiet (or_fail (F := F) m).
Proof. intros Hm e. specialize (Hm e). unfold wp, or_fail in *. by destruct (m e) as [? []]. Qed.
Lemma quiet_ignore {A} (m : CM A) : quiet m -> quiet (ignore_err m).
Proof. intros Hm. apply quiet_bind; [by apply quiet_catch|intros _; apply quiet_ret]. Qed.

#[local] Hint Resolve quiet_field quiet_traffic quiet_outside quiet_len quiet_bytes quiet_hook quiet_on_device quiet_on_socket : quiet.

Lemma quiet_send_datagram now data addr : quiet (send_datagram (D := D) (W := W) (G := G) now data addr).
Proof. unfold send_datagram. apply quiet_bind; [by apply quiet_catch, quiet_zoom|]. intros [n|er|]; quiet. Qed.
#[local] Hint Resolve quiet_send_datagram : quiet.
Lemma quiet_send_to now addr : quiet (send_to (D := D) (W := W) (G := G) now addr).
Proof. unfold send_to. quiet. Qed.
Lemma quiet_invalid : quiet (count_invalid (D := D) (S := S) (W := W) (G := G)).
Proof. unfold count_invalid. quiet. Qed.
Lemma quiet_info : quiet (create_node_info (D := D) (S := S) (G := G)).
Proof. unfold create_node_info. quiet. Qed.
#[local] Hint Resolve quiet_send_to quiet_invalid quiet_info : quiet.

Lemma quiet_reset : quiet (reset_own_addresses (D := D) (W := W) (G := G)).
Proof. unfold reset_own_addresses. quiet. Qed.
Lemma quiet_reconnect_peer now add : quiet (add_reconnect_peer (D := D) (S := S) (G := G) now add).
Proof. unfold add_reconnect_peer. apply quiet_bind; [apply quiet_get|intros c]. by apply quiet_update. Qed.
Lemma quiet_write_stats now : quiet (write_out_stats (D := D) (S := S) (G := G) now).
Proof. unfold write_out_stats. quiet. Qed.
Lemma quiet_statsd now : quiet (send_stats_to_statsd (D := D) (G := G) now).
Proof. unfold send_stats_to_statsd. quiet. Qed.
Lemma quiet_store now : quiet (store_beacon (D := D) (S := S) (G := G) now).
Proof. unfold store_beacon, write_to_cmd, write_to_file. quiet. Qed.
Lemma quiet_with_buffer {A} b (m : CM A) : quiet m -> quiet (with_buffer b m).
Proof. intros Hm e. specialize (Hm (mkEnv (self e) b (rng e))). unfold wp, with_buffer in *. by destruct (m _) as [? []]. Qed.
#[local] Hint Resolve quiet_invalid quiet_write_stats quiet_statsd quiet_store : quiet.

(** *** The invariant over the parts *)

Lemma wp_with_buffer {A} b (m : CM A) Q X e :
  wp m (fun a e' => Q a (mkEnv (self e') (out e) (rng e'))) (fun er e' => X er (mkEnv (self e') (out e) (rng e')))
    (mkEnv (self e) b (rng e)) -> wp (with_buffer b m) Q X e.
Proof. unfold wp, with_buffer. by destruct (m _) as [? []]. Qed.
Lemma K_with_buffer {A} b (m : CM A) : K m -> K (with_buffer b m).
Proof. intros Hm e He. apply wp_with_buffer. eapply wp_mono; [by apply Hm|done..]. Qed.

Lemma wp_quiet {A E} (m : ST (Env Node) E A) Q X e : quiet m ->
  (forall a e', same (self e) (self e') -> Q a e') -> (forall er e', same (self e) (self e') -> X er e') -> wp m Q X e.
Proof. intros Hm HQ HX. eapply wp_mono; [apply Hm|by intros a; apply HQ|by intros er; apply HX]. Qed.

Lemma K_bind {A B E} (m : ST (Env Node) E A) (f : A -> ST (Env Node) E B) : K m -> (forall a, K (f a)) -> K (m ≫= f).
Proof. apply keeps_bind. Qed.
Lemma K_ignore {A} (m : CM A) : K m -> K (ignore_err m).
Proof. intros Hm. apply K_bind; [by apply keeps_catch|intros _; apply keeps_ret]. Qed.
Lemma K_update f : (forall c, sound c -> sound (f c)) -> K (update f).
Proof. intros Hf e He. by apply Hf. Qed.

(** What a node does with the crypto of a peer. *)
Lemma sound_set_peer c addr p : settled (pd_crypto p) -> sound c -> sound (set_peers (<[addr := p]> (peers c)) c).
Proof.
  intros Hp [[Hi Hs] Hr]. split; [split; [exact Hi|]|].
  - intros a q. cbn. rewrite lookup_insert_Some. intros [[_ <-]|[_ Hq]]; [done|by eapply Hs].
  - intros g. specialize (Hr g). revert Hr. apply routed_mono. unfold connected. cbn. intros a Ha. rewrite lookup_insert_is_Some'. by right.
Qed.

Lemma sound_set_pending c addr i : fresh i -> sound c -> sound (set_pending_inits (<[addr := i]> (pending_inits c)) c).
Proof.
  intros Hp [[Hi Hs] Hr]. split; [split; [|exact Hs]|exact Hr].
  intros a q. cbn. rewrite lookup_insert_Some. intros [[_ <-]|[_ Hq]]; [done|by eapply Hi].
Qed.
Lemma sound_delete_pending c addr : sound c -> sound (set_pending_inits (delete addr (pending_inits c)) c).
Proof.
  intros [[Hi Hs] Hr]. split; [split; [|exact Hs]|exact Hr].
  intros a q. cbn. rewrite lookup_delete_Some. intros [_ Hq]. by eapply Hi.
Qed.
Lemma sound_set_table c t : ((guard -> routes c) -> guard -> routed (connected c) t) -> sound c -> sound (set_table t c).
Proof. intros Ht [Hs Hr]. split; [exact Hs|]. exact (Ht Hr). Qed.

Lemma K_on_table f : (forall c, routes c -> routed (connected c) (f (table c))) -> K (on_table f).
Proof. intros Hf. apply K_update. intros c. apply sound_set_table. intros Hr g. by apply Hf, Hr. Qed.

Lemma wp_on_peer {A} addr p (m : ST (Env (PeerCrypto NodeInfo)) Error A) (Q : A -> Env Node -> Prop) e :
  sound (self e) -> keeps (of_self settled) m -> settled (pd_crypto p) ->
  (forall a e', sound (self e') -> is_Some (peers (self e') !! addr) -> Q a e') ->
  wp (on_peer addr p m) Q (fun _ e => sound (self e)) e.
Proof.
  intros He Hm Hp HQ. apply wp_on_part. eapply wp_mono; [apply Hm; exact Hp| |].
  - intros a e1 He1. apply HQ; [by apply sound_set_peer|]. cbn. rewrite lookup_insert_is_Some'. by left.
  - intros er e1 He1. by apply sound_set_peer.
Qed.

End Operations.

Section Connections.
Context `{Ring} {D S W G P : Type}.
Context `{Device D} `{Socket S} `{System W} `{Gateway G} `{SocketParsers} `{Protocol P}.
Variable guard : Prop.

Abbreviation Node := (GenericCloud D S W G).
Abbreviation CM := (ST (Env Node) Error).
Abbreviation sound := (sound (D := D) (S := S) (W := W) (G := G) guard).
Abbreviation K := (K (D := D) (S := S) (W := W) (G := G) guard).
Implicit Types (c : Node) (addr src : SocketAddr).

#[local] Hint Resolve quiet_field quiet_traffic quiet_outside quiet_len quiet_bytes quiet_hook quiet_on_device quiet_on_socket
  quiet_send_datagram quiet_send_to quiet_invalid quiet_info quiet_write_stats quiet_statsd quiet_store : quiet.

Lemma wp_update {E} (f : Node -> Node) (Q : unit -> Env Node -> Prop) (X : E -> Env Node -> Prop) e :
  Q () (mkEnv (f (self e)) (out e) (rng e)) -> wp (on_self (modify f)) Q X e.
Proof. done. Qed.
Lemma wp_field {A E} (f : Node -> A) (Q : A -> Env Node -> Prop) (X : E -> Env Node -> Prop) e : Q (f (self e)) e -> wp (on_self (gets f)) Q X e.
Proof. by destruct e. Qed.
Lemma wp_self {E} (Q : Node -> Env Node -> Prop) (X : E -> Env Node -> Prop) e : Q (self e) e -> wp (on_self get) Q X e.
Proof. by destruct e. Qed.
Lemma wp_on_new {A} i (m : ST (Env (PeerCrypto NodeInfo)) Error A) Q X (e : Env Node) :
  wp m (fun a e' => Q (self e', Ok a) (mkEnv (self e) (out e') (rng e')))
    (fun er e' => Q (self e', Err er) (mkEnv (self e) (out e') (rng e'))) (mkEnv i (out e) (rng e)) -> wp (on_new i m) Q X e.
Proof. unfold wp, on_new. by destruct (m _) as [? []]. Qed.

Lemma fresh_instance {E} node (payload : NodeInfo) r :
  wp (PeerCrypto.peer_instance (E := E) node payload) (fun i _ => fresh i) (fun _ _ => True) r.
Proof.
  pose proof (fresh_new (E := E) (cn_node_id node) payload (cn_key_pair node) (cn_trusted_keys node) (cn_algorithms node) r) as Hf.
  unfold wp, PeerCrypto.peer_instance. by destruct (PeerCrypto.new _ _ _ _ _ r) as [? []].
Qed.

(** *** Sending *)

Lemma settled_sends type_ : keeps (of_self settled) (PeerCrypto.send_message (P := NodeInfo) type_).
Proof. apply keeps_send_message. Qed.

Lemma K_send_to_peer now type_ addr p e : sound (self e) -> peers (self e) !! addr = Some p ->
  wp (on_peer addr p (PeerCrypto.send_message type_) ;; send_to (D := D) (W := W) (G := G) now addr)
    (fun _ e => sound (self e)) (fun _ e => sound (self e)) e.
Proof.
  intros He Hp. apply wp_bind. apply wp_on_peer; [exact He|apply settled_sends|by eapply He|]. intros _ e' He' _.
  apply quiet_K; [quiet|exact He'].
Qed.

Lemma K_send_msg now addr type_ : K (send_msg now addr type_).
Proof.
  intros e He. unfold send_msg. apply wp_bind, wp_field. destruct (peers (self e) !! addr) eqn:Hp; [by apply K_send_to_peer|by apply wp_throw].
Qed.

Lemma K_broadcast_one now type_ msg addr : K (broadcast_one now type_ msg addr).
Proof.
  unfold broadcast_one. do 4 (apply K_bind; [apply quiet_K; quiet|intros ?]). intros e He. apply wp_bind, wp_field.
  destruct (peers (self e) !! addr) eqn:Hp; [by apply K_send_to_peer|by apply wp_ret].
Qed.
Lemma K_broadcast now type_ : K (broadcast_msg now type_).
Proof.
  unfold broadcast_msg. do 2 (apply K_bind; [apply quiet_K; quiet|intros ?]). apply K_with_buffer, keeps_for_each. intros addr. apply K_broadcast_one.
Qed.

(** *** New connections *)

(** Handshakes may have been started, with nodes that are not peers. *)
Definition grows c c' : Prop := peers c' = peers c /\ table c' = table c /\ (disjoint c -> disjoint c').

Lemma grows_trans c1 c2 c3 : grows c1 c2 -> grows c2 c3 -> grows c1 c3.
Proof. unfold grows. intros (-> & -> & Hd1) (-> & -> & Hd2). auto. Qed.
Lemma same_grows c c' : same c c' -> grows c c'.
Proof. intros (Hp & Hi & Ht). split; [done|]. split; [done|]. unfold disjoint. by rewrite Hp, Hi. Qed.

(** [m] keeps the invariant and only starts handshakes. *)
Definition starts {A} (m : CM A) : Prop := forall e, sound (self e) ->
  wp m (fun _ e' => sound (self e') /\ grows (self e) (self e')) (fun _ e' => sound (self e') /\ grows (self e) (self e')) e.

Lemma starts_bind {A B} (m : CM A) (f : A -> CM B) : starts m -> (forall a, starts (f a)) -> starts (m ≫= f).
Proof.
  intros Hm Hf e He. apply wp_bind. eapply wp_mono; [by apply Hm| |done]. intros a e1 [He1 Hg1].
  eapply wp_mono; [by apply Hf| |]; intros ? e2 [He2 Hg2]; (split; [exact He2|exact (grows_trans _ _ _ Hg1 Hg2)]).
Qed.
Lemma quiet_starts {A} (m : CM A) : quiet m -> starts m.
Proof. intros Hm e He. apply wp_quiet; [exact Hm| |]; intros ? e' Hs; (split; [exact (same_sound _ _ _ Hs He)|by apply same_grows]). Qed.
Lemma starts_K {A} (m : CM A) : starts m -> K m.
Proof. intros Hm e He. eapply wp_mono; [by apply Hm|by intros ? ? []..]. Qed.
Lemma starts_ignore {A} (m : CM A) : starts m -> starts (ignore_err m).
Proof.
  intros Hm. apply starts_bind; [|intros _; apply quiet_starts; quiet]. intros e He. apply wp_catch. eapply wp_mono; [by apply Hm|done..].
Qed.
Lemma starts_for_each {A} (f : A -> CM unit) l : (forall a, starts (f a)) -> starts (for_each f l).
Proof. intros Hf. induction l; [apply quiet_starts; quiet|]. by apply starts_bind. Qed.

Lemma known_false addr c : known addr c = false -> peers c !! addr = None /\ pending_inits c !! addr = None.
Proof.
  unfold known. intros [[Hp _]%orb_false_iff Hi]%orb_false_iff.
  apply bool_decide_eq_false in Hp, Hi. split; by apply eq_None_not_Some.
Qed.

Lemma starts_pending addr i e : peers (self e) !! addr = None -> fresh i -> sound (self e) ->
  wp (update (D := D) (S := S) (W := W) (G := G) (fun c => set_pending_inits (<[addr := i]> (pending_inits c)) c))
    (fun _ e' => sound (self e') /\ grows (self e) (self e')) (fun _ _ => False) e.
Proof.
  intros Hp Hi He. apply wp_update. split; [by apply sound_set_pending|]. split; [done|]. split; [done|].
  intros Hd a. cbn. rewrite lookup_insert_is_Some'. intros [<-|Ha]; [done|by apply Hd].
Qed.

Lemma starts_connect_sock now addr : starts (connect_sock now addr).
Proof.
  intros e He. unfold connect_sock. apply wp_bind, wp_field. set (a := mapped_addr addr).
  destruct (known a (self e)) eqn:Hk; [by apply wp_ret|]. apply known_false in Hk as [Hp _].
  apply wp_bind, wp_quiet; [quiet| |]. 2: { intros er e1 Hs. split; [exact (same_sound _ _ _ Hs He)|by apply same_grows]. }
  intros payload e1 Hs1. apply wp_bind, wp_field. apply wp_bind, wp_on_rng.
  pose proof (same_sound _ _ _ Hs1 He) as He1. pose proof (same_grows _ _ Hs1) as Hg1.
  eapply wp_mono; [apply fresh_instance| |done]. intros i r Hi. apply wp_with_buffer, wp_bind, wp_on_new. cbn [self out rng].
  assert (forall j (x : outcome Error unit) (e3 : Env Node), fresh j -> self e3 = self e1 ->
    wp (lift x ;; update (fun c => set_pending_inits (<[a := j]> (pending_inits c)) c) ;; send_to now a)
      (fun _ e' => sound (self e') /\ grows (self e) (self e')) (fun _ e' => sound (self e') /\ grows (self e) (self e')) e3) as Hrest.
  { intros j x e3 Hj Heq. apply wp_bind, wp_lift; [|by rewrite Heq]. intros [] _. apply wp_bind.
    eapply wp_mono; [apply starts_pending; [rewrite Heq; by destruct Hs1 as (-> & _)|exact Hj|by rewrite Heq]| |done]. intros y e4 [He4 Hg4].
    rewrite Heq in Hg4. pose proof (grows_trans _ _ _ Hg1 Hg4) as Hg.
    apply wp_quiet; [quiet| |]; intros ? e5 Hs5; (split; [exact (same_sound _ _ _ Hs5 He4)|exact (grows_trans _ _ _ Hg (same_grows _ _ Hs5))]). }
  eapply wp_mono; [apply fresh_initialize; exact Hi| |]; intros x e2 He2; apply Hrest; done.
Qed.

Lemma starts_connect now name resolved : starts (connect now name resolved).
Proof.
  unfold connect. apply starts_bind; [apply quiet_starts; quiet|intros addrs]. apply starts_bind; [apply quiet_starts; quiet|intros c].
  case_match; [apply quiet_starts; quiet|]. apply starts_bind; [apply quiet_starts; quiet|intros _].
  apply starts_for_each. intros a. apply starts_ignore, starts_connect_sock.
Qed.

Lemma starts_peers now l : starts (connect_to_peers now l).
Proof.
  unfold connect_to_peers. apply starts_for_each. intros peer. unfold connect_to_peer. apply starts_bind; [apply quiet_starts; quiet|intros c].
  case_match; [apply quiet_starts; quiet|]. case_match; [|apply starts_connect]. case_decide.
  { apply quiet_starts. by apply quiet_update. }
  case_match; [apply quiet_starts; quiet|apply starts_connect].
Qed.

End Connections.

Section Events.
Context `{Ring} {D S W G P : Type}.
Context `{Device D} `{Socket S} `{System W} `{Gateway G} `{SocketParsers} `{Protocol P}.
Variable guard : Prop.

Abbreviation Node := (GenericCloud D S W G).
Abbreviation CM := (ST (Env Node) Error).
Abbreviation sound := (sound (D := D) (S := S) (W := W) (G := G) guard).
Abbreviation K := (K (D := D) (S := S) (W := W) (G := G) guard).
Implicit Types (c : Node) (addr src : SocketAddr).

#[local] Hint Resolve quiet_field quiet_traffic quiet_outside quiet_len quiet_bytes quiet_hook quiet_on_device quiet_on_socket
  quiet_send_datagram quiet_send_to quiet_invalid quiet_info quiet_write_stats quiet_statsd quiet_store : quiet.

(** *** Peers come and go *)

Definition drop_peer now addr c : Node := set_table (ClaimTable.remove_claims now addr (table c)) (set_peers (delete addr (peers c)) c).

Lemma sound_drop_peer now addr c : 0 < now -> sound c -> sound (drop_peer now addr c).
Proof.
  intros Hnow [[Hi Hs] Hr]. split; [split; [exact Hi|]|].
  - intros a p. cbn. rewrite lookup_delete_Some. intros [_ Hp]. by eapply Hs.
  - intros g. eapply routed_mono, routed_remove_claims; [|exact Hnow|by apply Hr].
    intros a [Ha Hne]. unfold connected. cbn. by rewrite lookup_delete_ne.
Qed.

Lemma K_remove_peer now addr : 0 < now -> K (remove_peer now addr).
Proof.
  intros Hnow e He. unfold remove_peer. apply wp_bind, wp_self. destruct (peers (self e) !! addr); [|by apply wp_ret].
  apply wp_bind, wp_update, wp_bind, wp_update. apply quiet_K; [quiet|exact (sound_drop_peer now addr _ Hnow He)].
Qed.

Lemma K_update_peer_info now addr info : K (update_peer_info now addr info).
Proof.
  intros e He. unfold update_peer_info. apply wp_bind, wp_self. destruct (peers (self e) !! addr) as [p|] eqn:Hp; [|by apply wp_ret].
  apply wp_bind, wp_update. set (q := mkPeerData _ _ _ _ _ _ _). cbn [self out rng]. set (c1 := set_peers _ _).
  assert (sound c1) as Hc1 by (apply sound_set_peer; [exact (proj2 (proj1 He) addr p Hp)|exact He]).
  destruct info as [info|]; [|by apply wp_ret]. apply wp_bind, wp_update. cbn [self out rng].
  apply starts_K; [apply starts_peers|]. apply sound_set_table; [|exact Hc1]. intros Hr g. apply routed_set_claims; [|by apply Hr].
  unfold connected, c1. cbn. rewrite lookup_insert_is_Some'. by left.
Qed.

(** A handshake with [addr] has just succeeded. *)
Definition succeeded addr c : Prop :=
  sound (set_pending_inits (delete addr (pending_inits c)) c) /\ exists i, pending_inits c !! addr = Some i /\ settled i.

Lemma same_succeeded addr c c' : same c c' -> succeeded addr c -> succeeded addr c'.
Proof.
  intros Hs [Hc Hi]. split; [|by destruct Hs as (_ & -> & _)]. eapply same_sound, Hc. destruct Hs as (Hp & Hpi & Ht).
  unfold same. cbn. by rewrite Hp, Hpi, Ht.
Qed.

Lemma succeeded_set addr i c : settled i -> sound c -> succeeded addr (set_pending_inits (<[addr := i]> (pending_inits c)) c).
Proof.
  intros Hi Hc. split; [|exists i; split; [apply lookup_insert_eq|exact Hi]].
  eapply same_sound; [|exact (sound_delete_pending guard c addr Hc)]. split; [done|]. split; [|done]. cbn. by rewrite delete_insert_eq.
Qed.

Lemma add_peer_sound now addr info e : succeeded addr (self e) ->
  wp (add_new_peer (D := D) (S := S) (W := W) (G := G) now addr info) (fun _ e => sound (self e)) (fun _ e => sound (self e)) e.
Proof.
  intros He. unfold add_new_peer. apply wp_bind, wp_self. apply wp_bind.
  assert (forall ev envs, wp (call_hook (D := D) (S := S) (G := G) ev envs) (fun _ e => succeeded addr (self e)) (fun _ _ => False) e) as Hhook.
  { intros ev envs. apply wp_update. eapply same_succeeded, He. by case_match. }
  eapply wp_mono; [apply Hhook| |done]. intros y e1 [Hc1 (i & Hi & Hs)]. apply wp_bind, wp_self. rewrite Hi.
  apply wp_bind, wp_update, wp_bind, wp_update. apply K_update_peer_info. cbn [self out rng].
  apply (sound_set_peer guard (set_pending_inits (delete addr (pending_inits (self e1))) (self e1))); [exact Hs|exact Hc1].
Qed.

(** *** Messages *)

Lemma payload_sound now peer (e : Env Node) : sound (self e) -> connected (self e) peer ->
  wp (handle_payload_from (S := S) (W := W) (G := G) (P := P) now peer) (fun _ e => sound (self e)) (fun _ e => sound (self e)) e.
Proof.
  intros He Hp. unfold handle_payload_from.
  assert (forall e', same (self e) (self e') -> sound (self e') /\ connected (self e') peer) as Hsame.
  { intros e' Hs. split; [by eapply same_sound|]. unfold connected. by destruct Hs as (-> & _). }
  assert (quiet (D := D) (S := S) (W := W) (G := G) (data ← msg_bytes; '(src, dst) ← lift (parse (P := P) data); len ← msg_len;
    on_traffic (TrafficStats.count_in_payload src dst len) ;; on_device write ;; l ← field learning; mret (src, l))) as Hq.
  { apply quiet_bind; [quiet|intros ?]. apply quiet_bind; [quiet|intros [??]]. quiet. }
  specialize (Hq e). revert Hq. unfold wp, mbind, ST_bind. destruct (msg_bytes e) as [e1 [data|er|]]; [|by intros [? _]%Hsame|done].
  destruct (lift (parse data) e1) as [e2 [[s d]|er|]]; [|by intros [? _]%Hsame|done].
  destruct (msg_len e2) as [e3 [len|er|]]; [|by intros [? _]%Hsame|done].
  destruct (on_traffic _ e3) as [e4 [[]|er|]]; [|by intros [? _]%Hsame|done].
  destruct (on_device write e4) as [e5 [[]|er|]]; [|by intros [? _]%Hsame|done].
  destruct (field learning e5) as [e6 [l|er|]]; [|by intros [? _]%Hsame|done].
  intros [He6 Hc6]%Hsame. destruct l; [|exact He6]. apply (wp_update (E := Error)). cbn [self].
  apply sound_set_table; [|exact He6]. intros Hr g. by apply routed_cache, Hr.
Qed.

(** What the result of a message says about the node. *)
Definition ready src (r : MessageResult NodeInfo) c : Prop :=
  match r with
  | Peer.Message _ => sound c /\ connected c src
  | Initialized _ | InitializedWithReply _ => succeeded src c
  | Reply | NoResult => sound c
  end.

Lemma same_ready src r c c' : same c c' -> ready src r c -> ready src r c'.
Proof.
  intros Hs. destruct r; cbn; try by apply same_sound. 2-3: by apply same_succeeded.
  intros [Hc Hp]. split; [by eapply same_sound|]. unfold connected. by destruct Hs as (-> & _).
Qed.

Lemma invalid_sound {A} (er : Error) (e : Env Node) Q : sound (self e) ->
  wp (count_invalid ;; throw (A := A) er) Q (fun _ e => sound (self e)) e.
Proof. intros He. apply wp_bind. by apply wp_update. Qed.

Lemma message_sound now src r e : 0 < now -> ready src r (self e) ->
  wp (handle_message (W := W) (G := G) (P := P) now src r) (fun _ e => sound (self e)) (fun _ e => sound (self e)) e.
Proof.
  intros Hnow He. destruct r as [type_|info|info| |]; cbn [ready handle_message] in *.
  - destruct He as [He Hp]. case_decide; [by apply payload_sound|]. case_decide.
    { apply wp_bind, wp_quiet; [quiet| |intros er e1 Hs; exact (same_sound _ _ _ Hs He)]. intros data e1 Hs.
      apply wp_bind, wp_quiet; [quiet| |intros er e2 Hs2; exact (same_sound _ _ _ (same_trans _ _ _ Hs Hs2) He)].
      intros info e2 Hs2. pose proof (same_sound guard _ _ (same_trans _ _ _ Hs Hs2) He) as He2.
      destruct info; [by apply K_update_peer_info|by apply invalid_sound|done]. }
    case_decide; [by apply K_update_peer_info|]. case_decide; [|by apply invalid_sound].
    by apply K_remove_peer.
  - by apply add_peer_sound.
  - apply wp_bind. eapply wp_mono; [by apply add_peer_sound| |done]. intros ? e1 He1. apply quiet_K; [quiet|exact He1].
  - apply quiet_K; [quiet|exact He].
  - exact He.
Qed.

Lemma pending_message_sound src i e : pending_inits (self e) !! src = Some i -> sound (self e) ->
  wp (on_pending (D := D) (S := S) (W := W) (G := G) src i PeerCrypto.handle_message)
    (fun r e => ready src r (self e)) (fun _ e => sound (self e)) e.
Proof.
  intros Hi He. apply wp_on_part. assert (fresh i) as Hf by exact (proj1 (proj1 He) src i Hi).
  eapply wp_mono; [apply (fresh_message (mkEnv i (out e) (rng e))); exact Hf| |].
  - intros r e1 Hr. cbn [self out rng]. destruct r; cbn [ready after_message] in *; [done|..]; try by apply sound_set_pending.
    all: by apply succeeded_set.
  - intros er e1 Hr. by apply sound_set_pending.
Qed.

Lemma peer_message_sound src p e : peers (self e) !! src = Some p -> sound (self e) ->
  wp (on_peer (D := D) (S := S) (W := W) (G := G) src p PeerCrypto.handle_message)
    (fun r e => ready src r (self e)) (fun _ e => sound (self e)) e.
Proof.
  intros Hp He. apply wp_on_part. assert (settled (pd_crypto p)) as Hs by exact (proj2 (proj1 He) src p Hp).
  eapply wp_mono; [apply (settled_message (mkEnv (pd_crypto p) (out e) (rng e))); exact Hs| |].
  - intros r e1 [Hr He1]. cbn [self out rng].
    assert (sound (set_peers (<[src := Cloud.set_crypto (self e1) p]> (peers (self e))) (self e))) as Hc by (by apply sound_set_peer).
    destruct r; cbn [ready not_initialized] in *; try done. split; [exact Hc|]. unfold connected. cbn. rewrite lookup_insert_is_Some'. by left.
  - intros er e1 He1. by apply sound_set_peer.
Qed.

Lemma new_init_sound now src e : sound (self e) ->
  wp (handle_new_init (D := D) (S := S) (G := G) now src) (fun r e => ready src r (self e)) (fun _ e => sound (self e)) e.
Proof.
  intros He. unfold handle_new_init. apply wp_bind, wp_quiet; [quiet| |intros er e1 Hs; exact (same_sound _ _ _ Hs He)].
  intros payload e1 Hs1. pose proof (same_sound guard _ _ Hs1 He) as He1. apply wp_bind, wp_field, wp_bind, wp_on_rng.
  eapply wp_mono; [apply fresh_instance| |done]. intros i r Hi. apply wp_bind, wp_on_new. cbn [self out rng].
  eapply wp_mono; [apply fresh_message; exact Hi| |].
  - intros res e2 Hr. apply wp_bind, wp_field, wp_bind, wp_quiet; [quiet| |]. 2: { intros er e3 Hs3. exact (same_sound _ _ _ Hs3 He1). }
    intros [] e3 Hs3. pose proof (same_sound guard _ _ Hs3 He1) as He3. apply wp_bind, wp_update. apply wp_ret. cbn [self out rng] in *.
    destruct res; cbn [ready after_message] in *; [done|..]; try by apply sound_set_pending.
    all: by apply succeeded_set.
  - intros er e2 _. by apply invalid_sound.
Qed.

Lemma finish_sound now src m e : 0 < now ->
  wp m (fun r e => ready src r (self e)) (fun _ e => sound (self e)) e ->
  wp (finish (W := W) (G := G) (P := P) now src m) (fun _ e => sound (self e)) (fun _ e => sound (self e)) e.
Proof.
  intros Hnow Hm. unfold finish. apply wp_bind, wp_catch. eapply wp_mono; [exact Hm| |].
  - intros r e1 Hr. by apply message_sound.
  - intros er e1 He1. by apply invalid_sound.
Qed.

Lemma K_net_message now src : 0 < now -> K (handle_net_message (P := P) now src).
Proof.
  intros Hnow e He. unfold handle_net_message. set (a := mapped_addr src). apply wp_bind, wp_self.
  assert (forall e, sound (self e) -> wp (res ← handle_new_init now a; handle_message (P := P) now a res)
    (fun _ e => sound (self e)) (fun _ e => sound (self e)) e) as Hnew.
  { intros e1 He1. apply wp_bind. eapply wp_mono; [by apply new_init_sound| |done]. intros r e2. by apply message_sound. }
  destruct (pending_inits (self e) !! a) as [i|] eqn:Hi; [by apply finish_sound, pending_message_sound|].
  unfold msg_bytes. apply wp_bind, wp_on_out, wp_any; [|done]. intros data b. cbn [self out rng] in *.
  destruct (peers (self e) !! a) as [p|] eqn:Hp.
  - case_match; [case_match; [by apply finish_sound, peer_message_sound|by apply Hnew]|by apply finish_sound, peer_message_sound].
  - case_match; [by apply Hnew|]. apply quiet_K; [quiet|exact He].
Qed.

Lemma K_socket_event now : 0 < now -> K (handle_socket_event (P := P) now).
Proof.
  intros Hnow. unfold handle_socket_event. apply K_bind; [apply quiet_K, quiet_or_fail, quiet_on_socket|intros src].
  apply K_bind; [apply quiet_K; quiet|intros len]. apply K_bind; [apply quiet_K; quiet|intros _].
  apply K_bind; [by apply keeps_catch, K_net_message|intros r].
  assert (K (mret (M := ST (Env Node) Error) ())) as Hret by apply keeps_ret.
  destruct r as [?|er|]; [exact Hret| |exact Hret]. destruct er; try exact Hret.
  apply K_bind; [apply K_update; intros c; apply sound_delete_pending|intros _]. apply K_bind; [apply quiet_K; quiet|intros d; apply quiet_K; quiet].
Qed.

Lemma K_interface now : 0 < now -> K (handle_interface_data (P := P) now).
Proof.
  intros Hnow. unfold handle_interface_data. apply K_bind; [apply quiet_K; quiet|intros data]. apply K_bind; [apply keeps_lift|intros [s d]].
  apply K_bind; [apply quiet_K; quiet|intros len]. apply K_bind; [apply quiet_K; quiet|intros _].
  apply K_bind.
  { intros e He. apply wp_on_self, wp_zoom. unfold wp. destruct (ClaimTable.lookup now d (table (self e))) as [t r] eqn:Hl. cbn [self].
    apply sound_set_table; [|exact He]. intros Hr g. specialize (Hr g). apply (routed_lookup _ now d) in Hr. by rewrite Hl in Hr. }
  intros [addr|].
  - apply K_bind; [apply K_send_msg|intros _]. apply K_bind; [apply quiet_K; quiet|intros ps]. case_decide; [apply keeps_ret|].
    apply K_bind; [|intros _; by apply starts_K, starts_connect_sock]. apply K_on_table. intros c Hr.
    eapply routed_mono, routed_remove_claims; [by intros a []|exact Hnow|exact Hr].
  - apply K_bind; [apply quiet_K; quiet|intros b]. case_match; [apply K_broadcast|apply quiet_K; quiet].
Qed.

End Events.

Section Housekeeping.
Context `{Ring} {D S W G P : Type}.
Context `{Device D} `{Socket S} `{System W} `{Gateway G} `{SocketParsers} `{Protocol P}.
Variable guard : Prop.

Abbreviation Node := (GenericCloud D S W G).
Abbreviation CM := (ST (Env Node) Error).
Abbreviation sound := (sound (D := D) (S := S) (W := W) (G := G) guard).
Abbreviation K := (K (D := D) (S := S) (W := W) (G := G) guard).
Abbreviation starts := (starts (D := D) (S := S) (W := W) (G := G) guard).
Implicit Types (c : Node) (addr src : SocketAddr) (e : Env Node).

#[local] Hint Resolve quiet_field quiet_traffic quiet_outside quiet_len quiet_bytes quiet_hook quiet_on_device quiet_on_socket
  quiet_send_datagram quiet_send_to quiet_invalid quiet_info quiet_write_stats quiet_statsd quiet_store : quiet.

Lemma quiet_second_result now addr r : quiet (second_result (D := D) (W := W) (G := G) now addr r).
Proof. unfold second_result. quiet. Qed.

(** The timers of the handshakes: peers and table are left alone, and only
    handshakes are marked for removal. *)
Lemma pending_seconds_sound now addrs e : sound (self e) ->
  wp (pending_seconds (D := D) (W := W) (G := G) now addrs)
    (fun del e' => sound (self e') /\ grows (self e) (self e') /\ forall a, a ∈ del -> a ∈ addrs)
    (fun _ e' => sound (self e') /\ peers (self e') = peers (self e)) e.
Proof.
  revert e. induction addrs as [|addr addrs IH]; intros e He; [by apply wp_ret|]. cbn [pending_seconds].
  apply wp_bind, wp_quiet; [quiet| |intros er e1 Hs; exact (conj (same_sound _ _ _ Hs He) (proj1 Hs))]. intros [] e1 Hs1.
  pose proof (same_sound guard _ _ Hs1 He) as He1. apply wp_bind, wp_field, wp_bind, wp_lift; [|intros er; by destruct (pending_inits (self e1) !! addr)].
  intros i Hi. destruct (pending_inits (self e1) !! addr) as [i'|] eqn:Hp; [|done]. injection Hi as <-.
  apply wp_bind, wp_catch, wp_on_part.
  assert (forall j b r, fresh j -> let e2 := mkEnv (set_pending_inits (<[addr := j]> (pending_inits (self e1))) (self e1)) b r in
    forall x, wp (dead ← second_result now addr x; del ← pending_seconds now addrs; mret (if dead : bool then addr :: del else del))
      (fun del e' => sound (self e') /\ grows (self e) (self e') /\ forall a, a ∈ del -> a ∈ addr :: addrs)
      (fun _ e' => sound (self e') /\ peers (self e') = peers (self e)) e2) as Hrest.
  { intros j b r Hj e2 x. assert (sound (self e2)) as He2 by (by apply sound_set_pending).
    assert (grows (self e) (self e2)) as Hg2.
    { eapply grows_trans; [by apply same_grows|]. split; [done|]. split; [done|]. intros Hd a. cbn. rewrite lookup_insert_is_Some'.
      intros [<-|Ha]; apply Hd; [by rewrite Hp|done]. }
    apply wp_bind, wp_quiet; [apply quiet_second_result| |intros er e3 Hs; split; [exact (same_sound _ _ _ Hs He2)|destruct Hs as (-> & _); apply Hg2]]. intros dead e3 Hs3.
    apply wp_bind. eapply wp_mono; [apply IH; exact (same_sound _ _ _ Hs3 He2)| |]. 
    2: { intros er e4 [He4 Hp4]. split; [exact He4|]. rewrite Hp4. destruct Hs3 as (-> & _). apply Hg2. }
    intros del e4 (He4 & Hg4 & Hd4). apply wp_ret.
    split; [exact He4|]. split; [exact (grows_trans _ _ _ (grows_trans _ _ _ Hg2 (same_grows _ _ Hs3)) Hg4)|].
    intros a. destruct dead; [intros [->|Ha]%elem_of_cons|intros Ha]; [by left|right; by apply Hd4..]. }
  eapply wp_mono; [apply (fresh_second (mkEnv i' (out e1) (rng e1))); exact (proj1 (proj1 He1) addr i' Hp)| |]; intros x e2 He2; by apply Hrest.
Qed.

(** The timers of the peers: none of them fails, so none is marked. *)
Lemma peer_seconds_sound now addrs e : sound (self e) ->
  wp (peer_seconds (D := D) (W := W) (G := G) now addrs)
    (fun del e' => sound (self e') /\ (forall a, connected (self e') a <-> connected (self e) a) /\ del = [])
    (fun _ e' => sound (self e') /\ (forall a, connected (self e') a <-> connected (self e) a)) e.
Proof.
  revert e. induction addrs as [|addr addrs IH]; intros e He; [by apply wp_ret|]. cbn [peer_seconds].
  apply wp_bind, wp_quiet; [quiet| |intros er e1 Hs; split; [exact (same_sound _ _ _ Hs He)|intros a; unfold connected; by destruct Hs as (-> & _)]]. intros [] e1 Hs1.
  pose proof (same_sound guard _ _ Hs1 He) as He1. apply wp_bind, wp_field, wp_bind, wp_lift; [|intros er; by destruct (peers (self e1) !! addr)].
  intros p Hp. destruct (peers (self e1) !! addr) as [p'|] eqn:Hp'; [|done]. injection Hp as <-.
  apply wp_bind, wp_catch, wp_on_part.
  eapply wp_mono; [apply (settled_second (mkEnv (pd_crypto p') (out e1) (rng e1))); exact (proj2 (proj1 He1) addr p' Hp')| |done].
  intros x [i b r] Hi. cbn [self out rng] in *. set (c2 := set_peers _ _). assert (sound c2) as He2 by (by apply sound_set_peer).
  assert (forall a, connected c2 a <-> connected (self e) a) as Hc2.
  { intros a. unfold connected, c2. cbn. rewrite lookup_insert_is_Some'. destruct Hs1 as (Hps & _). rewrite <- Hps.
    split; [intros [<-|Ha]; [by rewrite Hp'|done]|by right]. }
  apply wp_bind. eapply (wp_mono _ (fun dead e3 => dead = false /\ same c2 (self e3)) _ (fun _ e3 => same c2 (self e3))).
  { destruct x; try done. apply wp_bind. eapply wp_mono; [apply quiet_send_to|intros [] e3 Hs3; by apply wp_ret|done]. }
  2: { intros er e3 Hs. split; [exact (same_sound _ _ _ Hs He2)|]. intros a. rewrite <- Hc2. unfold connected. by destruct Hs as (-> & _). }
  intros dead e3 [-> Hs3]. assert (forall a, connected (self e3) a <-> connected (self e) a) as Hc3.
  { intros a. rewrite <- Hc2. unfold connected. by destruct Hs3 as (-> & _). }
  apply wp_bind. eapply wp_mono; [apply IH; exact (same_sound _ _ _ Hs3 He2)| |].
  - intros del e4 (He4 & Hc4 & ->). apply wp_ret. split; [exact He4|]. split; [|done]. intros a. rewrite Hc4. apply Hc3.
  - intros er e4 [He4 Hc4]. split; [exact He4|]. intros a. rewrite Hc4. apply Hc3.
Qed.

Lemma drop_dead_sound now addr (keep : SocketAddr -> Prop) (others : list SocketAddr) e :
  sound (self e) -> ~ keep addr -> (guard -> peers (self e) !! addr = None) ->
  (guard -> forall a, a ∈ others -> peers (self e) !! a = None) -> (forall a, keep a -> connected (self e) a) ->
  let post e' := sound (self e') /\ (guard -> forall a, a ∈ others -> peers (self e') !! a = None) /\ forall a, keep a -> connected (self e') a in
  wp (drop_dead now addr) (fun _ => post) (fun _ => post) e.
Proof.
  intros He Hka Hg Ho Hk post. unfold drop_dead. apply wp_bind, wp_update, wp_bind, wp_field, wp_bind, wp_update. cbn [self out rng].
  set (c := self e) in *. set (c1 := set_peers _ _).
  assert (post (mkEnv c1 (out e) (rng e))) as Hp1.
  { split; [|split].
    - destruct (sound_delete_pending guard c addr He) as [[Hi Hs] Hr]. split; [split; [exact Hi|]|].
      + intros a p. cbn. rewrite lookup_delete_Some. intros [_ Hp]. by eapply Hs.
      + intros g. specialize (Hr g). revert Hr. apply routed_mono. intros a. unfold connected. cbn. by rewrite delete_id by auto.
    - intros g a Ha. cbn. rewrite lookup_delete_None. right. by apply Ho.
    - intros a Ha. unfold connected. cbn. rewrite lookup_delete_ne by (intros <-; done). by apply Hk. }
  destruct Hp1 as (Hs1 & Ho1 & Hk1). case_decide; [|by apply wp_ret].
  eapply wp_mono; [apply starts_connect_sock, Hs1| |]; intros ? e2 [He2 (Hpe & _)]; (split; [exact He2|]); unfold connected; rewrite Hpe; by split.
Qed.

(** The timers end no established connection, but at an address a second handshake
    is under way with. *)
Lemma crypto_housekeep_sound now e : sound (self e) -> (guard -> disjoint (self e)) ->
  let post e' := sound (self e') /\ forall a, connected (self e) a -> pending_inits (self e) !! a = None -> connected (self e') a in
  wp (crypto_housekeep (D := D) (W := W) (G := G) now) (fun _ => post) (fun _ => post) e.
Proof.
  intros He Hd post. unfold crypto_housekeep. set (keep := fun a => connected (self e) a /\ pending_inits (self e) !! a = None).
  apply wp_bind, wp_with_buffer, wp_bind, wp_field, wp_bind. cbn [self].
  eapply wp_mono; [by apply pending_seconds_sound| |].
  2: { intros er e1 [He1 Hp1]. split; [exact He1|]. unfold connected. cbn [self] in *. by rewrite Hp1. }
  intros del e1 (He1 & Hg1 & Hdel). apply wp_bind, wp_field, wp_bind. cbn [self out rng] in *.
  assert (forall a, connected (self e1) a <-> connected (self e) a) as Hc1 by (intros a; unfold connected; by destruct Hg1 as (-> & _)).
  eapply wp_mono; [by apply peer_seconds_sound| |].
  2: { intros er e2 [He2 Hc2]. split; [exact He2|]. intros a Ha _. by apply Hc2, Hc1. }
  intros del' e2 (He2 & Hc2 & ->). apply wp_ret. cbn [self out rng]. rewrite app_nil_r.
  assert (forall a, a ∈ del -> is_Some (pending_inits (self e) !! a)) as Hpend.
  { intros a Ha. apply Hdel in Ha. apply list_elem_of_fmap in Ha as ([a' i] & -> & Hi). apply elem_of_map_to_list in Hi. by eexists. }
  assert (forall a, a ∈ del -> ~ keep a) as Hnk.
  { intros a Ha [_ Hn]. apply Hpend in Ha as [i Hi]. congruence. }
  assert (guard -> forall a, a ∈ del -> peers (self e2) !! a = None) as Hnp.
  { intros g a Ha. apply eq_None_not_Some. intros Hc%Hc2%Hc1. destruct Hc as [p Hp]. specialize (Hd g a (Hpend a Ha)). congruence. }
  assert (forall a, keep a -> connected (self e2) a) as Hk2 by (intros a [Ha _]; by apply Hc2, Hc1).
  clear Hdel Hpend Hg1 Hc1 Hc2 He1 e1. set (e3 := mkEnv (self e2) (out e) (rng e2)). change (self e2) with (self e3) in He2, Hnp, Hk2.
  clearbody e3. clear e2. revert e3 He2 Hnp Hk2. induction del as [|a del IH]; intros e3 He3 Hnp Hk3; [apply wp_ret; split; [exact He3|]; intros; by apply Hk3|].
  cbn [for_each]. apply wp_bind. eapply wp_mono; [apply (drop_dead_sound now a keep del); [exact He3|by apply Hnk; left|..]| |].
  - intros g. apply Hnp; [exact g|by left].
  - intros g b Hb. apply Hnp; [exact g|by right].
  - exact Hk3.
  - intros _ e4 (He4 & Ho4 & Hk4). apply IH; [by intros b Hb; apply Hnk; right|done..].
  - intros _ e4 (He4 & Ho4 & Hk4). split; [exact He4|]. intros b Hb1 Hb2. by apply Hk4.
Qed.

Lemma forget_sound now addr e : 0 < now -> sound (self e) -> (guard -> disjoint (self e)) ->
  let post e' := sound (self e') /\ (guard -> disjoint (self e')) in
  wp (forget_peer now addr) (fun _ => post) (fun _ => post) e.
Proof.
  intros Hnow He Hd post. unfold forget_peer. apply wp_bind, wp_update, wp_bind, wp_update. cbn [self out rng].
  pose proof (sound_drop_peer guard now addr _ Hnow He) as He1.
  assert (guard -> disjoint (drop_peer now addr (self e))) as Hd1.
  { intros g a Ha. cbn. apply lookup_delete_None. right. by apply Hd. }
  eapply wp_mono; [apply starts_connect_sock; exact He1| |]; intros ? e2 [He2 (_ & _ & Hg)];
    (split; [exact He2|]); intros g; by apply Hg, Hd1.
Qed.

End Housekeeping.

Section Periodic.
Context `{Ring} {D S W G P : Type}.
Context `{Device D} `{Socket S} `{System W} `{Gateway G} `{SocketParsers} `{Protocol P}.
Variable guard : Prop.

Abbreviation Node := (GenericCloud D S W G).
Abbreviation sound := (sound (D := D) (S := S) (W := W) (G := G) guard).
Abbreviation K := (K (D := D) (S := S) (W := W) (G := G) guard).
Abbreviation starts := (starts (D := D) (S := S) (W := W) (G := G) guard).
Implicit Types (c : Node) (e : Env Node).

#[local] Hint Resolve quiet_field quiet_traffic quiet_outside quiet_len quiet_bytes quiet_hook quiet_on_device quiet_on_socket
  quiet_send_datagram quiet_send_to quiet_invalid quiet_info quiet_write_stats quiet_statsd quiet_store : quiet.

Lemma K_reconnect now : K (reconnect_to_peers now).
Proof.
  unfold reconnect_to_peers. apply K_bind; [apply quiet_K; quiet|intros l]. apply K_bind.
  { apply keeps_for_each. intros x. case_match; [apply starts_K, starts_connect|apply keeps_ret]. }
  intros _. apply K_bind; [|intros _]; apply quiet_K; by apply quiet_update.
Qed.

Lemma quiet_read_beacon now path ttl : quiet (read_from_file (D := D) (S := S) (G := G) now path ttl).
Proof. unfold read_from_file. quiet. Qed.
Lemma quiet_beacon_cmd cmd : quiet (read_from_cmd (D := D) (S := S) (G := G) cmd).
Proof. unfold read_from_cmd. quiet. Qed.

Lemma K_load_beacon now : K (load_beacon now).
Proof.
  unfold load_beacon. apply K_bind; [apply quiet_K; quiet|intros c]. case_match; [|apply keeps_ret].
  case_match; [apply quiet_K, quiet_beacon_cmd|]. apply K_bind; [apply quiet_K, quiet_read_beacon|intros l].
  apply keeps_for_each. intros a. apply starts_K, starts_connect_sock.
Qed.

Lemma K_send_peer_list now : K (send_peer_list (D := D) (W := W) (G := G) now).
Proof.
  unfold send_peer_list. apply K_bind; [apply quiet_K; quiet|intros info]. apply K_bind; [|intros _; apply quiet_K; by apply quiet_update].
  apply K_with_buffer, K_bind; [apply quiet_K; quiet|intros _; apply K_broadcast].
Qed.

Lemma K_optional {A E} (b : bool) (m : ST (Env Node) E A) a : K m -> K (if b then m else mret a).
Proof. destruct b; [done|intros _; apply keeps_ret]. Qed.

Lemma housekeep_sound now system_now e : 0 < now -> sound (self e) -> (guard -> disjoint (self e)) ->
  wp (housekeep now system_now) (fun _ e => sound (self e)) (fun _ e => sound (self e)) e.
Proof.
  intros Hnow He Hd. unfold housekeep. apply wp_bind, wp_self. apply wp_bind.
  eapply wp_mono; [apply (wp_for_each (fun e => sound (self e) /\ (guard -> disjoint (self e))) (fun _ e => sound (self e)))| |done].
  { intros a e1 _ [He1 Hd1]. eapply wp_mono; [by apply forget_sound|done|by intros ? ? []]. }
  { by split. }
  intros _ e1 [He1 Hd1]. apply wp_bind, wp_update. cbn [self out rng]. set (e2 := mkEnv _ _ _).
  assert (sound (self e2)) as He2. { apply sound_set_table; [|exact He1]. intros Hr g. by apply routed_housekeep, Hr. }
  apply wp_bind. eapply wp_mono; [apply (crypto_housekeep_sound guard now e2 He2); exact Hd1| |by intros ? ? []].
  intros _ e3 [He3 _]. eapply keeps_wp with (I := of_self sound); [|exact He3|done|done]. fold (@Routing.K).
  apply K_bind; [apply quiet_K; by apply quiet_update|intros _]. apply K_bind; [apply quiet_K; quiet|intros t].
  apply K_bind; [case_decide; [apply K_send_peer_list|apply keeps_ret]|intros _].
  apply K_bind; [apply K_reconnect|intros _]. apply K_bind; [apply quiet_K; quiet|intros t'].
  apply K_bind; [apply quiet_K; case_decide; [|quiet]|intros _].
  { apply quiet_bind; [quiet|intros _]. apply quiet_bind; [quiet|intros _]. apply quiet_bind; [by apply quiet_update|intros _]. quiet. }
  apply K_bind; [apply quiet_K; by apply quiet_zoom|intros results].
  apply K_bind; [destruct results; [apply keeps_for_each; intros a; apply starts_K, starts_connect_sock|apply keeps_ret]|intros _].
  apply K_bind; [apply quiet_K; quiet|intros t2].
  apply K_bind; [case_decide; [|apply keeps_ret]|intros _].
  { apply K_bind; [apply quiet_K; quiet|intros _]. apply K_bind; [apply K_load_beacon|intros _]. apply quiet_K. by apply quiet_update. }
  apply K_bind; [apply quiet_K; quiet|intros t3]. apply quiet_K. case_decide; [|quiet].
  apply quiet_bind; [apply quiet_with_err, quiet_reset|intros _]. by apply quiet_update.
Qed.

End Periodic.

(** ** The life of a node *)

Section Life.
Context `{Ring} {D S W G P : Type}.
Context `{Device D} `{Socket S} `{System W} `{Gateway G} `{SocketParsers} `{Protocol P}.

Abbreviation Node := (GenericCloud D S W G).
Implicit Types (c : Node) (e : Env Node).

(** What is done to a node: by [run], by [main], and at the end of a beacon command. *)
Inductive Event : Type :=
| SocketEvent (now : Z)
| DeviceEvent (now : Z)
| Housekeep (now system_now : Z)
| Connect (now : Z) (name : string) (resolved : option (list SocketAddr))
| AddReconnectPeer (now : Z) (add : string)
| Initialize.

Definition now_of (ev : Event) : Z :=
  match ev with
  | SocketEvent now | DeviceEvent now | Housekeep now _ | Connect now _ _ | AddReconnectPeer now _ => now
  | Initialize => 1
  end.

Definition handle (ev : Event) : ST (Env Node) Error unit :=
  match ev with
  | SocketEvent now => handle_socket_event (P := P) now
  | DeviceEvent now => handle_device_event (P := P) now
  | Housekeep now system_now => housekeep now system_now
  | Connect now name resolved => connect now name resolved
  | AddReconnectPeer now add => add_reconnect_peer now add
  | Initialize => initialize
  end.

(** Between events anything may happen to the device, the socket, the rest of the
    machine, the results of beacon commands, and the buffer. *)
Definition surroundings c c' : Prop :=
  exists s d w b, c' = set_socket s (set_device d (set_outside w (set_beacon_serializer b c))).

Inductive step : Env Node -> Event -> Env Node -> Prop :=
| step_event ev e e0 e' r : 0 < now_of ev -> surroundings (self e) (self e0) ->
    handle ev e0 = (e', r) -> r <> Panic -> step e ev e'.

Inductive steps (ok : Env Node -> Event -> Prop) : Env Node -> Env Node -> Prop :=
| steps_refl e : steps ok e e
| steps_step e ev e1 e2 : ok e ev -> step e ev e1 -> steps ok e1 e2 -> steps ok e e2.

(** No event happens at the time two handshakes with one node are under way. *)
Definition undisturbed e (ev : Event) : Prop := match ev with Housekeep _ _ => disjoint (self e) | _ => True end.

Lemma initialize_quiet : quiet (initialize (D := D) (S := S) (W := W) (G := G)).
Proof. intros e. pose proof (quiet_reset (W := W) (D := D) (G := G) e) as Hq. unfold wp, initialize in *. by destruct (reset_own_addresses e) as [? []]. Qed.

Lemma handle_sound guard ev e : 0 < now_of ev -> sound guard (self e) -> (guard -> undisturbed e ev) ->
  wp (handle ev) (fun _ e => sound guard (self e)) (fun _ e => sound guard (self e)) e.
Proof.
  intros Hnow He Hu. destruct ev; cbn [handle now_of undisturbed] in *.
  - by apply K_socket_event.
  - unfold handle_device_event. revert He. apply K_bind; [apply quiet_K, quiet_or_fail, quiet_on_device|intros _].
    by apply K_ignore, K_interface.
  - by apply housekeep_sound.
  - revert He. by apply starts_K, starts_connect.
  - revert He. by apply quiet_K, quiet_reconnect_peer.
  - revert He. apply quiet_K, initialize_quiet.
Qed.

Lemma surroundings_same c c' : surroundings c c' -> same c c'.
Proof. by intros (s & d & w & b & ->). Qed.

Lemma step_sound guard e ev e' : step e ev e' -> sound guard (self e) -> (guard -> undisturbed e ev) -> sound guard (self e').
Proof.
  intros [ev' e1 e0 e2 r Hnow Hs Hh Hr] He Hu. apply surroundings_same in Hs.
  assert (guard -> undisturbed e0 ev') as Hu0.
  { intros g. specialize (Hu g). destruct ev'; try exact Logic.I. cbn in *. unfold disjoint. by destruct Hs as (-> & -> & _). }
  pose proof (handle_sound guard ev' e0 Hnow (same_sound _ _ _ Hs He) Hu0) as Hw. unfold wp in Hw. rewrite Hh in Hw. by destruct r.
Qed.

Lemma steps_sound guard ok e e' : (forall e ev, ok e ev -> guard -> undisturbed e ev) ->
  steps ok e e' -> sound guard (self e) -> sound guard (self e').
Proof. intros Hok. induction 1 as [e|e ev e1 e2 Ho Hs Hss IH]; [done|]. intros He. apply IH. eapply step_sound; [exact Hs|exact He|by apply Hok]. Qed.

(** A new node. *)
Lemma new_sound guard ts node_id now conf s d pf stats w c :
  GenericCloud.new (D := D) (S := S) (W := W) (G := G) ts node_id now conf s d pf stats w = Ok c -> sound guard c.
Proof.
  unfold GenericCloud.new. destruct (learning_broadcast _ _). unfold mbind, outcome_bind.
  destruct (node_claims conf d); [|done|done]. destruct (unwrap _); [|done|done]. intros [= <-].
  split; [split|]; [by intros ? ?; cbn; rewrite lookup_empty..|]. intros _. split; [by intros ? ?%elem_of_nil|].
  intros ? ?. cbn. by rewrite lookup_empty.
Qed.

End Life.

(** ** What it is good for *)

Section Consequences.
Context `{Ring} {D S W G P : Type}.
Context `{Device D} `{Socket S} `{System W} `{Gateway G} `{SocketParsers} `{Protocol P}.

Abbreviation Node := (GenericCloud D S W G).
Implicit Types (c : Node) (e : Env Node).

Lemma sound_False c : staged c -> sound False c.
Proof. by split. Qed.

(** C10: whatever happens to a node from its creation on, every handshake in [pending_inits] is one that has not succeeded (no key, no
    rotation, nothing unencrypted) and every peer in [peers] has succeeded in one (its handshake, if it is still kept, only
    repeats and closes; its keys only rotate with a core). *)
Theorem connections_staged ts node_id now conf s d pf stats w c b r e :
  GenericCloud.new (D := D) (S := S) (W := W) (G := G) ts node_id now conf s d pf stats w = Ok c ->
  steps (P := P) (fun _ _ => True) (mkEnv c b r) e -> staged (self e).
Proof.
  intros Hnew Hsteps. apply (steps_sound False (fun _ _ => True) (mkEnv c b r)); [done|done|]. by eapply new_sound.
Qed.

(** C11: as long as no housekeeping takes place while a second handshake is under way with a connected peer, the table routes to
    connected peers only: whatever [lookup] finds, by a claim or by the cache, is in [peers]. *)
Theorem routes_lead_to_peers e0 e now dst t addr :
  staged (self e0) -> routes (self e0) -> steps (P := P) undisturbed e0 e ->
  ClaimTable.lookup now dst (table (self e)) = (t, Some addr) -> is_Some (peers (self e) !! addr).
Proof.
  intros Hs Hr Hsteps Hl. assert (sound True (self e)) as [_ Hr'].
  { apply (steps_sound True undisturbed e0 e); [done|exact Hsteps|by split]. }
  by apply (routed_found (connected (self e)) now dst (table (self e)) t addr) in Hl as [? _]; [|apply Hr'].
Qed.

(** C15: the timers never end an established connection: after [crypto_housekeep], with or without an error, every peer that has no second
    handshake under way is still a peer. *)
Theorem timers_spare_peers now e e' r a :
  staged (self e) -> crypto_housekeep (D := D) (W := W) (G := G) now e = (e', r) -> r <> Panic ->
  is_Some (peers (self e) !! a) -> pending_inits (self e) !! a = None -> is_Some (peers (self e') !! a).
Proof.
  intros Hs Hh Hr Hp Hi. pose proof (crypto_housekeep_sound False now e (sound_False _ Hs) ltac:(done)) as Hw.
  unfold wp in Hw. rewrite Hh in Hw. destruct r as [[]|er|]; [by apply Hw..|done].
Qed.

(** But one that has such a handshake is ended with it: the peer is forgotten, and
    what it claimed is not. *)
Lemma drop_dead_forgets now a e e' r : staged (self e) -> drop_dead (D := D) (W := W) (G := G) now a e = (e', r) -> r <> Panic ->
  peers (self e') !! a = None /\ table (self e') = table (self e).
Proof.
  intros Hs Hd Hr.
  assert (wp (drop_dead (D := D) (W := W) (G := G) now a) (fun _ e' => peers (self e') !! a = None /\ table (self e') = table (self e))
    (fun _ e' => peers (self e') !! a = None /\ table (self e') = table (self e)) e) as Hw.
  { unfold drop_dead. apply wp_bind, wp_update, wp_bind, wp_field, wp_bind, wp_update. cbn [self out rng].
    set (c1 := set_peers _ _). assert (sound False c1) as Hc1.
    { destruct (sound_delete_pending False (self e) a (sound_False _ Hs)) as [[Hi Hp] _]. apply sound_False. split; [exact Hi|].
      intros b p. cbn. rewrite lookup_delete_Some. intros [_ Hb]. by eapply Hp. }
    case_decide; [|apply wp_ret; split; [apply lookup_delete_eq|done]].
    eapply wp_mono; [apply (starts_connect_sock False), Hc1| |]; intros ? e2 [_ (-> & -> & _)]; (split; [apply lookup_delete_eq|done]). }
  unfold wp in Hw. rewrite Hd in Hw. by destruct r.
Qed.

Lemma lookup_again now later d t t' a :
  ClaimTable.lookup now d t = (t', Some a) -> ClaimTable.lookup later d t' = (t', Some a).
Proof.
  unfold ClaimTable.lookup. destruct (ct_cache t !! Address.key d) as [v|] eqn:Hv; [intros [= <- <-]; by rewrite Hv|].
  destruct (ClaimTable.lookup_loop _ _ _ _) as [en|]; [|done]. intros [= <- <-]. cbn. by rewrite lookup_insert_eq.
Qed.

(** C35: a packet whose route leads to a node that is not connected is not only lost: [handle_interface_data] fails before
    it gets to remove the route and to connect again, so the next packet is lost the same way. *)
Theorem stale_route_blackholes now later e data src dst t addr :
  MsgBuffer.wf (out e) -> MsgBuffer.contents (out e) = data -> parse (P := P) data = Ok (src, dst) ->
  ClaimTable.lookup now dst (table (self e)) = (t, Some addr) -> peers (self e) !! addr = None ->
  exists e', handle_interface_data (D := D) (W := W) (G := G) (P := P) now e = (e', Err (EMessage "Sending to node that is not a peer")) /\
    peers (self e') = peers (self e) /\ pending_inits (self e') = pending_inits (self e) /\ out e' = out e /\
    ClaimTable.lookup later dst (table (self e')) = (table (self e'), Some addr).
Proof.
  intros Hb <- Hparse Hl Hp. destruct e as [c b r]. cbn [self out rng] in *. eexists. split; [|split_and!].
  { unfold handle_interface_data, msg_bytes, msg_len, on_traffic, update, on_out, on_self, zoom, gets, modify, lift, mbind, ST_bind.
    cbn [self out rng]. rewrite message_wf by done. rewrite Hparse. cbn [table set_traffic self out rng]. rewrite Hl.
    unfold send_msg, field, on_self, zoom, gets, mbind, ST_bind. cbn [self out rng set_table set_traffic peers]. rewrite Hp. reflexivity. }
  all: cbn; try done. by eapply lookup_again.
Qed.

(** While a second handshake is under way with a connected peer, nothing that peer seals is accepted any more: the message is given to the
    handshake, which has no key, and fails. *)
Theorem second_handshake_blocks now src e i x l :
  pending_inits (self e) !! mapped_addr src = Some i -> fresh i ->
  MsgBuffer.wf (out e) -> MsgBuffer.contents (out e) = x :: l -> x <> INIT_MESSAGE_FIRST_BYTE ->
  exists e', handle_net_message (W := W) (G := G) (P := P) now src e = (e', Err (InvalidCryptoState "Crypto core not ready yet")) /\
    peers (self e') = peers (self e) /\ pending_inits (self e') = pending_inits (self e) /\ device (self e') = device (self e) /\
    table (self e') = table (self e).
Proof.
  intros Hi (Hcore & Hun & _) Hb Hc Hx. destruct e as [c b r]. cbn [self out rng] in *.
  assert (PeerCrypto.handle_message (mkEnv i b r) = (mkEnv i b r, Err (InvalidCryptoState "Crypto core not ready yet"))) as Hm.
  { assert (MsgBuffer.is_empty b = false) as Hne.
    { apply not_true_is_false. intros He. apply (is_empty_contents b Hb) in He. congruence. }
    destruct (buffer_contents (E := Error) b Hb) as [rest Hbuf]. rewrite Hc in Hbuf.
    unfold PeerCrypto.handle_message, PeerCrypto.decrypt_message, PeerCrypto.in_core, PeerCrypto.get_core, on_out, on_self, zoom, gets, get, lift,
      mbind, ST_bind.
    cbn [self out rng]. rewrite Hne. cbn [self out rng]. rewrite Hbuf. cbn [app is_init_message]. rewrite bool_decide_eq_false_2 by done.
    cbn [self out rng]. rewrite Hun. cbn [self out rng]. rewrite Hcore. done. }
  eexists. split.
  { unfold handle_net_message. unfold mbind at 1, ST_bind at 1, on_self at 1, zoom at 1, get. cbn [self out rng]. rewrite Hi.
    unfold finish, catch, on_pending, on_part, zoom, mbind at 1, ST_bind at 1. cbn [self out rng]. rewrite Hm. cbn [self out rng].
    unfold count_invalid, msg_len, on_out, zoom, gets, mbind, ST_bind. reflexivity. }
  cbn. rewrite (insert_id (pending_inits c)) by done. done.
Qed.

End Consequences.

(** ** The hypotheses can hold *)

Definition toy_life : Env (GenericCloud MockDevice MockSocket ToySystem (list Z)) :=
  mkEnv toy_sender (MsgBuffer.new SPACE_BEFORE) (toy_rng 1).

Definition toy_secret : Config.Config :=
  Config.merge_file (ConfigFile.mkConfigFile None None None None None (mkCryptoConfig (Some "secret"%string) None None [] []) None None
    None None None None None None None None None None None None None None ∅) Config.default.

Definition toy_start : outcome Error (GenericCloud MockDevice MockSocket ToySystem (list Z)) :=
  GenericCloud.new (fun _ => 0) (toy_id 1) 10 toy_secret (MockSocket.new false (toy_addr 1)) (mkMockDevice [] []) None false ().

Lemma surroundings_refl {H : Ring} {D S W G} (c : GenericCloud D S W G) : surroundings c c.
Proof. exists (socket c), (device c), (outside c), (beacon_serializer c). by destruct c. Qed.

Lemma step_reconnect (e : Env (GenericCloud MockDevice MockSocket ToySystem (list Z))) :
  step (P := Packet) e (AddReconnectPeer 10 "other") (add_reconnect_peer 10 "other" e).1.
Proof. apply (step_event _ e e _ (Ok ())); [done|apply surroundings_refl|by destruct e|done]. Qed.

Lemma toy_staged peer c l d : staged (toy_cloud peer c l d).
Proof.
  split; [by intros a i; cbn; rewrite lookup_empty|]. intros a p. cbn. rewrite lookup_singleton_Some. intros [_ <-]. cbn.
  split; [done|]. by intros [? ?].
Qed.

Lemma connections_staged_witness :
  exists c, toy_start = Ok c /\ staged (self (add_reconnect_peer 10 "other" (mkEnv c (MsgBuffer.new SPACE_BEFORE) (toy_rng 1))).1).
Proof.
  assert (match toy_start with Ok _ => true | _ => false end = true) as Hok by (vm_compute; reflexivity).
  destruct toy_start as [c| |] eqn:Hc; [|discriminate Hok|discriminate Hok]. exists c. split; [reflexivity|].
  eapply (connections_staged (P := Packet) (fun _ => 0) (toy_id 1) 10 toy_secret (MockSocket.new false (toy_addr 1)) (mkMockDevice [] []) None false ()
    c (MsgBuffer.new SPACE_BEFORE) (toy_rng 1)); [exact Hc|].
  eapply steps_step; [|apply step_reconnect|apply steps_refl]. exact Logic.I.
Defined.

Lemma routes_lead_to_peers_witness :
  is_Some (peers (self (add_reconnect_peer 10 "other" toy_life).1) !! toy_addr 2).
Proof.
  eapply (routes_lead_to_peers (P := Packet) toy_life _ 10 (mkAddress (Address.pad [192; 168; 2; 7]) 4)).
  - apply toy_staged.
  - split; [|intros k v; cbn; by rewrite lookup_empty]. intros e [->|[]%elem_of_nil]%elem_of_cons. by eexists; apply lookup_singleton_eq.
  - eapply steps_step; [|apply step_reconnect|apply steps_refl]. exact Logic.I.
  - vm_compute. reflexivity.
Defined.

Lemma timers_spare_peers_witness :
  is_Some (peers (self (crypto_housekeep 10 toy_life).1) !! toy_addr 2).
Proof.
  assert (match (crypto_housekeep 10 toy_life).2 with Panic => false | _ => true end = true) as Hr by (vm_compute; reflexivity).
  destruct (crypto_housekeep 10 toy_life) as [e' r] eqn:Hh.
  apply (timers_spare_peers 10 toy_life e' r (toy_addr 2)).
  - apply toy_staged.
  - exact Hh.
  - intros Heq. rewrite Heq in Hr. discriminate Hr.
  - eexists. apply lookup_singleton_eq.
  - apply (lookup_empty (M := gmap SocketAddr)).
Defined.

(** A claim of a node that is not there, and a frame for it. *)
Definition toy_stale : Env (GenericCloud MockDevice MockSocket ToySystem (list Z)) :=
  mkEnv (set_peers ∅ (toy_cloud (toy_addr 2) (toy_core true) [mkClaimEntry (toy_addr 2) (mkRange (mkAddress (Address.pad []) 6) 0) 300]
      (mkMockDevice [] [])))
    (MsgBuffer.set_length 20 (MsgBuffer.new 0)) (toy_rng 1).

Lemma stale_route_blackholes_witness :
  (handle_interface_data (P := Frame) 10 toy_stale).2 = Err (EMessage "Sending to node that is not a peer").
Proof.
  destruct (stale_route_blackholes (P := Frame) 10 11 toy_stale (replicate 20 0) (mkAddress (replicate 16 0) 6) (mkAddress (replicate 16 0) 6)
    (ClaimTable.lookup 10 (mkAddress (replicate 16 0) 6) (table (self toy_stale))).1 (toy_addr 2)) as (e' & He & _).
  - apply set_length_wf; [apply new_wf|]; vm_compute; by split.
  - vm_compute. reflexivity.
  - vm_compute. reflexivity.
  - vm_compute. reflexivity.
  - apply (lookup_empty (M := gmap SocketAddr)).
  - rewrite He. reflexivity.
Defined.

(** A handshake begun with a connected peer. *)
Definition toy_shadowed : Env (GenericCloud MockDevice MockSocket ToySystem (list Z)) :=
  mkEnv (set_pending_inits {[toy_addr 2 := mkPeerCrypto (toy_id 1) None None false None 0]} toy_sender) toy_message (toy_rng 1).

Lemma second_handshake_blocks_witness :
  (handle_net_message (P := Packet) 10 (toy_addr 2) toy_shadowed).2 = Err (InvalidCryptoState "Crypto core not ready yet").
Proof.
  destruct (second_handshake_blocks (P := Packet) 10 (toy_addr 2) toy_shadowed (mkPeerCrypto (toy_id 1) None None false None 0) 1
    (tl (MsgBuffer.contents toy_message))) as (e' & He & _).
  - apply lookup_singleton_eq.
  - by split.
  - apply toy_message_wf.
  - vm_compute. reflexivity.
  - discriminate.
  - rewrite He. reflexivity.
Defined.
