(* ===== verification/Flooding.v ===== *)
(** * To every peer (src/src/cloud.rs)

    [broadcast_msg]: what a switch or a hub does with a packet whose destination it
    does not know, and how the others learn that a node stops. *)

From S2P Require Import Prelude Errors Util Types Table Traffic Payload Messages Device Net Forwarding.
From S2P Require Import Ring Core Rotate Init Handshake Peer Beacon Configuration Cloud Delivery Routing.

Import GenericCloud.

Section Flooding.
Context `{RingLaws} {W G P : Type} `{System W} `{Gateway G} `{SocketParsers} `{Protocol P}.

Abbreviation Node := (GenericCloud MockDevice MockSocket W G).
Implicit Types c : Node.

(** ** One peer of a broadcast *)

(** The buffer of the copies, when it holds its copy of [msg]. *)
Lemma copy_spec (msg b : MsgBuffer) : MsgBuffer.wf msg -> MsgBuffer.wf b ->
  exists b', MsgBuffer.put_message (E := Error) (MsgBuffer.contents msg) (MsgBuffer.set_length (MsgBuffer.len msg) (MsgBuffer.set_start (MsgBuffer.get_start msg) b)) = (b', Ok ()) /\
    MsgBuffer.wf b' /\ MsgBuffer.contents b' = MsgBuffer.contents msg /\ buf_start b' = buf_start msg.
Proof.
  intros Hm Hb. pose proof Hm as (_ & _ & Hm3 & Hm4 & Hm5). pose proof Hb as (Hb1 & Hb2 & Hb3 & Hb4 & Hb5).
  rewrite len_wf by done. unfold MsgBuffer.set_length, MsgBuffer.set_start, MsgBuffer.set_end, MsgBuffer.get_start. cbn [buf_start buf_end buf_data space_before].
  rewrite wrap64_small by (unfold BUFFER_SIZE in *; lia).
  destruct (put_message_spec (E := Error) (mkMsgBuffer (space_before b) (buf_data b) (buf_start msg) (buf_start msg + (buf_end msg - buf_start msg)))
    (MsgBuffer.contents msg)) as (b' & Hp & Hw & Hc & Hs & _).
  - unfold MsgBuffer.wf. cbn [buf_start buf_end buf_data space_before]. split_and!; try done; lia.
  - by apply contents_bytes_ok.
  - rewrite length_contents by done. cbn. lia.
  - by exists b'.
Qed.

Lemma broadcast_one_sends (Q : CryptoCore -> bytes -> Prop) now t msg a pd c b r :
  MsgBuffer.wf msg -> MsgBuffer.wf b -> peers c !! a = Some pd ->
  (forall m, MsgBuffer.wf m -> MsgBuffer.contents m = MsgBuffer.contents msg -> buf_start m = buf_start msg ->
    exists cx b', PeerCrypto.send_message t (mkEnv (pd_crypto pd) m r) = (mkEnv (PeerCrypto.set_core (Some cx) (pd_crypto pd)) b' r, Ok ()) /\
      MsgBuffer.wf b' /\ Q cx (MsgBuffer.contents b')) ->
  exists c' b' cx d, broadcast_one now t msg a (mkEnv c b r) = (mkEnv c' b' r, Ok ()) /\ MsgBuffer.wf b' /\ Q cx d /\
    ms_outbound (socket c') = ms_outbound (socket c) ++ [(a, d)] /\
    peers c' = <[a := Cloud.set_crypto (PeerCrypto.set_core (Some cx) (pd_crypto pd)) pd]> (peers c).
Proof.
  intros Hm Hb Hpd Hseal. destruct (copy_spec msg b Hm Hb) as (b1 & Hput & Hb1 & Hc1 & Hs1).
  destruct (Hseal b1 Hb1 Hc1 Hs1) as (cx & b2 & Hsend & Hb2 & HQ).
  set (c1 := set_peers (<[a := Cloud.set_crypto (PeerCrypto.set_core (Some cx) (pd_crypto pd)) pd]> (peers c)) c).
  set (c2 := set_traffic (TrafficStats.count_out_traffic a (MsgBuffer.len b2) (traffic c1)) c1).
  set (c3 := set_socket (MockSocket.send now (MsgBuffer.contents b2) a (socket c)).1 c2).
  exists c3, b2, cx, (MsgBuffer.contents b2). split.
  - unfold broadcast_one.
    set (b0 := MsgBuffer.set_length (MsgBuffer.len msg) (MsgBuffer.set_start (MsgBuffer.get_start msg) b)) in *.
    rewrite (bind_ok _ _ _ (mkEnv c (MsgBuffer.set_start (MsgBuffer.get_start msg) b) r) ()) by done.
    rewrite (bind_ok _ _ _ (mkEnv c b0 r) ()) by done.
    rewrite (bind_ok _ _ _ (mkEnv c b0 r) (MsgBuffer.contents msg)) by (unfold lift; by rewrite message_wf).
    rewrite (bind_ok _ _ _ (mkEnv c b1 r) ()) by (unfold on_out, zoom; cbn [self out rng]; by rewrite Hput).
    rewrite (bind_ok _ _ _ (mkEnv c b1 r) (peers c)) by done. rewrite Hpd.
    rewrite (bind_ok _ _ _ (mkEnv c1 b2 r) ()) by (rewrite on_peer_eq, Hsend; done).
    unfold GenericCloud.send_to. rewrite (bind_ok _ _ _ (mkEnv c1 b2 r) (MsgBuffer.len b2)) by done.
    rewrite (bind_ok _ _ _ (mkEnv c2 b2 r) ()) by done. rewrite (bind_ok _ _ _ _ _ (msg_bytes_eq c2 b2 r Hb2)).
    unfold send_datagram. rewrite (bind_ok _ _ _ (mkEnv c3 b2 r) (Ok (zlen (MsgBuffer.contents b2)))) by done.
    cbn beta iota. by rewrite decide_True.
  - split; [done|]. split; [done|]. split; [|done].
    unfold c3, MockSocket.send, modify. unfold mbind, ST_bind. cbn. by destruct (nat_ (socket c)).
Qed.

(** ** All of them *)

(** The ends of the node's connections and the other ends. *)
Context (core other : SocketAddr -> CryptoCore).

Definition all_can_send c : Prop := forall a pd, peers c !! a = Some pd -> can_send (pd_crypto pd) (core a) (other a).

(** A datagram for [a] that opens to the message; the connection it used is usable. *)
Definition told (packet : bytes) (t : Z) c (x : SocketAddr * bytes) : Prop :=
  exists cx pd, peers c !! x.1 = Some pd /\ secured (pd_crypto pd) cx /\ opens_to x.2 packet t cx (other x.1).

Lemma for_each_sends now t (msg : MsgBuffer) r addrs : MsgBuffer.wf msg -> buf_start msg = SPACE_BEFORE -> zlen (MsgBuffer.contents msg) <= 65000 ->
  is_u8 t -> t <> MESSAGE_TYPE_ROTATION -> NoDup addrs -> forall c b, MsgBuffer.wf b ->
  (forall a, a ∈ addrs -> exists pd, peers c !! a = Some pd /\ can_send (pd_crypto pd) (core a) (other a)) ->
  exists c' b' ds, for_each (broadcast_one now t msg) addrs (mkEnv c b r) = (mkEnv c' b' r, Ok ()) /\
    ms_outbound (socket c') = ms_outbound (socket c) ++ ds /\ ds.*1 = addrs /\ Forall (told (MsgBuffer.contents msg) t c') ds /\
    (forall a, a ∉ addrs -> peers c' !! a = peers c !! a).
Proof.
  intros Hm Hs Hlen Ht Hnt Hnd. induction Hnd as [|a addrs Ha Hnd IH]; intros c b Hb Hall.
  { exists c, b, []. rewrite app_nil_r. done. }
  destruct (Hall a) as (pd & Hpd & Hcan); [apply elem_of_cons; by left|].
  destruct (broadcast_one_sends (fun cx d => opens_to d (MsgBuffer.contents msg) t cx (other a)) now t msg a pd c b r Hm Hb Hpd)
    as (c1 & b1 & cx & d & Hone & Hb1 & Hopen & Hout & Hpeers).
  { intros m Hmw Hmc Hms. apply (packet_sealed _ (core a)); try done. by rewrite Hms. }
  assert (forall a', a' <> a -> peers c1 !! a' = peers c !! a') as Hother by (intros a' Ha'; by rewrite Hpeers, lookup_insert_ne).
  destruct (IH c1 b1 Hb1) as (c2 & b2 & ds & Hrest & Hout2 & Hds & Htold & Hsame).
  { intros a' Ha'. rewrite Hother by (intros ->; contradiction). apply Hall. apply elem_of_cons. by right. }
  exists c2, b2, ((a, d) :: ds). cbn [for_each]. rewrite (bind_ok _ _ _ _ _ Hone). split; [exact Hrest|].
  split; [rewrite Hout2, Hout, <- app_assoc; done|]. split; [cbn; by rewrite Hds|]. split.
  - constructor; [|done]. exists cx, (Cloud.set_crypto (PeerCrypto.set_core (Some cx) (pd_crypto pd)) pd). cbn [fst snd].
    rewrite (Hsame a Ha), Hpeers, lookup_insert_eq. split; [done|]. split; [split; [done|apply Hcan]|done].
  - intros a' Ha'. apply not_elem_of_cons in Ha' as [Hne Hni]. by rewrite Hsame, Hother.
Qed.

(** One datagram for every peer, in some order. *)
Definition tells_everyone (packet : bytes) (t : Z) c c' (ds : list (SocketAddr * bytes)) : Prop :=
  ms_outbound (socket c') = ms_outbound (socket c) ++ ds /\ ds.*1 ≡ₚ (map_to_list (peers c)).*1 /\ Forall (told packet t c') ds.

Lemma broadcast_sends now t c (msg : MsgBuffer) r : MsgBuffer.wf msg -> buf_start msg = SPACE_BEFORE -> zlen (MsgBuffer.contents msg) <= 65000 ->
  is_u8 t -> t <> MESSAGE_TYPE_ROTATION -> all_can_send c ->
  exists c' ds, broadcast_msg now t (mkEnv c msg r) = (mkEnv c' msg r, Ok ()) /\ tells_everyone (MsgBuffer.contents msg) t c c' ds.
Proof.
  intros Hm Hs Hlen Ht Hnt Hall. pose proof (new_wf 100 ltac:(unfold BUFFER_SIZE; lia)) as Hnew.
  destruct (for_each_sends now t msg r (map_to_list (peers c)).*1 Hm Hs Hlen Ht Hnt (NoDup_fst_map_to_list _) c (MsgBuffer.new 100) Hnew)
    as (c' & b' & ds & Heach & Hout & Hds & Htold & _).
  { intros a Ha. apply list_elem_of_fmap in Ha as ([a' pd] & -> & Hin). apply elem_of_map_to_list in Hin. exists pd. split; [done|by apply Hall]. }
  exists c', ds. split.
  - unfold broadcast_msg. rewrite (bind_ok _ _ _ (mkEnv c msg r) msg) by done.
    rewrite (bind_ok _ _ _ (mkEnv c msg r) (peers c)) by done. unfold with_buffer. cbn [self out rng]. by rewrite Heach.
  - split; [done|]. split; [by rewrite Hds|done].
Qed.

(** ** Packets for no one known *)

Lemma device_event_floods now c b r packet rest ps pdst :
  inbound (device c) = packet :: rest -> bytes_ok packet -> parse (P := P) packet = Ok (ps, pdst) ->
  (ClaimTable.lookup now pdst (table c)).2 = None -> broadcast c = true -> all_can_send c ->
  MsgBuffer.wf b -> space_before b = SPACE_BEFORE -> zlen packet <= 65000 ->
  exists c' b' ds, handle_device_event (P := P) now (mkEnv c b r) = (mkEnv c' b' r, Ok ()) /\ tells_everyone packet MESSAGE_TYPE_DATA c c' ds.
Proof.
  intros Hin Hpo Hparse Hlook Hbc Hall Hb Hsp Hlen.
  destruct (mock_read_spec (device c) b packet rest Hin Hb Hpo) as (b1 & Hread & Hb1 & Hc1 & Hs1 & _);
    [unfold SPACE_BEFORE, BUFFER_SIZE in *; lia|]. rewrite Hsp in Hs1.
  set (c1 := set_device (mkMockDevice rest (outbound (device c))) c).
  set (c2 := set_traffic (TrafficStats.count_out_payload pdst ps (MsgBuffer.len b1) (traffic c1)) c1).
  set (c3 := set_table (ClaimTable.lookup now pdst (table c)).1 c2).
  destruct (broadcast_sends now MESSAGE_TYPE_DATA c3 b1 r Hb1 Hs1) as (c4 & ds & Hsend & Htells);
    [by rewrite Hc1|done|done|exact Hall|].
  exists c4, b1, ds. rewrite Hc1 in Htells. split; [|exact Htells].
  unfold handle_device_event. rewrite (bind_ok _ _ _ (mkEnv c1 b1 r) ()).
  2: { unfold or_fail, on_device. cbn [self out rng]. unfold read, mock_device. by rewrite Hread. }
  unfold ignore_err. rewrite (bind_ok _ _ _ (mkEnv c4 b1 r) (Ok ())); [done|]. unfold catch.
  assert (handle_interface_data (P := P) now (mkEnv c1 b1 r) = (mkEnv c4 b1 r, Ok ())) as ->; [|done].
  unfold handle_interface_data. rewrite (bind_ok _ _ _ _ _ (msg_bytes_eq c1 b1 r Hb1)). rewrite Hc1.
  rewrite (bind_ok _ _ _ (mkEnv c1 b1 r) (ps, pdst)) by (unfold lift; by rewrite Hparse). cbn beta iota.
  rewrite (bind_ok _ _ _ (mkEnv c1 b1 r) (MsgBuffer.len b1)) by done.
  rewrite (bind_ok _ _ _ (mkEnv c2 b1 r) ()) by done.
  rewrite (bind_ok _ _ _ (mkEnv c3 b1 r) None).
  2: { unfold on_self, zoom. cbn [self out rng]. change (table c2) with (table c). unfold c3.
       destruct (ClaimTable.lookup now pdst (table c)) as [t' o]. cbn [fst snd] in *. by subst o. }
  cbn beta iota. rewrite (bind_ok _ _ _ (mkEnv c3 b1 r) (broadcast c)) by done. by rewrite Hbc.
Qed.

(** C3: a packet whose destination no peer claims leaves a broadcasting node as exactly
    one sealed datagram for every connected peer, and whichever of these arrives is
    written, unchanged, to the device of the node it is for; the two ends can go on. *)
Theorem packet_flooded now (ca : Node) ba ra packet rest ps pdst :
  inbound (device ca) = packet :: rest -> bytes_ok packet -> parse (P := P) packet = Ok (ps, pdst) ->
  (ClaimTable.lookup now pdst (table ca)).2 = None -> broadcast ca = true -> all_can_send ca ->
  MsgBuffer.wf ba -> space_before ba = SPACE_BEFORE -> zlen packet <= 65000 ->
  exists ca' ba' ds, handle_device_event (P := P) now (mkEnv ca ba ra) = (mkEnv ca' ba' ra, Ok ()) /\
    ms_outbound (socket ca') = ms_outbound (socket ca) ++ ds /\ ds.*1 ≡ₚ (map_to_list (peers ca)).*1 /\
    forall a d, (a, d) ∈ ds -> forall now' (cb : Node) bb rb addr_a pb, receives cb bb addr_a pb (other a) ->
      exists cb' bb', handle_socket_event (P := P) now' (mkEnv (arrived addr_a d cb) bb rb) = (mkEnv cb' bb' rb, Ok ()) /\
        outbound (device cb') = outbound (device cb) ++ [packet] /\
        exists pa' pb' cx cy, peers ca' !! a = Some pa' /\ peers cb' !! addr_a = Some pb' /\
          secured (pd_crypto pa') cx /\ secured (pd_crypto pb') cy /\ linked cx cy /\ linked cy cx.
Proof.
  intros Hin Hpo Hparse Hlook Hbc Hall Hba Hsp Hlen.
  destruct (device_event_floods now ca ba ra packet rest ps pdst) as (ca' & ba' & ds & Hdev & Hout & Hds & Htold); try done.
  exists ca', ba', ds. do 3 (split; [done|]). intros a d Hin' now' cb bb rb addr_a pb Hr.
  apply (proj1 (Forall_forall _ _) Htold) in Hin' as (cx & pa' & Hpa & Hsx & Hopen). cbn [fst snd] in *.
  destruct (datagram_delivered now' cb bb rb addr_a pb cx (other a) d packet ps pdst) as (cb' & bb' & Hsock & Hdevice & _ & pb' & cy & Hpb & Hsy & Hl); try done.
  exists cb', bb'. do 2 (split; [done|]). by exists pa', pb', cx, cy.
Qed.

(** ** The end of a node *)

Lemma close_received now (cb : Node) bb rb addr pb cx cy datagram :
  receives cb bb addr pb cy -> opens_to datagram [] MESSAGE_TYPE_CLOSE cx cy ->
  exists (cb' : Node) bb', handle_socket_event (P := P) now (mkEnv (arrived addr datagram cb) bb rb) = (mkEnv cb' bb' rb, Ok ()) /\
    peers cb' = delete addr (peers cb) /\ table cb' = ClaimTable.remove_claims now addr (table cb).
Proof.
  intros Hr Ho. destruct (datagram_opened now cb bb rb addr pb cx cy datagram [] MESSAGE_TYPE_CLOSE Hr Ho ltac:(done))
    as (m & cy' & b & _ & _ & Hb & Hc & Hevent).
  set (c3 := opened _ addr pb cy' _ []) in Hevent.
  set (c4 := set_table (ClaimTable.remove_claims now addr (table cb)) (set_peers (delete addr (peers c3)) c3)).
  destruct (call_hook "peer_disconnected" [("PEER", debug_addr addr); ("IFNAME", ifname (device c3)); ("NODE_ID", bytes_to_hex (pd_node_id pb))]%string
    (mkEnv c4 b rb)) as [e5 r5] eqn:Hhook.
  assert (e5 = mkEnv (self e5) b rb /\ r5 = Ok () /\ peers (self e5) = peers c4 /\ table (self e5) = table c4) as (He5 & -> & Hp5 & Ht5).
  { unfold call_hook, update, on_self, zoom, modify in Hhook. cbn in Hhook. destruct (Config.call_hook _ _ _); by injection Hhook as <- <-. }
  exists (self e5), b. rewrite <- He5. split.
  - apply Hevent. unfold GenericCloud.handle_message. do 3 rewrite decide_False by done. rewrite decide_True by done.
    unfold remove_peer. rewrite (bind_ok _ _ _ (mkEnv c3 b rb) c3) by done.
    assert (peers c3 !! addr = Some (Cloud.set_crypto (PeerCrypto.set_core (Some cy') (pd_crypto pb)) pb)) as -> by apply lookup_insert_eq.
    rewrite (bind_ok _ _ _ (mkEnv (set_peers (delete addr (peers c3)) c3) b rb) ()) by done.
    rewrite (bind_ok _ _ _ (mkEnv c4 b rb) ()) by done. exact Hhook.
  - rewrite Hp5, Ht5. split; [|done]. apply delete_insert_eq.
Qed.

(** What follows the broadcast only concerns the beacon file. *)
Lemma shutdown_sends now c b r : MsgBuffer.wf b -> space_before b = SPACE_BEFORE -> all_can_send c ->
  exists ds, tells_everyone [] MESSAGE_TYPE_CLOSE c (self (shutdown now (mkEnv c b r)).1) ds.
Proof.
  intros Hb Hsp Hall. unfold shutdown. rewrite (bind_ok _ _ _ (mkEnv c b r) (device c)) by done.
  destruct (hook_keeps "vpn_shutdown" [("IFNAME", ifname (device c))]%string c b r) as (w & Hw). rewrite (bind_ok _ _ _ _ _ Hw).
  set (c1 := set_outside w c). rewrite (bind_ok _ _ _ (mkEnv c1 (MsgBuffer.clear b) r) ()) by done.
  pose proof (clear_wf b Hb) as Hclear. destruct (clear_empty b Hb) as [Hempty Hstart].
  apply is_empty_contents in Hempty; [|done].
  destruct (broadcast_sends now MESSAGE_TYPE_CLOSE c1 (MsgBuffer.clear b) r Hclear) as (c2 & ds & Hsend & Htells);
    [by rewrite Hstart|by rewrite Hempty|done|done|exact Hall|]. rewrite Hempty in Htells.
  unfold ignore_err at 1. rewrite (bind_ok _ _ _ (mkEnv c2 (MsgBuffer.clear b) r) ()).
  2: { rewrite (bind_ok _ _ _ (mkEnv c2 (MsgBuffer.clear b) r) (Ok ())); [done|]. unfold catch. by rewrite Hsend. }
  rewrite (bind_ok _ _ _ (mkEnv c2 (MsgBuffer.clear b) r) c2) by done.
  exists ds. destruct (Config.beacon_store (config c2)) as [path|]; [|exact Htells].
  rewrite (bind_ok _ _ _ (mkEnv c2 (MsgBuffer.clear b) r) (path_exists path (outside c2)))
    by (unfold on_outside, on_self, zoom, gets; cbn [self out rng]; by rewrite outside_same).
  destruct (path_exists path (outside c2)); [|exact Htells].
  unfold catch, mbind, ST_bind, on_outside, on_self, zoom. cbn [self out rng].
  by destruct (remove_file path (outside c2)) as [w' []].
Qed.

(** C16: a node that ends tells every node it is connected to: one sealed datagram for
    each, and the node that gets it drops the connection and routes nothing to it
    any more. *)
Theorem shutdown_told now (ca : Node) ba ra : MsgBuffer.wf ba -> space_before ba = SPACE_BEFORE -> all_can_send ca ->
  exists ds, let ca' := self (shutdown now (mkEnv ca ba ra)).1 in
    ms_outbound (socket ca') = ms_outbound (socket ca) ++ ds /\ ds.*1 ≡ₚ (map_to_list (peers ca)).*1 /\
    forall a d, (a, d) ∈ ds -> forall now' (cb : Node) bb rb addr_a pb, 0 < now' -> receives cb bb addr_a pb (other a) ->
      exists cb' bb', handle_socket_event (P := P) now' (mkEnv (arrived addr_a d cb) bb rb) = (mkEnv cb' bb' rb, Ok ()) /\
        peers cb' = delete addr_a (peers cb) /\ forall now'' dst, (ClaimTable.lookup now'' dst (table cb')).2 <> Some addr_a.
Proof.
  intros Hb Hsp Hall. destruct (shutdown_sends now ca ba ra Hb Hsp Hall) as (ds & Hout & Hds & Htold).
  exists ds. cbv zeta. do 2 (split; [done|]). intros a d Hin now' cb bb rb addr_a pb Hnow Hr.
  apply (proj1 (Forall_forall _ _) Htold) in Hin as (cx & _ & _ & _ & Hopen). cbn [fst snd] in *.
  destruct (close_received now' cb bb rb addr_a pb cx (other a) d Hr Hopen) as (cb' & bb' & Hsock & Hpeers & Htab).
  exists cb', bb'. do 2 (split; [done|]). intros now'' dst Hl. rewrite Htab in Hl.
  destruct (ClaimTable.lookup now'' dst (ClaimTable.remove_claims now' addr_a (table cb))) as [t' o] eqn:Heq. cbn [snd] in Hl. subst o.
  apply (routed_found (fun p => True /\ p <> addr_a)) in Heq as [[_ Hne] _]; [done|].
  apply routed_remove_claims; [done|]. by split.
Qed.

End Flooding.

(** ** The hypotheses can hold *)

(** A switch with two peers and a packet for neither. *)
Definition toy_switch : GenericCloud MockDevice MockSocket ToySystem (list Z) :=
  let c := toy_cloud (toy_addr 2) (toy_core true) [] (mkMockDevice [toy_packet] []) in
  set_peers (<[toy_addr 3 := mkPeerData toy_ring [] 0 300 300 (toy_id 3) (toy_ready_peer (toy_core true))]> (peers c)) c.

Lemma toy_can_send : can_send (toy_ready_peer (toy_core true)) (toy_core true) (toy_core false).
Proof.
  split; [by split|]. split; [exact (toy_linked true)|]. split; [exact (toy_linked false)|].
  eapply (new_nonce_left toy_key true (toy_rng 3)). vm_compute. reflexivity.
Qed.

Lemma toy_all_can_send : all_can_send (fun _ => toy_core true) (fun _ => toy_core false) toy_switch.
Proof.
  intros a pd. unfold toy_switch. cbn [peers set_peers toy_cloud]. rewrite lookup_insert. case_decide.
  - intros [= <-]. exact toy_can_send.
  - rewrite lookup_singleton. case_decide; [|done]. intros [= <-]. exact toy_can_send.
Qed.

Lemma toy_new_buffer : MsgBuffer.wf (MsgBuffer.new SPACE_BEFORE).
Proof. apply new_wf. unfold SPACE_BEFORE, BUFFER_SIZE. lia. Qed.

Lemma packet_flooded_witness : exists ca' ba' (ds : list (SocketAddr * bytes)),
  handle_device_event (P := Packet) 10 (mkEnv toy_switch (MsgBuffer.new SPACE_BEFORE) (toy_rng 1)) = (mkEnv ca' ba' (toy_rng 1), Ok ()) /\
  ds.*1 ≡ₚ (map_to_list (peers toy_switch)).*1.
Proof.
  destruct (packet_flooded (P := Packet) (fun _ => toy_core true) (fun _ => toy_core false) 10 toy_switch (MsgBuffer.new SPACE_BEFORE) (toy_rng 1) toy_packet []
    (mkAddress (Address.pad [192; 168; 1; 1]) 4) (mkAddress (Address.pad [192; 168; 2; 7]) 4)) as (ca' & ba' & ds & Hd & _ & Hds & _).
  - reflexivity.
  - apply (bool_decide_unpack _). vm_compute. exact I.
  - vm_compute. reflexivity.
  - vm_compute. reflexivity.
  - reflexivity.
  - exact toy_all_can_send.
  - exact toy_new_buffer.
  - exact eq_refl.
  - vm_compute. discriminate.
  - exists ca', ba', ds. split; [exact Hd|exact Hds].
Defined.

Lemma shutdown_told_witness : exists ds : list (SocketAddr * bytes), ms_outbound (socket (self (shutdown 10 (mkEnv toy_switch (MsgBuffer.new SPACE_BEFORE) (toy_rng 1))).1)) = ds /\
  ds.*1 ≡ₚ (map_to_list (peers toy_switch)).*1.
Proof.
  destruct (shutdown_told (P := Packet) (fun _ => toy_core true) (fun _ => toy_core false) 10 toy_switch (MsgBuffer.new SPACE_BEFORE) (toy_rng 1)
    toy_new_buffer eq_refl toy_all_can_send) as (ds & Hout & Hds & _).
  exists ds. split; [exact Hout|exact Hds].
Defined.
