(* ===== verification/Periods.v ===== *)
(** * Intervals of the periodic work (src/src/cloud.rs)

    When a node tries again to reach a configured peer, and how often it announces
    itself to the peers it has. *)

From S2P Require Import Prelude Errors Util Types Table Traffic Payload Messages Device Net Forwarding.
From S2P Require Import Ring Core Rotate Init Handshake Peer Beacon Configuration Cloud.

Import GenericCloud.

(** ** Reconnecting *)

(** What every entry of [reconnect_peers] satisfies. *)
Definition entry_ok (e : ReconnectEntry) : Prop := 0 <= re_tries e <= 10 /\ 1 <= re_timeout e <= MAX_RECONNECT_INTERVAL.

Section Schedule.
Variable resolve_host : string -> option (list SocketAddr).
Implicit Types e : ReconnectEntry.

(** Tries and timeout after an attempt. *)
Definition backoff (tries timeout : Z) : Z * Z :=
  if decide (tries = 10) then (0, Z.min (2 * timeout) MAX_RECONNECT_INTERVAL) else (tries + 1, timeout).

(** The entry with its names resolved anew. *)
Definition renewed e e' : Prop :=
  re_tries e' = re_tries e /\ re_timeout e' = re_timeout e /\ re_next e' = re_next e /\ re_final_timeout e' = re_final_timeout e.

Lemma schedule_cases now connected e : exists e1,
  renewed (if existsb connected (re_resolved e)
           then mkReconnectEntry (re_address e) (re_resolved e) 0 1 (now + 1) (re_final_timeout e) else e) e1 /\
  (now < re_next e1 -> schedule now connected resolve_host e = e1) /\
  (re_next e1 <= now -> entry_ok e1 ->
    let '(tries, timeout) := backoff (re_tries e1) (re_timeout e1) in
    schedule now connected resolve_host e = mkReconnectEntry (re_address e1) (re_resolved e1) tries timeout (now + timeout) (re_final_timeout e1)).
Proof.
  unfold schedule. set (e0 := if existsb _ _ then _ else e). clearbody e0. set (e1 := match re_address e0 with Some _ => _ | None => _ end).
  exists e1. split; [|split].
  - unfold e1, renewed. destruct (re_address e0) as [[a t]|]; [|done]. by case_decide.
  - intros Hn. by rewrite decide_True by done.
  - intros Hn [Ht Hm]. rewrite decide_False by lia. unfold MAX_RECONNECT_INTERVAL in *. unfold backoff.
    rewrite (wrap_small 16 (re_tries e1 + 1)) by lia. rewrite (wrap_small 16 (re_timeout e1 * 2)) by lia.
    destruct (decide (re_tries e1 = 10)) as [->|Hne]; [rewrite decide_True by lia|rewrite decide_False by lia].
    + unfold MAX_RECONNECT_INTERVAL. case_decide; do 2 f_equal; lia.
    + by rewrite decide_False by lia.
Qed.

Lemma backoff_ok tries timeout : 0 <= tries <= 10 -> 1 <= timeout <= MAX_RECONNECT_INTERVAL ->
  0 <= (backoff tries timeout).1 <= 10 /\ 1 <= (backoff tries timeout).2 <= MAX_RECONNECT_INTERVAL.
Proof. intros. unfold backoff, MAX_RECONNECT_INTERVAL in *. case_decide; cbn; lia. Qed.

(** A pass of [reconnect_to_peers] keeps the tries and the timeout of an entry within their bounds; a due entry is put off into the
    future, and never by more than an hour. *)
Theorem reconnect_bounds now connected e :
  entry_ok e -> let e' := schedule now connected resolve_host e in
  entry_ok e' /\ (re_next e <= now -> now < re_next e' <= now + MAX_RECONNECT_INTERVAL) /\
  re_next e' <= Z.max (re_next e) (now + MAX_RECONNECT_INTERVAL).
Proof.
  intros He e'. destruct (schedule_cases now connected e) as (e1 & (H1 & H2 & H3 & _) & Hlater & Hdue). fold e' in Hlater, Hdue.
  assert (entry_ok e1 /\ (re_next e1 = re_next e \/ re_next e1 = now + 1)) as [Hok Hn].
  { unfold entry_ok, MAX_RECONNECT_INTERVAL in *. destruct (existsb _ _); cbn in *; lia. }
  unfold MAX_RECONNECT_INTERVAL in *. destruct (decide (now < re_next e1)).
  - rewrite Hlater by done. split; [done|lia].
  - specialize (Hdue ltac:(lia) Hok). pose proof (backoff_ok (re_tries e1) (re_timeout e1) (proj1 Hok) (proj2 Hok)) as [Hb1 Hb2].
    destruct (backoff _ _) as [tries timeout]. rewrite Hdue. unfold entry_ok, MAX_RECONNECT_INTERVAL in *. cbn in *. lia.
Qed.

(** An attempt at the time it is due, with nobody there. *)
Definition attempt e : ReconnectEntry := schedule (re_next e) (fun _ => false) resolve_host e.

Lemma attempt_spec e : entry_ok e ->
  re_tries (attempt e) = (backoff (re_tries e) (re_timeout e)).1 /\ re_timeout (attempt e) = (backoff (re_tries e) (re_timeout e)).2 /\
  re_next (attempt e) = re_next e + re_timeout (attempt e).
Proof.
  intros He. unfold attempt. destruct (schedule_cases (re_next e) (fun _ => false) e) as (e1 & (H1 & H2 & H3 & _) & _ & Hdue).
  assert (existsb (fun _ : SocketAddr => false) (re_resolved e) = false) as Hex by (clear; induction (re_resolved e) as [|x l IH]; [reflexivity|exact IH]). rewrite Hex in *.
  specialize (Hdue ltac:(lia)). rewrite H1, H2 in Hdue. unfold entry_ok in *. rewrite H1, H2 in Hdue. specialize (Hdue He).
  destruct (backoff _ _) as [tries timeout]. by rewrite Hdue.
Qed.

Lemma attempts_spec n e : entry_ok e -> re_tries e = 0 -> Z.of_nat n <= 10 ->
  let e' := Nat.iter n attempt e in
  entry_ok e' /\ re_tries e' = Z.of_nat n /\ re_timeout e' = re_timeout e /\ re_next e' = re_next e + Z.of_nat n * re_timeout e.
Proof.
  intros He Ht. induction n as [|n IH]; intros Hn; [cbn; split_and!; first [done|lia]|]. rewrite Nat.iter_succ.
  destruct (IH ltac:(lia)) as (Hok & H1 & H2 & H3). set (e1 := Nat.iter n attempt e) in *.
  destruct (attempt_spec e1 Hok) as (A1 & A2 & A3). unfold backoff in A1, A2. rewrite decide_False in A1, A2 by lia. cbn in A1, A2.
  unfold entry_ok in *. rewrite A3, A1, A2. rewrite H2. split_and!; lia.
Qed.

Lemma eleven_attempts e :
  entry_ok e -> re_tries e = 0 -> forall e', e' = attempt (Nat.iter 10 attempt e) ->
  re_tries e' = 0 /\ re_timeout e' = Z.min (2 * re_timeout e) MAX_RECONNECT_INTERVAL /\
  re_next e' = re_next e + 10 * re_timeout e + re_timeout e'.
Proof.
  intros He Ht e'. destruct (attempts_spec 10 e He Ht ltac:(lia)) as (Hok & H1 & H2 & H3).
  generalize dependent (Nat.iter 10 attempt e). intros e1 Hok H1 H2 H3 ->.
  destruct (attempt_spec e1 Hok) as (A1 & A2 & A3). unfold backoff in A1, A2. rewrite decide_True in A1, A2 by lia. cbn [fst snd] in A1, A2.
  rewrite A3, A1, A2, H2, H3. split; [done|]. split; lia.
Qed.

(** Exponential back-off: eleven attempts in a row that reach nobody double the timeout, up to an hour, and take ten times the old and once the
    new timeout. *)
Theorem reconnect_backoff e :
  entry_ok e -> re_tries e = 0 -> let e' := Nat.iter 11 attempt e in
  re_tries e' = 0 /\ re_timeout e' = Z.min (2 * re_timeout e) MAX_RECONNECT_INTERVAL /\
  re_next e' = re_next e + 10 * re_timeout e + re_timeout e'.
Proof. intros He Ht. apply (eleven_attempts e He Ht). exact (Nat.iter_succ 10 attempt e). Qed.

End Schedule.

Lemma reconnect_bounds_witness :
  entry_ok (schedule 7 (fun _ => false) (fun _ => None) (mkReconnectEntry None [] 10 3000 5 None)).
Proof.
  apply (reconnect_bounds (fun _ => None) 7 (fun _ => false) (mkReconnectEntry None [] 10 3000 5 None)).
  unfold entry_ok, MAX_RECONNECT_INTERVAL. cbn. lia.
Defined.

Lemma reconnect_backoff_witness :
  re_timeout (Nat.iter 11 (attempt (fun _ => None)) (mkReconnectEntry None [] 0 1 5 None)) = 2.
Proof.
  apply (reconnect_backoff (fun _ => None) (mkReconnectEntry None [] 0 1 5 None)); [|reflexivity].
  unfold entry_ok, MAX_RECONNECT_INTERVAL. cbn. lia.
Defined.

(** ** Announcing *)

Section Interval.
Context `{Ring} {D S W G : Type}.
Implicit Types c : GenericCloud D S W G.

Lemma fold_min_le l t : Forall (fun x => fold_right Z.min t l <= x) (t :: l).
Proof.
  induction l as [|x l IH]; cbn; [by repeat constructor|]. apply Forall_cons in IH as [Ht Hl].
  repeat constructor; try lia. eapply Forall_impl; [exact Hl|]. cbn. lia.
Qed.

Lemma min_peer_timeout_le c a p : peers c !! a = Some p -> min_peer_timeout c <= pd_peer_timeout p.
Proof.
  intros Hp. unfold min_peer_timeout.
  assert (pd_peer_timeout p ∈ (fun x : SocketAddr * PeerData => pd_peer_timeout x.2) <$> map_to_list (peers c)) as Hin.
  { apply list_elem_of_fmap. exists (a, p). split; [done|]. by apply elem_of_map_to_list. }
  destruct (_ <$> _) as [|t l]; [by apply elem_of_nil in Hin|].
  pose proof (fold_min_le l t) as Hf. rewrite Forall_forall in Hf. by apply Hf.
Qed.

(** C36: a node announces itself to every peer that keeps it for two minutes or more at least twice within the time that peer keeps it, and
    always at intervals of at least a second; with a peer whose timeout is below two minutes the interval underflows and only the node's own
    keepalive bounds it. *)
Theorem announced_in_time c a p :
  peers c !! a = Some p -> (forall b q, peers c !! b = Some q -> 0 <= pd_peer_timeout q < 65536) ->
  1 <= update_freq c < 60000 ->
  1 <= peer_list_interval c <= update_freq c /\
  (120 <= min_peer_timeout c -> peer_list_interval c <= Z.max (pd_peer_timeout p / 2 - 60) 1) /\
  (0 <= min_peer_timeout c < 120 -> peer_list_interval c = update_freq c).
Proof.
  intros Hp Hall Hf. pose proof (min_peer_timeout_le c a p Hp) as Hle. pose proof (Hall a p Hp) as Hr. unfold peer_list_interval.
  split; [|split].
  - lia.
  - intros Hm. rewrite wrap_small by (Z.div_mod_to_equations; lia).
    assert (min_peer_timeout c / 2 <= pd_peer_timeout p / 2) by (by apply Z.div_le_mono). lia.
  - intros Hm. unfold wrap. replace ((min_peer_timeout c / 2 - 60) mod 2 ^ 16) with (min_peer_timeout c / 2 - 60 + 2 ^ 16).
    + assert (0 <= min_peer_timeout c / 2) by (apply Z.div_pos; lia). lia.
    + apply (Z.mod_unique _ _ (-1)); [left|]; Z.div_mod_to_equations; lia.
Qed.

End Interval.

Lemma announced_in_time_witness :
  1 <= peer_list_interval (toy_cloud (toy_addr 2) (toy_core true) [] (mkMockDevice [] [])) <= 90.
Proof.
  destruct (announced_in_time (toy_cloud (toy_addr 2) (toy_core true) [] (mkMockDevice [] [])) (toy_addr 2)
    (mkPeerData toy_ring [] 0 300 300 (toy_id 2) (toy_ready_peer (toy_core true)))) as [Hb _].
  - apply lookup_singleton_eq.
  - intros b q. cbn [toy_cloud peers]. rewrite lookup_singleton_Some. intros [_ <-]. cbn. lia.
  - cbn. lia.
  - exact Hb.
Defined.
