(* ===== verification/Rekey.v ===== *)
(** * Key rotation inside a connection (src/src/crypto/common.rs)

    [PeerCrypto] drives a [RotationState] once in a while, puts the keys it gives
    into the core, and sends its messages sealed. Here two such connections are
    related to the two rotating nodes of Rotate: whatever they do, the nodes can do
    too. So the keys of their cores agree. *)

From S2P Require Import Prelude Errors Util Types Messages Ring Core Rotate Init Handshake Peer.
From S2P Require Import Triples Stages.

Import RotationState.

Section Rekey.
Context `{RingLaws} {P : Type} `{Payload P}.
Implicit Types (i : PeerCrypto P) (n : Node) (s : RotationState).

(** ** The rotation alone, in any buffer *)

Definition room_for_rotation (b : MsgBuffer) : Prop := MsgBuffer.wf b /\ MsgBuffer.is_empty b = true /\ buf_start b <= 1000.

(** What [cycle] needs of a state. *)
Definition cycle_ok s : Prop :=
  (forall p, proposed s = Some p -> RotationMessage.wf (proposal s p)) /\
  (forall k c, pending s = Some (k, c) -> key32 c /\ length k = 32%nat) /\
  0 <= message_id s < 2 ^ 64 - 2.

(** The buffer afterwards holds the message, if there is one. *)
Definition written (b b' : MsgBuffer) (o : option bytes) : Prop :=
  MsgBuffer.wf b' /\ buf_start b' = buf_start b /\
  match o with
  | Some m => MsgBuffer.is_empty b' = false /\ MsgBuffer.contents b' = m /\ zlen m <= 600
  | None => b' = b
  end.

Lemma cycle_any s r : cycle_ok s -> exists s' r' rk o,
  (forall k, rk = Some k -> length (rk_key k) = 32%nat) /\
  forall b, room_for_rotation b -> exists b', cycle (E := Error) (mkEnv s b r) = (mkEnv s' b' r', Ok rk) /\ written b b' o.
Proof.
  intros (Hprop & Hpend & Hid). destruct (proposed s) as [p|] eqn:Hp.
  - destruct (timeout s) eqn:Ht.
    + exists s, r, None, (Some (RotationMessage.enc (proposal s p))). split; [done|]. intros b (Hw & He & Hs).
      destruct (send_into (proposal s p) b (Hprop p eq_refl) Hw He Hs) as (b' & Hb' & Hne & Hc & Hw' & Hs' & Hl). exists b'.
      split; [|by split_and!]. unfold cycle, mbind, ST_bind, on_self, on_out, zoom, get. cbn [self out rng]. rewrite Hp, Ht.
      unfold proposal in Hb'. destruct (confirmed s) as [[c j]|]; cbn [self out rng]; rewrite Hb'; reflexivity.
    + exists (set_timeout true s), r, None, None. split; [done|]. intros b (Hw & _ & _). exists b. split; [|by split_and!].
      unfold cycle, mbind, ST_bind, on_self, zoom, get. cbn [self out rng]. rewrite Hp, Ht. reflexivity.
  - destruct (pending s) as [[k c]|] eqn:Hk.
    2: { exists s, r, None, None. split; [done|]. intros b (Hw & _ & _). exists b. split; [|by split_and!].
         unfold cycle, mbind, ST_bind, on_self, zoom, get. cbn [self out rng]. rewrite Hp, Hk. reflexivity. }
    destruct (Hpend k c eq_refl) as [Hc Hkl]. destruct (ecdh_generate r) as [p r'] eqn:Hg.
    set (j := message_id s + 2). exists (mkRotationState _ (Some (c, j)) None (Some p) j (timeout s)), r', (Some (mkRotatedKey k j false)),
      (Some (RotationMessage.enc (mkRotationMessage j (compute_public_key p) (Some c)))).
    split; [by intros ? [= <-]|]. intros b (Hw & He & Hs).
    destruct (send_into (mkRotationMessage j (compute_public_key p) (Some c)) b) as (b' & Hb' & Hne & Hcont & Hw' & Hs' & Hl); try done.
    { apply message_wf32; [unfold is_u64, j; lia|apply public_key32|by intros ? [= <-]]. }
    exists b'. split; [|by split_and!].
    unfold cycle, mbind, ST_bind, on_self, on_out, on_rng, zoom, get, gets, modify, create_key. cbn [self out rng]. rewrite Hp, Hk.
    cbn [set_pending set_message_id message_id confirmed pending proposed timeout self out rng]. rewrite Hg. cbn [self out rng].
    rewrite wrap_small by lia. fold j. rewrite Hb'. reflexivity.
Qed.

Lemma new_room : room_for_rotation (MsgBuffer.new 100).
Proof.
  split; [apply new_wf; unfold BUFFER_SIZE; lia|]. split; [apply bool_decide_eq_true_2; exact eq_refl|].
  change (buf_start (MsgBuffer.new 100)) with 100. lia.
Qed.

(** The cycle of a node, and the same in a given buffer. *)
Lemma node_cycle_any n b : cycle_ok (rot n) -> room_for_rotation b -> exists s' r' rk o b',
  cycle (E := Error) (mkEnv (rot n) b (rnd n)) = (mkEnv s' b' r', Ok rk) /\
  node_cycle n = Some (install rk (mkNode s' (slot n) (sending n) r'), o) /\
  written b b' o /\ (forall k, rk = Some k -> length (rk_key k) = 32%nat).
Proof.
  intros Hok Hb. destruct (cycle_any (rot n) (rnd n) Hok) as (s' & r' & rk & o & Hrk & Hc).
  destruct (Hc b Hb) as (b' & Hcb & Hw). destruct (Hc _ new_room) as (b0 & Hc0 & Hw0).
  exists s', r', rk, o, b'. split; [exact Hcb|]. split; [|by split]. unfold node_cycle. rewrite Hc0. cbn [self out rng]. f_equal. f_equal.
  destruct Hw0 as (_ & _ & Ho). destruct o as [m|]; [destruct Ho as (-> & -> & _); done|]. rewrite Ho. by destruct new_room as (_ & -> & _).
Qed.

(** Messages are processed without the buffer. *)
Lemma process_any msg s b b0 r :
  process_message (E := Error) msg (mkEnv s b r) =
    let '(e, o) := process_message (E := Error) msg (mkEnv s b0 r) in (mkEnv (self e) b (rng e), o).
Proof.
  unfold process_message, mbind, ST_bind, on_self, on_rng, zoom, gets, modify, create_key, lift, throw. cbn [self out rng].
  case_decide; [done|]. cbn [self out rng]. destruct (ecdh_generate r) as [p r']. cbn [self out rng].
  unfold derive_key. destruct (agree_ephemeral p (propose msg)) as [k|]; cbn [unwrap self out rng]; [|done].
  destruct (confirm msg) as [c|]; [|done]. cbn [self out rng]. destruct (proposed _) as [q|]; [|done]. cbn [self out rng].
  by destruct (agree_ephemeral q c).
Qed.

Lemma handle_any m s b b0 r :
  handle_message m (mkEnv s b r) = let '(e, o) := handle_message m (mkEnv s b0 r) in (mkEnv (self e) b (rng e), o).
Proof.
  unfold handle_message, mbind, ST_bind, lift. destruct (ok_or _ _) as [[msg rest]|er|]; [|done|done]. apply process_any.
Qed.

Lemma handle_key32 m e e' k : handle_message m e = (e', Ok (Some k)) -> length (rk_key k) = 32%nat.
Proof.
  unfold handle_message, mbind, ST_bind, lift. destruct (ok_or _ _) as [[msg rest]|er|]; [|done|done].
  unfold process_message, mbind, ST_bind, on_self, on_rng, zoom, gets, modify, create_key, lift. cbn [self out rng].
  case_decide; [done|]. cbn [self out rng]. destruct (ecdh_generate _) as [p r']. cbn [self out rng].
  unfold derive_key. destruct (agree_ephemeral p (propose msg)) as [k0|]; cbn [unwrap self out rng]; [|done].
  destruct (confirm msg) as [c|]; [|done]. cbn [self out rng]. destruct (proposed _) as [q|]; [|done]. cbn [self out rng].
  destruct (agree_ephemeral q c) as [k1|] eqn:Hk; [|done]. cbn. intros [= _ <-]. cbn. by eapply agree_len.
Qed.

(** What follows a message in the buffer does not matter. *)
Lemma handle_rest msg rest e : RotationMessage.wf msg ->
  handle_message (RotationMessage.enc msg ++ rest) e = handle_message (RotationMessage.enc msg) e.
Proof.
  intros Hm. unfold handle_message, mbind, ST_bind, lift. rewrite read_rotation by done.
  rewrite <- (app_nil_r (RotationMessage.enc msg)) at 1. by rewrite read_rotation.
Qed.

End Rekey.

(** ** A connection as a rotating node *)

Section Node.
Context `{RingLaws} {P : Type} `{Payload P}.
Implicit Types (i : PeerCrypto P) (n : Node) (c : CryptoCore).

(** The four slots hold the keys of the node, cut to the length the algorithm
    takes. *)
Definition holds (algo : Algorithm) (slot : Z -> bytes) c : Prop :=
  length (keys c) = 4%nat /\ 0 <= current_key c < 4 /\
  forall j k, keys c !! j = Some k -> ck_key k = mkLessSafeKey algo (take (key_len algo) (slot (Z.of_nat j))).

Definition represents (algo : Algorithm) i n : Prop :=
  pc_unencrypted i = false /\ pc_rotation i = Some (rot n) /\
  exists c, pc_core i = Some c /\ holds algo (slot n) c /\ current_key c = sending n.

Lemma represents_rnd algo i n r : represents algo i n -> represents algo i (with_rnd r n).
Proof. done. Qed.

(** The same keys, whatever else has changed. *)
Definition same_keys i (j : PeerCrypto P) : Prop :=
  pc_unencrypted i = pc_unencrypted j /\ pc_rotation i = pc_rotation j /\
  match pc_core i, pc_core j with
  | Some c, Some d => ck_key <$> keys c = ck_key <$> keys d /\ current_key c = current_key d
  | None, None => True
  | _, _ => False
  end.

Lemma represents_same algo i (j : PeerCrypto P) n : represents algo i n -> same_keys i j -> represents algo j n.
Proof.
  intros (Hu & Hr & c & Hc & (Hl & Hcur & Hk) & Hs) (Hu' & Hr' & Hcore). rewrite Hc in Hcore. destruct (pc_core j) as [d|] eqn:Hd; [|done].
  destruct Hcore as [Hkeys Hcur']. split; [congruence|]. split; [congruence|]. exists d. split; [exact Hd|].
  assert (length (keys d) = length (keys c)) as Hld by (apply (f_equal length) in Hkeys; by rewrite !length_fmap in Hkeys).
  split; [|congruence]. split; [congruence|]. split; [lia|]. intros x k Hx.
  apply (f_equal (fun l => l !! x)) in Hkeys. rewrite !list_lookup_fmap, Hx in Hkeys. cbn in Hkeys.
  destruct (keys c !! x) as [k'|] eqn:Hx'; [|done]. cbn in Hkeys. injection Hkeys as <-. by apply Hk.
Qed.

(** *** A rotated key goes into the core *)

Lemma key_new_any {E} key half r : exists k r', CryptoKey.new (E := E) key half r = (r', Ok k) /\ ck_key k = key.
Proof.
  unfold CryptoKey.new, Nonce.random, random_data, random, mbind, ST_bind. destruct (fill _ r) as [bs r']. by eexists _, _.
Qed.

(** What becomes of a core when a rotated key is put into it. *)
Definition put_in (algo : Algorithm) (rk : option RotatedKey) c c' : Prop :=
  match rk with
  | None => c' = c
  | Some rot => exists k, fresh_key (nonce_half c) k /\ ck_key k = mkLessSafeKey algo (take (key_len algo) (rk_key rot)) /\
      c' = (if use_for_sending rot then CryptoCore.set_current_key (rk_id rot mod 4) else fun c => c) (CryptoCore.set_key (rk_id rot mod 4) k c)
  end.

Lemma rotate_key_put algo c b r rot : exists c' r',
  CryptoCore.rotate_key (E := Error) (mkLessSafeKey algo (take (key_len algo) (rk_key rot))) (rk_id rot) (use_for_sending rot) (mkEnv c b r) =
    (mkEnv c' b r', Ok ()) /\ put_in algo (Some rot) c c'.
Proof.
  unfold CryptoCore.rotate_key, mbind, ST_bind, on_self, on_rng, zoom, gets, modify. cbn [self out rng].
  destruct (key_new_fresh (E := Error) (mkLessSafeKey algo (take (key_len algo) (rk_key rot))) (nonce_half c) r) as (k & r' & Hn & Hkey & Hf). rewrite Hn. cbn [self out rng].
  destruct (use_for_sending rot) eqn:Hu; cbn [self out rng]; eexists _, r'; (split; [reflexivity|]); exists k; by rewrite Hu.
Qed.

Lemma put_in_holds algo sl c c' rot : holds algo sl c -> put_in algo (Some rot) c c' ->
  holds algo (fun j => if decide (j = rk_id rot mod 4) then rk_key rot else sl j) c' /\
  current_key c' = (if use_for_sending rot then rk_id rot mod 4 else current_key c).
Proof.
  intros (Hl & Hcur & Hk) (k & _ & Hkey & ->). set (j0 := rk_id rot mod 4). pose proof (Z.mod_pos_bound (rk_id rot) 4 ltac:(lia)) as Hid. fold j0 in Hid.
  assert (holds algo (fun j => if decide (j = j0) then rk_key rot else sl j) (CryptoCore.set_key j0 k c)) as Hset.
  { split; [cbn; by rewrite length_insert|]. split; [exact Hcur|]. intros j k' Hj. cbn in Hj. destruct (decide (Z.to_nat j0 = j)) as [<-|Hne].
    - rewrite list_lookup_insert_eq in Hj by lia. injection Hj as <-. rewrite Hkey. by rewrite decide_True by lia.
    - rewrite list_lookup_insert_ne in Hj by done. rewrite decide_False by lia. by apply Hk. }
  destruct (use_for_sending rot); [|by split]. destruct Hset as (A & _ & B). split; [|done]. split; [exact A|]. split; [exact Hid|exact B].
Qed.

Lemma install_ok algo i n c rot b r : represents algo i n -> pc_core i = Some c -> length (rk_key rot) = 32%nat ->
  exists c' r', PeerCrypto.install_key rot (mkEnv i b r) = (mkEnv (PeerCrypto.set_core (Some c') i) b r', Ok ()) /\
    represents algo (PeerCrypto.set_core (Some c') i) (install (Some rot) n) /\ put_in algo (Some rot) c c'.
Proof.
  intros (Hu & Hr & c0 & Hc & Hh & Hs) Hc0 Hl. assert (c0 = c) as -> by congruence. pose proof Hh as (Hkl & Hcur & Hk).
  destruct (lookup_lt_is_Some_2 (keys c) (Z.to_nat (current_key c)) ltac:(lia)) as [k Hkc].
  pose proof (key_len_max algo) as Hmax.
  unfold PeerCrypto.install_key. rewrite (bind_ok _ _ _ (mkEnv i b r) c).
  2: { unfold PeerCrypto.get_core, mbind, ST_bind, on_self, zoom, get, lift. cbn [self out rng]. by rewrite Hc. }
  rewrite (bind_ok _ _ _ (mkEnv i b r) algo).
  2: { unfold lift, CryptoCore.algorithm, index. rewrite decide_True by (unfold zlen; lia). rewrite Hkc. cbn. by rewrite (Hk _ _ Hkc). }
  rewrite (bind_ok _ _ _ (mkEnv i b r) (take (key_len algo) (rk_key rot))).
  2: { unfold lift, slice. rewrite decide_True by (unfold zlen; lia). cbn. rewrite drop_0. do 3 f_equal. lia. }
  rewrite (bind_ok _ _ _ (mkEnv i b r) (mkLessSafeKey algo (take (key_len algo) (rk_key rot)))).
  2: { unfold lift, unbound_key. by rewrite decide_True by (rewrite length_take; lia). }
  rewrite (in_core_eq _ _ _ _ _ Hc).
  destruct (rotate_key_put algo c b r rot) as (c' & r' & Hrk & Hput). rewrite Hrk. cbn [self out rng].
  exists c', r'. split; [reflexivity|]. split; [|exact Hput]. destruct (put_in_holds _ _ _ _ _ Hh Hput) as [Hh' Hcur'].
  split; [exact Hu|]. split; [exact Hr|]. exists c'. split; [done|]. split; [exact Hh'|]. cbn. rewrite Hcur', Hs. done.
Qed.

(** *** A message is handled *)

Lemma handle_rotation_ok algo i n n' m rest b r : represents algo i n -> RotationMessage.wf m ->
  node_handle (RotationMessage.enc m) (with_rnd r n) = Some n' ->
  exists e' c c' s' r' rk, PeerCrypto.handle_rotate_message (RotationMessage.enc m ++ rest) (mkEnv i b r) = (e', Ok ()) /\ represents algo (self e') n' /\
    RotationState.handle_message (RotationMessage.enc m) (mkEnv (rot n) (MsgBuffer.new 100) r) = (mkEnv s' (MsgBuffer.new 100) r', Ok rk) /\
    pc_core i = Some c /\ put_in algo rk c c' /\ self e' = PeerCrypto.set_core (Some c') (PeerCrypto.set_rotation (Some s') i) /\ out e' = b.
Proof.
  intros Hrep Hm Hn. pose proof Hrep as (Hu & Hr & c & Hc & Hh & Hs). unfold PeerCrypto.handle_rotate_message.
  rewrite (bind_ok _ _ _ (mkEnv i b r) i) by done. rewrite Hu.
  unfold node_handle in Hn. cbn [rot rnd slot sending with_rnd] in Hn.
  pose proof (handle_any (RotationMessage.enc m) (rot n) b (MsgBuffer.new 100) r) as Hany.
  pose proof (handle_any (RotationMessage.enc m) (rot n) (MsgBuffer.new 100) (MsgBuffer.new 100) r) as Hbuf.
  destruct (RotationState.handle_message (RotationMessage.enc m) (mkEnv (rot n) (MsgBuffer.new 100) r)) as [e1 [rk|er|]] eqn:Hm1; [|done|done].
  injection Hn as <-. injection Hbuf as Hbuf.
  assert (PeerCrypto.in_rotation (RotationState.handle_message (RotationMessage.enc m ++ rest)) (mkEnv i b r) =
    (mkEnv (PeerCrypto.set_rotation (Some (self e1)) i) b (rng e1), Ok rk)) as Hin.
  { rewrite (in_rotation_eq _ _ _ _ _ Hr). rewrite handle_rest by done. rewrite Hany. reflexivity. }
  rewrite (bind_ok _ _ _ _ _ Hin). set (i1 := PeerCrypto.set_rotation (Some (self e1)) i).
  assert (represents algo i1 (mkNode (self e1) (slot n) (sending n) (rng e1))) as Hrep1 by (split; [exact Hu|]; split; [done|]; by exists c).
  destruct rk as [rot|].
  - destruct (install_ok algo i1 _ c rot b (rng e1) Hrep1 Hc (handle_key32 _ _ _ _ Hm1)) as (c' & r' & Hi & Hrep' & Hput). rewrite Hi.
    eexists _, c, c', (self e1), (rng e1), (Some rot). split; [reflexivity|]. split; [exact Hrep'|]. by rewrite <- Hbuf.
  - eexists _, c, c, (self e1), (rng e1), None. split; [reflexivity|]. split; [exact Hrep1|]. rewrite <- Hbuf. split; [done|]. split; [done|]. split; [done|].
    split; [|done]. unfold i1. destruct i; cbn in *. by subst.
Qed.

End Node.

(** ** Sealing and opening keep the keys *)

Section Keep.
Context `{Ring} {P : Type} `{Payload P}.
Implicit Types (i : PeerCrypto P) (c : CryptoCore).

Definition same_core c c' : Prop := ck_key <$> keys c = ck_key <$> keys c' /\ current_key c = current_key c'.

Lemma set_key_same c j k k' : index (E := Error) (keys c) j = Ok k -> ck_key k' = ck_key k -> same_core c (CryptoCore.set_key j k' c).
Proof.
  intros Hj Hk. split; [|done]. unfold index in Hj. case_decide as Hd; [|done]. destruct (keys c !! Z.to_nat j) eqn:Hl; [|done]. injection Hj as ->.
  cbn. rewrite list_fmap_insert. symmetry. apply list_insert_id. by rewrite list_lookup_fmap, Hl, Hk.
Qed.

Lemma keeps_same_out {A} c0 (m : ST MsgBuffer Error A) : keeps (of_self (fun c => c = c0)) (on_out m).
Proof. apply keeps_on_out. Qed.

Lemma encrypt_same e : wp (CryptoCore.encrypt (E := Error)) (fun _ e' => same_core (self e) (self e')) (fun _ e' => same_core (self e) (self e')) e.
Proof.
  destruct e as [c b r]. cbn [self]. unfold CryptoCore.encrypt. set (I := of_self (fun c' : CryptoCore => c' = c)).
  assert (I (mkEnv c b r)) as HI by done. revert HI. generalize (mkEnv c b r). intros e He.
  assert (forall e' : Env CryptoCore, I e' -> same_core c (self e')) as Hdone by (by intros [c' b' r'] ->).
  do 6 (apply wp_bind; eapply (keeps_wp I); [first [apply keeps_on_out|apply keeps_lift|unfold assert; case_match; [apply keeps_ret|apply keeps_panic]]|exact He| |by intros ? ? ?%Hdone];
    clear e He; intros ? e He).
  apply wp_bind. eapply (keeps_wp I); [apply keeps_lift|exact He| |by intros ? ? ?%Hdone]. clear e He. intros data e He.
  destruct e as [c' b' r']. unfold I, of_self in He. cbn [self] in He. subst c'.
  apply wp_bind, wp_on_self. unfold wp at 1, gets. cbn [self out rng]. apply wp_bind, wp_on_self. unfold wp at 1, gets. cbn [self out rng].
  apply wp_bind, wp_lift; [|done]. intros key Hkey. apply wp_bind, wp_on_self. unfold wp at 1, modify. cbn [self out rng].
  assert (same_core c (CryptoCore.set_key (current_key c) (CryptoKey.set_send_nonce (Nonce.increment (send_nonce key)) key) c)) as Hs.
  { by eapply set_key_same. }
  destruct (seal _ _ _ _) as [ct tag]. apply wp_on_out, wp_any; done.
Qed.

End Keep.

(** ** Calls that seal and open *)

Section Calls.
Context `{RingLaws} {P : Type} `{Payload P}.
Implicit Types (i : PeerCrypto P) (c : CryptoCore).

Lemma same_core_refl c : same_core c c.
Proof. done. Qed.

Lemma same_keys_core i c c' : pc_core i = Some c -> same_core c c' -> same_keys i (PeerCrypto.set_core (Some c') i).
Proof. intros Hc Hs. split; [done|]. split; [done|]. cbn. by rewrite Hc. Qed.

Lemma same_keys_refl i : same_keys i i.
Proof. split; [done|]. split; [done|]. by destruct (pc_core i). Qed.

Lemma same_keys_trans i j (k : PeerCrypto P) : same_keys i j -> same_keys j k -> same_keys i k.
Proof.
  intros (Hu & Hr & Hc) (Hu' & Hr' & Hc'). split; [congruence|]. split; [congruence|].
  destruct (pc_core i), (pc_core j), (pc_core k); try done. destruct Hc, Hc'. split; congruence.
Qed.

Lemma in_core_same (m : ST (Env CryptoCore) Error unit) :
  (forall e, wp m (fun _ e' => same_core (self e) (self e')) (fun _ e' => same_core (self e) (self e')) e) ->
  forall i, keeps (of_self (same_keys i)) (PeerCrypto.in_core (P := P) m).
Proof.
  intros Hm i e He. apply wp_in_core; [|by intros _]. intros c Hc.
  eapply wp_mono; [apply Hm| |]; intros ? e' He'; unfold of_self in *; cbn [self] in *; (eapply same_keys_trans; [exact He|by eapply same_keys_core]).
Qed.

Lemma decrypt_same e : wp CryptoCore.decrypt (fun _ e' => same_core (self e) (self e')) (fun _ e' => same_core (self e) (self e')) e.
Proof.
  unfold CryptoCore.decrypt. set (I := of_self (same_core (self e))). assert (I e) as He by apply same_core_refl.
  assert (keeps I (on_self (gets nonce_half) : ST (Env CryptoCore) Error bool)) as Hg by (apply keeps_on_self; by intros c Hc).
  revert He. generalize e at 1 4. intros e0 He.
  do 3 (apply wp_bind; eapply (keeps_wp I); [first [apply keeps_on_out|unfold assert; case_match; [apply keeps_ret|apply keeps_panic]]|exact He| |by intros];
    clear He e0; intros ? e0 He).
  apply wp_bind; eapply (keeps_wp I); [exact Hg|exact He| |by intros]. clear He e0. intros half [c b r] He. unfold I, of_self in He. cbn [self] in He.
  apply wp_bind, wp_on_self. unfold wp at 1, gets. cbn [self out rng]. apply wp_bind, wp_lift; [|by intros]. intros key Hkey.
  destruct (CryptoCore.decrypt_with_key _ _ _) as [[key' data] res] eqn:Hd. apply wp_bind, wp_on_self. unfold wp at 1, modify. cbn [self out rng].
  assert (ck_key key' = ck_key key) as Hk.
  { unfold CryptoCore.decrypt_with_key in Hd. case_match; [by injection Hd as <- _ _|]. destruct (open_in_place _ _ _ _) as [d ok].
    destruct ok; injection Hd as <- _ _; [by case_match|done]. }
  set (e1 := mkEnv _ b r). assert (I e1) as He1.
  { unfold I, of_self. cbn [self e1]. destruct He as [H1k H1c]. destruct (set_key_same c _ key key' Hkey Hk) as [H2k H2c]. split; congruence. }
  clearbody e1. do 3 (apply wp_bind; eapply (keeps_wp I); [apply keeps_on_out|exact He1| |by intros]; clear e1 He1; intros ? e1 He1).
  apply wp_lift; by intros.
Qed.

Lemma encrypt_message_same i : keeps (of_self (same_keys i)) (PeerCrypto.encrypt_message (P := P)).
Proof.
  intros e He. apply wp_bind, wp_on_self, wp_get. destruct e as [j b r]. cbn [self out rng]. case_match; [by apply wp_ret|].
  apply (in_core_same _ encrypt_same). exact He.
Qed.

Lemma decrypt_message_same i : keeps (of_self (same_keys i)) (PeerCrypto.decrypt_message (P := P)).
Proof.
  intros e He. apply wp_bind, wp_on_self, wp_get. destruct e as [j b r]. cbn [self out rng]. case_match; [by apply wp_ret|].
  apply (in_core_same _ decrypt_same). exact He.
Qed.

Lemma every_second_same c : same_core c (CryptoCore.every_second c).
Proof. split; [|done]. cbn. rewrite <- list_fmap_compose. by apply list_fmap_ext. Qed.

End Calls.

(** ** What [every_second] does for the rotation *)

Section Tick.
Context `{RingLaws} {P : Type} `{Payload P}.
Implicit Types (i : PeerCrypto P) (n : Node).

(** [rotate_every_second] up to where its message is sealed, if there is one. *)
Definition rotate_tick : ST (Env (PeerCrypto P)) Error bool :=
  s ← on_self get;
  match pc_rotation s with
  | None => mret false
  | Some _ =>
      on_self (modify (PeerCrypto.set_rotate_counter (rotate_counter s + 1))) ;;
      s ← on_self get;
      if decide (ROTATE_INTERVAL <= rotate_counter s) then
        on_self (modify (PeerCrypto.set_rotate_counter 0)) ;;
        rot ← PeerCrypto.in_rotation RotationState.cycle;
        (match rot with Some rot => PeerCrypto.install_key rot | None => mret () end) ;;
        empty ← on_out (gets MsgBuffer.is_empty);
        mret (negb empty)
      else mret false
  end.

(** The rest of it. *)
Definition seal_rotation : ST (Env (PeerCrypto P)) Error (MessageResult P) :=
  on_out (MsgBuffer.prepend_byte MESSAGE_TYPE_ROTATION) ;;
  PeerCrypto.encrypt_message ;;
  mret Reply.

Lemma rotate_tick_eq e :
  PeerCrypto.rotate_every_second e = (sent ← rotate_tick; if sent : bool then seal_rotation else mret NoResult) e.
Proof.
  destruct e as [i b r]. unfold PeerCrypto.rotate_every_second, rotate_tick, mbind, ST_bind. unfold on_self, zoom, get, modify. cbn [self out rng].
  destruct (pc_rotation i) as [s|]; [|done]. cbn [self out rng]. case_decide; [|done]. cbn [self out rng].
  destruct (PeerCrypto.in_rotation _ _) as [e1 [[rot|]|er|]]; [| |done|done].
  - destruct (PeerCrypto.install_key rot e1) as [e2 [[]|er|]]; [|done|done].
    unfold on_out, zoom, gets. cbn [self out rng]. by destruct (MsgBuffer.is_empty (out e2)).
  - unfold on_out, zoom, gets. cbn [self out rng mret ST_ret]. by destruct (MsgBuffer.is_empty (out e1)).
Qed.

Lemma out_empty_eq {A E X} (f : bool -> ST (Env A) E X) (e : Env A) :
  (empty ← on_out (gets MsgBuffer.is_empty); f empty) e = f (MsgBuffer.is_empty (out e)) e.
Proof. by destruct e. Qed.

(** A rotation round in a connection is one of the node, or there is none yet. *)
Lemma tick_ok algo i n c b r : represents algo i n -> pc_core i = Some c -> cycle_ok (rot n) -> room_for_rotation b ->
  exists e sent, rotate_tick (mkEnv i b r) = (e, Ok sent) /\ pc_init (self e) = pc_init i /\
    ((sent = false /\ represents algo (self e) n /\ pc_core (self e) = Some c) \/
     exists n' o rk r' c', node_cycle (with_rnd r n) = Some (n', o) /\ represents algo (self e) n' /\
       sent = bool_decide (is_Some o) /\ written b (out e) o /\
       cycle (E := Error) (mkEnv (rot n) b r) = (mkEnv (rot n') (out e) r', Ok rk) /\ pc_core (self e) = Some c' /\ put_in algo rk c c').
Proof.
  intros Hrep Hc Hok Hb. pose proof Hrep as (Hu & Hr & c0 & Hc0 & Hh & Hs). unfold rotate_tick. assert (c0 = c) as -> by congruence.
  rewrite (bind_ok _ _ _ (mkEnv i b r) i) by done. rewrite Hr.
  set (i1 := PeerCrypto.set_rotate_counter (rotate_counter i + 1) i). rewrite (bind_ok _ _ _ (mkEnv i1 b r) ()) by done.
  rewrite (bind_ok _ _ _ (mkEnv i1 b r) i1) by done. case_decide; [|by eexists _, false; split; [reflexivity|]; split; [done|left]].
  set (i2 := PeerCrypto.set_rotate_counter 0 i1). rewrite (bind_ok _ _ _ (mkEnv i2 b r) ()) by done.
  destruct (node_cycle_any (with_rnd r n) b Hok Hb) as (s' & r' & rk & o & b' & Hcyc & Hnc & Hw & Hrk).
  cbn [rot rnd slot sending with_rnd] in *. set (i3 := PeerCrypto.set_rotation (Some s') i2).
  rewrite (bind_ok _ _ _ (mkEnv i3 b' r') rk) by (by rewrite (in_rotation_eq _ i2 b r (rot n) Hr), Hcyc).
  set (n1 := mkNode s' (slot n) (sending n) r') in *.
  assert (represents algo i3 n1) as Hrep3 by (split; [exact Hu|]; split; [done|]; by exists c).
  assert (exists i4 r4 c', (match rk with Some rot => PeerCrypto.install_key rot | None => mret () end) (mkEnv i3 b' r') = (mkEnv i4 b' r4, Ok ()) /\
    represents algo i4 (install rk n1) /\ pc_core i4 = Some c' /\ put_in algo rk c c' /\ pc_init i4 = pc_init i) as (i4 & r4 & c' & Hin & Hrep4 & Hc4 & Hput & Hi4).
  { destruct rk as [rot|]; [|by exists i3, r', c].
    destruct (install_ok algo i3 n1 c rot b' r' Hrep3 Hc (Hrk _ eq_refl)) as (c' & r4 & Hi & Hrep4 & Hput). by eexists _, r4, c'. }
  rewrite (bind_ok _ _ _ _ _ Hin), out_empty_eq. cbn [out]. eexists _, _. split; [reflexivity|]. split; [exact Hi4|]. right.
  exists (install rk n1), o, rk, r', c'. split; [exact Hnc|]. split; [exact Hrep4|]. split; [|split; [exact Hw|]].
  - destruct Hw as (_ & _ & Ho). destruct o as [m|]; [by destruct Ho as (-> & _)|]. rewrite Ho. by destruct Hb as (_ & -> & _).
  - split; [|by split]. by destruct rk.
Qed.

End Tick.

(** ** The protocol of two nodes, in any buffers *)

Section Worlds.
Context `{RingLaws}.
Implicit Types (n : Node) (W : World).

Lemma leads_cycle_ok x y mx my i p : leads x y mx my i p -> (id_room x -> cycle_ok (rot x)) /\ (id_room y -> cycle_ok (rot y)).
Proof.
  intros L. pose proof (leads_proposal_wf _ _ _ _ _ _ L) as [Hw _]. pose proof (ld_range _ _ _ _ _ _ L).
  pose proof (ld_idx _ _ _ _ _ _ L). pose proof (ld_idy _ _ _ _ _ _ L). unfold id_room. split; intros Hr; (split_and!; [..|lia|lia]).
  - intros q Hq. rewrite (ld_prop _ _ _ _ _ _ L) in Hq. by injection Hq as <-.
  - intros k c Hk. rewrite (ld_pend _ _ _ _ _ _ L) in Hk. done.
  - intros q Hq. by destruct (ld_repeat _ _ _ _ _ _ L q Hq).
  - intros k c Hk. destruct (ld_reply _ _ _ _ _ _ L k c Hk) as (_ & Hag & Hc). split; [exact Hc|by eapply agree_len].
Qed.

(** What is on the wire is a message, and it can be handled. *)
Definition handled (inbox : list bytes) n : Prop :=
  forall m r, m ∈ inbox -> exists msg n', m = RotationMessage.enc msg /\ RotationMessage.wf msg /\ node_handle m (with_rnd r n) = Some n'.

Lemma leads_rnd x y mx my i p r : leads x y mx my i p -> leads (with_rnd r x) y mx my i p /\ leads x (with_rnd r y) mx my i p.
Proof. intros L. by split; destruct L; split. Qed.

Lemma leads_handled x y mx my i p : leads x y mx my i p -> handled mx y /\ handled my x.
Proof.
  intros L. split; intros m r Hm.
  - pose proof (ld_mx _ _ _ _ _ _ L) as Hw. rewrite Forall_forall in Hw. destruct (Hw m Hm) as (msg & He & Hmw & _).
    destruct (leads_deliver_follower _ _ _ _ _ _ m (proj2 (leads_rnd _ _ _ _ _ _ r L)) Hm) as (n' & Hn & _). by exists msg, n'.
  - pose proof (ld_my _ _ _ _ _ _ L) as Hw. rewrite Forall_forall in Hw. destruct (Hw m Hm) as (msg & He & Hmw & _).
    exists msg, (with_rnd r x). split; [exact He|]. split; [exact Hmw|].
    exact (leads_deliver_leader _ _ _ _ _ _ m (proj1 (leads_rnd _ _ _ _ _ _ r L)) Hm).
Qed.

Lemma reachable_sides W : reachable W ->
  ((id_room (node_a W) -> cycle_ok (rot (node_a W))) /\ handled (w_from_b W) (node_a W)) /\
  ((id_room (node_b W) -> cycle_ok (rot (node_b W))) /\ handled (w_from_a W) (node_b W)) /\
  slot (node_b W) (sending (node_a W)) = slot (node_a W) (sending (node_a W)) /\
  slot (node_a W) (sending (node_b W)) = slot (node_b W) (sending (node_b W)).
Proof.
  intros Hw. apply reachable_led in Hw as [i [[p L]|[p L]]]; pose proof (leads_cycle_ok _ _ _ _ _ _ L) as [A B];
    pose proof (leads_handled _ _ _ _ _ _ L) as [C D]; pose proof (ld_slot_x _ _ _ _ _ _ L); pose proof (ld_slot_y _ _ _ _ _ _ L); done.
Qed.

(** The first proposal, in any buffer. *)
Lemma new_initiator_any r : exists s r' m, forall A (x : A) b, room_for_rotation b ->
  exists b', RotationState.new (E := Error) true (mkEnv x b r) = (mkEnv x b' r', Ok s) /\ written b b' (Some m).
Proof.
  destruct (ecdh_generate r) as [p r'] eqn:Hg.
  set (m := mkRotationMessage 1 (compute_public_key p) None).
  exists (mkRotationState _ None None (Some p) 1 false), r', (RotationMessage.enc m). intros A x b (Hw & He & Hs).
  destruct (send_into m b) as (b' & Hb' & Hne & Hc & Hw' & Hs' & Hl); try done.
  { apply message_wf32; [unfold is_u64; lia|apply public_key32|done]. }
  exists b'. split; [|by split_and!]. unfold RotationState.new, mbind, ST_bind, on_rng, on_out, zoom, create_key. cbn [self out rng].
  rewrite Hg. cbn [self out rng]. unfold m in Hb'. by rewrite Hb'.
Qed.

Lemma new_follower {A} (e : Env A) : RotationState.new (E := Error) false e = (e, Ok (mkRotationState _ None None None 0 false)).
Proof. done. Qed.

(** Two rotations that have just begun, in whatever surroundings, are those of an initial world. *)
Lemma rotations_begin {A B} (a0 : A) (b0 : B) bufa bufb ra rb ea eb sa sb master sla slb :
  room_for_rotation bufa -> RotationState.new (E := Error) true (mkEnv a0 bufa ra) = (ea, Ok sa) ->
  RotationState.new (E := Error) false (mkEnv b0 bufb rb) = (eb, Ok sb) -> sla 0 = master -> slb 0 = master ->
  exists r1 r2, initial (mkWorld (mkNode sa sla 0 r1) (mkNode sb slb 0 r2) [MsgBuffer.contents (out ea)] []).
Proof.
  intros Hroom HA HB Hsa Hsb. destruct (new_initiator_any ra) as (s & r' & m & Hnew).
  destruct (Hnew _ a0 bufa Hroom) as (b1 & Hb1 & _ & _ & _ & Hc1 & _). destruct (Hnew _ () _ new_room) as (b2 & Hb2 & _ & _ & _ & Hc2 & _).
  assert (Ok s = (Ok sa : outcome Error RotationState)) as [= ->] by (rewrite HA in Hb1; exact (f_equal snd (eq_sym Hb1))).
  assert (mkEnv a0 b1 r' = ea) as <- by (rewrite HA in Hb1; exact (f_equal fst (eq_sym Hb1))).
  rewrite new_follower in HB. assert (mkRotationState _ None None None 0 false = sb) as <-.
  { assert (Ok (mkRotationState _ None None None 0 false) = (Ok sb : outcome Error RotationState)) as [= <-] by exact (f_equal snd HB). done. }
  pose proof (initial_world master sla slb ra rb _ _ sa _ Hsa Hsb Hb2 (new_follower _)) as Hi. cbn [out rng] in *.
  rewrite Hc2 in Hi. rewrite Hc1. by eexists _, _.
Qed.

End Worlds.

(** ** Two connected peers *)

Section Peers.
Context `{RingLaws} {P : Type} `{Payload P}.
Implicit Types (i a b : PeerCrypto P) (n : Node) (W : World).

(** The cores of a connection after its handshake: the master key in slot 0,
    dummies in the others. *)
Lemma new_holds algo master half r r' c : length master = key_len algo ->
  CryptoCore.new (E := Error) (mkLessSafeKey algo master) half r = (r', Ok c) ->
  exists sl, sl 0 = master /\ holds algo sl c /\ current_key c = 0.
Proof.
  intros Hl. unfold CryptoCore.new, random_data, random, mbind, ST_bind, lift, unbound_key. cbn [algorithm_of].
  pose proof (fill_len (key_len algo) r) as Hf. destruct (fill (key_len algo) r) as [d r0]. cbn [fst] in Hf. rewrite decide_True by done.
  destruct (key_new_any (E := Error) (mkLessSafeKey algo master) half r0) as (k0 & r1 & -> & H0k).
  destruct (key_new_any (E := Error) (mkLessSafeKey algo d) half r1) as (k1 & r2 & -> & H1k).
  destruct (key_new_any (E := Error) (mkLessSafeKey algo d) half r2) as (k2 & r3 & -> & H2k).
  destruct (key_new_any (E := Error) (mkLessSafeKey algo d) half r3) as (k3 & r4 & -> & H3k).
  intros [= _ <-]. exists (fun z => if decide (z = 0) then master else d). split; [done|]. split; [|done]. split; [done|]. split; [cbn; lia|].
  assert (take (key_len algo) master = master) as Hm by (apply take_ge; lia).
  assert (take (key_len algo) d = d) as Hd by (apply take_ge; lia).
  intros [|[|[|[|j]]]] k; cbn; intros [= <-]; case_decide; try lia; congruence.
Qed.

(** Both ends of a connection and all the rotation messages each has ever sent.
    They travel sealed; what arrives is what was sent, any number of times and in
    any order. *)
Record PWorld : Type := mkPWorld { pw_a : PeerCrypto P; pw_b : PeerCrypto P; pw_from_a : list bytes; pw_from_b : list bytes }.

Definition id_far i : Prop := forall s, pc_rotation i = Some s -> message_id s < 2 ^ 64 - 2.

(** What a peer does, and the rotation message it has sent. *)
Inductive act (inbox : list bytes) (i : PeerCrypto P) : PeerCrypto P -> option bytes -> Prop :=
| act_rotate buf r e1 sent e res : id_far i -> room_for_rotation buf ->
    rotate_tick (mkEnv i buf r) = (e1, sent) -> PeerCrypto.rotate_every_second (mkEnv i buf r) = (e, res) -> res <> Panic ->
    act inbox i (self e) (match sent with Ok true => Some (MsgBuffer.contents (out e1)) | _ => None end)
| act_receive m rest buf r e res : m ∈ inbox -> PeerCrypto.handle_rotate_message (m ++ rest) (mkEnv i buf r) = (e, res) -> act inbox i (self e) None
| act_send ty buf r e res : PeerCrypto.send_message ty (mkEnv i buf r) = (e, res) -> res <> Panic -> act inbox i (self e) None
| act_open buf r e res : PeerCrypto.decrypt_message (mkEnv i buf r) = (e, res) -> res <> Panic -> act inbox i (self e) None
| act_second c : pc_core i = Some c -> act inbox i (PeerCrypto.set_core (Some (CryptoCore.every_second c)) i) None.

Inductive pstep : PWorld -> PWorld -> Prop :=
| pstep_a a b ma mb a' o : act mb a a' o -> pstep (mkPWorld a b ma mb) (mkPWorld a' b (add_sent o ma) mb)
| pstep_b a b ma mb b' o : act ma b b' o -> pstep (mkPWorld a b ma mb) (mkPWorld a b' ma (add_sent o mb)).

(** Right after the handshake. *)
Definition starts (algo : Algorithm) (master : bytes) (half : bool) i s : Prop :=
  pc_unencrypted i = false /\ pc_rotation i = Some s /\
  exists c r r', pc_core i = Some c /\ CryptoCore.new (E := Error) (mkLessSafeKey algo master) half r = (r', Ok c).

Inductive pinitial : PWorld -> Prop :=
| pinitial_world (algo : Algorithm) (master : bytes) half a b (a0 b0 : PeerCrypto P) bufa bufb ra rb ea eb sa sb :
    length master = key_len algo -> starts algo master half a sa -> starts algo master (negb half) b sb ->
    room_for_rotation bufa ->
    RotationState.new (E := Error) true (mkEnv a0 bufa ra) = (ea, Ok sa) ->
    RotationState.new (E := Error) false (mkEnv b0 bufb rb) = (eb, Ok sb) ->
    pinitial (mkPWorld a b [MsgBuffer.contents (out ea)] []).

Definition preachable (w : PWorld) : Prop := exists w0, pinitial w0 /\ rtc pstep w0 w.

(** *** The simulation *)

Definition simulates (algo : Algorithm) (w : PWorld) W : Prop :=
  represents algo (pw_a w) (node_a W) /\ represents algo (pw_b w) (node_b W) /\
  pw_from_a w = w_from_a W /\ pw_from_b w = w_from_b W.

Lemma initial_simulates w : pinitial w -> exists algo W, initial W /\ simulates algo w W.
Proof.
  intros [algo master half a b a0 b0 bufa bufb ra rb ea eb sa sb Hl (Hua & Hra & ca & r1 & r1' & Hca & Hna) (Hub & Hrb & cb & r2 & r2' & Hcb & Hnb) Hroom HA HB].
  destruct (new_holds _ _ _ _ _ _ Hl Hna) as (sla & Hsa & Hha & Hcura). destruct (new_holds _ _ _ _ _ _ Hl Hnb) as (slb & Hsb & Hhb & Hcurb).
  destruct (rotations_begin a0 b0 bufa bufb ra rb ea eb sa sb master sla slb Hroom HA HB Hsa Hsb) as (r3 & r4 & Hi).
  exists algo. eexists. split; [exact Hi|]. split; [|split; [|by split]].
  - split; [exact Hua|]. split; [exact Hra|]. by exists ca.
  - split; [exact Hub|]. split; [exact Hrb|]. by exists cb.
Qed.

Lemma wp_result {S E A} (m : ST S E A) (I : S -> Prop) s s' res : wp m (fun _ => I) (fun _ => I) s -> m s = (s', res) -> res <> Panic -> I s'.
Proof. unfold wp. intros Hw Hm Hp. rewrite Hm in Hw. by destruct res. Qed.

(** The moves of a node that a call can make. *)
Definition moves (inbox : list bytes) n n' (o : option bytes) : Prop :=
  (n' = n /\ o = None) \/ (id_room n /\ exists r, node_cycle (with_rnd r n) = Some (n', o)) \/
  (o = None /\ exists m r, m ∈ inbox /\ node_handle m (with_rnd r n) = Some n').

Lemma act_moves algo inbox i n i' o : represents algo i n -> (id_room n -> cycle_ok (rot n)) -> handled inbox n ->
  act inbox i i' o -> exists n', moves inbox n n' o /\ represents algo i' n'.
Proof.
  intros Hrep Hok Hin Hact. pose proof Hrep as (Hu & Hr & c0 & Hc0 & _).
  assert (forall j, same_keys i j -> exists n', moves inbox n n' None /\ represents algo j n') as Hsame.
  { intros j Hj. exists n. split; [by left|]. by eapply represents_same. }
  destruct Hact as [buf r e1 sent e res Hfar Hroom Ht He Hp|m rest buf r e res Hm He|ty buf r e res He Hp|buf r e res He Hp|c Hc].
  - assert (id_room n) as Hid by (by apply Hfar). destruct (tick_ok algo i n c0 buf r Hrep Hc0 (Hok Hid) Hroom) as (e1' & b1 & Ht' & _ & Hcase).
    rewrite Ht in Ht'. injection Ht' as -> ->. rewrite rotate_tick_eq in He. unfold mbind, ST_bind in He. rewrite Ht in He.
    assert (forall n', represents algo (self e1') n' -> represents algo (self e) n') as Hseal.
    { intros n' Hn'. destruct b1; [|by injection He as <- _]. eapply represents_same; [exact Hn'|].
      refine (wp_result _ (of_self (same_keys (self e1'))) e1' e res _ He Hp). unfold seal_rotation.
      apply wp_bind. eapply keeps_wp; [apply keeps_on_out|apply same_keys_refl| |by intros]. intros [] e2 He2.
      apply wp_bind. eapply keeps_wp; [apply encrypt_message_same|exact He2| |by intros]. intros [] e3 He3. by apply wp_ret. }
    destruct Hcase as [(-> & Hn & _)|(n' & o & rk & r' & c' & Hn & Hn' & -> & (_ & _ & Ho) & _)].
    + exists n. split; [by left|by apply Hseal].
    + exists n'. split; [|by apply Hseal]. right. left. split; [exact Hid|]. exists r. rewrite Hn. do 2 f_equal.
      destruct o as [m|]; [|done]. destruct Ho as (_ & -> & _). done.
  - destruct (Hin m r Hm) as (msg & n' & -> & Hwf & Hn).
    destruct (handle_rotation_ok algo i n n' msg rest buf r Hrep Hwf Hn) as (e' & ? & ? & ? & ? & ? & He' & Hrep' & _).
    rewrite He in He'. injection He' as -> _. exists n'. split; [|exact Hrep']. right. right. split; [done|]. by exists (RotationMessage.enc msg), r.
  - apply Hsame. refine (wp_result _ (of_self (same_keys i)) _ e res _ He Hp). apply wp_bind, wp_assert. intros _.
    apply wp_bind. eapply keeps_wp; [apply keeps_on_out|apply same_keys_refl| |by intros]. intros [] e2 He2. by apply encrypt_message_same.
  - apply Hsame. refine (wp_result _ (of_self (same_keys i)) _ e res _ He Hp). apply decrypt_message_same. apply same_keys_refl.
  - apply Hsame. by eapply same_keys_core; [|apply every_second_same].
Qed.

Lemma moves_a n nb ma mb n' o : moves mb n n' o -> rtc step (mkWorld n nb ma mb) (mkWorld n' nb (add_sent o ma) mb).
Proof.
  intros [[-> ->]|[[Hid (r & Hn)]|(-> & m & r & Hm & Hn)]]; [apply rtc_refl|..];
    (eapply rtc_l; [apply (step_rnd_a _ _ _ _ r)|]); apply rtc_once; [by apply step_cycle_a|by eapply step_to_a].
Qed.

Lemma moves_b n na ma mb n' o : moves ma n n' o -> rtc step (mkWorld na n ma mb) (mkWorld na n' ma (add_sent o mb)).
Proof.
  intros [[-> ->]|[[Hid (r & Hn)]|(-> & m & r & Hm & Hn)]]; [apply rtc_refl|..];
    (eapply rtc_l; [apply (step_rnd_b _ _ _ _ r)|]); apply rtc_once; [by apply step_cycle_b|by eapply step_to_b].
Qed.

Lemma pstep_simulates algo w w' W : reachable W -> simulates algo w W -> pstep w w' -> exists W', rtc step W W' /\ simulates algo w' W'.
Proof.
  intros HW (Ha & Hb & Hma & Hmb) Hs. destruct W as [na nb ma mb]. apply reachable_sides in HW as ([Hoka Hha] & [Hokb Hhb] & _).
  cbn [node_a node_b w_from_a w_from_b] in *.
  destruct Hs as [a b ma' mb' a' o Hact|a b ma' mb' b' o Hact]; cbn [pw_a pw_b pw_from_a pw_from_b] in *; subst ma' mb'.
  - destruct (act_moves _ _ _ _ _ _ Ha Hoka Hha Hact) as (n' & Hm & Hrep). eexists. split; [exact (moves_a _ nb ma mb _ _ Hm)|]. done.
  - destruct (act_moves _ _ _ _ _ _ Hb Hokb Hhb Hact) as (n' & Hm & Hrep). eexists. split; [exact (moves_b _ na ma mb _ _ Hm)|]. done.
Qed.

Lemma run_simulates algo w w' W : reachable W -> simulates algo w W -> rtc pstep w w' -> exists W', rtc step W W' /\ simulates algo w' W'.
Proof.
  intros HW Hsim Hrun. revert W HW Hsim. induction Hrun as [w|w w1 w2 Hs Hrun IH]; intros W HW Hsim; [exists W; split; [apply rtc_refl|exact Hsim]|].
  destruct (pstep_simulates algo w w1 W HW Hsim Hs) as (W1 & Hr1 & Hsim1).
  assert (reachable W1) as HW1 by (destruct HW as (W0 & Hi & Hr); exists W0; split; [exact Hi|by etrans]).
  destruct (IH W1 HW1 Hsim1) as (W2 & Hr2 & Hsim2). exists W2. split; [by etrans|exact Hsim2].
Qed.

(** C9: the crypto of two connected peers refines the key rotation of two
    nodes: a run of both from the end of their handshake on, in which they rotate
    keys every so often, send, receive and let seconds pass, and in which rotation
    messages are lost, repeated and reordered, is a run of the nodes that sends the
    same messages, and each core holds the keys of its node, cut to the length of
    the cipher. *)
Theorem rotation_refined (w0 w : PWorld) :
  pinitial w0 -> rtc pstep w0 w ->
  exists algo W0 W, initial W0 /\ simulates algo w0 W0 /\ rtc step W0 W /\ simulates algo w W.
Proof.
  intros Hi Hr. destruct (initial_simulates w0 Hi) as (algo & W0 & HW0 & Hsim0).
  destruct (run_simulates algo w0 w W0 (ex_intro _ W0 (conj HW0 (rtc_refl _ _))) Hsim0 Hr) as (W & HrW & Hsim).
  by exists algo, W0, W.
Qed.

Lemma represents_lookup algo i n : represents algo i n -> exists c, pc_core i = Some c /\ current_key c = sending n /\
  0 <= current_key c < 4 /\ forall z, 0 <= z < 4 -> ck_key <$> keys c !! Z.to_nat z = Some (mkLessSafeKey algo (take (key_len algo) (slot n z))).
Proof.
  intros (_ & _ & c & Hc & (Hl & Hcur & Hk) & Hs). exists c. split; [exact Hc|]. split; [exact Hs|]. split; [exact Hcur|]. intros z Hz.
  destruct (lookup_lt_is_Some_2 (keys c) (Z.to_nat z) ltac:(lia)) as [k Hkz]. rewrite Hkz. cbn. rewrite (Hk _ _ Hkz). by rewrite Z2Nat.id by lia.
Qed.

(** Two connected peers never lose each other's keys: whenever both have
    rotated, sent and received, in whatever order rotation messages arrived or were
    lost, each finds in the slot with which the other seals the key with which the
    other seals. *)
Theorem peer_keys_agree (w : PWorld) :
  preachable w ->
  exists ca cb ka kb, pc_core (pw_a w) = Some ca /\ pc_core (pw_b w) = Some cb /\
    ck_key <$> keys ca !! Z.to_nat (current_key ca) = Some ka /\ ck_key <$> keys cb !! Z.to_nat (current_key ca) = Some ka /\
    ck_key <$> keys cb !! Z.to_nat (current_key cb) = Some kb /\ ck_key <$> keys ca !! Z.to_nat (current_key cb) = Some kb.
Proof.
  intros (w0 & Hi & Hr). destruct (initial_simulates w0 Hi) as (algo & W0 & HW0 & Hsim0).
  destruct (run_simulates algo w0 w W0 (ex_intro _ W0 (conj HW0 (rtc_refl _ _))) Hsim0 Hr) as (W & HrW & Ha & Hb & _).
  destruct (reachable_sides W (ex_intro _ W0 (conj HW0 HrW))) as (_ & _ & Hab & Hba).
  destruct (represents_lookup _ _ _ Ha) as (ca & Hca & Hsa & Hra & Hka). destruct (represents_lookup _ _ _ Hb) as (cb & Hcb & Hsb & Hrb & Hkb).
  eexists ca, cb, _, _. split; [exact Hca|]. split; [exact Hcb|]. split; [by apply Hka|].
  split; [rewrite Hkb by done; by rewrite Hsa, Hab|]. split; [by apply Hkb|]. rewrite Hka by done. by rewrite Hsb, Hba.
Qed.

End Peers.

(** ** Two toy peers, and the first proposal delivered *)

Definition toy_start (initiator : bool) : Env (PeerCrypto NodeInfo) * outcome Error RotationState :=
  RotationState.new initiator (mkEnv toy_plain_peer (MsgBuffer.new 100) (toy_rng 3)).
Definition toy_rotation_state (initiator : bool) : RotationState :=
  match (toy_start initiator).2 with Ok s => s | _ => mkRotationState toy_ring None None None 0 false end.
Definition toy_rotating (half : bool) : PeerCrypto NodeInfo :=
  mkPeerCrypto (toy_id 1) None (Some (toy_rotation_state half)) false (Some (toy_core half)) 0.
Definition toy_proposal : bytes := MsgBuffer.contents (out (toy_start true).1).
Definition toy_pworld : PWorld (P := NodeInfo) := mkPWorld (toy_rotating true) (toy_rotating false) [toy_proposal] [].
Definition toy_handled : Env (PeerCrypto NodeInfo) * outcome Error unit :=
  PeerCrypto.handle_rotate_message (toy_proposal ++ [0]) (mkEnv (toy_rotating false) (MsgBuffer.new 100) (toy_rng 3)).
Definition toy_pworld_later : PWorld (P := NodeInfo) :=
  mkPWorld (toy_rotating true) (self toy_handled.1) [toy_proposal] [].

Lemma toy_start_ok initiator :
  RotationState.new (E := Error) initiator (mkEnv toy_plain_peer (MsgBuffer.new 100) (toy_rng 3)) =
    ((toy_start initiator).1, Ok (toy_rotation_state initiator)).
Proof.
  unfold toy_rotation_state, toy_start. destruct initiator; [|by rewrite new_follower].
  destruct (new_initiator_any (toy_rng 3)) as (s & r' & m & Hn). destruct (Hn _ toy_plain_peer _ new_room) as (b' & Hb' & _). by rewrite Hb'.
Qed.

Lemma toy_starts half : starts AES_128_GCM (key_bytes toy_key) half (toy_rotating half) (toy_rotation_state half).
Proof.
  split; [done|]. split; [done|]. exists (toy_core half), (toy_rng 3), (CryptoCore.new (E := Error) toy_key half (toy_rng 3)).1.
  split; [done|]. destruct half; vm_compute; reflexivity.
Qed.

Lemma toy_pinitial : pinitial toy_pworld.
Proof.
  exact (pinitial_world AES_128_GCM (key_bytes toy_key) true (toy_rotating true) (toy_rotating false) toy_plain_peer toy_plain_peer _ _ _ _ _ _ _ _
    eq_refl (toy_starts true) (toy_starts false) new_room (toy_start_ok true) (toy_start_ok false)).
Qed.

Lemma toy_prun : rtc pstep toy_pworld toy_pworld_later.
Proof.
  apply rtc_once. refine (pstep_b _ _ _ _ _ None _).
  refine (act_receive _ _ toy_proposal [0] (MsgBuffer.new 100) (toy_rng 3) toy_handled.1 toy_handled.2 _ _); [by apply list_elem_of_singleton|].
  unfold toy_handled. apply surjective_pairing.
Qed.

Lemma rotation_refined_witness : exists algo W0 W,
  initial W0 /\ simulates algo toy_pworld W0 /\ rtc step W0 W /\ simulates algo toy_pworld_later W.
Proof. exact (rotation_refined toy_pworld toy_pworld_later toy_pinitial toy_prun). Defined.

Lemma peer_keys_agree_witness : exists ca cb ka kb, pc_core (pw_a toy_pworld_later) = Some ca /\ pc_core (pw_b toy_pworld_later) = Some cb /\
  ck_key <$> keys ca !! Z.to_nat (current_key ca) = Some ka /\ ck_key <$> keys cb !! Z.to_nat (current_key ca) = Some ka /\
  ck_key <$> keys cb !! Z.to_nat (current_key cb) = Some kb /\ ck_key <$> keys ca !! Z.to_nat (current_key cb) = Some kb.
Proof. exact (peer_keys_agree toy_pworld_later (ex_intro _ toy_pworld (conj toy_pinitial toy_prun))). Defined.
