(* ===== verification/Channel.v ===== *)
(** * The channel between two connected peers (src/src/crypto)

    All that happens to a connection after its handshake: messages are sealed and
    opened, keys rotate inside sealed messages, seconds pass, and the network loses,
    repeats, reorders and invents datagrams. What one end sends next, the other
    receives. Each end is seen with all it has sealed and with the keys it has come
    to; the rotation of both is that of two nodes of Rotate, as in Rekey, but here
    its messages travel sealed like all others. *)

From S2P Require Import Prelude Errors Util Types Messages Ring Core Rotate Init Handshake Peer.
From S2P Require Import Triples Stages Rekey.

Import RotationState.

(** ** How often a node has rotated *)

Section Epoch.
Context `{RingLaws}.
Implicit Types s : RotationState.

(** The number of the last key a node may have put to use. *)
Definition epoch s : Z := match proposed s with Some _ => message_id s | None => message_id s + 1 end.

(** A key is handed out with the number the node comes to, and only then does it
    come to another one. *)
Definition advances s s' (rk : option RotatedKey) : Prop :=
  match rk with
  | Some k => rk_id k = epoch s' /\ epoch s < epoch s'
  | None => epoch s' = epoch s
  end.

Lemma new_epoch {A} initiator (e e' : Env A) s : RotationState.new (E := Error) initiator e = (e', Ok s) -> epoch s = 1.
Proof.
  unfold RotationState.new, mbind, ST_bind, on_out, on_rng, zoom, create_key. destruct initiator; [|by intros [= _ <-]].
  destruct (ecdh_generate _) as [p r']. cbn [self out rng]. destruct (send _ _) as [b' []]; [|done..]. by intros [= _ <-].
Qed.

Lemma cycle_epoch s b r e rk : cycle_ok s -> cycle (E := Error) (mkEnv s b r) = (e, Ok rk) -> advances s (self e) rk.
Proof.
  intros (_ & _ & Hid). unfold cycle, mbind, ST_bind, on_self, on_out, on_rng, zoom, get, gets, modify, create_key. cbn [self out rng].
  destruct (proposed s) as [p|] eqn:Hp.
  - destruct (timeout s); [|by intros [= <- <-]; cbn; unfold epoch; cbn; rewrite Hp].
    destruct (confirmed s) as [[k i]|]; cbn [self out rng]; destruct (send _ b) as [b' []]; intros [= <- <-]; done.
  - destruct (pending s) as [[k c]|]; [|by intros [= <- <-]]. cbn [self out rng]. destruct (ecdh_generate r) as [p r']. cbn [self out rng].
    destruct (send _ b) as [b' []]; intros [= <- <-]. unfold advances, epoch. cbn. rewrite Hp. rewrite wrap_small by lia. lia.
Qed.

Lemma handle_epoch msg s b r e rk : RotationMessage.wf msg -> rm_message_id msg <= message_id s + 1 ->
  handle_message (RotationMessage.enc msg) (mkEnv s b r) = (e, Ok rk) -> advances s (self e) rk.
Proof.
  intros Hm Hid. unfold handle_message, mbind, ST_bind, lift. rewrite <- (app_nil_r (RotationMessage.enc msg)), read_rotation by done. cbn [ok_or].
  unfold process_message, mbind, ST_bind, on_self, on_rng, zoom, gets, modify, create_key, lift. cbn [self out rng].
  case_decide; [by intros [= <- <-]|]. cbn [self out rng]. destruct (ecdh_generate r) as [p r']. cbn [self out rng].
  unfold derive_key. destruct (agree_ephemeral p (propose msg)) as [k|]; cbn [unwrap self out rng]; [|done].
  destruct (confirm msg) as [c|]; [|by intros [= <- <-]]. cbn [self out rng proposed set_pending set_timeout].
  destruct (proposed s) as [q|] eqn:Hp; [|by intros [= <- <-]; unfold advances, epoch; cbn; rewrite Hp]. cbn [self out rng].
  destruct (agree_ephemeral q c) as [k'|]; [|done]. intros [= <- <-]. unfold advances, epoch. cbn. rewrite Hp. lia.
Qed.

(** What a node can receive is at most one ahead of it. *)
Definition not_ahead (inbox : list bytes) (n : Node) : Prop :=
  forall m, m ∈ inbox -> exists msg, m = RotationMessage.enc msg /\ RotationMessage.wf msg /\ rm_message_id msg <= message_id (rot n) + 1.

Lemma reachable_not_ahead (W : World) : reachable W -> not_ahead (w_from_b W) (node_a W) /\ not_ahead (w_from_a W) (node_b W).
Proof.
  assert (forall x y mx my i p, leads x y mx my i p -> not_ahead my x /\ not_ahead mx y) as Hl.
  { intros x y mx my i p L. pose proof (leads_proposal_wf _ _ _ _ _ _ L) as [_ Hpid].
    pose proof (ld_mx _ _ _ _ _ _ L) as Hmx. pose proof (ld_my _ _ _ _ _ _ L) as Hmy. rewrite Forall_forall in Hmx, Hmy.
    pose proof (ld_idx _ _ _ _ _ _ L). pose proof (ld_idy _ _ _ _ _ _ L).
    split; intros m Hm; [destruct (Hmy m Hm) as (msg & He & Hw & Hi)|destruct (Hmx m Hm) as (msg & He & Hw & Hi)];
      exists msg; (split; [exact He|]; split; [exact Hw|]); [lia|]. destruct Hi as [| ->]; lia. }
  intros Hw. apply reachable_led in Hw as [i [[p L]|[p L]]]; by apply Hl in L as [].
Qed.

End Epoch.

(** ** The core, and what was sealed with it *)

(** One message sealed: under which key and which nonce, and what it said. *)
Record Sealed : Type := mkSealed { sx_key : LessSafeKey; sx_nonce : bytes; sx_text : bytes }.

Section Cores.
Context `{RingLaws}.
Implicit Types (c : CryptoCore) (k : CryptoKey) (S T : list Sealed).

(** What the sending slot of [c] sealed last, said to be [text]. *)
Definition sealed_last c (text : bytes) S : list Sealed :=
  match keys c !! Z.to_nat (current_key c) with Some k => mkSealed (ck_key k) (send_nonce k) text :: S | None => S end.

(** The bytes it sent. *)
Definition packet_of c (text : bytes) : bytes :=
  match keys c !! Z.to_nat (current_key c) with
  | Some k =>
      let s := seal (algorithm_of (ck_key k)) (key_bytes (ck_key k)) (send_nonce k) text in
      current_key c :: drop 5 (send_nonce k) ++ s.1 ++ s.2
  | None => []
  end.

(** Whatever opens at [c] was sealed by the other side: nobody else has the key. *)
Definition authentic T c (m : MsgBuffer) : Prop :=
  let msg := MsgBuffer.contents m in
  let nonce := CryptoCore.extra_nonce (nonce_half c) msg in
  forall k d, keys c !! Z.to_nat (CryptoCore.extra_key_id msg) = Some k ->
    open_in_place (algorithm_of (ck_key k)) (key_bytes (ck_key k)) nonce (drop 8 msg) = (d, true) ->
    mkSealed (ck_key k) nonce (take (length msg - 24) d) ∈ T.

(** No nonce was used twice with a key, and all are of one half. *)
Definition used_once (S : list Sealed) : Prop := NoDup ((fun x => (sx_key x, sx_nonce x)) <$> S).
Definition of_half (half : bool) S : Prop := forall x, x ∈ S -> half_base half <= be_value (sx_nonce x) < half_base half + 2 ^ 56.

(** [S] was sealed with [c], [T] with the core of the other side: the sending slot
    is past every nonce used with its key, and no slot has seen a nonce that was not
    used with its. *)
Record core_ok (half : bool) S T c : Prop := {
  co_wf : core_wf c;
  co_half : nonce_half c = half;
  co_used : used_once S /\ of_half half S;
  co_base : forall j k, keys c !! j = Some k -> half_base half <= be_value (send_nonce k);
  co_sent : forall k x, keys c !! Z.to_nat (current_key c) = Some k -> x ∈ S -> sx_key x = ck_key k ->
    be_value (sx_nonce x) <= be_value (send_nonce k);
  co_seen : forall j k, keys c !! j = Some k -> be_value (seen_nonce k) = 0 \/
    exists x, x ∈ T /\ sx_key x = ck_key k /\ sx_nonce x = seen_nonce k
}.

Lemma core_ok_mono half S T T' c : core_ok half S T c -> T ⊆ T' -> core_ok half S T' c.
Proof.
  intros [A B U C D E] HT. split; [exact A|exact B|exact U|exact C|exact D|]. intros j k Hk. destruct (E j k Hk) as [Hz|(x & Hx & Hr)]; [by left|right].
  exists x. split; [by apply HT|done].
Qed.

(** Slot [j] is replaced; what holds of the others is kept. *)
Lemma set_key_cases c i k0 j k : keys (CryptoCore.set_key i k0 c) !! j = Some k ->
  (j = Z.to_nat i /\ k = k0) \/ (j <> Z.to_nat i /\ keys c !! j = Some k).
Proof.
  cbn. intros Hk. destruct (decide (j = Z.to_nat i)) as [->|Hne]; [|right; by rewrite list_lookup_insert_ne in Hk].
  left. assert (Z.to_nat i < length (keys c))%nat by (apply lookup_lt_Some in Hk; by rewrite length_insert in Hk).
  rewrite list_lookup_insert_eq in Hk by done. by injection Hk as <-.
Qed.

(** *** Sealing *)

Definition nonce_room c : Prop := forall j k, keys c !! j = Some k -> be_value (send_nonce k) < half_base (nonce_half c) + 2 ^ 56 - 1.

Lemma room_left c : nonce_room c -> nonce_left c.
Proof. intros Hr k. apply Hr. Qed.

Lemma used_seal half S x : used_once S /\ of_half half S -> half_base half <= be_value (sx_nonce x) < half_base half + 2 ^ 56 ->
  (forall y, y ∈ S -> sx_key y = sx_key x -> be_value (sx_nonce y) < be_value (sx_nonce x)) ->
  used_once (x :: S) /\ of_half half (x :: S).
Proof.
  intros [Hu Hh] Hx Hlt. split; [|intros y [->|Hy]%elem_of_cons; [exact Hx|by apply Hh]].
  apply NoDup_cons. split; [|exact Hu]. intros (y & [= Hk Hn] & Hy)%list_elem_of_fmap. specialize (Hlt y Hy (eq_sym Hk)). rewrite Hn in Hlt. lia.
Qed.

Lemma core_ok_seal half S T c b r : core_ok half S T c -> nonce_left c ->
  MsgBuffer.wf b -> EXTRA_LEN <= buf_start b -> buf_end b + TAG_LEN <= BUFFER_SIZE ->
  exists c' b', CryptoCore.encrypt (E := Error) (mkEnv c b r) = (mkEnv c' b' r, Ok ()) /\ MsgBuffer.wf b' /\
    MsgBuffer.contents b' = packet_of c' (MsgBuffer.contents b) /\ same_core c c' /\
    core_ok half (sealed_last c' (MsgBuffer.contents b) S) T c'.
Proof.
  intros [Hw Hh Hused Hbase Hsent Hseen] Hleft Hb Hs He.
  destruct (encrypt_spec (E := Error) (mkEnv c b r) Hw Hb Hs He) as (k & b' & Hk & Henc & Hb' & Hc' & _). cbn [self out rng] in *.
  pose proof (core_wf_key _ _ _ Hw Hk) as Hkw. pose proof Hkw as (Hsn & _). pose proof (increment_wf _ Hsn) as Hn.
  assert (be_value (Nonce.increment (send_nonce k)) = be_value (send_nonce k) + 1) as Hv.
  { apply increment_value; [done|]. specialize (Hleft k Hk). unfold half_base in Hleft. destruct (nonce_half c); lia. }
  set (n := Nonce.increment (send_nonce k)) in *. clearbody n. set (k' := CryptoKey.set_send_nonce n k) in *.
  set (c' := CryptoCore.set_key (current_key c) k' c) in *. pose proof Hw as (Hl & Hcur & _).
  assert (keys c' !! Z.to_nat (current_key c') = Some k') as Hk' by (apply list_lookup_insert_eq; lia).
  exists c', b'. split; [exact Henc|]. split; [exact Hb'|]. unfold packet_of, sealed_last. rewrite Hk'. split; [exact Hc'|]. split.
  { eapply (set_key_same c (current_key c) k); [|done]. destruct (core_wf_index c _ Hw Hcur) as (k1 & Hk1 & _ & Hi). rewrite Hk in Hk1. injection Hk1 as <-. apply Hi. }
  split; [apply set_key_wf; [done|by apply set_send_nonce_wf]|done|..].
  - specialize (Hleft k Hk). rewrite Hh in Hleft. apply used_seal; [exact Hused| |]; cbn [sx_nonce sx_key]; change (send_nonce k') with n.
    + specialize (Hbase _ _ Hk). lia.
    + intros y Hy Hky. specialize (Hsent k y Hk Hy Hky). lia.
  - intros j kj [[_ ->]|[_ Hj]]%set_key_cases; [|by eapply Hbase]. cbn. specialize (Hbase _ _ Hk). lia.
  - intros kx x Hx. rewrite Hk' in Hx. injection Hx as <-. intros [->|Hin]%elem_of_cons Hkey; [done|].
    specialize (Hsent k x Hk Hin Hkey). cbn. lia.
  - intros j kj [[_ ->]|[_ Hj]]%set_key_cases; [|by eapply Hseen]. exact (Hseen _ _ Hk).
Qed.

(** *** Opening *)

Lemma core_ok_open half S T c m r e res : core_ok half S T c -> MsgBuffer.wf m -> authentic T c m ->
  CryptoCore.decrypt (mkEnv c m r) = (e, res) -> res <> Panic ->
  core_ok half S T (self e) /\ same_core c (self e) /\ rng e = r /\
  (res = Ok () -> MsgBuffer.wf (out e) /\ exists x, x ∈ T /\ sx_text x = MsgBuffer.contents (out e)).
Proof.
  intros [Hw Hh Hused Hbase Hsent Hseen] Hm Hauth Hdec Hres.
  destruct (decide (EXTRA_LEN + TAG_LEN <= buf_end m - buf_start m)) as [Hlen|Hlen].
  2: { rewrite decrypt_short in Hdec; [|done|cbn [out]; lia]. by injection Hdec as _ <-. }
  destruct (decrypt_spec (mkEnv c m r) Hw Hm Hlen) as (k & Hk & Hkw & Hd). cbn [self out rng] in *. cbn zeta in Hd.
  specialize (Hauth k). unfold CryptoCore.decrypt_with_key in Hd. set (msg := MsgBuffer.contents m) in *.
  set (nonce := CryptoCore.extra_nonce (nonce_half c) msg) in *.
  pose proof (extra_key_id_range msg) as Hid. set (id := CryptoCore.extra_key_id msg) in *.
  assert (forall k', ck_key k' = ck_key k -> send_nonce k' = send_nonce k -> key_wf k' ->
    (be_value (seen_nonce k') = 0 \/ exists x, x ∈ T /\ sx_key x = ck_key k' /\ sx_nonce x = seen_nonce k') ->
    core_ok half S T (CryptoCore.set_key id k' c) /\ same_core c (CryptoCore.set_key id k' c)) as Hset.
  { intros k' Hck Hsn Hkw' Hsk. split; [split; [by apply set_key_wf|done|exact Hused|..]|].
    - intros j kj [[_ ->]|[_ Hj]]%set_key_cases; [|by eapply Hbase]. rewrite Hsn. by eapply Hbase.
    - cbn [current_key CryptoCore.set_key CryptoCore.set_keys]. intros kx x [[Hj ->]|[_ Hj]]%set_key_cases; [|by eapply Hsent].
      rewrite Hsn, Hck. apply Hsent. by rewrite Hj.
    - intros j kj [[_ ->]|[_ Hj]]%set_key_cases; [done|by eapply Hseen].
    - eapply set_key_same; [|exact Hck]. destruct (core_wf_index c _ Hw Hid) as (k1 & Hk1 & _ & Hi). rewrite Hk in Hk1. injection Hk1 as <-. apply Hi. }
  destruct (Nonce.ltb nonce (min_nonce k)).
  { destruct Hd as (b' & Hd & _ & Hb' & _). rewrite Hdec in Hd. injection Hd as -> ->. cbn [self out rng].
    destruct (Hset k eq_refl eq_refl Hkw (Hseen _ _ Hk)). by split_and!. }
  destruct (open_in_place _ _ _ _) as [d []] eqn:Hopen.
  2: { destruct Hd as (b' & Hd & _ & Hb' & _). rewrite Hdec in Hd. injection Hd as -> ->. cbn [self out rng].
       destruct (Hset k eq_refl eq_refl Hkw (Hseen _ _ Hk)). by split_and!. }
  destruct Hd as (b' & Hd & Hkw' & Hb' & Hcb & _). rewrite Hdec in Hd. injection Hd as -> ->. cbn [self out rng].
  specialize (Hauth d Hk eq_refl).
  match type of Hkw' with key_wf ?k' => destruct (Hset k') as [Hok Hsame] end; [by case_match|by case_match|exact Hkw'|..].
  { case_match; [right|by apply (Hseen _ _ Hk)]. by eexists. }
  split; [exact Hok|]. split; [exact Hsame|]. split; [done|].
  intros _. split; [exact Hb'|]. eexists. split; [exact Hauth|]. by rewrite Hcb.
Qed.

(** *** Seconds and new keys *)

Lemma core_ok_second half S T c : core_ok half S T c -> core_ok half S T (CryptoCore.every_second c).
Proof.
  intros [Hw Hh Hused Hbase Hsent Hseen].
  assert (forall j k, keys (CryptoCore.every_second c) !! j = Some k -> exists k0, keys c !! j = Some k0 /\ k = CryptoKey.update_min_nonce k0) as Hk.
  { intros j k Hj. cbn in Hj. rewrite list_lookup_fmap in Hj. destruct (keys c !! j) as [k0|]; [|done]. injection Hj as <-. by exists k0. }
  split; [by apply every_second_wf|done|exact Hused|..].
  - intros j k (k0 & Hj & ->)%Hk. exact (Hbase j k0 Hj).
  - intros k x (k0 & Hj & ->)%Hk. exact (Hsent k0 x Hj).
  - intros j k (k0 & Hj & ->)%Hk. exact (Hseen j k0 Hj).
Qed.

Definition new_to S (key : LessSafeKey) : Prop := forall x, x ∈ S -> sx_key x <> key.
Definition rotated (algo : Algorithm) (rot : RotatedKey) : LessSafeKey := mkLessSafeKey algo (take (key_len algo) (rk_key rot)).

Lemma core_ok_put half S T algo rk c c' : core_ok half S T c -> put_in algo rk c c' ->
  (forall rot, rk = Some rot -> new_to S (rotated algo rot)) -> core_ok half S T c'.
Proof.
  intros Hok Hput Hnew. destruct rk as [rot|]; [|by cbn in Hput; subst c']. destruct Hput as (k & (Hkw & Hzero & Hb) & Hkey & ->).
  specialize (Hnew rot eq_refl). change (ck_key k = rotated algo rot) in Hkey.
  pose proof (Z.mod_pos_bound (rk_id rot) 4 ltac:(lia)) as Hid. set (j0 := rk_id rot mod 4) in *.
  destruct Hok as [Hw Hh Hused Hbase Hsent Hseen]. rewrite Hh in Hb.
  assert (core_wf (CryptoCore.set_key j0 k c)) as Hw1 by (by apply set_key_wf). pose proof Hw1 as (Hl1 & _ & Hf1).
  assert (forall cur, 0 <= cur < 4 -> cur = current_key c \/ cur = j0 ->
    core_ok half S T (CryptoCore.set_current_key cur (CryptoCore.set_key j0 k c))) as Hall.
  { intros cur Hcur Hor. split; [by split; [|split]|done|exact Hused|..]; cbn [keys current_key CryptoCore.set_current_key].
    - intros j kj [[_ ->]|[_ Hj]]%set_key_cases; [lia|by eapply Hbase].
    - intros kx x [[_ ->]|[Hne Hj]]%set_key_cases Hx Hxk; [by destruct (Hnew x Hx); rewrite Hxk|].
      destruct Hor as [->| ->]; [by apply Hsent|done].
    - intros j kj [[_ ->]|[_ Hj]]%set_key_cases; [by left|by eapply Hseen]. }
  destruct (use_for_sending rot); [by apply Hall; [|right]|]. apply (Hall (current_key c)); [apply Hw|by left].
Qed.

(** *** The keys in their order *)

Implicit Types (s : RotationState) (L : list (Z * LessSafeKey)).

(** The key with the number the node has come to is noted. *)
Definition noted s c L : list (Z * LessSafeKey) :=
  match keys c !! Z.to_nat (epoch s mod 4) with Some k => (epoch s, ck_key k) :: L | None => L end.

(** No key was handed out under two numbers. *)
Definition distinct L : Prop := forall i j (key : LessSafeKey), (i, key) ∈ L -> (j, key) ∈ L -> i = j.

Record log_ok s c S L : Prop := {
  lo_epoch : forall i (key : LessSafeKey), (i, key) ∈ L -> i <= epoch s;
  lo_sealed : forall x, x ∈ S -> exists i, (i, sx_key x) ∈ L;
  lo_current : forall k, keys c !! Z.to_nat (current_key c) = Some k -> exists i, (i, ck_key k) ∈ L
}.

Lemma noted_mono s c L : L ⊆ noted s c L.
Proof. unfold noted. destruct (keys c !! _); [|done]. intros p Hp. by apply elem_of_cons; right. Qed.

Lemma noted_epoch s s' c L : (forall i (key : LessSafeKey), (i, key) ∈ L -> i <= epoch s) -> epoch s <= epoch s' -> forall i key, (i, key) ∈ noted s' c L -> i <= epoch s'.
Proof.
  intros HL Hs i k. unfold noted. destruct (keys c !! _); [intros [[= -> _]|Hin]%elem_of_cons; [done|]|intros Hin]; specialize (HL i k Hin); lia.
Qed.

(** A rotated key is new: it has a number no key so far has. *)
Lemma log_ok_put algo s s' c c' rk S L : length (keys c) = 4%nat -> put_in algo rk c c' -> advances s s' rk -> log_ok s c S L ->
  log_ok s' c' S (noted s' c' L) /\ (distinct (noted s' c' L) -> forall rot, rk = Some rot -> new_to S (rotated algo rot)).
Proof.
  intros Hl Hput Hadv [Hle Hseal Hcur]. destruct rk as [rot|].
  2: { cbn in Hput, Hadv. subst c'. split; [|done]. split; [eapply noted_epoch; [exact Hle|lia]|..].
       - intros x (i & Hi)%Hseal. exists i. by apply noted_mono.
       - intros k (i & Hi)%Hcur. exists i. by apply noted_mono. }
  destruct Hput as (k & _ & Hkey & ->). destruct Hadv as [Hid Hlt]. change (ck_key k = rotated algo rot) in Hkey.
  pose proof (Z.mod_pos_bound (rk_id rot) 4 ltac:(lia)) as Hj. set (c1 := CryptoCore.set_key (rk_id rot mod 4) k c).
  set (c' := (if use_for_sending rot then _ else _) c1).
  assert (keys c' = keys c1) as Hkeys by (unfold c'; by destruct (use_for_sending rot)).
  assert (keys c1 !! Z.to_nat (rk_id rot mod 4) = Some k) as Hk1 by (apply list_lookup_insert_eq; lia).
  assert (noted s' c' L = (rk_id rot, rotated algo rot) :: L) as Hnoted by (unfold noted; by rewrite <- Hid, Hkeys, Hk1, Hkey).
  split.
  - split; [eapply noted_epoch; [exact Hle|lia]|..].
    + intros x (i & Hi)%Hseal. exists i. by apply noted_mono.
    + rewrite Hnoted. intros k'. rewrite Hkeys. intros [[_ ->]|[Hne Hk']]%set_key_cases; [eexists; rewrite Hkey; apply elem_of_cons; by left|].
      unfold c' in Hne, Hk'. destruct (use_for_sending rot); [done|]. destruct (Hcur k' Hk') as [i Hi]. exists i. apply elem_of_cons. by right.
  - rewrite Hnoted. intros Hd r [= <-] x Hx Heq. destruct (Hseal x Hx) as [i Hi]. rewrite Heq in Hi.
    assert (i = rk_id rot) as -> by (eapply Hd; apply elem_of_cons; [by right|by left]). specialize (Hle _ _ Hi). lia.
Qed.

(** Sealing and opening note nothing new. *)
Lemma log_ok_core s c c' S L : same_core c c' -> log_ok s c S L -> log_ok s c' S L.
Proof.
  intros [Hkeys Hcur0] [Hle Hseal Hcur]. split; [exact Hle|exact Hseal|]. intros k Hk.
  apply (f_equal (fun l => l !! Z.to_nat (current_key c'))) in Hkeys. rewrite !list_lookup_fmap, Hk, <- Hcur0 in Hkeys.
  destruct (keys c !! Z.to_nat (current_key c)) as [k0|] eqn:Hk0; [|done]. cbn in Hkeys. injection Hkeys as <-. exact (Hcur k0 eq_refl).
Qed.

Lemma log_ok_sealed s c S L text : log_ok s c S L -> log_ok s c (sealed_last c text S) L.
Proof.
  intros [Hle Hseal Hcur]. split; [exact Hle| |exact Hcur]. intros x. unfold sealed_last.
  destruct (keys c !! _) as [k|] eqn:Hk; [|apply Hseal]. intros [->|Hx]%elem_of_cons; [by apply Hcur|by apply Hseal].
Qed.

Lemma log_ok_noted s c S L : log_ok s c S L -> log_ok s c S (noted s c L).
Proof.
  intros [Hle Hseal Hcur]. split; [eapply noted_epoch; [exact Hle|lia]|..].
  - intros x (i & Hi)%Hseal. exists i. by apply noted_mono.
  - intros k (i & Hi)%Hcur. exists i. by apply noted_mono.
Qed.

End Cores.

(** ** The calls on one end *)

Section Ends.
Context `{RingLaws} {P : Type} `{Payload P}.
Implicit Types (i : PeerCrypto P) (c : CryptoCore) (n : Node) (S T : list Sealed) (L : list (Z * LessSafeKey)).

(** One end of a connection, all the messages it has sealed and the keys it has come
    to with their numbers. *)
Record End : Type := mkEnd { end_peer : PeerCrypto P; end_sealed : list Sealed; end_log : list (Z * LessSafeKey) }.

Definition sealed_by i (text : bytes) S : list Sealed := match pc_core i with Some c => sealed_last c text S | None => S end.
Definition noted_by i L : list (Z * LessSafeKey) := match pc_rotation i, pc_core i with Some s, Some c => noted s c L | _, _ => L end.
Definition sent_packet i (text packet : bytes) : Prop := exists c, pc_core i = Some c /\ packet = packet_of c text.

Definition nonces_left i : Prop := forall c, pc_core i = Some c -> nonce_room c.

(** A call at one end, when the other has sealed [T]: it sends a message; a second
    passes, with a message of the rotation or without; a datagram arrives, whatever
    it is. *)
Inductive call T : End -> End -> Prop :=
| call_send ty buf r e i S L : nonces_left i -> is_u8 ty ->
    MsgBuffer.wf buf -> EXTRA_LEN < buf_start buf -> buf_end buf + TAG_LEN <= BUFFER_SIZE ->
    PeerCrypto.send_message ty (mkEnv i buf r) = (e, Ok ()) ->
    call T (mkEnd i S L) (mkEnd (self e) (sealed_by (self e) (ty :: MsgBuffer.contents buf) S) (noted_by (self e) L))
| call_rotate text buf r e i S L : nonces_left i -> id_far i -> MsgBuffer.wf buf -> EXTRA_LEN < space_before buf <= 1000 ->
    PeerCrypto.every_second (mkEnv i buf r) = (e, Ok Reply) -> sent_packet (self e) text (MsgBuffer.contents (out e)) ->
    call T (mkEnd i S L) (mkEnd (self e) (sealed_by (self e) text S) (noted_by (self e) L))
| call_second buf r e res i S L : nonces_left i -> id_far i -> MsgBuffer.wf buf -> EXTRA_LEN < space_before buf <= 1000 ->
    PeerCrypto.every_second (mkEnv i buf r) = (e, res) -> res <> Ok Reply -> res <> Panic ->
    call T (mkEnd i S L) (mkEnd (self e) S (noted_by (self e) L))
| call_receive m r e res i S L : MsgBuffer.wf m -> (forall c, pc_core i = Some c -> authentic T c m) ->
    PeerCrypto.handle_message (mkEnv i m r) = (e, res) -> res <> Panic ->
    call T (mkEnd i S L) (mkEnd (self e) S (noted_by (self e) L)).

(** *** Where an end is *)

(** What was said in the messages: the rotation's are those of the node. *)
Definition texts_ok S (sent : list bytes) : Prop :=
  forall x, x ∈ S -> sx_text x <> [] /\ forall m, sx_text x = MESSAGE_TYPE_ROTATION :: m -> m ∈ sent.

Record end_ok (algo : Algorithm) (half : bool) T (x : End) n (sent : list bytes) : Prop := {
  eo_represents : represents algo (end_peer x) n;
  eo_settled : settled (end_peer x);
  eo_core : forall c, pc_core (end_peer x) = Some c -> core_ok half (end_sealed x) T c /\ log_ok (rot n) c (end_sealed x) (end_log x);
  eo_texts : texts_ok (end_sealed x) sent
}.

Lemma call_distinct T x x' : call T x x' -> distinct (end_log x') -> distinct (end_log x).
Proof.
  assert (forall i L, L ⊆ noted_by i L) as Hmono.
  { intros i L. unfold noted_by. destruct (pc_rotation i), (pc_core i); try done. apply noted_mono. }
  intros Hc Hd i j key Hi Hj. destruct Hc; cbn [end_log] in *; (eapply Hd; apply Hmono; [exact Hi|exact Hj]).
Qed.

Lemma call_sealed T x x' : call T x x' -> end_sealed x ⊆ end_sealed x'.
Proof.
  assert (forall i text S, S ⊆ sealed_by i text S) as Hmono.
  { intros i text S. unfold sealed_by, sealed_last. destruct (pc_core i) as [c|]; [|done]. destruct (keys c !! _); [|done].
    intros x0 Hx. apply elem_of_cons. by right. }
  intros Hc. destruct Hc; cbn [end_sealed]; done || apply Hmono.
Qed.

(** A packet says one thing. *)
Lemma packet_inj c t t' : core_wf c -> packet_of c t = packet_of c t' -> t = t'.
Proof.
  intros Hw. unfold packet_of. destruct (core_wf_index c (current_key c) Hw) as (k & -> & _); [apply Hw|]. cbn zeta.
  set (a := algorithm_of _). set (kb := key_bytes _). set (nc := send_nonce k).
  intros [= Hs]. apply app_inv_head in Hs.
  destruct (seal_len a kb nc t) as [Hl Ht]. destruct (seal_len a kb nc t') as [Hl' Ht'].
  destruct (open_sealed a kb nc t) as [rest Ho]. destruct (open_sealed a kb nc t') as [rest' Ho']. rewrite Hs, Ho' in Ho. injection Ho as Ho.
  apply (f_equal length) in Hs. rewrite !length_app in Hs. unfold zlen in *. apply app_inj_1 in Ho as [-> _]; [done|lia].
Qed.

Lemma connected_core algo half T x n sent : end_ok algo half T x n sent ->
  exists c, secured (end_peer x) c /\ pc_rotation (end_peer x) = Some (rot n) /\ holds algo (slot n) c /\ current_key c = sending n /\
    core_ok half (end_sealed x) T c /\ log_ok (rot n) c (end_sealed x) (end_log x).
Proof.
  intros [(Hu & Hr & c & Hc & Hh & Hs) _ Hcore _]. destruct (Hcore c Hc). by exists c.
Qed.

(** *** Sealing a message *)

Lemma seal_message i c half S T b r : secured i c -> core_ok half S T c -> nonce_left c ->
  MsgBuffer.wf b -> EXTRA_LEN <= buf_start b -> buf_end b + TAG_LEN <= BUFFER_SIZE ->
  exists c' b', PeerCrypto.encrypt_message (mkEnv i b r) = (mkEnv (PeerCrypto.set_core (Some c') i) b' r, Ok ()) /\
    MsgBuffer.contents b' = packet_of c' (MsgBuffer.contents b) /\ same_core c c' /\
    core_ok half (sealed_last c' (MsgBuffer.contents b) S) T c'.
Proof.
  intros [Hc Hu] Hok Hleft Hb Hs He. destruct (core_ok_seal half S T c b r Hok Hleft Hb Hs He) as (c' & b' & Henc & _ & Hp & Hsame & Hok').
  exists c', b'. split; [|done]. unfold PeerCrypto.encrypt_message. rewrite (bind_ok _ _ _ (mkEnv i b r) i) by done.
  rewrite Hu, (in_core_eq _ _ _ _ _ Hc). by rewrite Henc.
Qed.

(** What holds after a call that leaves the rotation alone. *)
Lemma end_ok_same algo half T i c c' L n sent S' :
  represents algo i n -> pc_core i = Some c -> settled (PeerCrypto.set_core (Some c') i) -> same_core c c' ->
  core_ok half S' T c' -> log_ok (rot n) c' S' L -> texts_ok S' sent -> end_ok algo half T (mkEnd (PeerCrypto.set_core (Some c') i) S' L) n sent.
Proof.
  intros Hrep Hc Hset Hsame Hok Hlog Ht. split; cbn [end_peer end_sealed end_log]; [|exact Hset| |exact Ht].
  - eapply represents_same; [exact Hrep|]. by eapply same_keys_core.
  - intros c0 [= <-]. by split.
Qed.

Lemma end_ok_noted algo half T i S L n sent : end_ok algo half T (mkEnd i S L) n sent -> end_ok algo half T (mkEnd i S (noted_by i L)) n sent.
Proof.
  intros [Hrep Hset Hcore Ht]. cbn [end_peer end_sealed end_log] in *. pose proof Hrep as (_ & Hr & _).
  split; cbn [end_peer end_sealed end_log]; [exact Hrep|exact Hset| |exact Ht]. intros c Hc. destruct (Hcore c Hc) as [Hok Hlog].
  split; [exact Hok|]. unfold noted_by. rewrite Hr, Hc. by apply log_ok_noted.
Qed.

Lemma call_send_ok algo half T i S L n sent ty buf r e :
  end_ok algo half T (mkEnd i S L) n sent -> nonces_left i -> is_u8 ty ->
  MsgBuffer.wf buf -> EXTRA_LEN < buf_start buf -> buf_end buf + TAG_LEN <= BUFFER_SIZE ->
  PeerCrypto.send_message ty (mkEnv i buf r) = (e, Ok ()) ->
  end_ok algo half T (mkEnd (self e) (sealed_by (self e) (ty :: MsgBuffer.contents buf) S) (noted_by (self e) L)) n sent.
Proof.
  intros Hend Hleft Hty Hb Hs He Hsend. destruct (connected_core _ _ _ _ _ _ Hend) as (c & Hsec & Hr & _ & _ & Hok & Hlog).
  cbn [end_peer end_sealed end_log] in *. pose proof (eo_represents _ _ _ _ _ _ Hend) as Hrep. pose proof (eo_texts _ _ _ _ _ _ Hend) as Ht.
  assert (settled (self e)) as Hset.
  { pose proof (keeps_send_message ty (mkEnv i buf r) (eo_settled _ _ _ _ _ _ Hend)) as Hk. unfold wp in Hk. by rewrite Hsend in Hk. }
  unfold EXTRA_LEN in Hs. destruct (prepend_byte_spec (E := Error) buf ty Hb Hty ltac:(lia)) as (b1 & Hp & Hb1 & Hc1 & Hs1 & He1 & _).
  destruct (seal_message i c half S T b1 r Hsec Hok) as (c' & b' & Henc & Hpk & Hsame & Hok');
    [apply room_left, Hleft, Hsec|exact Hb1|unfold EXTRA_LEN; lia|by rewrite He1|].
  unfold PeerCrypto.send_message in Hsend. destruct (bool_decide (ty = MESSAGE_TYPE_ROTATION)) eqn:Hrt; [done|]. apply bool_decide_eq_false in Hrt.
  rewrite (bind_ok _ _ _ (mkEnv i buf r) ()) in Hsend by done.
  rewrite (bind_ok _ _ _ _ _ (on_out_eq _ i buf r _ _ Hp)), Henc in Hsend. injection Hsend as <-. cbn [self] in *.
  change (sealed_by (PeerCrypto.set_core (Some c') i) (ty :: MsgBuffer.contents buf) S) with (sealed_last c' (ty :: MsgBuffer.contents buf) S).
  rewrite Hc1 in Hok'. apply end_ok_noted. eapply end_ok_same; [exact Hrep|apply Hsec|exact Hset|exact Hsame|exact Hok'|by eapply log_ok_sealed, log_ok_core|].
  intros x. unfold sealed_last. destruct (keys c' !! _); [|apply Ht]. intros [->|Hx]%elem_of_cons; [|by apply Ht]. cbn [sx_text].
  split; [done|]. intros m [= -> _]. done.
Qed.

(** *** A datagram arrives *)

Definition kept i (j : PeerCrypto P) : Prop := pc_unencrypted j = pc_unencrypted i /\ pc_rotation j = pc_rotation i /\ pc_core j = pc_core i.

Lemma end_ok_kept algo half T i (j : PeerCrypto P) S L n sent : kept i j -> settled j ->
  end_ok algo half T (mkEnd i S L) n sent -> end_ok algo half T (mkEnd j S L) n sent.
Proof.
  intros (Hu & Hr & Hc) Hset Hend. destruct (connected_core _ _ _ _ _ _ Hend) as (c & [Hci Hui] & Hri & _ & _ & Hok & Hlog).
  cbn [end_peer end_sealed end_log] in *. rewrite Hci in Hc. rewrite Hri in Hr.
  split; cbn [end_peer end_sealed end_log]; [|exact Hset| |apply (eo_texts _ _ _ _ _ _ Hend)].
  - eapply represents_same; [apply (eo_represents _ _ _ _ _ _ Hend)|]. cbn. unfold same_keys. rewrite Hci, Hc, Hri, Hr. by split_and!.
  - intros c0 Hc0. rewrite Hc in Hc0. injection Hc0 as <-. by split.
Qed.

(** After the handshake an init message changes the handshake alone. *)
Lemma init_message_kept i e : settled (self e) -> kept i (self e) ->
  wp (PeerCrypto.handle_init_message (P := P)) (fun _ e => kept i (self e)) (fun _ e => kept i (self e)) e.
Proof.
  intros [Hi _] Hk. unfold PeerCrypto.handle_init_message. apply wp_bind, wp_in_init; [|by intros _]. intros st Hst.
  eapply wp_mono; [apply handle_init_done; by apply Hi| |by intros er e' _]. intros res e' [-> _].
  apply wp_bind. eapply (keeps_wp (of_self (kept i))); [|exact Hk| |done].
  - unfold PeerCrypto.prepend_unless_empty. apply keeps_bind; [apply keeps_on_out|intros []; [apply keeps_ret|apply keeps_on_out]].
  - intros [] e1 He1. by apply wp_ret.
Qed.

Lemma texts_mono S sent sent' : texts_ok S sent -> sent ⊆ sent' -> texts_ok S sent'.
Proof. intros Ht Hs x Hx. destruct (Ht x Hx) as [Hne Hr]. split; [exact Hne|]. intros m Hm. by apply Hs, Hr. Qed.

(** What holds after the rotation put a key in, or none. *)
Lemma end_ok_put algo half T (j : PeerCrypto P) n n' c c' rk S L sent :
  represents algo j n' -> pc_core j = Some c' -> settled j -> put_in algo rk c c' -> advances (rot n) (rot n') rk ->
  core_ok half S T c -> log_ok (rot n) c S L -> texts_ok S sent -> distinct (noted_by j L) ->
  end_ok algo half T (mkEnd j S (noted_by j L)) n' sent.
Proof.
  intros Hrep Hc Hset Hput Hadv Hok Hlog Ht Hd. pose proof Hrep as (_ & Hr & _).
  destruct (log_ok_put algo (rot n) (rot n') c c' rk S L) as [Hlog' Hnew]; [apply (co_wf _ _ _ _ Hok)|exact Hput|exact Hadv|exact Hlog|].
  assert (noted_by j L = noted (rot n') c' L) as Hnb by (unfold noted_by; by rewrite Hr, Hc). rewrite Hnb in *.
  split; cbn [end_peer end_sealed end_log]; [exact Hrep|exact Hset| |exact Ht].
  intros c1 Hc1. rewrite Hc in Hc1. injection Hc1 as <-. split; [|exact Hlog']. eapply core_ok_put; [exact Hok|exact Hput|by apply Hnew].
Qed.

(** What a message of the rotation does. *)
Lemma rotation_received algo half T i c n n' m rest b r S L sent :
  end_ok algo half T (mkEnd i S L) n sent -> pc_core i = Some c -> RotationMessage.wf m -> rm_message_id m <= message_id (rot n) + 1 ->
  node_handle (RotationMessage.enc m) (with_rnd r n) = Some n' ->
  exists e', PeerCrypto.handle_rotate_message (RotationMessage.enc m ++ rest) (mkEnv i b r) = (e', Ok ()) /\
    (settled (self e') -> distinct (noted_by (self e') L) -> end_ok algo half T (mkEnd (self e') S (noted_by (self e') L)) n' sent).
Proof.
  intros Hend Hc Hwf Hid Hn. pose proof (eo_represents _ _ _ _ _ _ Hend) as Hrep. destruct (eo_core _ _ _ _ _ _ Hend c Hc) as [Hok Hlog].
  cbn [end_peer end_sealed end_log] in *.
  destruct (handle_rotation_ok algo i n n' m rest b r Hrep Hwf Hn) as (e' & c0 & c' & s' & r' & rk & Hh & Hrep' & Hm & Hc0 & Hput & Hself & _).
  rewrite Hc in Hc0. injection Hc0 as <-. exists e'. split; [exact Hh|]. intros Hset Hd.
  assert (rot n' = s') as Hrot by (destruct Hrep' as (_ & Hr' & _); rewrite Hself in Hr'; cbn in Hr'; by injection Hr').
  eapply end_ok_put; [exact Hrep'|by rewrite Hself|exact Hset|exact Hput| |exact Hok|exact Hlog|apply (eo_texts _ _ _ _ _ _ Hend)|exact Hd].
  rewrite Hrot. exact (handle_epoch m (rot n) _ _ _ _ Hwf Hid Hm).
Qed.

Lemma open_message i c m r : secured i c ->
  PeerCrypto.decrypt_message (mkEnv i m r) =
    let '(e, res) := CryptoCore.decrypt (mkEnv c m r) in (mkEnv (PeerCrypto.set_core (Some (self e)) i) (out e) (rng e), res).
Proof.
  intros [Hc Hu]. unfold PeerCrypto.decrypt_message. rewrite (bind_ok _ _ _ (mkEnv i m r) i) by done. by rewrite Hu, (in_core_eq _ _ _ _ _ Hc).
Qed.

(** A message that does not open ends there. *)
Lemma handle_sealed_stops i m r k l e res : MsgBuffer.wf m -> MsgBuffer.contents m = k :: l -> k <> INIT_MESSAGE_FIRST_BYTE ->
  PeerCrypto.decrypt_message (mkEnv i m r) = (e, res) ->
  match res with Ok _ => True | Err er => PeerCrypto.handle_message (mkEnv i m r) = (e, Err er) | Panic => PeerCrypto.handle_message (mkEnv i m r) = (e, Panic) end.
Proof.
  intros Hm Hc Hk Hd. destruct (buffer_contents (E := Error) m Hm) as [rest Hbuf]. unfold PeerCrypto.handle_message.
  rewrite (bind_ok _ _ _ (mkEnv i m r) false) by (unfold on_out, zoom, gets; cbn [self out rng]; by rewrite (nonempty m _ _ Hm Hc)).
  cbn beta iota. rewrite (bind_ok _ _ _ (mkEnv i m r) (MsgBuffer.contents m ++ rest)).
  2: { unfold on_out, zoom. cbn [self out rng]. by rewrite Hbuf. }
  rewrite Hc. cbn [app is_init_message]. rewrite bool_decide_eq_false_2 by done. unfold mbind, ST_bind. rewrite Hd. by destruct res.
Qed.

Lemma sealed_received algo half T i S L n sent inbox k l m r e res :
  end_ok algo half T (mkEnd i S L) n sent -> handled inbox n -> not_ahead inbox n -> texts_ok T inbox ->
  MsgBuffer.wf m -> MsgBuffer.contents m = k :: l -> k <> INIT_MESSAGE_FIRST_BYTE -> (forall c, pc_core i = Some c -> authentic T c m) ->
  PeerCrypto.handle_message (mkEnv i m r) = (e, res) -> res <> Panic -> settled (self e) -> distinct (noted_by (self e) L) ->
  exists n', moves inbox n n' None /\ end_ok algo half T (mkEnd (self e) S (noted_by (self e) L)) n' sent.
Proof.
  intros Hend Hin Hna HT Hm Hc Hk Hauth Hh Hres Hset Hd.
  destruct (connected_core _ _ _ _ _ _ Hend) as (c & Hsec & Hr & _ & _ & Hok & Hlog). pose proof (eo_represents _ _ _ _ _ _ Hend) as Hrep.
  pose proof (eo_settled _ _ _ _ _ _ Hend) as Hset0. pose proof (eo_texts _ _ _ _ _ _ Hend) as Ht. cbn [end_peer end_sealed end_log] in *.
  pose proof (open_message i c m r Hsec) as Hopen. destruct (CryptoCore.decrypt (mkEnv c m r)) as [ec rc] eqn:Hdec.
  pose proof (handle_sealed_stops i m r k l _ rc Hm Hc Hk Hopen) as Hstop.
  assert (rc <> Panic) as Hrc by (intros ->; rewrite Hh in Hstop; by injection Hstop).
  destruct (core_ok_open half S T c m r ec rc Hok Hm (Hauth c (proj1 Hsec)) Hdec Hrc) as (Hok' & Hsame & Hrng & Hopened).
  set (c' := self ec) in *. set (i' := PeerCrypto.set_core (Some c') i) in *.
  assert (end_ok algo half T (mkEnd i' S L) n sent) as Hend'.
  { eapply end_ok_same; [exact Hrep|apply Hsec|by apply settled_core|exact Hsame|exact Hok'|by eapply log_ok_core|exact Ht]. }
  assert (self e = i' -> exists n', moves inbox n n' None /\ end_ok algo half T (mkEnd (self e) S (noted_by (self e) L)) n' sent) as Hquiet.
  { intros ->. exists n. split; [by left|by apply end_ok_noted]. }
  destruct rc as [[]|er|]; [|by rewrite Hh in Hstop; injection Hstop as -> _; apply Hquiet|done].
  destruct (Hopened eq_refl) as (Hb & x & Hx & Htext). destruct (HT x Hx) as [Hne Hrot]. rewrite Htext in Hne, Hrot.
  destruct (MsgBuffer.contents (out ec)) as [|ty text] eqn:Htx; [done|].
  destruct (handle_sealed_first i m r k l i' (out ec) ty text (rng ec) Hm Hc Hk Hopen Hb Htx) as (b' & rest & _ & _ & _ & _ & Heq).
  rewrite Heq in Hh. case_decide as Hty; [|by injection Hh as <- _; apply Hquiet]. subst ty.
  specialize (Hrot text eq_refl). destruct (Hin text (rng ec) Hrot) as (msg & n' & -> & Hwf & Hn).
  destruct (Hna _ Hrot) as (msg' & Hmsg & Hwf' & Hid).
  assert (rm_message_id msg <= message_id (rot n) + 1) as Hid'.
  { pose proof (read_rotation msg [] Hwf) as E1. pose proof (read_rotation msg' [] Hwf') as E2. rewrite <- Hmsg, E1 in E2. by injection E2 as ->. }
  destruct (rotation_received algo half T i' c' n n' msg rest b' (rng ec) S L sent Hend' eq_refl Hwf Hid' Hn) as (e' & Hrm & Hfin).
  rewrite (bind_ok _ _ _ _ _ Hrm) in Hh. destruct e' as [ie be re]. injection Hh as <- _. cbn [self] in *.
  exists n'. split; [right; right; split; [done|]; by exists (RotationMessage.enc msg), (rng ec)|by apply Hfin].
Qed.

Lemma call_receive_ok algo half T i S L n sent inbox m r e res :
  end_ok algo half T (mkEnd i S L) n sent -> handled inbox n -> not_ahead inbox n -> texts_ok T inbox ->
  MsgBuffer.wf m -> (forall c, pc_core i = Some c -> authentic T c m) ->
  PeerCrypto.handle_message (mkEnv i m r) = (e, res) -> res <> Panic -> distinct (noted_by (self e) L) ->
  exists n', moves inbox n n' None /\ end_ok algo half T (mkEnd (self e) S (noted_by (self e) L)) n' sent.
Proof.
  intros Hend Hin Hna HT Hm Hauth Hh Hres Hd.
  assert (settled (self e)) as Hset.
  { pose proof (settled_message (mkEnv i m r) (eo_settled _ _ _ _ _ _ Hend)) as Hk. unfold wp in Hk. rewrite Hh in Hk. by destruct res as [x|er|]; [destruct Hk| |]. }
  assert (kept i (self e) -> exists n', moves inbox n n' None /\ end_ok algo half T (mkEnd (self e) S (noted_by (self e) L)) n' sent) as Hquiet.
  { intros Hk. exists n. split; [by left|]. by eapply end_ok_noted, end_ok_kept. }
  destruct (MsgBuffer.contents m) as [|k l] eqn:Hc.
  { apply (is_empty_contents m Hm) in Hc. unfold PeerCrypto.handle_message in Hh.
    rewrite (bind_ok _ _ _ (mkEnv i m r) true) in Hh by (unfold on_out, zoom, gets; cbn [self out rng]; by rewrite Hc). injection Hh as <- _. by apply Hquiet. }
  destruct (decide (k = INIT_MESSAGE_FIRST_BYTE)) as [->|Hk]; [|by eapply sealed_received].
  destruct (handle_init_first i m r l Hm Hc) as (m' & Heq & _). rewrite Heq in Hh.
  apply Hquiet. refine (wp_result _ (of_self (kept i)) _ e res _ Hh Hres). apply init_message_kept; [apply (eo_settled _ _ _ _ _ _ Hend)|done].
Qed.

(** *** A second passes *)

Lemma init_second_eq (st : InitState P) b r : done_stage st -> exists st',
  InitState.every_second (mkEnv st b r) = (mkEnv st' b r, Ok ()) /\ done_stage st'.
Proof.
  intros Hd. unfold InitState.every_second. rewrite (bind_ok _ _ _ (mkEnv st b r) st) by done. destruct Hd as [Hd|Hd]; rewrite Hd.
  - rewrite decide_True by done. case_decide; (eexists; split; [reflexivity|]); [by right|by left].
  - rewrite decide_False by done. rewrite decide_True by done. eexists. split; [reflexivity|by right].
Qed.

(** Nothing is sent for the handshake: what is left is the rotation's. *)
Lemma settled_second_eq i c b r : settled i -> pc_core i = Some c -> MsgBuffer.wf b -> exists o,
  PeerCrypto.every_second (mkEnv i b r) =
    PeerCrypto.rotate_every_second (mkEnv (PeerCrypto.set_init o (PeerCrypto.set_core (Some (CryptoCore.every_second c)) i)) (MsgBuffer.clear b) r) /\
  forall st, o = Some st -> done_stage st.
Proof.
  intros [Hi _] Hc Hb. destruct (clear_empty b Hb) as [He _]. unfold PeerCrypto.every_second.
  rewrite (bind_ok _ _ _ (mkEnv i (MsgBuffer.clear b) r) ()) by done. rewrite (bind_ok _ _ _ (mkEnv i (MsgBuffer.clear b) r) i) by done. rewrite Hc.
  set (i1 := PeerCrypto.set_core (Some (CryptoCore.every_second c)) i). rewrite (bind_ok _ _ _ (mkEnv i1 (MsgBuffer.clear b) r) ()) by done.
  assert (exists o, (match pc_init i with Some _ => PeerCrypto.in_init InitState.every_second | None => mret () end) (mkEnv i1 (MsgBuffer.clear b) r) =
    (mkEnv (PeerCrypto.set_init o i1) (MsgBuffer.clear b) r, Ok ()) /\ forall st, o = Some st -> done_stage st) as (o & Ho & Hdone).
  { destruct (pc_init i) as [st|] eqn:Hst; [|by exists None; unfold i1; destruct i; cbn in Hst; subst].
    destruct (init_second_eq st (MsgBuffer.clear b) r (Hi st eq_refl)) as (st' & Hs & Hd). exists (Some st').
    split; [by rewrite (in_init_eq _ _ _ _ st), Hs|by intros ? [= <-]]. }
  rewrite (bind_ok _ _ _ _ _ Ho). set (i2 := PeerCrypto.set_init o i1).
  rewrite (bind_ok _ _ _ (mkEnv i2 (MsgBuffer.clear b) r) i2) by done.
  assert (exists o', (if decide (match pc_init i2 with Some st => next_stage st | None => CLOSING end = CLOSING)
      then on_self (modify (PeerCrypto.set_init None)) else mret ()) (mkEnv i2 (MsgBuffer.clear b) r) =
    (mkEnv (PeerCrypto.set_init o' i1) (MsgBuffer.clear b) r, Ok () : outcome Error unit) /\ forall st, o' = Some st -> done_stage st) as (o' & Ho' & Hd').
  { case_decide; [by exists None|by exists o]. }
  rewrite (bind_ok _ _ _ _ _ Ho'), out_empty_eq. cbn [out]. rewrite He. by exists o'.
Qed.

Lemma clear_room b : MsgBuffer.wf b -> EXTRA_LEN < space_before b <= 1000 -> room_for_rotation (MsgBuffer.clear b).
Proof. intros Hb Hs. destruct (clear_empty b Hb) as [He Hst]. split; [by apply clear_wf|]. split; [exact He|lia]. Qed.

Lemma nonce_room_put algo rk c c' : core_wf c -> put_in algo rk c c' -> nonce_room c -> nonce_room c'.
Proof.
  intros Hw Hput Hroom. destruct rk as [rot|]; [|by cbn in Hput; subst c']. destruct Hput as (k & (_ & _ & Hb) & _ & ->).
  assert (nonce_room (CryptoCore.set_key (rk_id rot mod 4) k c)) as Hr.
  { intros j kj [[_ ->]|[_ Hj]]%set_key_cases; [change (nonce_half (CryptoCore.set_key (rk_id rot mod 4) k c)) with (nonce_half c); lia|by apply (Hroom j)]. }
  by destruct (use_for_sending rot).
Qed.

(** What the rotation does in a second, up to its message. *)
Lemma second_ticks algo half T i S L n sent b r :
  end_ok algo half T (mkEnd i S L) n sent -> cycle_ok (rot n) -> nonces_left i -> MsgBuffer.wf b -> EXTRA_LEN < space_before b <= 1000 ->
  exists e1 o n', PeerCrypto.every_second (mkEnv i b r) = (if bool_decide (is_Some o) then seal_rotation else mret NoResult) e1 /\
    (forall m, o = Some m -> written (MsgBuffer.clear b) (out e1) o) /\ (n' = n /\ o = None \/ exists r0, node_cycle (with_rnd r0 n) = Some (n', o)) /\
    (distinct (noted_by (self e1) L) -> end_ok algo half T (mkEnd (self e1) S (noted_by (self e1) L)) n' sent) /\
    nonces_left (self e1).
Proof.
  intros Hend Hcyc Hleft Hb Hs. destruct (connected_core _ _ _ _ _ _ Hend) as (c & Hsec & Hr & _ & _ & Hok & Hlog).
  pose proof (eo_settled _ _ _ _ _ _ Hend) as Hset. pose proof (eo_represents _ _ _ _ _ _ Hend) as Hrep. pose proof (eo_texts _ _ _ _ _ _ Hend) as Ht.
  cbn [end_peer end_sealed end_log] in *. destruct (settled_second_eq i c b r Hset (proj1 Hsec) Hb) as (io & -> & Hio).
  set (c1 := CryptoCore.every_second c). set (i1 := PeerCrypto.set_init io (PeerCrypto.set_core (Some c1) i)).
  assert (represents algo i1 n) as Hrep1.
  { eapply represents_same; [exact Hrep|]. destruct (every_second_same c). split; [done|]. split; [done|]. cbn. by rewrite (proj1 Hsec). }
  pose proof (core_ok_second _ _ _ _ Hok) as Hok1. pose proof (log_ok_core _ _ _ _ _ (every_second_same c) Hlog) as Hlog1. fold c1 in Hok1, Hlog1.
  destruct (tick_ok algo i1 n c1 (MsgBuffer.clear b) r Hrep1 eq_refl Hcyc (clear_room b Hb Hs)) as (e1 & sent1 & Htick & Hinit & Hcase).
  assert (PeerCrypto.rotate_every_second (mkEnv i1 (MsgBuffer.clear b) r) = (if sent1 then seal_rotation else mret NoResult) e1) as Heq.
  { rewrite rotate_tick_eq. by rewrite (bind_ok _ _ _ _ _ Htick). }
  assert (exists n' o rk c', sent1 = bool_decide (is_Some o) /\ represents algo (self e1) n' /\ pc_core (self e1) = Some c' /\ put_in algo rk c1 c' /\
    advances (rot n) (rot n') rk /\ (forall m, o = Some m -> written (MsgBuffer.clear b) (out e1) o) /\
    (n' = n /\ o = None \/ exists r0, node_cycle (with_rnd r0 n) = Some (n', o))) as (n' & o & rk & c' & -> & Hrep' & Hc' & Hput & Hadv & Hw & Hn).
  { destruct Hcase as [(-> & Hrep' & Hc')|(n' & o & rk & r' & c' & Hn & Hrep' & -> & Hw & Hcy & Hc' & Hput)].
    - exists n, None, None, c1. split; [done|]. split; [exact Hrep'|]. split; [exact Hc'|]. split; [done|]. split; [done|]. split; [done|by left].
    - exists n', o, rk, c'. split; [done|]. split; [exact Hrep'|]. split; [exact Hc'|]. split; [exact Hput|].
      split; [exact (cycle_epoch (rot n) _ _ _ _ Hcyc Hcy)|]. split; [done|right; by exists r]. }
  assert (settled (self e1)) as Hset1.
  { split; [|by eexists]. rewrite Hinit. exact Hio. }
  exists e1, o, n'. split; [exact Heq|]. split; [exact Hw|]. split; [exact Hn|]. split; [intros Hd; by eapply end_ok_put|].
  intros c0 Hc0. rewrite Hc' in Hc0. injection Hc0 as <-. eapply nonce_room_put; [apply (co_wf _ _ _ _ Hok1)|exact Hput|].
  intros j k Hk. cbn in Hk. rewrite list_lookup_fmap in Hk. destruct (keys c !! j) as [k0|] eqn:Hk0; [|done]. injection Hk as <-.
  exact (Hleft c (proj1 Hsec) j k0 Hk0).
Qed.

Lemma noted_same i (j : PeerCrypto P) L : same_keys i j -> noted_by j L = noted_by i L.
Proof.
  intros (_ & Hr & Hc). unfold noted_by. rewrite Hr. destruct (pc_rotation j) as [s|]; [|done].
  destruct (pc_core i) as [c|], (pc_core j) as [d|]; try done. destruct Hc as [Hk _]. unfold noted.
  apply (f_equal (fun l => l !! Z.to_nat (epoch s mod 4))) in Hk. rewrite !list_lookup_fmap in Hk.
  destruct (keys c !! _), (keys d !! _); try done. cbn in Hk. by injection Hk as ->.
Qed.

(** Sealing the rotation's message changes no key. *)
Lemma seal_rotation_same (e e' : Env (PeerCrypto P)) res : seal_rotation e = (e', res) -> res <> Panic -> same_keys (self e) (self e').
Proof.
  intros He Hp. refine (wp_result _ (of_self (same_keys (self e))) e e' res _ He Hp). unfold seal_rotation.
  apply wp_bind. eapply keeps_wp; [apply keeps_on_out|apply same_keys_refl| |by intros]. intros [] e2 He2.
  apply wp_bind. eapply keeps_wp; [apply encrypt_message_same|exact He2| |by intros]. intros [] e3 He3. by apply wp_ret.
Qed.

Lemma call_second_ok algo half T i S L n sent b r e res :
  end_ok algo half T (mkEnd i S L) n sent -> cycle_ok (rot n) -> nonces_left i -> MsgBuffer.wf b -> EXTRA_LEN < space_before b <= 1000 ->
  PeerCrypto.every_second (mkEnv i b r) = (e, res) -> res <> Panic -> distinct (noted_by (self e) L) ->
  exists n' o, (n' = n /\ o = None \/ exists r0, node_cycle (with_rnd r0 n) = Some (n', o)) /\
    match o with
    | None => res = Ok NoResult /\ end_ok algo half T (mkEnd (self e) S (noted_by (self e) L)) n' sent
    | Some m => res = Ok Reply /\ sent_packet (self e) (MESSAGE_TYPE_ROTATION :: m) (MsgBuffer.contents (out e)) /\
        end_ok algo half T (mkEnd (self e) (sealed_by (self e) (MESSAGE_TYPE_ROTATION :: m) S) (noted_by (self e) L)) n' (m :: sent)
    end.
Proof.
  intros Hend Hcyc Hleft Hb Hs Hev Hp Hd.
  destruct (second_ticks algo half T i S L n sent b r Hend Hcyc Hleft Hb Hs) as (e1 & o & n' & Heq & Hw & Hn & Hok1 & Hleft1).
  rewrite Hev in Heq. exists n', o. split; [exact Hn|]. destruct o as [m|]; [|injection Heq as -> ->; split; [done|by apply Hok1]].
  destruct (Hw m eq_refl) as (Hwf & Hst & _ & Hcont & Hlen). rewrite bool_decide_eq_true_2 in Heq by done.
  pose proof (seal_rotation_same _ _ _ (eq_sym Heq) Hp) as Hsame. rewrite (noted_same _ _ L Hsame) in Hd. rewrite (noted_same _ _ L Hsame).
  specialize (Hok1 Hd). destruct e1 as [i1 b1 r1]. cbn [self out] in *.
  destruct (connected_core _ _ _ _ _ _ Hok1) as (c & Hsec & Hr & _ & _ & Hok & Hlog). cbn [end_peer end_sealed end_log] in *.
  destruct (clear_empty b Hb) as [_ Hcs]. pose proof (length_contents b1 Hwf) as Hl1. rewrite Hcont in Hl1. unfold EXTRA_LEN, zlen in *.
  destruct (prepend_byte_spec (E := Error) b1 MESSAGE_TYPE_ROTATION Hwf ltac:(unfold is_u8, MESSAGE_TYPE_ROTATION; lia) ltac:(lia))
    as (b2 & Hpre & Hb2 & Hc2 & Hs2 & He2 & _). rewrite Hcont in Hc2.
  destruct (seal_message i1 c half S T b2 r1 Hsec Hok) as (c' & b' & Henc & Hpk & Hsc & Hok');
    [apply room_left, Hleft1, Hsec|exact Hb2|unfold EXTRA_LEN; lia|unfold TAG_LEN, BUFFER_SIZE; lia|]. rewrite Hc2 in Hpk, Hok'.
  unfold seal_rotation in Heq. rewrite (bind_ok _ _ _ _ _ (on_out_eq _ i1 b1 r1 _ _ Hpre)), (bind_ok _ _ _ _ _ Henc) in Heq.
  injection Heq as -> ->. cbn [self out]. split; [done|]. split; [by exists c'|].
  change (sealed_by (PeerCrypto.set_core (Some c') i1) (MESSAGE_TYPE_ROTATION :: m) S) with (sealed_last c' (MESSAGE_TYPE_ROTATION :: m) S).
  eapply end_ok_same; [apply (eo_represents _ _ _ _ _ _ Hok1)|apply Hsec|apply settled_core, (eo_settled _ _ _ _ _ _ Hok1)|exact Hsc|exact Hok'|
    by eapply log_ok_sealed, log_ok_core|].
  pose proof (eo_texts _ _ _ _ _ _ Hok1) as Ht. cbn [end_sealed] in Ht.
  intros x. unfold sealed_last. destruct (keys c' !! _); [intros [->|Hx]%elem_of_cons|intros Hx].
  - cbn [sx_text]. split; [done|]. intros ? [= <-]. by left.
  - destruct (Ht x Hx) as [Hne Hrt]. split; [exact Hne|]. intros m' Hm'. right. by apply Hrt.
  - destruct (Ht x Hx) as [Hne Hrt]. split; [exact Hne|]. intros m' Hm'. right. by apply Hrt.
Qed.

(** *** Any call *)

Lemma call_ok algo half T x x' n sent inbox :
  end_ok algo half T x n sent -> (id_room n -> cycle_ok (rot n)) -> handled inbox n -> not_ahead inbox n -> texts_ok T inbox ->
  call T x x' -> distinct (end_log x') ->
  exists n' o, moves inbox n n' o /\ end_ok algo half T x' n' (add_sent o sent).
Proof.
  intros Hend Hcyc Hin Hna HT Hcall Hd.
  assert (forall i, id_far i -> represents algo i n -> id_room n) as Hroom by (intros i Hi (_ & Hr & _); by apply Hi).
  pose proof (eo_represents _ _ _ _ _ _ Hend) as Hrep.
  destruct Hcall as [ty buf r e i S L Hleft Hty Hb Hs He Hsend|text buf r e i S L Hleft Hfar Hb Hs Hev Hpk|buf r e res i S L Hleft Hfar Hb Hs Hev Hnr Hp
    |m r e res i S L Hm Hauth Hh Hp]; cbn [end_peer end_log] in *.
  - exists n, None. split; [by left|]. by eapply call_send_ok.
  - destruct (call_second_ok algo half T i S L n sent buf r e _ Hend (Hcyc (Hroom i Hfar Hrep)) Hleft Hb Hs Hev ltac:(done) Hd)
      as (n' & o & Hn & Ho). destruct o as [m|]; [|by destruct Ho]. destruct Ho as (_ & Hpk' & Hok').
    exists n', (Some m). split; [right; left; split; [by eapply Hroom|]; by destruct Hn as [[_ ?]|?]|].
    destruct (connected_core _ _ _ _ _ _ Hok') as (c & [Hc _] & _ & _ & _ & Hok & _). destruct Hpk as (c1 & Hc1 & Hpk), Hpk' as (c2 & Hc2 & Hpk').
    cbn [end_peer] in Hc. rewrite Hc in Hc1, Hc2. injection Hc1 as <-. injection Hc2 as <-.
    rewrite Hpk in Hpk'. apply packet_inj in Hpk' as ->; [exact Hok'|apply (co_wf _ _ _ _ Hok)].
  - destruct (call_second_ok algo half T i S L n sent buf r e _ Hend (Hcyc (Hroom i Hfar Hrep)) Hleft Hb Hs Hev Hp Hd)
      as (n' & o & Hn & Ho). destruct o as [m|]; [by destruct Ho as (-> & _)|]. destruct Ho as (_ & Hok').
    exists n', None. split; [|exact Hok']. destruct Hn as [[-> _]|Hn]; [by left|right; left; split; [by eapply Hroom|exact Hn]].
  - destruct (call_receive_ok algo half T i S L n sent inbox m r e res Hend Hin Hna HT Hm Hauth Hh Hp Hd) as (n' & Hn & Hok').
    by exists n', None.
Qed.

Lemma end_ok_mono algo half T T' x n sent : end_ok algo half T x n sent -> T ⊆ T' -> end_ok algo half T' x n sent.
Proof.
  intros [Hrep Hset Hcore Ht] HT. split; [exact Hrep|exact Hset| |exact Ht]. intros c Hc. destruct (Hcore c Hc) as [Hok Hlog].
  split; [by eapply core_ok_mono|exact Hlog].
Qed.

(** *** Fresh cores *)

Lemma fresh_core_ok half T c : core_wf c -> nonce_half c = half -> (forall j k, keys c !! j = Some k -> fresh_key half k) -> core_ok half [] T c.
Proof.
  intros Hw Hh Hf. split; [exact Hw|exact Hh|split; [by apply NoDup_nil|by intros x Hx%elem_of_nil]|..].
  - intros j k (_ & _ & Hb)%Hf. lia.
  - by intros k x _ Hx%elem_of_nil.
  - intros j k (_ & Hz & _)%Hf. by left.
Qed.

(** ** Two ends *)

Record Link : Type := mkLink { link_a : End; link_b : End }.

(** Any call at any end, at any time. *)
Inductive lstep : Link -> Link -> Prop :=
| lstep_a x y x' : call (end_sealed y) x x' -> lstep (mkLink x y) (mkLink x' y)
| lstep_b x y y' : call (end_sealed x) y y' -> lstep (mkLink x y) (mkLink x y').

(** An end after its handshake, with the core it got: everything it has sealed is
    under the master key, with the number 0, in slot 0. *)
Definition begins (algo : Algorithm) (master : bytes) (half : bool) T (x : End) (s : RotationState) (sent : list bytes) : Prop :=
  settled (end_peer x) /\ pc_unencrypted (end_peer x) = false /\ pc_rotation (end_peer x) = Some s /\
  (exists c sl, pc_core (end_peer x) = Some c /\ holds algo sl c /\ sl 0 = master /\ current_key c = 0 /\ core_ok half (end_sealed x) T c) /\
  (forall m, m ∈ end_sealed x -> sx_key m = mkLessSafeKey algo master) /\ texts_ok (end_sealed x) sent /\
  end_log x = [(0, mkLessSafeKey algo master)].

(** The initiator's rotation has made its first proposal. *)
Inductive linitial : Link -> Prop :=
| linitial_link algo master half x y (a0 b0 : PeerCrypto P) bufa bufb ra rb ea eb sa sb :
    length master = key_len algo ->
    begins algo master half (end_sealed y) x sa [MsgBuffer.contents (out ea)] -> begins algo master (negb half) (end_sealed x) y sb [] ->
    room_for_rotation bufa ->
    RotationState.new (E := Error) true (mkEnv a0 bufa ra) = (ea, Ok sa) -> RotationState.new (E := Error) false (mkEnv b0 bufb rb) = (eb, Ok sb) ->
    linitial (mkLink x y).

Definition link_ok (algo : Algorithm) (half : bool) (w : Link) (W : World) : Prop :=
  end_ok algo half (end_sealed (link_b w)) (link_a w) (node_a W) (w_from_a W) /\
  end_ok algo (negb half) (end_sealed (link_a w)) (link_b w) (node_b W) (w_from_b W).

(** With a new core and nothing sealed yet. *)
Lemma starts_begin algo master half T i s sent : length master = key_len algo -> settled i -> starts algo master half i s ->
  begins algo master half T (mkEnd i [] [(0, mkLessSafeKey algo master)]) s sent.
Proof.
  intros Hl Hset (Hu & Hr & c & r & r' & Hc & Hn). destruct (new_holds _ _ _ _ _ _ Hl Hn) as (sl & Hsl & Hh & Hcur).
  destruct (new_core_fresh _ _ _ _ _ Hn) as (Hw & Hhalf & _ & Hf). split; [exact Hset|]. split; [exact Hu|]. split; [exact Hr|]. split; [|split; [|split; [|done]]].
  - exists c, sl. split; [exact Hc|]. split; [exact Hh|]. split; [exact Hsl|]. split; [exact Hcur|]. apply fresh_core_ok; [done..|]. intros j k Hk. apply (Hf j k Hk).
  - by intros m Hm%elem_of_nil.
  - by intros m Hm%elem_of_nil.
Qed.

Lemma begins_ok algo master half T x s sent : length master = key_len algo -> 0 <= epoch s -> begins algo master half T x s sent ->
  exists sl, sl 0 = master /\ forall r, end_ok algo half T x (mkNode s sl 0 r) sent.
Proof.
  intros Hlen Hs (Hset & Hu & Hr & (c & sl & Hc & Hh & Hsl & Hcur & Hok) & Hkeys & Ht & Hlog). exists sl. split; [exact Hsl|]. intros r.
  assert (forall k, keys c !! 0%nat = Some k -> ck_key k = mkLessSafeKey algo master) as Hk0.
  { intros k Hk. destruct Hh as (_ & _ & Hh). rewrite (Hh _ _ Hk). change (Z.of_nat 0) with 0. by rewrite Hsl, take_ge by lia. }
  split; [split; [exact Hu|]; split; [exact Hr|]; by exists c|exact Hset| |exact Ht].
  intros c1 Hc1. rewrite Hc in Hc1. injection Hc1 as <-. split; [exact Hok|]. rewrite Hlog. split; cbn [rot].
  - intros i k [= -> _]%list_elem_of_singleton. exact Hs.
  - intros m Hm. exists 0. rewrite (Hkeys m Hm). by left.
  - rewrite Hcur. intros k Hk. exists 0. rewrite (Hk0 k Hk). by left.
Qed.

Lemma linitial_ok w : linitial w -> exists algo half W, initial W /\ link_ok algo half w W.
Proof.
  intros [algo master half x y a0 b0 bufa bufb ra rb ea eb sa sb Hl Ha Hb Hroom HA HB].
  destruct (begins_ok algo master half _ x sa _ Hl ltac:(rewrite (new_epoch _ _ _ _ HA); lia) Ha) as (sla & Hsla & Hx).
  destruct (begins_ok algo master (negb half) _ y sb _ Hl ltac:(rewrite (new_epoch _ _ _ _ HB); lia) Hb) as (slb & Hslb & Hy).
  destruct (rotations_begin a0 b0 bufa bufb ra rb ea eb sa sb master sla slb Hroom HA HB Hsla Hslb) as (r1 & r2 & Hi).
  exists algo, half. eexists. split; [exact Hi|]. split; [apply Hx|apply Hy].
Qed.

Lemma lstep_ok algo half w w' W : reachable W -> link_ok algo half w W -> lstep w w' ->
  distinct (end_log (link_a w')) -> distinct (end_log (link_b w')) -> exists W', rtc step W W' /\ link_ok algo half w' W'.
Proof.
  intros HW [Ha Hb] Hs Hda Hdb. destruct W as [na nb ma mb]. destruct (reachable_not_ahead _ HW) as [Hnaa Hnab].
  apply reachable_sides in HW as ([Hoka Hha] & [Hokb Hhb] & _). cbn [node_a node_b w_from_a w_from_b] in *.
  destruct Hs as [x y x' Hc|x y y' Hc]; cbn [link_a link_b] in *.
  - destruct (call_ok _ _ _ _ _ _ _ _ Ha Hoka Hha Hnaa (eo_texts _ _ _ _ _ _ Hb) Hc Hda) as (n' & o & Hm & Hx').
    eexists. split; [exact (moves_a _ nb ma mb _ _ Hm)|]. split; [exact Hx'|]. eapply end_ok_mono; [exact Hb|by eapply call_sealed].
  - destruct (call_ok _ _ _ _ _ _ _ _ Hb Hokb Hhb Hnab (eo_texts _ _ _ _ _ _ Ha) Hc Hdb) as (n' & o & Hm & Hy').
    eexists. split; [exact (moves_b _ na ma mb _ _ Hm)|]. split; [|exact Hy']. eapply end_ok_mono; [exact Ha|by eapply call_sealed].
Qed.

Lemma lstep_distinct w w' : lstep w w' -> distinct (end_log (link_a w')) -> distinct (end_log (link_b w')) ->
  distinct (end_log (link_a w)) /\ distinct (end_log (link_b w)).
Proof. intros [x y x' Hc|x y y' Hc] Ha Hb; cbn [link_a link_b] in *; (split; [first [by eapply call_distinct|done]|first [by eapply call_distinct|done]]). Qed.

Lemma run_ok algo half w w' W : reachable W -> link_ok algo half w W -> rtc lstep w w' ->
  distinct (end_log (link_a w')) -> distinct (end_log (link_b w')) -> exists W', reachable W' /\ link_ok algo half w' W'.
Proof.
  intros HW Hok Hrun Hda Hdb. revert W HW Hok.
  assert (distinct (end_log (link_a w)) /\ distinct (end_log (link_b w)) /\
    forall W, reachable W -> link_ok algo half w W -> exists W', reachable W' /\ link_ok algo half w' W') as (_ & _ & Hall); [|exact Hall].
  induction Hrun as [w|w w1 w2 Hs Hrun IH]; [split; [done|split; [done|eauto]]|]. destruct (IH Hda Hdb) as (Ha1 & Hb1 & Hall).
  destruct (lstep_distinct _ _ Hs Ha1 Hb1) as [Ha Hb]. split; [exact Ha|]. split; [exact Hb|]. intros W HW Hok.
  destruct (lstep_ok _ _ _ _ W HW Hok Hs Ha1 Hb1) as (W1 & Hr1 & Hok1). apply (Hall W1); [|exact Hok1].
  destruct HW as (W0 & Hi & Hr). exists W0. split; [exact Hi|by etrans].
Qed.

(** *** The two ends fit together *)

Lemma ends_linked algo half x y n m sentx senty :
  end_ok algo half (end_sealed y) x n sentx -> end_ok algo (negb half) (end_sealed x) y m senty -> slot m (sending n) = slot n (sending n) ->
  exists cx cy, secured (end_peer x) cx /\ secured (end_peer y) cy /\ linked cx cy.
Proof.
  intros Hx Hy Hagree. pose proof (represents_lookup _ _ _ (eo_represents _ _ _ _ _ _ Hx)) as (c1 & Hc1 & Hs1 & Hr1 & Hk1).
  pose proof (represents_lookup _ _ _ (eo_represents _ _ _ _ _ _ Hy)) as (c2 & Hc2 & _ & _ & Hk2).
  destruct (connected_core _ _ _ _ _ _ Hx) as (cx & [Hcx Hux] & _ & _ & _ & Hokx & _).
  destruct (connected_core _ _ _ _ _ _ Hy) as (cy & [Hcy Huy] & _ & _ & _ & Hoky & _).
  rewrite Hcx in Hc1. injection Hc1 as <-. rewrite Hcy in Hc2. injection Hc2 as <-. specialize (Hk1 _ Hr1). specialize (Hk2 _ Hr1).
  rewrite <- Hs1 in Hagree. rewrite Hagree, <- Hk1 in Hk2.
  destruct (keys cx !! Z.to_nat (current_key cx)) as [kx|] eqn:Hkx; [|done]. destruct (keys cy !! Z.to_nat (current_key cx)) as [ky|] eqn:Hky; [|done].
  cbn in Hk2. injection Hk2 as Hkey. exists cx, cy. split; [done|]. split; [done|].
  destruct Hokx as [Hwx Hhx _ Hbx Hsx _]. destruct Hoky as [Hwy Hhy _ _ _ Hseen]. split; [done|]. split; [done|]. split; [by rewrite Hhx, Hhy|].
  exists kx, ky. split; [done|]. split; [done|]. split; [done|]. rewrite Hhx. pose proof (Hbx _ _ Hkx) as Hbase. split; [|exact Hbase].
  destruct (Hseen _ _ Hky) as [Hz|(s & Hs & Hsk & Hsn)]; [unfold half_base in Hbase; rewrite Hz; destruct half; lia|].
  rewrite <- Hsn. apply (Hsx kx s); [done|done|]. by rewrite Hsk.
Qed.

Lemma reached_ok w0 w : linitial w0 -> rtc lstep w0 w -> distinct (end_log (link_a w)) -> distinct (end_log (link_b w)) ->
  exists algo half W, reachable W /\ link_ok algo half w W.
Proof.
  intros Hi Hr Ha Hb. destruct (linitial_ok w0 Hi) as (algo & half & W0 & HW0 & Hok). exists algo, half.
  exact (run_ok algo half w0 w W0 (ex_intro _ W0 (conj HW0 (rtc_refl _ _))) Hok Hr Ha Hb).
Qed.

(** What [x] sends next, [y] receives unchanged, from whatever buffer it arrives in. *)
Definition delivers (x y : PeerCrypto P) : Prop := forall ty b r,
  nonces_left x -> is_u8 ty -> ty <> MESSAGE_TYPE_ROTATION -> MsgBuffer.wf b -> EXTRA_LEN < buf_start b -> buf_end b + TAG_LEN <= BUFFER_SIZE ->
  exists x' b', PeerCrypto.send_message ty (mkEnv x b r) = (mkEnv x' b' r, Ok ()) /\
  forall m r', MsgBuffer.wf m -> MsgBuffer.contents m = MsgBuffer.contents b' ->
  exists y' b'', PeerCrypto.handle_message (mkEnv y m r') = (mkEnv y' b'' r', Ok (Message ty)) /\
    MsgBuffer.wf b'' /\ MsgBuffer.contents b'' = MsgBuffer.contents b.

Lemma linked_delivers x y cx cy : secured x cx -> secured y cy -> linked cx cy -> linked cy cx -> delivers x y.
Proof.
  intros Hx Hy Hl1 Hl2 ty b r Hleft Hty Hnr Hb Hs He.
  destruct (peer_message_delivered x y cx cy b r ty Hx Hy Hl1 Hl2 (room_left _ (Hleft _ (proj1 Hx))) Hb Hs He Hty Hnr)
    as (cx' & b' & Hsend & _ & _ & _ & Hd). exists (PeerCrypto.set_core (Some cx') x), b'. split; [exact Hsend|]. intros m r' Hm Hc.
  destruct (Hd m r' Hm Hc) as (cy' & b'' & Hh & Hb'' & Hc'' & _). by exists (PeerCrypto.set_core (Some cy') y), b''.
Qed.

Lemma link_delivers algo half w W : reachable W -> link_ok algo half w W ->
  delivers (end_peer (link_a w)) (end_peer (link_b w)) /\ delivers (end_peer (link_b w)) (end_peer (link_a w)).
Proof.
  intros HW [Hx Hy]. destruct (reachable_sides W HW) as (_ & _ & Hab & Hba).
  destruct (ends_linked _ _ _ _ _ _ _ _ Hx Hy Hab) as (cx & cy & Hcx & Hcy & Hl).
  rewrite <- (negb_involutive half) in Hx. destruct (ends_linked _ _ _ _ _ _ _ _ Hy Hx Hba) as (cy' & cx' & Hcy' & Hcx' & Hl').
  assert (cx' = cx) as -> by (destruct Hcx, Hcx'; congruence). assert (cy' = cy) as -> by (destruct Hcy, Hcy'; congruence).
  split; by eapply linked_delivers.
Qed.

Lemma link_used_once algo half w W : link_ok algo half w W -> used_once (end_sealed (link_a w) ++ end_sealed (link_b w)).
Proof.
  intros [Hx Hy].
  destruct (connected_core _ _ _ _ _ _ Hx) as (cx & _ & _ & _ & _ & [_ _ [Hux Hhx] _ _ _] & _).
  destruct (connected_core _ _ _ _ _ _ Hy) as (cy & _ & _ & _ & _ & [_ _ [Huy Hhy] _ _ _] & _).
  unfold used_once. rewrite fmap_app. apply NoDup_app. split; [exact Hux|]. split; [|exact Huy].
  intros p (m & -> & Hm)%list_elem_of_fmap (m' & [= _ Hn] & Hm')%list_elem_of_fmap. pose proof (Hhx m Hm) as Hm1. pose proof (Hhy m' Hm') as Hm2.
  rewrite Hn in Hm1. unfold half_base in *. destruct half; cbn in Hm1, Hm2; lia.
Qed.

(** C5: a connection stays open: whatever calls are made on its two ends after the
    handshake, in whatever order, with messages lost, repeated, reordered and
    forged (as long as no forgery opens) and however often the keys rotate (as long
    as no two rotations agree on one key), the next message of either end is
    received by the other as it was sent. *)
Theorem channel_open (w0 w : Link) :
  linitial w0 -> rtc lstep w0 w -> distinct (end_log (link_a w)) -> distinct (end_log (link_b w)) ->
  delivers (end_peer (link_a w)) (end_peer (link_b w)) /\ delivers (end_peer (link_b w)) (end_peer (link_a w)).
Proof.
  intros Hi Hr Ha Hb. destruct (reached_ok w0 w Hi Hr Ha Hb) as (algo & half & W & HW & Hok). by eapply link_delivers.
Qed.

(** C6: over all that the two ends of a connection have ever sealed, under all the
    keys they have rotated through, no nonce was used twice with the same key, be
    it by one end or by both. *)
Theorem no_nonce_twice (w0 w : Link) :
  linitial w0 -> rtc lstep w0 w -> distinct (end_log (link_a w)) -> distinct (end_log (link_b w)) ->
  used_once (end_sealed (link_a w) ++ end_sealed (link_b w)).
Proof.
  intros Hi Hr Ha Hb. destruct (reached_ok w0 w Hi Hr Ha Hb) as (algo & half & W & _ & Hok). by eapply link_used_once.
Qed.

End Ends.

(** ** A message sent and received *)

Definition toy_master : list (Z * LessSafeKey) := [(0, toy_key)].
Definition toy_link : Link (P := NodeInfo) := mkLink (mkEnd (toy_rotating true) [] toy_master) (mkEnd (toy_rotating false) [] toy_master).

Definition toy_said : Env (PeerCrypto NodeInfo) * outcome Error unit :=
  PeerCrypto.send_message MESSAGE_TYPE_DATA (mkEnv (toy_rotating true) toy_message (toy_rng 4)).
Definition toy_said_end : End (P := NodeInfo) :=
  mkEnd (self toy_said.1) (sealed_by (self toy_said.1) (MESSAGE_TYPE_DATA :: MsgBuffer.contents toy_message) []) (noted_by (self toy_said.1) toy_master).

Definition toy_heard : Env (PeerCrypto NodeInfo) * outcome Error (MessageResult NodeInfo) :=
  PeerCrypto.handle_message (mkEnv (toy_rotating false) (out toy_said.1) (toy_rng 5)).
Definition toy_heard_end : End (P := NodeInfo) := mkEnd (self toy_heard.1) [] (noted_by (self toy_heard.1) toy_master).
Definition toy_link_later : Link (P := NodeInfo) := mkLink toy_said_end toy_heard_end.

Lemma toy_settled half : settled (toy_rotating half).
Proof. split; [done|]. intros _. by eexists. Qed.

Lemma toy_linitial : linitial toy_link.
Proof.
  eapply (linitial_link AES_128_GCM (key_bytes toy_key) true _ _ toy_plain_peer toy_plain_peer).
  - reflexivity.
  - apply (starts_begin AES_128_GCM (key_bytes toy_key) true); [reflexivity|apply toy_settled|apply toy_starts].
  - apply (starts_begin AES_128_GCM (key_bytes toy_key) false); [reflexivity|apply toy_settled|apply toy_starts].
  - exact new_room.
  - exact (toy_start_ok true).
  - exact (toy_start_ok false).
Qed.

Lemma toy_nonces_left half : nonces_left (toy_rotating half).
Proof.
  intros c [= <-]. destruct (toy_starts half) as (_ & _ & c & r & r' & [= <-] & Hn). destruct (new_core_fresh _ _ _ _ _ Hn) as (_ & Hh & _ & Hf).
  intros j k Hk. destruct (Hf j k Hk) as [(_ & _ & Hb) _]. rewrite Hh. lia.
Qed.

Lemma toy_said_eq :
  PeerCrypto.send_message MESSAGE_TYPE_DATA (mkEnv (toy_rotating true) toy_message (toy_rng 4)) = (toy_said.1, Ok ()).
Proof. unfold toy_said. apply pair_snd. vm_compute. reflexivity. Qed.
Lemma toy_heard_eq : PeerCrypto.handle_message (mkEnv (toy_rotating false) (out toy_said.1) (toy_rng 5)) = (toy_heard.1, toy_heard.2).
Proof. unfold toy_heard. apply surjective_pairing. Qed.
Lemma toy_said_wf : MsgBuffer.wf (out toy_said.1).
Proof. apply (bool_decide_unpack _). vm_compute. exact I. Qed.

Lemma toy_authentic c : pc_core (toy_rotating false) = Some c -> authentic (end_sealed toy_said_end) c (out toy_said.1).
Proof.
  intros [= <-] k d Hk Ho. set (k0 := default (mkCryptoKey toy_key [] [] [] []) (keys (toy_core false) !! 0%nat)).
  assert (keys (toy_core false) !! Z.to_nat (CryptoCore.extra_key_id (MsgBuffer.contents (out toy_said.1))) = Some k0) as Hk0 by (vm_compute; reflexivity).
  rewrite Hk in Hk0. injection Hk0 as ->. apply (f_equal fst) in Ho. cbn [fst] in Ho. subst d.
  assert (forall x y : Sealed, x = y -> x ∈ [y]) as Hin by (intros x y ->; by left). apply (Hin _ (default (mkSealed toy_key [] []) (head (end_sealed toy_said_end)))).
  vm_compute. reflexivity.
Qed.

Lemma toy_call_send : call [] (mkEnd (toy_rotating true) [] toy_master) toy_said_end.
Proof.
  refine (call_send [] MESSAGE_TYPE_DATA toy_message (toy_rng 4) toy_said.1 (toy_rotating true) [] toy_master (toy_nonces_left true) _ toy_message_wf _ _ toy_said_eq); by vm_compute.
Qed.

Lemma toy_call_receive : call (end_sealed toy_said_end) (mkEnd (toy_rotating false) [] toy_master) toy_heard_end.
Proof.
  refine (call_receive _ (out toy_said.1) (toy_rng 5) toy_heard.1 toy_heard.2 (toy_rotating false) [] toy_master toy_said_wf toy_authentic toy_heard_eq _).
  vm_compute. discriminate.
Qed.

Lemma toy_lrun : rtc lstep toy_link toy_link_later.
Proof.
  refine (rtc_l lstep _ _ _ (lstep_a (mkEnd (toy_rotating true) [] toy_master) (mkEnd (toy_rotating false) [] toy_master) _ toy_call_send) _). apply rtc_once. exact (lstep_b _ _ _ toy_call_receive).
Qed.

(** Two numbers, two keys. *)
Lemma distinct_pair i j k l L : (forall p, p ∈ L -> p = (i, k) \/ p = (j, l)) -> k <> l -> distinct L.
Proof. intros HL Hkl a b key Ha Hb. destruct (HL _ Ha), (HL _ Hb); congruence. Qed.

Definition toy_dummy : LessSafeKey := default toy_key (ck_key <$> keys (toy_core true) !! 1%nat).

Lemma toy_distinct : distinct (end_log toy_said_end) /\ distinct (end_log toy_heard_end).
Proof.
  assert (end_log toy_said_end = [(1, toy_dummy); (0, toy_key)]) as -> by (vm_compute; reflexivity).
  assert (end_log toy_heard_end = [(1, toy_dummy); (0, toy_key)]) as -> by (vm_compute; reflexivity).
  assert (toy_dummy <> toy_key) as Hne by (vm_compute; discriminate).
  split; (apply (distinct_pair 1 0 toy_dummy toy_key); [|exact Hne]); by intros p [Hp|Hp%list_elem_of_singleton]%elem_of_cons; [left|right].
Qed.

Lemma channel_open_witness :
  delivers (end_peer (link_a toy_link_later)) (end_peer (link_b toy_link_later)) /\
  delivers (end_peer (link_b toy_link_later)) (end_peer (link_a toy_link_later)).
Proof. exact (channel_open toy_link toy_link_later toy_linitial toy_lrun (proj1 toy_distinct) (proj2 toy_distinct)). Defined.

Lemma no_nonce_twice_witness : used_once (end_sealed (link_a toy_link_later) ++ end_sealed (link_b toy_link_later)).
Proof. exact (no_nonce_twice toy_link toy_link_later toy_linitial toy_lrun (proj1 toy_distinct) (proj2 toy_distinct)). Defined.
