(* ===== verification/Connection.v ===== *)
(** * From the first ping to an open channel (src/src/crypto)

    The handshake of Peer ends where the channel of Channel begins: the two ends it
    leaves behind, with what they sealed inside the handshake and with the proposal
    that opens the rotation, are a link in its initial state. So all that holds of
    the runs of a channel holds of two nodes that have just met. *)

From S2P Require Import Prelude Errors Util Types Messages Ring Core Rotate Init Handshake Peer.
From S2P Require Import Triples Stages Rekey Channel.

(** ** What the cores have behind them *)

Section Seen.
Context `{RingLaws}.
Implicit Types (c : CryptoCore) (k : CryptoKey).

(** What the other end has sealed for slot 0 of [c], as far as [c] knows: one
    message, whose text is [text]. *)
Definition seen_of c (text : bytes) : list Sealed :=
  match keys c !! 0%nat with
  | Some k => if decide (be_value (seen_nonce k) = 0) then [] else [mkSealed (ck_key k) (seen_nonce k) text]
  | None => []
  end.

Lemma seen_of_elem c text x : x ∈ seen_of c text ->
  exists k, keys c !! 0%nat = Some k /\ be_value (seen_nonce k) <> 0 /\ x = mkSealed (ck_key k) (seen_nonce k) text.
Proof.
  unfold seen_of. destruct (keys c !! 0%nat) as [k|]; [|by intros ?%elem_of_nil]. case_decide; [by intros ?%elem_of_nil|].
  intros ->%list_elem_of_singleton. by exists k.
Qed.

Lemma linked_slot c c' : linked c c' -> current_key c = 0 -> exists k k', keys c !! 0%nat = Some k /\ keys c' !! 0%nat = Some k' /\
  ck_key k = ck_key k' /\ be_value (seen_nonce k') <= be_value (send_nonce k).
Proof. intros (_ & _ & _ & k & k' & Hk & Hk' & Hkey & Hs & _) Hc. rewrite Hc in Hk, Hk'. by exists k, k'. Qed.

(** After the handshake, a core has sealed what the other has seen, and has seen
    what the other has sealed. *)
Lemma handshake_core_ok c c' t t' : linked c c' -> young c -> young c' ->
  core_ok (nonce_half c) (seen_of c' t) (seen_of c t') c.
Proof.
  intros Hl [Hcur (alg & Hy)] [_ (alg' & Hy')]. destruct (linked_slot c c' Hl Hcur) as (k & k' & Hk & Hk' & Hkey & Hle).
  pose proof Hl as (Hw & Hw' & Hh & _). split; [exact Hw|done|split|..].
  - unfold used_once, seen_of. rewrite Hk'. case_decide; cbn; [by apply NoDup_nil|apply NoDup_singleton].
  - intros x (kx & Hkx & Hne & ->)%seen_of_elem. destruct (Hy' _ _ Hkx) as (_ & _ & _ & [Hz|[_ Hr]]); [done|].
    by rewrite Hh, negb_involutive in Hr.
  - intros j kj Hj. apply (Hy _ _ Hj).
  - rewrite Hcur. intros kx x Hkx (ky & Hky & _ & ->)%seen_of_elem _. cbn [sx_nonce]. change (Z.to_nat 0) with 0%nat in Hkx. congruence.
  - intros j kj Hj. destruct (Hy _ _ Hj) as (_ & _ & _ & [Hz|[-> Hr]]); [by left|]. destruct (decide (be_value (seen_nonce kj) = 0)) as [Hz|Hz]; [by left|right].
    exists (mkSealed (ck_key kj) (seen_nonce kj) t'). split; [|done]. unfold seen_of. rewrite Hj, decide_False by done. by left.
Qed.

(** Sealing sees nothing. *)
Lemma encrypt_seen c b r c' b' r' text : core_wf c -> MsgBuffer.wf b -> EXTRA_LEN <= buf_start b -> buf_end b + TAG_LEN <= BUFFER_SIZE ->
  CryptoCore.encrypt (E := Error) (mkEnv c b r) = (mkEnv c' b' r', Ok ()) -> seen_of c' text = seen_of c text.
Proof.
  intros Hw Hb Hs He Henc. destruct (encrypt_spec (E := Error) (mkEnv c b r) Hw Hb Hs He) as (k & b2 & Hk & Hr & _). cbn [self out rng] in Hk, Hr.
  rewrite Henc in Hr. injection Hr as -> _ _. unfold seen_of. cbn [keys CryptoCore.set_key CryptoCore.set_keys].
  destruct (decide (Z.to_nat (current_key c) = 0%nat)) as [Hz|Hz]; [|by rewrite list_lookup_insert_ne].
  rewrite Hz in *. rewrite Hk, list_lookup_insert_eq; [done|]. by apply lookup_lt_Some in Hk.
Qed.

(** The keys of a young core, slot by slot. *)
Definition slots c (j : Z) : bytes := match keys c !! Z.to_nat j with Some k => key_bytes (ck_key k) | None => [] end.

Lemma young_key c alg j k : (forall j k, keys c !! j = Some k -> algorithm_of (ck_key k) = alg /\ length (key_bytes (ck_key k)) = key_len alg) ->
  keys c !! j = Some k -> ck_key k = mkLessSafeKey alg (take (key_len alg) (slots c (Z.of_nat j))).
Proof.
  intros Hall Hk. destruct (Hall _ _ Hk) as [Ha Hl]. unfold slots. rewrite Nat2Z.id, Hk, take_ge by lia. rewrite <- Ha. by destruct (ck_key k).
Qed.

End Seen.

(** ** The link two peers have opened *)

Section Opening.
Context `{RingLaws} {P : Type} `{PayloadLaws P}.
Implicit Types (i x y : PeerCrypto P) (c : CryptoCore).

(** What [i] has seen sealed, and its first key with its number. *)
Definition seen_by i (text : bytes) : list Sealed := match pc_core i with Some c => seen_of c text | None => [] end.
Definition first_key i : list (Z * LessSafeKey) :=
  match pc_core i with Some c => match keys c !! 0%nat with Some k => [(0, ck_key k)] | None => [] end | None => [] end.

(** The link of two peers after the third message: in the handshake [x] has sealed
    [tx] and [y] has sealed [ty] (their payloads), and [y] has since sealed [m], its
    proposal for the rotation. *)
Definition opened x y (tx ty m : bytes) : Link :=
  mkLink (mkEnd y (sealed_by y (MESSAGE_TYPE_ROTATION :: m) (seen_by x ty)) (first_key y)) (mkEnd x (seen_by y tx) (first_key x)).

(** A text that is none of the rotation's. *)
Definition plain (t : bytes) : Prop := t <> [] /\ hd 0 t <> MESSAGE_TYPE_ROTATION.

Lemma texts_plain c t sent : plain t -> texts_ok (seen_of c t) sent.
Proof.
  intros [Hne Hr] s (k & _ & _ & ->)%seen_of_elem. cbn [sx_text]. split; [exact Hne|]. intros m ->. by destruct Hr.
Qed.

(** An end after its handshake, but for what it has sealed. *)
Lemma young_begins i c c0 alg master S T half s sent :
  settled i -> secured i c -> pc_rotation i = Some s -> same_core c0 c ->
  young c0 -> length (keys c0) = 4%nat -> keys c0 !! 0%nat ≫= (fun k => Some (ck_key k)) = Some (mkLessSafeKey alg master) ->
  core_ok half S T c -> (forall m, m ∈ S -> sx_key m = mkLessSafeKey alg master) -> texts_ok S sent ->
  length master = key_len alg /\ begins alg master half T (mkEnd i S (first_key i)) s sent.
Proof.
  intros Hset [Hc Hu] Hr Hsame [Hcur (alg0 & Hy)] Hl Hm Hok HS Ht. destruct (keys c0 !! 0%nat) as [k|] eqn:Hk; [|done]. injection Hm as Hm.
  assert (alg0 = alg) as -> by (destruct (Hy _ _ Hk) as [<- _]; by rewrite Hm).
  assert (forall j k', keys c !! j = Some k' -> exists k0, keys c0 !! j = Some k0 /\ ck_key k' = ck_key k0) as Hkeys.
  { intros j k' Hj. pose proof (f_equal (fun l => l !! j) (proj1 Hsame)) as Hf. cbn beta in Hf. rewrite !list_lookup_fmap, Hj in Hf.
    destruct (keys c0 !! j) as [k0|]; [|done]. cbn in Hf. injection Hf as Hf. by exists k0. }
  assert (forall j k, keys c !! j = Some k -> algorithm_of (ck_key k) = alg /\ length (key_bytes (ck_key k)) = key_len alg) as Hall.
  { intros j k' (k0 & Hj & ->)%Hkeys. destruct (Hy _ _ Hj) as (Ha & Hlen & _). by split. }
  destruct (lookup_lt_is_Some_2 (keys c) 0) as [k1 Hk1]; [rewrite (proj1 (co_wf _ _ _ _ Hok)); lia|].
  assert (ck_key k1 = mkLessSafeKey alg master) as Hmk by (destruct (Hkeys _ _ Hk1) as (k0 & Hj & ->); congruence).
  split; [destruct (Hall _ _ Hk1) as [_ Hlen]; by rewrite Hmk in Hlen|].
  split; [exact Hset|]. split; [exact Hu|]. split; [exact Hr|]. split; [|split; [exact HS|split; [exact Ht|]]].
  - exists c, (slots c). split; [exact Hc|]. split; [|split; [|split; [|exact Hok]]].
    + split; [apply (co_wf _ _ _ _ Hok)|]. split; [apply (co_wf _ _ _ _ Hok)|]. intros j k' Hj. by apply young_key.
    + unfold slots. change (Z.to_nat 0) with 0%nat. by rewrite Hk1, Hmk.
    + rewrite <- Hcur. symmetry. apply Hsame.
  - unfold first_key. cbn [end_log]. by rewrite Hc, Hk1, Hmk.
Qed.

(** The two peers the handshake leaves behind make a link in its initial state. *)
Lemma connected_link x y b' : settled x -> settled y -> just_connected x y b' ->
  exists m, sent_packet y (MESSAGE_TYPE_ROTATION :: m) (MsgBuffer.contents b') /\
    forall tx ty, plain tx -> plain ty -> linitial (opened x y tx ty m).
Proof.
  intros Hsx Hsy (cx & cy & cy' & Hx & Hy & Hl1 & Hl2 & Hux & Huy & Hrx & _ & Hp).
  destruct Hp as (s0 & b0 & r0 & e & rot & b & r & Hnew & Hry & Hb0 & He0 & Hs0 & Hb & Hbs & Hbe & Hbc & Henc).
  pose proof (handshake_core_ok cx cy) as Hokx. pose proof (handshake_core_ok cy cx) as Hoky.
  pose proof (used_left 1 cy ltac:(lia) Huy) as Hleft. pose proof (proj1 Hux) as Hyx. pose proof (proj1 Huy) as Hyy.
  assert (forall tx ty, CryptoCore.encrypt (E := Error) (mkEnv cy b r) = (mkEnv cy' b' r, Ok ()) /\
    MsgBuffer.contents b' = packet_of cy' (MESSAGE_TYPE_ROTATION :: MsgBuffer.contents (out e)) /\ same_core cy cy' /\
    core_ok (nonce_half cy) (sealed_last cy' (MESSAGE_TYPE_ROTATION :: MsgBuffer.contents (out e)) (seen_of cx ty)) (seen_of cy tx) cy') as Hseal.
  { intros tx ty. destruct (core_ok_seal (nonce_half cy) (seen_of cx ty) (seen_of cy tx) cy b r) as (c2 & b2 & Henc2 & _ & Hpk & Hsame & Hok); try done.
    { by apply Hoky. } rewrite Henc in Henc2. injection Henc2 as <- <-. rewrite Hbc in Hpk, Hok. done. }
  destruct (Hseal [] []) as (_ & Hpk & Hsame & _). exists (MsgBuffer.contents (out e)). split; [exists cy'; by split; [apply Hy|]|].
  intros tx ty Htx Hty. destruct (Hseal tx ty) as (_ & _ & _ & Hok). specialize (Hokx tx ty Hl1 Hyx Hyy).
  destruct (linked_slot cy cx Hl2 (proj1 Hyy)) as (ky & kx & Hky & Hkx & Hkey & _).
  assert (seen_of cy' tx = seen_of cy tx) as Hseen by (eapply encrypt_seen; [apply Hl1|exact Hb|exact Hbs|exact Hbe|exact Henc]).
  set (m := MsgBuffer.contents (out e)) in *. unfold opened, sealed_by, seen_by. rewrite (proj1 Hx), (proj1 Hy), Hseen.
  set (Sx := seen_of cy tx) in *. set (Sy := sealed_last cy' (MESSAGE_TYPE_ROTATION :: m) (seen_of cx ty)) in *.
  set (alg := algorithm_of (ck_key ky)). set (master := key_bytes (ck_key ky)).
  assert (mkLessSafeKey alg master = ck_key ky) as Hmk by (unfold alg, master; by destruct (ck_key ky)).
  assert (forall s, s ∈ Sx -> sx_key s = mkLessSafeKey alg master) as HSx.
  { intros s (k & Hk & _ & ->)%seen_of_elem. cbn [sx_key]. rewrite Hmk. congruence. }
  assert (forall s, s ∈ seen_of cx ty -> sx_key s = mkLessSafeKey alg master) as HSy0.
  { intros s (k & Hk & _ & ->)%seen_of_elem. cbn [sx_key]. rewrite Hmk. congruence. }
  assert (forall s, s ∈ Sy -> sx_key s = mkLessSafeKey alg master) as HSy.
  { intros s. unfold Sy, sealed_last. rewrite <- (proj2 Hsame), (proj1 Hyy). change (Z.to_nat 0) with 0%nat.
    pose proof (f_equal (fun l => l !! 0%nat) (proj1 Hsame)) as Hf. cbn beta in Hf. rewrite !list_lookup_fmap, Hky in Hf.
    destruct (keys cy' !! 0%nat) as [k'|]; [|apply HSy0]. cbn in Hf. injection Hf as Hf. intros [->|Hs]%elem_of_cons; [|by apply HSy0].
    cbn [sx_key]. by rewrite Hmk. }
  destruct (young_begins y cy' cy alg master Sy Sx (nonce_half cy) rot [m]) as [Hlen Hby]; try done.
  { apply Hl1. } { rewrite Hky, Hmk. done. }
  { intros s. unfold Sy, sealed_last. destruct (keys cy' !! _); [intros [->|Hs]%elem_of_cons|intros Hs]; [|by apply (texts_plain cx ty [m] Hty)..].
    cbn [sx_text]. split; [done|]. intros m' [= <-]. by left. }
  destruct (young_begins x cx cx alg master Sx Sy (negb (nonce_half cy)) (mkRotationState _ None None None 0 false) []) as [_ Hbx]; try done.
  { apply Hl1. } { rewrite Hkx, Hmk. cbn. by rewrite Hkey. }
  { pose proof Hl2 as (_ & _ & Hh & _). rewrite <- Hh. eapply core_ok_mono; [exact Hokx|]. unfold Sy, sealed_last.
    destruct (keys cy' !! _); [|done]. intros s Hs. apply elem_of_cons. by right. }
  { by apply texts_plain. }
  eapply (linitial_link alg master (nonce_half cy) _ _ s0 s0 b0 b0 r0 r0 e _ rot _ Hlen); [exact Hby|exact Hbx|by split|exact Hnew|reflexivity].
Qed.

(** *** The handshake is over *)

Lemma awaiting_fresh x (st : InitState P) : awaiting x st -> fresh x.
Proof. intros (_ & Hc & Hr & Hu). by split_and!. Qed.

Lemma fresh_step e e' r : fresh (self e) -> PeerCrypto.handle_message e = (e', Ok r) -> after_message r (self e').
Proof. intros Hf Hm. pose proof (fresh_message e Hf) as Hw. unfold wp in Hw. by rewrite Hm in Hw. Qed.

Lemma fresh_start e e' : fresh (self e) -> PeerCrypto.initialize e = (e', Ok ()) -> fresh (self e').
Proof. intros Hf Hi. pose proof (fresh_initialize e Hf) as Hw. unfold wp in Hw. by rewrite Hi in Hw. Qed.

(** C4: two nodes that have never met open a connection that stays open. They
    exchange what [initialize] and [handle_message] leave in their buffers, through
    any receive buffers; after the third message both are initialised with the
    other's payload, and [y] has sealed its proposal for the rotation, which [x]
    takes when it arrives. From there on, whatever calls are made
    on the two ends, in whatever order, with messages lost (the proposal too),
    repeated, reordered and forged (as long as no forgery opens), and however often
    the keys rotate (as long as no two rotations agree on one key): the next message
    of either end is received by the other as it was sent, and no nonce has been
    used twice with the same key, the handshake included. *)
Theorem connection_opens x y (i j : InitState P) alg b0 rx :
  awaiting x i -> awaiting y j -> compatible i j alg -> next_stage i = STAGE_PING -> next_stage j = STAGE_PING ->
  MsgBuffer.wf b0 -> MsgBuffer.is_empty b0 = true -> 0 < buf_start b0 <= 1000 ->
  exists ex, PeerCrypto.initialize (mkEnv x b0 rx) = (ex, Ok ()) /\
  forall m1 r1, arrives m1 (out ex) -> exists ey, PeerCrypto.handle_message (mkEnv y m1 r1) = (ey, Ok Reply) /\
  forall m2 r2, arrives m2 (out ey) -> exists ex2,
    PeerCrypto.handle_message (mkEnv (self ex) m2 r2) = (ex2, Ok (InitializedWithReply (payload_keep (is_payload j)))) /\
  forall m3 r3, arrives m3 (out ex2) -> exists ey2 m,
    PeerCrypto.handle_message (mkEnv (self ey) m3 r3) = (ey2, Ok (InitializedWithReply (payload_keep (is_payload i)))) /\
    sent_packet (self ey2) (MESSAGE_TYPE_ROTATION :: m) (MsgBuffer.contents (out ey2)) /\
  (forall m4 r4, arrives m4 (out ey2) -> exists ex3, PeerCrypto.handle_message (mkEnv (self ex2) m4 r4) = (ex3, Ok NoResult)) /\
  forall tx ty w, plain tx -> plain ty -> rtc lstep (opened (self ex2) (self ey2) tx ty m) w ->
    distinct (end_log (link_a w)) -> distinct (end_log (link_b w)) ->
    delivers (end_peer (link_a w)) (end_peer (link_b w)) /\ delivers (end_peer (link_b w)) (end_peer (link_a w)) /\
    used_once (end_sealed (link_a w) ++ end_sealed (link_b w)).
Proof.
  intros Hx Hy Hcp Hsi Hsj Hb He Hs. destruct (connect_run x y i j alg b0 rx Hx Hy Hcp Hsi Hsj Hb He Hs) as (ex & H1x & _ & Hrun).
  pose proof (fresh_start (mkEnv x b0 rx) ex (awaiting_fresh _ _ Hx) H1x) as Hfx.
  exists ex. split; [exact H1x|]. intros m1 r1 Hm1. destruct (Hrun m1 r1 Hm1) as (ey & H1y & _ & Hrun2).
  pose proof (fresh_step (mkEnv y m1 r1) ey _ (awaiting_fresh _ _ Hy) H1y) as Hfy.
  exists ey. split; [exact H1y|]. intros m2 r2 Hm2. destruct (Hrun2 m2 r2 Hm2) as (ex2 & H2x & _ & Hrun3).
  pose proof (fresh_step (mkEnv (self ex) m2 r2) ex2 _ Hfx H2x) as Hsx.
  exists ex2. split; [exact H2x|]. intros m3 r3 Hm3. destruct (Hrun3 m3 r3 Hm3) as (ey2 & H2y & _ & Hjust & Hrun4).
  pose proof (fresh_step (mkEnv (self ey) m3 r3) ey2 _ Hfy H2y) as Hsy.
  destruct (connected_link _ _ _ Hsx Hsy Hjust) as (m & Hpk & Hlink). exists ey2, m. split; [exact H2y|]. split; [exact Hpk|].
  split; [intros m4 r4 Hm4; destruct (Hrun4 m4 r4 Hm4) as (ex3 & _ & _ & H3x & _); by exists ex3|].
  intros tx ty w Htx Hty Hr Ha Hb'. destruct (reached_ok _ w (Hlink tx ty Htx Hty) Hr Ha Hb') as (algo & half & W & HW & Hok).
  destruct (link_delivers algo half w W HW Hok). split; [done|]. split; [done|]. by eapply link_used_once.
Qed.

End Opening.

(** ** Two nodes meet *)

Lemma toy_room : MsgBuffer.wf (MsgBuffer.new 100) /\ MsgBuffer.is_empty (MsgBuffer.new 100) = true /\ 0 < buf_start (MsgBuffer.new 100) <= 1000.
Proof. destruct new_room as (Hw & He & _). split; [exact Hw|]. split; [exact He|]. change (buf_start (MsgBuffer.new 100)) with 100. lia. Qed.

Lemma connection_opens_witness :
  exists ex, PeerCrypto.initialize (mkEnv (toy_waiting_peer 1 2 algorithms_a) (MsgBuffer.new 100) (toy_rng 3)) = (ex, Ok ()) /\
    forall m1 r1, arrives m1 (out ex) -> exists ey, PeerCrypto.handle_message (mkEnv (toy_waiting_peer 2 1 algorithms_b) m1 r1) = (ey, Ok Reply) /\
    forall m2 r2, arrives m2 (out ey) -> exists ex2,
      PeerCrypto.handle_message (mkEnv (self ex) m2 r2) = (ex2, Ok (InitializedWithReply (payload_keep (is_payload (toy_init 2 1 algorithms_b))))) /\
    forall m3 r3, arrives m3 (out ex2) -> exists ey2 m,
      PeerCrypto.handle_message (mkEnv (self ey) m3 r3) = (ey2, Ok (InitializedWithReply (payload_keep (is_payload (toy_init 1 2 algorithms_a))))) /\
      sent_packet (self ey2) (MESSAGE_TYPE_ROTATION :: m) (MsgBuffer.contents (out ey2)).
Proof.
  destruct (connection_opens _ _ _ _ AES_256_GCM (MsgBuffer.new 100) (toy_rng 3) (toy_awaiting 1 2 algorithms_a) (toy_awaiting 2 1 algorithms_b)
    toy_compatible eq_refl eq_refl (proj1 toy_room) (proj1 (proj2 toy_room)) (proj2 (proj2 toy_room))) as (ex & Hi & Hk).
  exists ex. split; [exact Hi|]. intros m1 r1 Hm. destruct (Hk m1 r1 Hm) as (ey & He & Hk2). exists ey. split; [exact He|].
  intros m2 r2 Hm2. destruct (Hk2 m2 r2 Hm2) as (ex2 & Hx2 & Hk3). exists ex2. split; [exact Hx2|].
  intros m3 r3 Hm3. destruct (Hk3 m3 r3 Hm3) as (ey2 & m & Hy2 & Hp & _). exists ey2, m. split; [exact Hy2|exact Hp].
Defined.
