(* ===== verification/Files.v ===== *)
(** * Files and the installer (src/src/installer.rs)

    The file system as the class [Files], with the laws the other files use, and
    the installer as its first client. *)

From S2P Require Import Prelude Errors.

(** The calls of [std::fs] the program makes, by path, and commands it waits for. *)
Class Files (W : Type) : Type := {
  fs_exists : string -> W -> bool;
  (** [File::open] and all of its text *)
  fs_read : string -> ST W ErrorKind string;
  fs_create : string -> ST W ErrorKind unit;
  (** into the file just created *)
  fs_write_all : string -> string -> ST W ErrorKind unit;
  fs_set_mode : string -> Z -> ST W ErrorKind unit;
  fs_rename : string -> string -> ST W ErrorKind unit;
  fs_remove : string -> ST W ErrorKind unit;
  fs_copy : string -> string -> ST W ErrorKind unit;
  fs_create_dir_all : string -> ST W ErrorKind unit;
  fs_read_dir : string -> ST W ErrorKind (list (outcome ErrorKind string));
  fs_readonly : string -> ST W ErrorKind bool;
  current_exe : ST W ErrorKind string;
  run_command : list string -> W -> W
}.

(** Calls that succeed do to the regular files what they say, and nothing else. *)
Class FilesLaws (W : Type) `{Files W} : Type := {
  texts : W -> gmap string string;
  exists_spec p w : fs_exists p w = false -> texts w !! p = None;
  read_spec p w w' t : fs_read p w = (w', Ok t) -> texts w !! p = Some t;
  read_texts p w w' r : fs_read p w = (w', r) -> texts w' = texts w;
  create_texts p w w' : fs_create p w = (w', Ok ()) -> texts w' = <[p := ""%string]> (texts w);
  write_texts p t w w' : fs_write_all p t w = (w', Ok ()) -> texts w' = <[p := t]> (texts w);
  mode_texts p m w w' : fs_set_mode p m w = (w', Ok ()) -> texts w' = texts w;
  rename_texts p q w w' : fs_rename p q w = (w', Ok ()) -> exists t, texts w !! p = Some t /\ texts w' = <[q := t]> (delete p (texts w));
  remove_texts p w w' : fs_remove p w = (w', Ok ()) -> texts w' = delete p (texts w);
  copy_texts p q w w' : fs_copy p q w = (w', Ok ()) -> exists t, texts w !! p = Some t /\ texts w' = <[q := t]> (texts w);
  dir_texts p w w' : fs_create_dir_all p w = (w', Ok ()) -> texts w' = texts w;
  read_dir_texts p w w' r : fs_read_dir p w = (w', r) -> texts w' = texts w;
  readonly_texts p w w' r : fs_readonly p w = (w', r) -> texts w' = texts w;
  exe_texts w w' r : current_exe w = (w', r) -> texts w' = texts w;
  command_texts c w : texts (run_command c w) = texts w
}.

Lemma st_bind_ok {S E A B} (m : ST S E A) (f : A -> ST S E B) s s' b :
  (m ≫= f) s = (s', Ok b) -> exists s1 a, m s = (s1, Ok a) /\ f a s1 = (s', Ok b).
Proof. unfold mbind, ST_bind. destruct (m s) as [s1 [a|e|]]; [by exists s1, a|done..]. Qed.

Lemma map_err_ok {S E F A} (g : E -> F) (m : ST S E A) s s' a :
  (let '(s1, r) := m s in (s1, map_err g r)) = (s', Ok a) -> m s = (s', Ok a).
Proof. by destruct (m s) as [s1 [x|e|]]; intros [= -> <-]. Qed.

(** ** The installer *)

Module Installer.
Section Installer.
Context {W : Type} `{Files W}.
(** The files built into the program. *)
Context (MANPAGE SERVICE_FILE TARGET_FILE WS_PROXY_SERVICE_FILE EXAMPLE_CONFIG : string).

Definition file_io {A} (what : string) (m : ST W ErrorKind A) : ST W Error A := fun w =>
  let '(w, r) := m w in (w, map_err (FileIo what) r).

Definition systemctl_daemon_reload : ST W Error unit := modify (run_command ["systemctl"; "daemon-reload"]%string).

(** [File::create(..).and_then(|mut f| f.write_all(..))]. *)
Definition put_file (path text : string) : ST W ErrorKind unit := fs_create path ;; fs_write_all path text.

Definition install : ST W Error unit :=
  file_io "Failed to copy binary" (p ← current_exe; fs_copy p "/usr/bin/vpncloud") ;;
  file_io "Failed to set permissions for binary" (fs_set_mode "/usr/bin/vpncloud" 493) ;;
  file_io "Failed to create config folder" (fs_create_dir_all "/etc/vpncloud") ;;
  file_io "Failed to set permissions for config folder" (fs_set_mode "/etc/vpncloud" 448) ;;
  file_io "Failed to create example config" (put_file "/etc/vpncloud/example.net.disabled" EXAMPLE_CONFIG) ;;
  file_io "Failed to create manpage" (put_file "/usr/share/man/man1/vpncloud.1.gz" MANPAGE) ;;
  file_io "Failed to create service file" (put_file "/lib/systemd/system/vpncloud@.service" SERVICE_FILE) ;;
  file_io "Failed to create service target file" (put_file "/lib/systemd/system/vpncloud.target" TARGET_FILE) ;;
  file_io "Failed to create wsporxy service file" (put_file "/lib/systemd/system/vpncloud-wsproxy.service" WS_PROXY_SERVICE_FILE) ;;
  systemctl_daemon_reload.

Definition uninstall : ST W Error unit :=
  file_io "Failed to remove binary" (fs_remove "/etc/vpncloud/example.net.disabled") ;;
  file_io "Failed to remove manpage" (fs_remove "/usr/share/man/man1/vpncloud.1.gz") ;;
  file_io "Failed to remove service file" (fs_remove "/lib/systemd/system/vpncloud@.service") ;;
  file_io "Failed to remove service target file" (fs_remove "/lib/systemd/system/vpncloud.target") ;;
  file_io "Failed to remove wsproxy service file" (fs_remove "/lib/systemd/system/vpncloud-wsproxy.service") ;;
  file_io "Failed to remove binary" (fs_remove "/usr/bin/vpncloud") ;;
  systemctl_daemon_reload.

(** What is installed. *)
Definition installed (binary : string) : list (string * string) := [
  ("/usr/bin/vpncloud", binary); ("/etc/vpncloud/example.net.disabled", EXAMPLE_CONFIG);
  ("/usr/share/man/man1/vpncloud.1.gz", MANPAGE); ("/lib/systemd/system/vpncloud@.service", SERVICE_FILE);
  ("/lib/systemd/system/vpncloud.target", TARGET_FILE); ("/lib/systemd/system/vpncloud-wsproxy.service", WS_PROXY_SERVICE_FILE)]%string.

End Installer.

Section Laws.
Context {W : Type} `{FilesLaws W}.
Context (MANPAGE SERVICE_FILE TARGET_FILE WS_PROXY_SERVICE_FILE EXAMPLE_CONFIG : string).

Lemma put_file_texts path text w w' : put_file path text w = (w', Ok ()) -> texts w' = <[path := text]> (texts w).
Proof.
  intros Hp. apply st_bind_ok in Hp as (w1 & [] & Hc & Hw). apply create_texts in Hc. apply write_texts in Hw.
  by rewrite Hw, Hc, insert_insert_eq.
Qed.

Lemma file_io_ok {A} what (m : ST W ErrorKind A) w w' a : file_io what m w = (w', Ok a) -> m w = (w', Ok a).
Proof. apply map_err_ok. Qed.

(** A chain of calls that has succeeded, taken apart. *)
Ltac calls Hc :=
  repeat match type of Hc with
  | (_ ≫= _) _ = _ => let w := fresh "w" in let u := fresh "u" in let Hs := fresh "Hs" in
      apply st_bind_ok in Hc as (w & u & Hs & Hc); try destruct u
  end.

Abbreviation files binary := (installed MANPAGE SERVICE_FILE TARGET_FILE WS_PROXY_SERVICE_FILE EXAMPLE_CONFIG binary).
Abbreviation do_install := (install MANPAGE SERVICE_FILE TARGET_FILE WS_PROXY_SERVICE_FILE EXAMPLE_CONFIG).

Lemma install_texts w w' : do_install w = (w', Ok ()) ->
  exists binary, texts w' = fold_left (fun m f => <[f.1 := f.2]> m) (files binary) (texts w).
Proof.
  intros Hi. unfold install in Hi. calls Hi.
  repeat match goal with Hf : file_io _ _ _ = _ |- _ => apply file_io_ok in Hf end.
  apply st_bind_ok in Hs as (w9 & p & He & Hcopy). apply exe_texts in He. apply copy_texts in Hcopy as (t & _ & Hcopy).
  repeat match goal with
  | Hf : put_file _ _ _ = _ |- _ => apply put_file_texts in Hf
  | Hf : fs_set_mode _ _ _ = _ |- _ => apply mode_texts in Hf
  | Hf : fs_create_dir_all _ _ = _ |- _ => apply dir_texts in Hf
  end.
  injection Hi as <-. exists t. rewrite command_texts. cbn [installed fold_left fst snd]. congruence.
Qed.

Lemma uninstall_texts w w' binary : uninstall w = (w', Ok ()) -> forall p,
  texts w' !! p = if decide (p ∈ (files binary).*1) then None else texts w !! p.
Proof.
  intros Hu p. unfold uninstall in Hu. calls Hu.
  repeat match goal with Hf : file_io _ _ _ = _ |- _ => apply file_io_ok, remove_texts in Hf end.
  injection Hu as <-. rewrite command_texts.
  repeat match goal with Hf : texts _ = delete _ _ |- _ => rewrite Hf; clear Hf end. rewrite !lookup_delete. cbn [installed fmap list_fmap fst].
  destruct (decide (p ∈ _)) as [Hd|Hd]; rewrite !elem_of_cons, elem_of_nil in Hd.
  - repeat case_decide; try done. intuition congruence.
  - repeat case_decide; subst; try done; exfalso; tauto.
Qed.

Lemma fold_insert_other (l : list (string * string)) (m : gmap string string) p : p ∉ l.*1 ->
  fold_left (fun m f => <[f.1 := f.2]> m) l m !! p = m !! p.
Proof.
  revert m. induction l as [|[q t] l IH]; intros m Hp; [done|]. cbn in *. apply not_elem_of_cons in Hp as [Hq Hp].
  rewrite IH by done. by rewrite lookup_insert_ne.
Qed.

Lemma fold_insert_in (l : list (string * string)) (m : gmap string string) p t : NoDup l.*1 -> (p, t) ∈ l ->
  fold_left (fun m f => <[f.1 := f.2]> m) l m !! p = Some t.
Proof.
  revert m. induction l as [|[q u] l IH]; intros m Hn Hp; [by apply elem_of_nil in Hp|]. cbn in *. apply NoDup_cons in Hn as [Hq Hn].
  apply elem_of_cons in Hp as [[= <- <-]|Hp]; [|by apply IH]. rewrite fold_insert_other by done. by rewrite lookup_insert_eq.
Qed.

(** The installer puts its six files in place and nothing else, and uninstalling
    takes exactly these away: where none of them was there before, every file is
    as it was. *)
Theorem uninstall_reverts w w1 w2 : do_install w = (w1, Ok ()) -> uninstall w1 = (w2, Ok ()) ->
  exists binary,
    (forall p t, (p, t) ∈ files binary -> texts w1 !! p = Some t) /\
    (forall p, p ∉ (files binary).*1 -> texts w1 !! p = texts w !! p) /\
    ((forall p, p ∈ (files binary).*1 -> texts w !! p = None) -> texts w2 = texts w).
Proof.
  intros Hi Hu. destruct (install_texts _ _ Hi) as (binary & Hw1). exists binary. rewrite Hw1. split_and!.
  - intros p t. apply fold_insert_in. apply (bool_decide_unpack _). vm_compute. exact I.
  - intros p. apply fold_insert_other.
  - intros Hfresh. apply map_eq. intros p. rewrite (uninstall_texts _ _ binary Hu), Hw1. case_decide as Hd; [by rewrite Hfresh|by apply fold_insert_other].
Qed.

End Laws.
End Installer.

(** ** A toy file system *)

#[export] Instance toy_files_sys : Files (gmap string string) := {|
  fs_exists p w := bool_decide (is_Some (w !! p));
  fs_read p w := (w, ok_or (w !! p) NotFound);
  fs_create p w := (<[p := ""%string]> w, Ok ());
  fs_write_all p t w := (<[p := t]> w, Ok ());
  fs_set_mode _ _ w := (w, Ok ());
  fs_rename p q w := match w !! p with Some t => (<[q := t]> (delete p w), Ok ()) | None => (w, Err NotFound) end;
  fs_remove p w := match w !! p with Some _ => (delete p w, Ok ()) | None => (w, Err NotFound) end;
  fs_copy p q w := match w !! p with Some t => (<[q := t]> w, Ok ()) | None => (w, Err NotFound) end;
  fs_create_dir_all _ w := (w, Ok ());
  fs_read_dir _ w := (w, Ok []);
  fs_readonly _ w := (w, Ok false);
  current_exe w := (w, Ok "vpncloud"%string);
  run_command _ w := w
|}.

#[export] Instance toy_files_laws : FilesLaws (gmap string string).
Proof.
  refine {| texts w := w |}; cbn.
  - intros p w. by case_bool_decide as Hp; [|intros _; apply eq_None_not_Some].
  - intros p w w' t. by destruct (w !! p); intros [= <- <-].
  - by intros p w w' r [= <- _].
  - by intros p w w' [= <-].
  - by intros p t w w' [= <-].
  - by intros p m w w' [= <-].
  - intros p q w w'. destruct (w !! p) as [t|]; [|done]. intros [= <-]. by exists t.
  - intros p w w'. destruct (w !! p) as [t|]; [|done]. by intros [= <-].
  - intros p q w w'. destruct (w !! p) as [t|]; [|done]. intros [= <-]. by exists t.
  - by intros p w w' [= <-].
  - by intros p w w' r [= <- _].
  - by intros p w w' r [= <- _].
  - by intros w w' r [= <- _].
  - done.
Defined.

Definition toy_disk : gmap string string := {["vpncloud"%string := "the binary"%string]}.
Definition toy_installed : gmap string string * outcome Error () := Installer.install "man" "service" "target" "proxy" "example" toy_disk.

Lemma uninstall_reverts_witness : (Installer.uninstall toy_installed.1).1 = toy_disk.
Proof.
  destruct (Installer.uninstall_reverts (W := gmap string string) "man" "service" "target" "proxy" "example" toy_disk toy_installed.1
    (Installer.uninstall toy_installed.1).1) as (binary & _ & _ & Hf).
  - apply (pair_snd toy_installed). vm_compute. reflexivity.
  - apply (pair_snd (Installer.uninstall toy_installed.1)). vm_compute. reflexivity.
  - apply Hf. intros p Hp. apply list_elem_of_In in Hp. unfold toy_disk. apply lookup_singleton_ne. intros <-.
    repeat destruct Hp as [Hp|Hp]; try done.
Defined.
