(* ===== verification/Wizard.v ===== *)
(** * The wizard (src/src/wizard.rs)

    The dialogue that writes configuration files, as an interaction tree: its
    prompts and its calls of the file system are events, so that a theorem about
    all runs is one about all answers, and its loop needs no bound. *)

From stdpp Require Import fin vector.
From ITree Require Import ITree ITreeFacts Props.HasPost Events.State Events.StateFacts.
From S2P Require Import Prelude Errors Util Types Device Net Base62 Ring Core Rotate Init Handshake Peer Configuration.

Import Config.

(** ** Events and the monad *)

(** A prompt's answer is a value or the error of the terminal. [Select] answers with
    one of its items; numbers are those of the setting's type.
    [Entropy] gives the random source of a key pair. *)
Variant wizardE `{Ring} : Type -> Type :=
| Input (prompt : string) (default : option string) (allow_empty : bool) : wizardE (ErrorKind + string)
| InputNumber (prompt : string) (default : Z) : wizardE (ErrorKind + Z)
| Confirm (prompt : string) (default : bool) : wizardE (ErrorKind + bool)
| Select {n} (prompt : string) (items : vec string n) (default : option (fin n)) : wizardE (ErrorKind + fin n)
| MultiSelect (prompt : string) (items : list (string * bool)) : wizardE (ErrorKind + list nat)
| Password (prompt confirm : string) (allow_empty : bool) : wizardE (ErrorKind + string)
| Entropy : wizardE Rng
(** The directory's file names, a file's presence, what it parses to, whether its
    directory is read-only, and the steps of writing it. *)
| ReadDir (path : string) : wizardE (ErrorKind + list (ErrorKind + string))
| Exists (path : string) : wizardE bool
| ReadConfig (path : string) : wizardE (ErrorKind + option ConfigFile.ConfigFile)
| ParentReadonly (path : string) : wizardE (ErrorKind + bool)
| CreateFile (path : string) : wizardE (ErrorKind + unit)
| WriteConfig (path : string) (file : ConfigFile.ConfigFile) : wizardE (ErrorKind + unit)
| SetMode (path : string) (mode : Z) : wizardE (ErrorKind + unit).

(** Computations that can end with an [io::Error] or end the program. *)
Definition WM `{Ring} (A : Type) : Type := itree wizardE (outcome ErrorKind A).

#[export] Instance wm_ret `{Ring} : MRet WM := fun _ a => Ret (Ok a).
#[export] Instance wm_bind `{Ring} : MBind WM := fun _ _ f m =>
  ITree.bind m (fun r => match r with Ok a => f a | Err e => Ret (Err e) | Panic => Ret Panic end).

Section Monad.
Context `{Ring}.

Definition ask {A} (e : wizardE (ErrorKind + A)) : WM A :=
  ITree.bind (ITree.trigger e) (fun r => Ret (match r with inl er => Err er | inr a => Ok a end)).
Definition tell {A} (e : wizardE A) : WM A := ITree.bind (ITree.trigger e) (fun a => Ret (Ok a)).
Definition wlift {A} (o : outcome ErrorKind A) : WM A := Ret o.

(** [loop { .. }], with its state. *)
Definition wloop {I R} (body : I -> WM (I + R)) (i : I) : WM R :=
  ITree.iter (fun i => ITree.bind (body i) (fun r => Ret (match r with
    | Ok (inl i) => inl i
    | Ok (inr r) => inr (Ok r)
    | Err e => inr (Err e)
    | Panic => inr Panic
    end))) i.

End Monad.

(** ** Text *)

Definition str_list (s : string) : list string :=
  if decide (s = "")%string then [] else trim <$> Address.split_at "," s.
Definition str_opt (s : string) : option string := if decide (s = "")%string then None else Some s.
(** [unwrap_or_default]. *)
Definition or_empty (o : option string) : string := match o with Some s => s | None => "" end.
Definition join (sep : string) (l : list string) : string := String.concat sep l.

Definition starts_with (c : Ascii.ascii) (s : string) : bool :=
  match s with EmptyString => false | String x _ => bool_decide (x = c) end.
Fixpoint trim_start_matches (c : Ascii.ascii) (s : string) : string :=
  match s with EmptyString => s | String x s' => if decide (x = c) then trim_start_matches c s' else s end.

(** [Path::file_stem] of a file name: without what follows its last dot, unless
    nothing comes before that. *)
Definition file_stem (name : string) : string :=
  match rev (Address.split_at "." name) with
  | _ :: x :: rest => let stem := join "." (rev (x :: rest)) in if decide (stem = "")%string then name else stem
  | _ => name
  end.

(** [Path::join]: an absolute path replaces the base. *)
Definition path_join (base path : string) : string :=
  if starts_with "/" path then path else base +:+ "/" +:+ path.

(** ** Writing one setting *)

Definition with_listen (x : string) (c : Config) : Config :=
  mkConfig (device_type c) (device_name c) (device_path c) (fix_rp_filter c) (ip c) (advertise_addresses c) (ifup c) (ifdown c) (crypto c) x (peers c) (peer_timeout c) (keepalive c) (beacon_store c) (beacon_load c) (beacon_interval c) (beacon_password c) (mode c) (switch_timeout c) (claims c) (auto_claim c) (port_forwarding c) (daemonize c) (pid_file c) (stats_file c) (statsd_server c) (statsd_prefix c) (user c) (group c) (hook c) (hooks c).
Definition with_peers (x : list string) (c : Config) : Config :=
  mkConfig (device_type c) (device_name c) (device_path c) (fix_rp_filter c) (ip c) (advertise_addresses c) (ifup c) (ifdown c) (crypto c) (listen c) x (peer_timeout c) (keepalive c) (beacon_store c) (beacon_load c) (beacon_interval c) (beacon_password c) (mode c) (switch_timeout c) (claims c) (auto_claim c) (port_forwarding c) (daemonize c) (pid_file c) (stats_file c) (statsd_server c) (statsd_prefix c) (user c) (group c) (hook c) (hooks c).
Definition with_port_forwarding (x : bool) (c : Config) : Config :=
  mkConfig (device_type c) (device_name c) (device_path c) (fix_rp_filter c) (ip c) (advertise_addresses c) (ifup c) (ifdown c) (crypto c) (listen c) (peers c) (peer_timeout c) (keepalive c) (beacon_store c) (beacon_load c) (beacon_interval c) (beacon_password c) (mode c) (switch_timeout c) (claims c) (auto_claim c) x (daemonize c) (pid_file c) (stats_file c) (statsd_server c) (statsd_prefix c) (user c) (group c) (hook c) (hooks c).
Definition with_advertise_addresses (x : list string) (c : Config) : Config :=
  mkConfig (device_type c) (device_name c) (device_path c) (fix_rp_filter c) (ip c) x (ifup c) (ifdown c) (crypto c) (listen c) (peers c) (peer_timeout c) (keepalive c) (beacon_store c) (beacon_load c) (beacon_interval c) (beacon_password c) (mode c) (switch_timeout c) (claims c) (auto_claim c) (port_forwarding c) (daemonize c) (pid_file c) (stats_file c) (statsd_server c) (statsd_prefix c) (user c) (group c) (hook c) (hooks c).
Definition with_peer_timeout (x : Z) (c : Config) : Config :=
  mkConfig (device_type c) (device_name c) (device_path c) (fix_rp_filter c) (ip c) (advertise_addresses c) (ifup c) (ifdown c) (crypto c) (listen c) (peers c) x (keepalive c) (beacon_store c) (beacon_load c) (beacon_interval c) (beacon_password c) (mode c) (switch_timeout c) (claims c) (auto_claim c) (port_forwarding c) (daemonize c) (pid_file c) (stats_file c) (statsd_server c) (statsd_prefix c) (user c) (group c) (hook c) (hooks c).
Definition with_keepalive (x : option Z) (c : Config) : Config :=
  mkConfig (device_type c) (device_name c) (device_path c) (fix_rp_filter c) (ip c) (advertise_addresses c) (ifup c) (ifdown c) (crypto c) (listen c) (peers c) (peer_timeout c) x (beacon_store c) (beacon_load c) (beacon_interval c) (beacon_password c) (mode c) (switch_timeout c) (claims c) (auto_claim c) (port_forwarding c) (daemonize c) (pid_file c) (stats_file c) (statsd_server c) (statsd_prefix c) (user c) (group c) (hook c) (hooks c).
Definition with_crypto (x : CryptoConfig) (c : Config) : Config :=
  mkConfig (device_type c) (device_name c) (device_path c) (fix_rp_filter c) (ip c) (advertise_addresses c) (ifup c) (ifdown c) x (listen c) (peers c) (peer_timeout c) (keepalive c) (beacon_store c) (beacon_load c) (beacon_interval c) (beacon_password c) (mode c) (switch_timeout c) (claims c) (auto_claim c) (port_forwarding c) (daemonize c) (pid_file c) (stats_file c) (statsd_server c) (statsd_prefix c) (user c) (group c) (hook c) (hooks c).
Definition with_device_type (x : DeviceType) (c : Config) : Config :=
  mkConfig x (device_name c) (device_path c) (fix_rp_filter c) (ip c) (advertise_addresses c) (ifup c) (ifdown c) (crypto c) (listen c) (peers c) (peer_timeout c) (keepalive c) (beacon_store c) (beacon_load c) (beacon_interval c) (beacon_password c) (mode c) (switch_timeout c) (claims c) (auto_claim c) (port_forwarding c) (daemonize c) (pid_file c) (stats_file c) (statsd_server c) (statsd_prefix c) (user c) (group c) (hook c) (hooks c).
Definition with_device_name (x : string) (c : Config) : Config :=
  mkConfig (device_type c) x (device_path c) (fix_rp_filter c) (ip c) (advertise_addresses c) (ifup c) (ifdown c) (crypto c) (listen c) (peers c) (peer_timeout c) (keepalive c) (beacon_store c) (beacon_load c) (beacon_interval c) (beacon_password c) (mode c) (switch_timeout c) (claims c) (auto_claim c) (port_forwarding c) (daemonize c) (pid_file c) (stats_file c) (statsd_server c) (statsd_prefix c) (user c) (group c) (hook c) (hooks c).
Definition with_device_path (x : option string) (c : Config) : Config :=
  mkConfig (device_type c) (device_name c) x (fix_rp_filter c) (ip c) (advertise_addresses c) (ifup c) (ifdown c) (crypto c) (listen c) (peers c) (peer_timeout c) (keepalive c) (beacon_store c) (beacon_load c) (beacon_interval c) (beacon_password c) (mode c) (switch_timeout c) (claims c) (auto_claim c) (port_forwarding c) (daemonize c) (pid_file c) (stats_file c) (statsd_server c) (statsd_prefix c) (user c) (group c) (hook c) (hooks c).
Definition with_fix_rp_filter (x : bool) (c : Config) : Config :=
  mkConfig (device_type c) (device_name c) (device_path c) x (ip c) (advertise_addresses c) (ifup c) (ifdown c) (crypto c) (listen c) (peers c) (peer_timeout c) (keepalive c) (beacon_store c) (beacon_load c) (beacon_interval c) (beacon_password c) (mode c) (switch_timeout c) (claims c) (auto_claim c) (port_forwarding c) (daemonize c) (pid_file c) (stats_file c) (statsd_server c) (statsd_prefix c) (user c) (group c) (hook c) (hooks c).
Definition with_mode (x : Mode) (c : Config) : Config :=
  mkConfig (device_type c) (device_name c) (device_path c) (fix_rp_filter c) (ip c) (advertise_addresses c) (ifup c) (ifdown c) (crypto c) (listen c) (peers c) (peer_timeout c) (keepalive c) (beacon_store c) (beacon_load c) (beacon_interval c) (beacon_password c) x (switch_timeout c) (claims c) (auto_claim c) (port_forwarding c) (daemonize c) (pid_file c) (stats_file c) (statsd_server c) (statsd_prefix c) (user c) (group c) (hook c) (hooks c).
Definition with_switch_timeout (x : Z) (c : Config) : Config :=
  mkConfig (device_type c) (device_name c) (device_path c) (fix_rp_filter c) (ip c) (advertise_addresses c) (ifup c) (ifdown c) (crypto c) (listen c) (peers c) (peer_timeout c) (keepalive c) (beacon_store c) (beacon_load c) (beacon_interval c) (beacon_password c) (mode c) x (claims c) (auto_claim c) (port_forwarding c) (daemonize c) (pid_file c) (stats_file c) (statsd_server c) (statsd_prefix c) (user c) (group c) (hook c) (hooks c).
Definition with_ip (x : option string) (c : Config) : Config :=
  mkConfig (device_type c) (device_name c) (device_path c) (fix_rp_filter c) x (advertise_addresses c) (ifup c) (ifdown c) (crypto c) (listen c) (peers c) (peer_timeout c) (keepalive c) (beacon_store c) (beacon_load c) (beacon_interval c) (beacon_password c) (mode c) (switch_timeout c) (claims c) (auto_claim c) (port_forwarding c) (daemonize c) (pid_file c) (stats_file c) (statsd_server c) (statsd_prefix c) (user c) (group c) (hook c) (hooks c).
Definition with_auto_claim (x : bool) (c : Config) : Config :=
  mkConfig (device_type c) (device_name c) (device_path c) (fix_rp_filter c) (ip c) (advertise_addresses c) (ifup c) (ifdown c) (crypto c) (listen c) (peers c) (peer_timeout c) (keepalive c) (beacon_store c) (beacon_load c) (beacon_interval c) (beacon_password c) (mode c) (switch_timeout c) (claims c) x (port_forwarding c) (daemonize c) (pid_file c) (stats_file c) (statsd_server c) (statsd_prefix c) (user c) (group c) (hook c) (hooks c).
Definition with_claims (x : list string) (c : Config) : Config :=
  mkConfig (device_type c) (device_name c) (device_path c) (fix_rp_filter c) (ip c) (advertise_addresses c) (ifup c) (ifdown c) (crypto c) (listen c) (peers c) (peer_timeout c) (keepalive c) (beacon_store c) (beacon_load c) (beacon_interval c) (beacon_password c) (mode c) (switch_timeout c) x (auto_claim c) (port_forwarding c) (daemonize c) (pid_file c) (stats_file c) (statsd_server c) (statsd_prefix c) (user c) (group c) (hook c) (hooks c).
Definition with_ifup (x : option string) (c : Config) : Config :=
  mkConfig (device_type c) (device_name c) (device_path c) (fix_rp_filter c) (ip c) (advertise_addresses c) x (ifdown c) (crypto c) (listen c) (peers c) (peer_timeout c) (keepalive c) (beacon_store c) (beacon_load c) (beacon_interval c) (beacon_password c) (mode c) (switch_timeout c) (claims c) (auto_claim c) (port_forwarding c) (daemonize c) (pid_file c) (stats_file c) (statsd_server c) (statsd_prefix c) (user c) (group c) (hook c) (hooks c).
Definition with_ifdown (x : option string) (c : Config) : Config :=
  mkConfig (device_type c) (device_name c) (device_path c) (fix_rp_filter c) (ip c) (advertise_addresses c) (ifup c) x (crypto c) (listen c) (peers c) (peer_timeout c) (keepalive c) (beacon_store c) (beacon_load c) (beacon_interval c) (beacon_password c) (mode c) (switch_timeout c) (claims c) (auto_claim c) (port_forwarding c) (daemonize c) (pid_file c) (stats_file c) (statsd_server c) (statsd_prefix c) (user c) (group c) (hook c) (hooks c).
Definition with_beacon_store (x : option string) (c : Config) : Config :=
  mkConfig (device_type c) (device_name c) (device_path c) (fix_rp_filter c) (ip c) (advertise_addresses c) (ifup c) (ifdown c) (crypto c) (listen c) (peers c) (peer_timeout c) (keepalive c) x (beacon_load c) (beacon_interval c) (beacon_password c) (mode c) (switch_timeout c) (claims c) (auto_claim c) (port_forwarding c) (daemonize c) (pid_file c) (stats_file c) (statsd_server c) (statsd_prefix c) (user c) (group c) (hook c) (hooks c).
Definition with_beacon_load (x : option string) (c : Config) : Config :=
  mkConfig (device_type c) (device_name c) (device_path c) (fix_rp_filter c) (ip c) (advertise_addresses c) (ifup c) (ifdown c) (crypto c) (listen c) (peers c) (peer_timeout c) (keepalive c) (beacon_store c) x (beacon_interval c) (beacon_password c) (mode c) (switch_timeout c) (claims c) (auto_claim c) (port_forwarding c) (daemonize c) (pid_file c) (stats_file c) (statsd_server c) (statsd_prefix c) (user c) (group c) (hook c) (hooks c).
Definition with_beacon_interval (x : Z) (c : Config) : Config :=
  mkConfig (device_type c) (device_name c) (device_path c) (fix_rp_filter c) (ip c) (advertise_addresses c) (ifup c) (ifdown c) (crypto c) (listen c) (peers c) (peer_timeout c) (keepalive c) (beacon_store c) (beacon_load c) x (beacon_password c) (mode c) (switch_timeout c) (claims c) (auto_claim c) (port_forwarding c) (daemonize c) (pid_file c) (stats_file c) (statsd_server c) (statsd_prefix c) (user c) (group c) (hook c) (hooks c).
Definition with_beacon_password (x : option string) (c : Config) : Config :=
  mkConfig (device_type c) (device_name c) (device_path c) (fix_rp_filter c) (ip c) (advertise_addresses c) (ifup c) (ifdown c) (crypto c) (listen c) (peers c) (peer_timeout c) (keepalive c) (beacon_store c) (beacon_load c) (beacon_interval c) x (mode c) (switch_timeout c) (claims c) (auto_claim c) (port_forwarding c) (daemonize c) (pid_file c) (stats_file c) (statsd_server c) (statsd_prefix c) (user c) (group c) (hook c) (hooks c).
Definition with_stats_file (x : option string) (c : Config) : Config :=
  mkConfig (device_type c) (device_name c) (device_path c) (fix_rp_filter c) (ip c) (advertise_addresses c) (ifup c) (ifdown c) (crypto c) (listen c) (peers c) (peer_timeout c) (keepalive c) (beacon_store c) (beacon_load c) (beacon_interval c) (beacon_password c) (mode c) (switch_timeout c) (claims c) (auto_claim c) (port_forwarding c) (daemonize c) (pid_file c) x (statsd_server c) (statsd_prefix c) (user c) (group c) (hook c) (hooks c).
Definition with_statsd_server (x : option string) (c : Config) : Config :=
  mkConfig (device_type c) (device_name c) (device_path c) (fix_rp_filter c) (ip c) (advertise_addresses c) (ifup c) (ifdown c) (crypto c) (listen c) (peers c) (peer_timeout c) (keepalive c) (beacon_store c) (beacon_load c) (beacon_interval c) (beacon_password c) (mode c) (switch_timeout c) (claims c) (auto_claim c) (port_forwarding c) (daemonize c) (pid_file c) (stats_file c) x (statsd_prefix c) (user c) (group c) (hook c) (hooks c).
Definition with_statsd_prefix (x : option string) (c : Config) : Config :=
  mkConfig (device_type c) (device_name c) (device_path c) (fix_rp_filter c) (ip c) (advertise_addresses c) (ifup c) (ifdown c) (crypto c) (listen c) (peers c) (peer_timeout c) (keepalive c) (beacon_store c) (beacon_load c) (beacon_interval c) (beacon_password c) (mode c) (switch_timeout c) (claims c) (auto_claim c) (port_forwarding c) (daemonize c) (pid_file c) (stats_file c) (statsd_server c) x (user c) (group c) (hook c) (hooks c).
Definition with_user (x : option string) (c : Config) : Config :=
  mkConfig (device_type c) (device_name c) (device_path c) (fix_rp_filter c) (ip c) (advertise_addresses c) (ifup c) (ifdown c) (crypto c) (listen c) (peers c) (peer_timeout c) (keepalive c) (beacon_store c) (beacon_load c) (beacon_interval c) (beacon_password c) (mode c) (switch_timeout c) (claims c) (auto_claim c) (port_forwarding c) (daemonize c) (pid_file c) (stats_file c) (statsd_server c) (statsd_prefix c) x (group c) (hook c) (hooks c).
Definition with_group (x : option string) (c : Config) : Config :=
  mkConfig (device_type c) (device_name c) (device_path c) (fix_rp_filter c) (ip c) (advertise_addresses c) (ifup c) (ifdown c) (crypto c) (listen c) (peers c) (peer_timeout c) (keepalive c) (beacon_store c) (beacon_load c) (beacon_interval c) (beacon_password c) (mode c) (switch_timeout c) (claims c) (auto_claim c) (port_forwarding c) (daemonize c) (pid_file c) (stats_file c) (statsd_server c) (statsd_prefix c) (user c) x (hook c) (hooks c).
Definition with_pid_file (x : option string) (c : Config) : Config :=
  mkConfig (device_type c) (device_name c) (device_path c) (fix_rp_filter c) (ip c) (advertise_addresses c) (ifup c) (ifdown c) (crypto c) (listen c) (peers c) (peer_timeout c) (keepalive c) (beacon_store c) (beacon_load c) (beacon_interval c) (beacon_password c) (mode c) (switch_timeout c) (claims c) (auto_claim c) (port_forwarding c) (daemonize c) x (stats_file c) (statsd_server c) (statsd_prefix c) (user c) (group c) (hook c) (hooks c).
Definition with_hook (x : option string) (c : Config) : Config :=
  mkConfig (device_type c) (device_name c) (device_path c) (fix_rp_filter c) (ip c) (advertise_addresses c) (ifup c) (ifdown c) (crypto c) (listen c) (peers c) (peer_timeout c) (keepalive c) (beacon_store c) (beacon_load c) (beacon_interval c) (beacon_password c) (mode c) (switch_timeout c) (claims c) (auto_claim c) (port_forwarding c) (daemonize c) (pid_file c) (stats_file c) (statsd_server c) (statsd_prefix c) (user c) (group c) x (hooks c).
Definition with_hooks (x : gmap string string) (c : Config) : Config :=
  mkConfig (device_type c) (device_name c) (device_path c) (fix_rp_filter c) (ip c) (advertise_addresses c) (ifup c) (ifdown c) (crypto c) (listen c) (peers c) (peer_timeout c) (keepalive c) (beacon_store c) (beacon_load c) (beacon_interval c) (beacon_password c) (mode c) (switch_timeout c) (claims c) (auto_claim c) (port_forwarding c) (daemonize c) (pid_file c) (stats_file c) (statsd_server c) (statsd_prefix c) (user c) (group c) (hook c) x.

Module Wizard.
Section Wizard.
Context `{Ring}.

Definition MODE_SIMPLE : nat := 0.
Definition MODE_ADVANCED : nat := 1.
Definition MODE_EXPERT : nat := 2.

(** An optional prompt: the setting stays when it is not asked for. *)
Definition asked {A} (b : bool) (m : WM A) (old : A) : WM A := if b then m else mret old.
Definition advanced (mode : nat) : bool := bool_decide (MODE_ADVANCED <= mode)%nat.
Definition expert (mode : nat) : bool := bool_decide (mode = MODE_EXPERT).

Definition ask_list (prompt : string) (allow_empty : bool) (old : list string) : WM (list string) :=
  s ← ask (Input prompt (Some (join "," old)) allow_empty); mret (str_list s).
Definition ask_opt (prompt : string) (allow_empty : bool) (old : option string) : WM (option string) :=
  s ← ask (Input prompt (Some (or_empty old)) allow_empty); mret (str_opt s).

Definition configure_connectivity (config : Config) (mode : nat) : WM Config :=
  listen ← asked (advanced mode) (ask (Input "Listen address" (Some (listen config)) false)) (listen config);
  let config := with_listen listen config in
  peers ← ask_list "Peer addresses (comma separated)" false (peers config);
  let config := with_peers peers config in
  pf ← asked (advanced mode) (ask (Confirm "Enable automatic port forwarding?" (port_forwarding config))) (port_forwarding config);
  let config := with_port_forwarding pf config in
  if expert mode then
    addrs ← ask_list "Advertise addresses (comma separated)" false (advertise_addresses config);
    let config := with_advertise_addresses addrs config in
    timeout ← ask (InputNumber "Peer timeout (in seconds)" (peer_timeout config));
    let config := with_peer_timeout timeout config in
    val ← ask (InputNumber "Keepalive interval (in seconds, 0 for default)" (match keepalive config with Some k => k | None => 0 end));
    mret (with_keepalive (if decide (val = 0) then None else Some val) config)
  else mret config.

(** [Crypto::generate_keypair] with the random source of the process. *)
Definition generate (password : option string) : WM (string * string) :=
  r ← tell Entropy; wlift (Crypto.generate_keypair password r).2.

(** An invalid private key ends the program. *)
Definition enter_keypair : WM (string * string) :=
  how ← ask (Select "Specify key pair" [# "Generate new key pair"; "Enter private key"; "Generate from password"] (Some 0%fin))%string;
  match fin_to_nat how with
  | 0%nat => generate None
  | 1%nat =>
      priv_key ← ask (Password "Private key" "Confirm private key" false);
      pub_key ← wlift (unwrap (match Crypto.public_key_from_private_key priv_key with Ok k => Some k | _ => None end));
      mret (priv_key, pub_key)
  | 2%nat =>
      password ← ask (Password "Password" "Confirm password" false);
      generate (Some password)
  | _ => wlift Panic
  end.

Definition crypto_method (config : Config) (mode : nat) : WM bool :=
  if advanced mode then
    how ← ask (Select "Crypto configuration method" [# "Simple (Password)"; "Complex (Key pair)"]
      (Some (match cc_private_key (crypto config) with Some _ => 1%fin | None => 0%fin end)))%string;
    mret (bool_decide (fin_to_nat how = 0%nat))
  else mret true.

Definition configure_keys (config : Config) (mode : nat) : WM Config :=
  use_password ← crypto_method config mode;
  let c := crypto config in
  if use_password : bool then
    password ← ask (Password "Password" "Confirm password" false);
    mret (with_crypto (mkCryptoConfig (Some password) None None [] (cc_algorithms c)) config)
  else
    '(priv_key, pub_key) ← enter_keypair;
    trusted ← ask (Input "Trusted keys (public keys, comma separated)" (Some pub_key) false);
    mret (with_crypto (mkCryptoConfig None (Some priv_key) (Some pub_key) (str_list trusted) (cc_algorithms c)) config).

Definition algorithm_names : list (nat * string) := [(0%nat, "PLAIN"); (1%nat, "AES128"); (2%nat, "AES256"); (3%nat, "CHACHA20")]%string.

Definition configure_algorithms (config : Config) : WM Config :=
  let c := crypto config in
  '(unencrypted, allowed) ← wlift (map_err (fun _ => InvalidData) (Crypto.parse_algorithms (cc_algorithms c)));
  algos ← ask (MultiSelect "Allowed encryption algorithms (select multiple)" [
    ("Unencrypted (dangerous)", unencrypted);
    ("AES-128 in GCM mode", bool_decide (AES_128_GCM ∈ allowed));
    ("AES-256 in GCM mode", bool_decide (AES_256_GCM ∈ allowed));
    ("ChaCha20-Poly1305 (RFC 7539)", bool_decide (CHACHA20_POLY1305 ∈ allowed))]%string);
  let names := snd <$> filter (fun x => x.1 ∈ algos) algorithm_names in
  mret (with_crypto (mkCryptoConfig (cc_password c) (cc_private_key c) (cc_public_key c) (cc_trusted_keys c) names) config).

Definition has_secret (c : CryptoConfig) : bool :=
  bool_decide (is_Some (cc_password c)) || bool_decide (is_Some (cc_private_key c)).

Definition configure_crypto (config : Config) (mode : nat) : WM Config :=
  again ← asked (has_secret (crypto config)) (ask (Confirm "Create new crypto config?" false)) true;
  if negb again then mret config
  else
    config ← configure_keys config mode;
    if expert mode then configure_algorithms config else mret config.

Definition configure_device (config : Config) (mode : nat) : WM Config :=
  type_ ← asked (advanced mode)
    (i ← ask (Select "Device type" [# "Tun (IP based)"; "Tap (Ethernet based)"] (Some (match device_type config with Tun => 0%fin | Tap => 1%fin end)))%string;
     match fin_to_nat i with 0%nat => mret Tun | 1%nat => mret Tap | _ => wlift Panic end) (device_type config);
  let config := with_device_type type_ config in
  if expert mode then
    name ← ask (Input "Device name" (Some (device_name config)) false);
    let config := with_device_name name config in
    path ← ask_opt "Device path (empty for default)" false (device_path config);
    let config := with_device_path path config in
    fix_ ← ask (Confirm "Automatically fix insecure rp_filter settings" (fix_rp_filter config));
    let config := with_fix_rp_filter fix_ config in
    i ← ask (Select "Operation mode" [# "Normal"; "Router"; "Switch"; "Hub"]
      (Some (match Config.mode config with Normal => 0%fin | Router => 1%fin | Switch => 2%fin | Hub => 3%fin end)))%string;
    m ← match fin_to_nat i with
        | 0%nat => mret Normal | 1%nat => mret Router | 2%nat => mret Switch | 3%nat => mret Hub
        | _ => wlift Panic
        end;
    let config := with_mode m config in
    timeout ← asked (bool_decide (m = Switch)) (ask (InputNumber "Switch timeout (in seconds" (switch_timeout config))) (switch_timeout config);
    mret (with_switch_timeout timeout config)
  else mret config.

Definition configure_addresses (config : Config) (mode : nat) : WM Config :=
  ip ← ask_opt "Virtual IP address (e.g. 10.0.0.1, leave empty for none)" true (ip config);
  let config := with_ip ip config in
  config ← (if decide (device_type config = Tun) then
      auto ← asked (advanced mode) (ask (Confirm "Automatically claim IP set on virtual interface?" (auto_claim config))) (auto_claim config);
      let config := with_auto_claim auto config in
      claims ← asked (expert mode)
        (ask_list "Claim additional addresses (e.g. 10.0.0.0/24, comma separated, leave empty for none)" true (claims config)) (claims config);
      mret (with_claims claims config)
    else mret (with_claims [] config));
  if expert mode then
    up ← ask_opt "Interface setup command (leave empty for none)" true (ifup config);
    let config := with_ifup up config in
    down ← ask_opt "Interface tear down command (leave empty for none)" true (ifdown config);
    mret (with_ifdown down config)
  else mret config.

(** Where a beacon goes to or comes from: nowhere, a file, a command. *)
Definition ask_beacon (prompt none file command : string) (old : option string) : WM (option string) :=
  i ← ask (Select prompt [# none; file; command]
    (Some (match old with Some v => if starts_with "|" v then 2%fin else 1%fin | None => 0%fin end)));
  match fin_to_nat i with
  | 0%nat => mret None
  | 1%nat => s ← ask (Input "File path" (Some (or_empty old)) false); mret (Some s)
  | 2%nat => s ← ask (Input "Command" (Some (trim_start_matches "|" (or_empty old))) false); mret (Some ("|" +:+ s))
  | _ => wlift Panic
  end.

Definition configure_beacon (config : Config) (mode : nat) : WM Config :=
  wanted ← asked (expert mode)
    (ask (Confirm "Configure beacons?" (bool_decide (is_Some (beacon_load config)) || bool_decide (is_Some (beacon_store config))))) false;
  if wanted : bool then
    store ← ask_beacon "How to store beacons" "Do not store beacons" "Store to file" "Execute command" (beacon_store config);
    let config := with_beacon_store store config in
    load ← ask_beacon "How to load beacons" "Do not load beacons" "Load from file" "Execute command" (beacon_load config);
    let config := with_beacon_load load config in
    interval ← ask (InputNumber "Beacon interval (in seconds)" (beacon_interval config));
    let config := with_beacon_interval interval config in
    password ← ask (Password "Beacon password (leave empty for none)" "Confirm password" true);
    mret (with_beacon_password (str_opt password) config)
  else mret config.

Definition configure_stats (config : Config) (mode : nat) : WM Config :=
  file ← asked (advanced mode) (ask_opt "Write stats to file (empty to disable)" true (stats_file config)) (stats_file config);
  let config := with_stats_file file config in
  if expert mode then
    wanted ← ask (Confirm "Send statistics to statsd server?" (bool_decide (is_Some (statsd_server config))));
    if wanted : bool then
      server ← ask_opt "Statsd server URL" true (statsd_server config);
      let config := with_statsd_server server config in
      prefix ← ask_opt "Statsd prefix" true (statsd_prefix config);
      mret (with_statsd_prefix prefix config)
    else mret (with_statsd_server None config)
  else mret config.

Definition configure_process (config : Config) (mode : nat) : WM Config :=
  if expert mode then
    user ← ask_opt "Run as different user (empty to disable)" true (user config);
    let config := with_user user config in
    group ← ask_opt "Run as different group (empty to disable)" true (group config);
    let config := with_group group config in
    pid_file ← ask_opt "Write process id to file (empty to disable)" true (pid_file config);
    mret (with_pid_file pid_file config)
  else mret config.

Definition hook_events : list string :=
  ["peer_connecting"; "peer_connected"; "peer_disconnected"; "device_setup"; "device_configured"; "vpn_started"; "vpn_shutdown"]%string.

(** The loop over the events: the old hooks, those entered so far. *)
Fixpoint ask_hooks (old : gmap string string) (events : list string) (hooks : gmap string string) : WM (gmap string string) :=
  match events with
  | [] => mret hooks
  | event :: events =>
      cmd ← ask_opt ("Command to execute for event '" +:+ event +:+ "' (empty to disable)") true (old !! event);
      ask_hooks old events (match cmd with Some cmd => <[event := cmd]> hooks | None => hooks end)
  end.

Definition configure_hooks (config : Config) (mode : nat) : WM Config :=
  if expert mode then
    wanted ← ask (Confirm "Set hooks to react on events?" (bool_decide (is_Some (hook config)) || negb (bool_decide (hooks config = ∅))));
    if wanted : bool then
      hook ← ask_opt "Command to execute for all events (empty to disable)" true (hook config);
      let config := with_hook hook config in
      hooks ← ask_hooks (hooks config) hook_events ∅;
      mret (with_hooks hooks config)
    else mret (with_hooks ∅ (with_hook None config))
  else mret config.

(** One round through all questions. *)
Definition configure_all (config : Config) (mode : nat) : WM Config :=
  config ← configure_connectivity config mode;
  config ← configure_crypto config mode;
  config ← configure_device config mode;
  config ← configure_addresses config mode;
  config ← configure_beacon config mode;
  config ← configure_stats config mode;
  config ← configure_process config mode;
  configure_hooks config mode.

Definition round (config : Config) : WM (Config + Config) :=
  mode ← ask (Select "Configuration mode" [# "Simple (minimal options)"; "Advanced (some more options)"; "Expert (all options)"] (Some 0%fin))%string;
  config ← configure_all config (fin_to_nat mode);
  finish ← ask (Confirm "Finish configuration?" true);
  mret (if finish : bool then inr config else inl config).

(** The stems of the files of a directory. *)
Fixpoint stems (files : list (ErrorKind + string)) : WM (list string) :=
  match files with
  | [] => mret []
  | inl err :: _ => wlift (Err err)
  | inr file :: files => names ← stems files; mret (file_stem file :: names)
  end.

Definition network_name (name : option string) : WM string :=
  match name with
  | Some name => mret name
  | None =>
      files ← ask (ReadDir "/etc/vpncloud");
      names ← stems files;
      selection ← ask (Select "Which network?" (list_to_vec ("New network"%string :: names)) None);
      match fin_to_nat selection with
      | O => ask (Input "Network name" None false)
      | S i => wlift (unwrap (names !! i))
      end
  end.

Definition config_path (name : string) : string := path_join "/etc/vpncloud" (name +:+ ".net").

Definition load (file : string) : WM Config :=
  there ← tell (Exists file);
  if there : bool then
    parsed ← ask (ReadConfig file);
    config_file ← wlift (match parsed with Some config_file => Ok config_file | None => Err InvalidData end);
    mret (merge_file config_file default)
  else mret default.

Definition save (file : string) (config : Config) : WM unit :=
  wanted ← ask (Confirm "Save config?" true);
  if wanted : bool then
    let config_file := into_config_file config in
    ask (CreateFile file) ;;
    ask (WriteConfig file config_file) ;;
    ask (SetMode file 384)
  else mret ().

Definition configure (name : option string) : WM unit :=
  name ← network_name name;
  let file := config_path name in
  config ← load file;
  readonly ← ask (ParentReadonly file);
  if readonly : bool then wlift (Err PermissionDenied)
  else
    config ← wloop round config;
    save file config.

End Wizard.
End Wizard.

(** ** What holds after every run *)

Section Post.
Context `{Ring}.

(** [Q] holds of the value [m] ends with, if it does, whatever is answered. *)
Definition post {A} (m : WM A) (Q : A -> Prop) : Prop :=
  has_post m (fun r => match r with Ok a => Q a | _ => True end).

Lemma has_post_ret {E R} (r : R) (Q : R -> Prop) : Q r -> has_post (E := E) (Ret r) Q.
Proof. intros Hr. by apply eqit_Ret. Qed.

Lemma post_ret {A} (a : A) (Q : A -> Prop) : Q a -> post (mret a) Q.
Proof. intros Ha. by apply has_post_ret. Qed.

Lemma post_weaken {A} (m : WM A) (Q R : A -> Prop) : post m Q -> (forall a, Q a -> R a) -> post m R.
Proof. intros Hm Hr. eapply has_post_weaken; [exact Hm|]. intros [a|e|]; auto. Qed.

Lemma post_bind {A B} (m : WM A) (f : A -> WM B) (Q : A -> Prop) R : post m Q -> (forall a, Q a -> post (f a) R) -> post (m ≫= f) R.
Proof.
  intros Hm Hf. eapply has_post_bind; [exact Hm|].
  intros [a|e|] Ha; [by apply Hf|by apply has_post_ret..].
Qed.

Lemma post_skip {A B} (m : WM A) (f : A -> WM B) R : (forall a, post (f a) R) -> post (m ≫= f) R.
Proof. intros Hf. apply has_post_bind_weak. intros [a|e|]; [apply Hf|by apply has_post_ret..]. Qed.

Lemma post_wlift {A} (o : outcome ErrorKind A) (Q : A -> Prop) : (forall a, o = Ok a -> Q a) -> post (wlift o) Q.
Proof. intros Ho. apply has_post_ret. destruct o; auto. Qed.

Lemma post_any {A} (m : WM A) (Q : A -> Prop) : (forall a, Q a) -> post m Q.
Proof. intros Hq. eapply has_post_weaken; [apply has_post_True|]. by intros [a|e|] _. Qed.

Lemma post_loop {I R} (body : I -> WM (I + R)) (i : I) (Inv : I -> Prop) (Q : R -> Prop) :
  (forall i, Inv i -> post (body i) (fun r => match r with inl i => Inv i | inr r => Q r end)) -> Inv i -> post (wloop body i) Q.
Proof.
  intros Hb Hi. eapply has_post_iter_strong with (Inv := Inv); [|exact Hi]. intros j Hj.
  eapply has_post_bind; [by apply Hb|]. by intros [[j'|r]|e|] Hr; apply has_post_ret.
Qed.

End Post.

Create HintDb wizard.
#[export] Hint Resolve post_ret post_skip : wizard.

(** ** What is written is keyed *)

Section Keyed.
Context `{Ring}.
Import Wizard.

(** A step that does not touch the crypto settings. *)
Ltac no_crypto := repeat first [apply post_ret; reflexivity | apply post_skip; intros ? | case_match].

Definition keeps_crypto (c : Config) (m : WM Config) : Prop := post m (fun c' => crypto c' = crypto c).

Lemma connectivity_crypto c mode : keeps_crypto c (configure_connectivity c mode).
Proof. unfold keeps_crypto, configure_connectivity. no_crypto. Qed.
Lemma device_crypto c mode : keeps_crypto c (configure_device c mode).
Proof. unfold keeps_crypto, configure_device. no_crypto. Qed.
Lemma addresses_crypto c mode : keeps_crypto c (configure_addresses c mode).
Proof.
  unfold keeps_crypto, configure_addresses. apply post_skip. intros ip.
  eapply (post_bind _ _ (fun c' => crypto c' = crypto c)); [no_crypto|]. intros c' <-. no_crypto.
Qed.
Lemma beacon_crypto c mode : keeps_crypto c (configure_beacon c mode).
Proof. unfold keeps_crypto, configure_beacon. no_crypto. Qed.
Lemma stats_crypto c mode : keeps_crypto c (configure_stats c mode).
Proof. unfold keeps_crypto, configure_stats. no_crypto. Qed.
Lemma process_crypto c mode : keeps_crypto c (configure_process c mode).
Proof. unfold keeps_crypto, configure_process. no_crypto. Qed.
Lemma hooks_crypto c mode : keeps_crypto c (configure_hooks c mode).
Proof. unfold keeps_crypto, configure_hooks. no_crypto. Qed.

(** A round changes the crypto settings in one of its steps. *)
Lemma post_all c mode (Q : CryptoConfig -> Prop) :
  (forall c', crypto c' = crypto c -> post (configure_crypto c' mode) (fun c' => Q (crypto c'))) ->
  post (configure_all c mode) (fun c' => Q (crypto c')).
Proof.
  intros Hq. unfold configure_all. eapply post_bind; [apply connectivity_crypto|]. intros c1 Hc1. cbn beta in Hc1.
  eapply post_bind; [by apply Hq|]. intros c2 Hc2. cbn beta in Hc2.
  eapply post_bind; [apply device_crypto|]. intros c3 Hc3. cbn beta in Hc3. rewrite <- Hc3 in Hc2. clear Hc3.
  eapply post_bind; [apply addresses_crypto|]. intros c4 Hc4. cbn beta in Hc4. rewrite <- Hc4 in Hc2. clear Hc4.
  eapply post_bind; [apply beacon_crypto|]. intros c5 Hc5. cbn beta in Hc5. rewrite <- Hc5 in Hc2. clear Hc5.
  eapply post_bind; [apply stats_crypto|]. intros c6 Hc6. cbn beta in Hc6. rewrite <- Hc6 in Hc2. clear Hc6.
  eapply post_bind; [apply process_crypto|]. intros c7 Hc7. cbn beta in Hc7. rewrite <- Hc7 in Hc2. clear Hc7.
  eapply post_weaken; [apply hooks_crypto|]. intros c8 ->. exact Hc2.
Qed.

(** A key pair the program has made or checked. *)
Definition paired (priv pub : string) : Prop :=
  Crypto.public_key_from_private_key priv = Ok pub \/
  exists password r r', Crypto.generate_keypair (E := ErrorKind) password r = (r', Ok (priv, pub)).

(** A password and nothing else, or a key pair and no password. *)
Definition keyed (c : CryptoConfig) : Prop :=
  (exists password, cc_password c = Some password /\ cc_private_key c = None /\ cc_public_key c = None /\ cc_trusted_keys c = []) \/
  (exists priv pub, cc_password c = None /\ cc_private_key c = Some priv /\ cc_public_key c = Some pub /\ paired priv pub).

Lemma generate_paired password : post (generate password) (fun k => paired k.1 k.2).
Proof.
  unfold generate. apply post_skip. intros r. apply post_wlift. intros [priv pub] Hk. right. exists password, r.
  destruct (Crypto.generate_keypair password r) as [r' o]. cbn in Hk. subst o. by exists r'.
Qed.

Lemma enter_paired : post enter_keypair (fun k => paired k.1 k.2).
Proof.
  unfold enter_keypair. apply post_skip. intros how. destruct (fin_to_nat how) as [|[|[|n]]].
  - apply generate_paired.
  - apply post_skip. intros priv. eapply post_bind; [apply post_wlift; intros pub Hpub; exact Hpub|]. intros pub Hpub. cbn beta in Hpub.
    apply post_ret. left. cbn. by destruct (Crypto.public_key_from_private_key priv) as [k|e|]; [injection Hpub as <-|..].
  - apply post_skip. intros password. apply generate_paired.
  - by apply post_wlift.
Qed.

Lemma keys_keyed c mode : post (configure_keys c mode) (fun c' => keyed (crypto c')).
Proof.
  unfold configure_keys. apply post_skip. intros [|].
  - apply post_skip. intros password. apply post_ret. left. by exists password.
  - eapply post_bind; [apply enter_paired|]. intros [priv pub] Hp. apply post_skip. intros trusted. apply post_ret. right. by exists priv, pub.
Qed.

(** The crypto step: the old settings, or new keys and perhaps other algorithms. *)
Lemma post_crypto c mode (K Q : CryptoConfig -> Prop) :
  (has_secret (crypto c) = true -> Q (crypto c)) -> post (configure_keys c mode) (fun c' => K (crypto c')) -> (forall k, K k -> Q k) ->
  (expert mode = true -> forall k algorithms, K k ->
    Q (mkCryptoConfig (cc_password k) (cc_private_key k) (cc_public_key k) (cc_trusted_keys k) algorithms)) ->
  post (configure_crypto c mode) (fun c' => Q (crypto c')).
Proof.
  intros Hold Hnew Hk Halg. unfold configure_crypto.
  eapply (post_bind _ _ (fun again => again = false -> has_secret (crypto c) = true)).
  - unfold asked. destruct (has_secret (crypto c)); [|by apply post_ret]. by apply post_any.
  - intros [|] Hs; cbn [negb]; [|by apply post_ret, Hold, Hs]. eapply post_bind; [exact Hnew|]. intros c' Hc'. cbn beta in Hc'.
    destruct (expert mode); [|by apply post_ret, Hk]. unfold configure_algorithms. apply post_skip. intros [u a]. apply post_skip. intros algos.
    apply post_ret. by apply Halg.
Qed.

Lemma keyed_secret c : keyed c -> has_secret c = true.
Proof.
  unfold has_secret. intros [(pw & -> & _)|(priv & pub & _ & -> & _)]; [done|]. rewrite (bool_decide_eq_true_2 (is_Some (Some priv))) by by eexists.
  apply orb_true_r.
Qed.

(** C30: whatever is answered and in however many rounds, the configuration the wizard
    ends with can be used by [main]: a password or a private key is set. Either its
    crypto settings are those it started with, or they are a password alone, or a key
    pair that belongs together. *)
Theorem wizard_sets_keys (config : Config) :
  post (wloop round config) (fun c => has_secret (crypto c) = true /\ (crypto c = crypto config \/ keyed (crypto c))).
Proof.
  apply (post_loop _ _ (fun c => crypto c = crypto config \/ keyed (crypto c))); [|by left]. intros c Hc. unfold round.
  apply post_skip. intros mode.
  eapply (post_bind _ _ (fun c' => has_secret (crypto c') = true /\ (crypto c' = crypto config \/ keyed (crypto c')))).
  - apply (post_all c _ (fun k => has_secret k = true /\ (k = crypto config \/ keyed k))). intros c1 Hc1.
    apply (post_crypto _ _ keyed (fun k => has_secret k = true /\ (k = crypto config \/ keyed k))); [by rewrite Hc1; auto|apply keys_keyed|..].
    + intros k Hk. split; [by apply keyed_secret|by right].
    + intros _ k algorithms Hk. split; [|by right]. by apply keyed_secret in Hk.
  - intros c' [Hs Hc']. apply post_skip. intros [|]; apply post_ret; auto.
Qed.

End Keyed.

Section Usable.
Context `{RingLaws}.
Import Wizard.

(** [Crypto::new] accepts the settings. *)
Definition usable (c : CryptoConfig) : Prop := forall test_speed node_id, exists node, Crypto.new test_speed node_id c = Ok node.

Lemma password_usable password algorithms : is_ok (Crypto.parse_algorithms algorithms) = true ->
  usable (mkCryptoConfig (Some password) None None [] algorithms).
Proof.
  intros Ha ts id. unfold Crypto.new. cbn [cc_password cc_private_key cc_public_key cc_trusted_keys cc_algorithms].
  unfold Crypto.keypair_from_password. destruct (seed_accepted (Crypto.password_seed password) (pbkdf2_len _ _ _)) as [k Hk]. rewrite Hk.
  cbn [unwrap mbind outcome_bind]. cbn. destruct (Crypto.parse_algorithms algorithms) as [[u a]|e|]; [by eexists|done..].
Qed.

(** C31: a new network set up in simple mode works, whatever password and addresses
    are entered: the node's keys can be made from the configuration. *)
Theorem simple_mode_usable (config : Config) :
  is_ok (Crypto.parse_algorithms (cc_algorithms (crypto config))) = true ->
  (has_secret (crypto config) = true -> usable (crypto config)) ->
  post (configure_all config MODE_SIMPLE) (fun c => usable (crypto c)).
Proof.
  intros Ha Hu. apply post_all. intros c Hc. rewrite <- Hc in Ha, Hu. apply (post_crypto _ _ usable usable); [done| |done..].
  unfold configure_keys, crypto_method. change (advanced MODE_SIMPLE) with false.
  eapply post_bind; [by apply (post_ret true (fun b => b = true))|]. intros ? ->. apply post_skip. intros password. apply post_ret.
  by apply password_usable.
Qed.

End Usable.

(** ** Accepting what is offered *)

Section Lists.

(** Lists that can be edited as one line: no commas and no blanks around. *)
Definition listable (l : list string) : Prop :=
  l <> [""%string] /\ Forall (fun x => Address.split_at "," x = [x] /\ trim x = x) l.

Lemma split_concat l : l <> [] -> Forall (fun x => Address.split_at "," x = [x] /\ trim x = x) l ->
  Address.split_at "," (join "," l) = l.
Proof.
  intros Hne Hl. induction Hl as [|x l [Hx _] Hl IH]; [done|]. destruct l as [|y l]; [exact Hx|].
  change (join "," (x :: y :: l)) with (x +:+ String "," (join "," (y :: l))). rewrite split_at_join by done. f_equal. by apply IH.
Qed.

Lemma str_list_join l : listable l -> str_list (join "," l) = l.
Proof.
  intros [Hne Hl]. destruct l as [|x l]; [done|]. unfold str_list. case_decide as He.
  - pose proof (split_concat (x :: l)) as Hs. rewrite He in Hs. by rewrite <- Hs in Hne.
  - rewrite split_concat by done. clear He Hne. induction Hl as [|z k [_ Hz] Hl IH]; [done|]. cbn. by rewrite Hz, IH.
Qed.

Lemma str_opt_or_empty o : o <> Some ""%string -> str_opt (or_empty o) = o.
Proof. destruct o as [s|]; [|done]. cbn. unfold str_opt. intros Hs. by rewrite decide_False by congruence. Qed.

End Lists.

Section Accept.
Context `{Ring} (entropy : Rng) (level : fin 3).
Abbreviation Disk := (gmap string ConfigFile.ConfigFile).

(** [level], of [n] items. *)
Definition chosen (n : nat) : ErrorKind + fin n :=
  match decide (fin_to_nat level < n)%nat with left Hlt => inr (nat_to_fin Hlt) | right _ => inl OtherKind end.

(** The mode is chosen, and every other prompt is answered with what it offers; files are
    kept in a map. *)
Definition accept : forall T, wizardE T -> Monads.stateT Disk (itree void1) T := fun T e s =>
  match e with
  | Input _ d _ => Ret (s, inr (or_empty d))
  | InputNumber _ d => Ret (s, inr d)
  | Confirm _ d => Ret (s, inr d)
  | @Select _ n p _ d => Ret (s, if decide (p = "Configuration mode"%string) then chosen n else match d with Some i => inr i | None => inl OtherKind end)
  | MultiSelect _ items => Ret (s, inr (filter (fun i => snd <$> items !! i = Some true) (seq 0 (length items))))
  | Password _ _ _ => Ret (s, inr ""%string)
  | Entropy => Ret (s, entropy)
  | ReadDir _ => Ret (s, inr [])
  | Exists p => Ret (s, bool_decide (is_Some (s !! p)))
  | ReadConfig p => Ret (s, match s !! p with Some f => inr (Some f) | None => inl NotFound end)
  | ParentReadonly _ => Ret (s, inr false)
  | CreateFile p => Ret (delete p s, inr ())
  | WriteConfig p f => Ret (<[p := f]> s, inr ())
  | SetMode _ _ => Ret (s, inr ())
  end.

(** A run of [m] from [s] ends in [s'] with the value [a]. *)
Definition runs {A} (m : WM A) (s s' : Disk) (a : A) : Prop := eutt eq (interp_state accept m s) (Ret (s', Ok a)).

Lemma runs_ret {A} (a : A) s : runs (mret a) s s a.
Proof. unfold runs, mret, wm_ret. by rewrite interp_state_ret. Qed.

Lemma runs_bind {A B} (m : WM A) (f : A -> WM B) s s1 s2 a b : runs m s s1 a -> runs (f a) s1 s2 b -> runs (m ≫= f) s s2 b.
Proof.
  unfold runs. intros Hm Hf. unfold mbind, wm_bind. rewrite interp_state_bind, Hm, bind_ret_l. exact Hf.
Qed.

Lemma runs_ask {A} (e : wizardE (ErrorKind + A)) s s' a : accept _ e s = Ret (s', inr a) -> runs (ask e) s s' a.
Proof.
  unfold runs, ask. intros He. rewrite interp_state_bind, interp_state_trigger, He, bind_ret_l. cbn [fst snd]. by rewrite interp_state_ret.
Qed.

Lemma runs_tell {A} (e : wizardE A) s s' a : accept _ e s = Ret (s', a) -> runs (tell e) s s' a.
Proof.
  unfold runs, tell. intros He. rewrite interp_state_bind, interp_state_trigger, He, bind_ret_l. cbn [fst snd]. by rewrite interp_state_ret.
Qed.

Lemma runs_loop {I R} (body : I -> WM (I + R)) i s s' r : runs (body i) s s' (inr r) -> runs (wloop body i) s s' r.
Proof.
  unfold runs, wloop. intros Hb. rewrite unfold_iter, bind_bind, interp_state_bind, Hb, bind_ret_l. cbn [fst snd].
  rewrite bind_ret_l, interp_state_ret. reflexivity.
Qed.

Lemma runs_asked {A} b (m : WM A) old s : (b = true -> runs m s s old) -> runs (Wizard.asked b m old) s s old.
Proof. destruct b; [auto|]. intros _. apply runs_ret. Qed.

Lemma runs_list prompt e l s : listable l -> runs (Wizard.ask_list prompt e l) s s l.
Proof. intros Hl. eapply runs_bind; [by apply runs_ask|]. cbn. rewrite str_list_join by done. apply runs_ret. Qed.

Lemma runs_opt prompt e o s : o <> Some ""%string -> runs (Wizard.ask_opt prompt e o) s s o.
Proof. intros Ho. eapply runs_bind; [by apply runs_ask|]. cbn. rewrite str_opt_or_empty by done. apply runs_ret. Qed.

End Accept.

Section Editing.
Context `{Ring} (entropy : Rng) (level : fin 3).
Import Wizard.

(** Settings that survive being shown and accepted: lists fit in one line, texts
    that are set are not empty, hooks belong to events, and a secret is set. In expert
    mode no beacons are: it asks for their password and does not show it. *)
Record editable (mode : nat) (c : Config) : Prop := {
  ed_secret : has_secret (crypto c) = true;
  ed_peers : listable (peers c);
  ed_addresses : listable (advertise_addresses c);
  ed_claims : listable (claims c);
  ed_keepalive : keepalive c <> Some 0;
  ed_texts : Forall (fun o => o <> Some ""%string)
    [ip c; ifup c; ifdown c; device_path c; stats_file c; statsd_server c; statsd_prefix c; user c; group c; pid_file c; hook c];
  ed_beacons : expert mode = true -> beacon_load c = None /\ beacon_store c = None;
  ed_hooks : forall event cmd, hooks c !! event = Some cmd -> event ∈ hook_events /\ cmd <> ""%string
}.

(** What the wizard makes of a configuration with which everything is accepted: the claims
    of a node with a TAP device are cleared. *)
Definition settled (c : Config) : Config := if decide (device_type c = Tun) then c else with_claims [] c.

Lemma settled_router c : device_type c = Tun -> settled c = c.
Proof. intros Ht. unfold settled. by rewrite decide_True. Qed.
Lemma settled_switch c : device_type c = Tap -> settled c = with_claims [] c.
Proof. intros Ht. unfold settled. rewrite decide_False; [done|congruence]. Qed.

Lemma settled_editable mode c : editable mode c -> editable mode (settled c).
Proof. unfold settled. case_decide; [done|]. intros [? ? ? ? ? ? ? ?]. destruct c. by split. Qed.

Abbreviation runs := (runs entropy level).

(** One prompt, perhaps left out. *)
Ltac prompt := eapply runs_bind;
  [try (apply runs_asked; intros _); first [apply runs_ask; reflexivity | apply runs_opt; assumption | apply runs_list; assumption]|cbv beta zeta].
Ltac texts Hc := destruct Hc as [? ? ? ? ? Htexts ? ?]; repeat (apply Forall_cons in Htexts as [? Htexts]).

Lemma connectivity_runs c mode s : editable mode c -> runs (configure_connectivity c mode) s s c.
Proof.
  intros Hc. texts Hc. unfold configure_connectivity. destruct c. do 3 prompt. destruct (expert mode); [|apply runs_ret]. do 3 prompt.
  cbn [keepalive with_advertise_addresses with_port_forwarding with_peers with_listen with_peer_timeout] in *.
  destruct keepalive0 as [k|]; [|apply runs_ret]. rewrite decide_False by (cbn in *; congruence). apply runs_ret.
Qed.

Lemma crypto_runs c mode s : editable mode c -> runs (configure_crypto c mode) s s c.
Proof. intros Hc. unfold configure_crypto. rewrite (ed_secret mode c Hc). eapply runs_bind; [by apply runs_ask|]. apply runs_ret. Qed.

Lemma device_runs c mode s : editable mode c -> runs (configure_device c mode) s s c.
Proof.
  intros Hc. texts Hc. unfold configure_device. destruct c. eapply runs_bind.
  { apply runs_asked. intros _. prompt. cbn [device_type]. destruct device_type0; apply runs_ret. }
  cbv beta zeta. destruct (expert mode); [|apply runs_ret]. do 4 prompt. cbn [Config.mode].
  eapply (runs_bind _ _ _ _ _ s _ mode0); [destruct mode0; apply runs_ret|]. prompt. apply runs_ret.
Qed.

Lemma with_ifup_same c o : ifup c = o -> with_ifup o c = c.
Proof. intros <-. by destruct c. Qed.
Lemma with_ifdown_same c o : ifdown c = o -> with_ifdown o c = c.
Proof. intros <-. by destruct c. Qed.

Lemma addresses_runs c mode s : editable mode c -> runs (configure_addresses c mode) s s (settled c).
Proof.
  intros Hc. texts Hc. unfold configure_addresses. destruct c. prompt. cbn in *.
  set (c := mkConfig _ _ _ _ _ _ _ _ _ _ _ _ _ _ _ _ _ _ _ _ _ _ _ _ _ _ _ _ _ _ _).
  eapply (runs_bind _ _ _ _ _ s _ (settled c)).
  - unfold settled, c. cbn [device_type]. case_decide; [do 2 prompt|]; apply runs_ret.
  - assert (ifup (settled c) = ifup0 /\ ifdown (settled c) = ifdown0) as [Hup Hdown] by (unfold settled; by case_decide).
    destruct (expert mode); [|apply runs_ret].
    eapply runs_bind; [apply runs_opt; by rewrite Hup|]. cbv beta zeta. rewrite with_ifup_same by done.
    eapply runs_bind; [apply runs_opt; by rewrite Hdown|]. cbv beta zeta. rewrite with_ifdown_same by done. apply runs_ret.
Qed.

Lemma beacon_runs c mode s : editable mode c -> runs (configure_beacon c mode) s s c.
Proof.
  intros Hc. unfold configure_beacon. eapply (runs_bind _ _ _ _ _ s _ false); [|apply runs_ret]. apply runs_asked. intros He.
  destruct (ed_beacons mode c Hc He) as [-> ->]. by apply runs_ask.
Qed.

Lemma stats_runs c mode s : editable mode c -> runs (configure_stats c mode) s s c.
Proof.
  intros Hc. texts Hc. unfold configure_stats. destruct c. prompt. destruct (expert mode); [|apply runs_ret]. prompt.
  cbn [statsd_server with_stats_file] in *. destruct statsd_server0 as [server|]; [|apply runs_ret].
  rewrite bool_decide_eq_true_2 by by eexists. do 2 prompt. apply runs_ret.
Qed.

Lemma process_runs c mode s : editable mode c -> runs (configure_process c mode) s s c.
Proof.
  intros Hc. texts Hc. unfold configure_process. destruct (expert mode); [|apply runs_ret]. destruct c. do 3 prompt. apply runs_ret.
Qed.

(** The hooks of the events asked for, added to others. *)
Definition event_hooks (old : gmap string string) (events : list string) (hooks : gmap string string) : gmap string string :=
  fold_left (fun hooks event => match old !! event with Some cmd => <[event := cmd]> hooks | None => hooks end) events hooks.

Lemma ask_hooks_runs old events hooks s : (forall event cmd, old !! event = Some cmd -> cmd <> ""%string) ->
  runs (ask_hooks old events hooks) s s (event_hooks old events hooks).
Proof.
  intros Ho. revert hooks. induction events as [|event events IH]; intros hooks; [apply runs_ret|]. cbn [ask_hooks event_hooks fold_left].
  eapply runs_bind; [apply runs_opt|apply IH]. intros Hc. by apply (Ho _ _ Hc).
Qed.

Lemma event_hooks_lookup old events hooks event :
  event_hooks old events hooks !! event = if decide (event ∈ events) then (match old !! event with Some cmd => Some cmd | None => hooks !! event end) else hooks !! event.
Proof.
  unfold event_hooks. revert hooks. induction events as [|e events IH]; intros hooks; [done|]. cbn [fold_left]. rewrite IH.
  destruct (decide (event = e)) as [->|Hne].
  - rewrite (decide_True (P := e ∈ e :: events)) by left. destruct (old !! e) as [cmd|]; [by rewrite lookup_insert_eq; case_decide|by case_decide].
  - assert (event ∈ e :: events <-> event ∈ events) as Hin by (rewrite elem_of_cons; split; [by intros [?|?]|by right]).
    rewrite (decide_ext _ _ _ _ Hin). destruct (old !! e) as [cmd|]; [by rewrite lookup_insert_ne|done].
Qed.

Lemma hooks_runs c mode s : editable mode c -> runs (configure_hooks c mode) s s c.
Proof.
  intros Hc. pose proof (ed_hooks mode c Hc) as Hh. texts Hc. unfold configure_hooks. destruct (expert mode); [|apply runs_ret].
  assert (event_hooks (hooks c) hook_events ∅ = hooks c) as Hall.
  { apply map_eq. intros event. rewrite event_hooks_lookup, lookup_empty. destruct (hooks c !! event) as [cmd|] eqn:He; [|by case_decide].
    destruct (Hh _ _ He) as [Hin _]. by rewrite decide_True. }
  destruct c. prompt. match goal with |- Wizard.runs _ _ (if ?b then _ else _) _ _ _ => destruct b eqn:Hb end.
  - prompt. cbn [hooks with_hook] in *. eapply runs_bind; [apply ask_hooks_runs; by intros event cmd He; apply (Hh _ _ He)|].
    rewrite Hall. apply runs_ret.
  - apply orb_false_elim in Hb as [Hb1 Hb2]. apply bool_decide_eq_false in Hb1. apply negb_false_iff, bool_decide_eq_true in Hb2.
    cbn in Hb1, Hb2. subst. destruct hook0; [by destruct Hb1; eexists|]. apply runs_ret.
Qed.

Lemma all_runs c mode s : editable mode c -> runs (configure_all c mode) s s (settled c).
Proof.
  intros Hc. pose proof (settled_editable mode c Hc) as Hs. unfold configure_all.
  eapply runs_bind; [by apply connectivity_runs|]. eapply runs_bind; [by apply crypto_runs|].
  eapply runs_bind; [by apply device_runs|]. eapply runs_bind; [by apply addresses_runs|].
  eapply runs_bind; [by apply beacon_runs|]. eapply runs_bind; [by apply stats_runs|].
  eapply runs_bind; [by apply process_runs|]. by apply hooks_runs.
Qed.

Lemma level_chosen : chosen level 3 = inr level.
Proof. unfold chosen. case_decide as Hl; [by rewrite nat_to_fin_to_nat|]. destruct Hl. apply fin_to_nat_lt. Qed.

Lemma mode_runs items s : runs (ask (Select "Configuration mode" items (Some 0%fin))) s s level.
Proof. apply runs_ask. cbn [accept]. rewrite decide_True by done. by rewrite level_chosen. Qed.

(** C32: editing a configuration file in any of the three modes and accepting everything the
    wizard offers keeps what the file means: it is written anew with all settings spelled
    out, no other file changes, and reading it gives the configuration it gave before,
    except that the claims of a node with a TAP device are cleared. This is of files the
    wizard can show and read back ([editable]): a password or a private key is set; peers,
    advertised addresses and claims have no commas in them and no blanks around them; the
    keepalive interval is not zero; optional texts that are set (the virtual address,
    paths, commands, names) are not empty; hooks are for known events; and in expert
    mode no beacons are set. *)
Theorem accepting_changes_nothing (name : string) (files : gmap string ConfigFile.ConfigFile) (file : ConfigFile.ConfigFile) :
  let config := merge_file file default in
  files !! config_path name = Some file -> editable level config ->
  eutt eq (interp_state (accept entropy level) (configure (Some name)) files)
    (Ret (<[config_path name := into_config_file (settled config)]> files, Ok ())) /\
  merge_file (into_config_file (settled config)) default = settled config /\
  ((device_type config = Tap -> claims config = []) -> settled config = config).
Proof.
  intros config Hf Hc. split; [|split].
  2: { apply merge_into_config_file. unfold settled. by case_decide. }
  2: { intros Ht. unfold settled. case_decide as Hd; [done|]. revert Ht Hd. destruct config as [[] ? ?]; [done|]. cbn. by intros -> . }
  rewrite <- (insert_delete_eq files). change (runs (configure (Some name)) files (<[config_path name := into_config_file (settled config)]> (delete (config_path name) files)) ()).
  unfold configure. eapply runs_bind; [apply runs_ret|]. cbv beta zeta. eapply runs_bind.
  { unfold load. eapply runs_bind; [by apply runs_tell|]. rewrite bool_decide_eq_true_2 by by eexists.
    eapply runs_bind; [apply runs_ask; cbn; by rewrite Hf|]. eapply runs_bind; [apply runs_ret|]. apply runs_ret. }
  eapply runs_bind; [by apply runs_ask|]. cbv beta iota. fold config. eapply runs_bind.
  { apply runs_loop. unfold round. eapply runs_bind; [apply mode_runs|].
    eapply runs_bind; [by apply all_runs|]. eapply runs_bind; [by apply runs_ask|]. apply runs_ret. }
  unfold save. do 3 (eapply runs_bind; [by apply runs_ask|]; cbv beta iota). by apply runs_ask.
Qed.

End Editing.

(** ** A toy network *)

Definition toy_network (type_ : DeviceType) : Config :=
  with_crypto (mkCryptoConfig (Some "secret") None None [] []) (with_peers ["a:1"; "b:2"] (with_claims ["10.1.0.0/16"; "10.2.0.0/16"]
    (with_ip (Some "10.0.0.1") (with_device_type type_ default))))%string.
Definition toy_network_file (type_ : DeviceType) : ConfigFile.ConfigFile := into_config_file (toy_network type_).

Lemma toy_network_editable mode type_ : editable mode (merge_file (toy_network_file type_) default).
Proof.
  unfold toy_network_file. rewrite merge_into_config_file by done.
  split; cbn; try (by split); try done; repeat (apply Forall_cons; split; [done|]); try apply Forall_nil_2;
    (split; [done|]; repeat (apply Forall_cons; split; [done|]); apply Forall_nil_2).
Qed.

(** In expert mode, the file of a node with a TUN device is left as it is, and that of a
    node with a TAP device loses its claims. *)
Lemma accepting_changes_nothing_witness :
  eutt eq (interp_state (accept (H := toy_ring) 7 2%fin) (Wizard.configure (Some "net"%string)) {[Wizard.config_path "net" := toy_network_file Tun]})
    (Ret ({[Wizard.config_path "net" := toy_network_file Tun]}, Ok ())) /\
  eutt eq (interp_state (accept (H := toy_ring) 7 2%fin) (Wizard.configure (Some "net"%string)) {[Wizard.config_path "net" := toy_network_file Tap]})
    (Ret ({[Wizard.config_path "net" := into_config_file (with_claims [] (toy_network Tap))]}, Ok ())).
Proof.
  assert (forall t, merge_file (toy_network_file t) default = toy_network t) as Hm by (intros t; by apply merge_into_config_file).
  split.
  - destruct (accepting_changes_nothing (H := toy_ring) 7 2%fin "net" {[Wizard.config_path "net" := toy_network_file Tun]} (toy_network_file Tun)
      (lookup_singleton_eq _ _) (toy_network_editable _ _)) as [Hrun _]. rewrite Hm, insert_singleton_eq in Hrun.
    rewrite settled_router in Hrun by exact eq_refl. fold (toy_network_file Tun) in Hrun. exact Hrun.
  - destruct (accepting_changes_nothing (H := toy_ring) 7 2%fin "net" {[Wizard.config_path "net" := toy_network_file Tap]} (toy_network_file Tap)
      (lookup_singleton_eq _ _) (toy_network_editable _ _)) as [Hrun _]. rewrite Hm, insert_singleton_eq in Hrun.
    rewrite settled_switch in Hrun by exact eq_refl. exact Hrun.
Defined.

Lemma simple_mode_usable_witness : post (H := toy_ring) (Wizard.configure_all default Wizard.MODE_SIMPLE) (fun c => usable (H := toy_ring) (crypto c)).
Proof. apply simple_mode_usable; [reflexivity|]. intros Hs. vm_compute in Hs. discriminate. Defined.
