(* ===== verification/Program.v ===== *)
(** * The program (src/src/main.rs)

    [main]: the commands, the configuration, the device, and the life of a node from
    [run] to its end. The operating system beyond files and devices is [Process];
    [try_fail!] ends the program, the outcome [Panic]. *)

From S2P Require Import Prelude Errors Poll Util Types Table Traffic Payload Messages Device Tuntap Net Proxy Forwarding.
From S2P Require Import Ring Core Rotate Init Handshake Peer Beacon Configuration Cloud Files.
From S2P Require Wizard.

(** The shell, the terminal, what becomes of the process, and YAML. *)
Class Process (W : Type) : Type := {
  run_shell : string -> string -> W -> W;
  print : string -> W -> W;
  daemonize_as : option string -> option string -> option string -> ST W ErrorKind unit;
  drop_privileges : option string -> option string -> ST W ErrorKind unit;
  completions : string -> W -> W;
  yaml_config : string -> option ConfigFile.ConfigFile;
  yaml_old_config : string -> option OldConfigFile.OldConfigFile;
  to_yaml : ConfigFile.ConfigFile -> string
}.

(** [try_fail!]. *)
Definition must {S E A} (m : ST S E A) : ST S Error A :=
  r ← catch m;
  match r with
  | Ok a => mret a
  | _ => panic
  end.

(** [if let Err(..) = m { .. }] that only logs. *)
Definition may_fail {S E A} (m : ST S E A) : ST S Error unit := catch m ;; mret ().

Module Program.
Section Setup.
Context {W F : Type} `{Process W} `{Files W} `{System W} `{Host W} `{TunDriver F} `{DeviceFile F} `{Address.IpParsers}.

Definition run_script (script ifname : string) : ST W Error unit := modify (run_shell script ifname).

Definition hook (conf : Config.Config) (event ifname : string) : ST W Error unit :=
  modify (fun w => match Config.call_hook event [("IFNAME", ifname)]%string conf with Some cmd => run_hook cmd w | None => w end).

Definition setup_device (conf : Config.Config) : ST W Error (TunTapDevice F) :=
  device ← must (lift (Tuntap.new (Config.device_name conf) (Config.device_type conf) (Config.device_path conf)));
  hook conf "device_setup" (tt_ifname device) ;;
  may_fail (TunTapDevice.set_mtu device None) ;;
  (match Config.ip conf with
   | Some ip =>
       '(ip, netmask) ← must (lift (parse_ip_netmask ip));
       must (TunTapDevice.configure device ip netmask)
   | None => mret ()
   end) ;;
  (match Config.ifup conf with Some script => run_script script (tt_ifname device) | None => mret () end) ;;
  (if Config.fix_rp_filter conf then must (TunTapDevice.fix_rp_filter device) else mret ()) ;;
  may_fail (TunTapDevice.rp_filter device) ;;
  hook conf "device_configured" (tt_ifname device) ;;
  mret device.

(** The statistics file is created anew; whether there is one. *)
Definition open_stats (conf : Config.Config) : ST W Error bool :=
  match Config.stats_file conf with
  | None => mret false
  | Some name =>
      there ← gets (fs_exists name);
      (if there : bool then must (fs_remove name) else mret ()) ;;
      must (fs_create name) ;;
      must (fs_set_mode name 420) ;;
      mret true
  end.

Definition change_user (conf : Config.Config) : ST W Error unit :=
  if Config.daemonize conf then must (daemonize_as (Config.user conf) (Config.group conf) (Config.pid_file conf))
  else
    match Config.user conf, Config.group conf with
    | None, None => mret ()
    | user, group => must (drop_privileges user group)
    end.

(** *** Commands *)

(** [DualLogger::new]: a log file is created anew. *)
Definition new_logger (path : option string) : ST W ErrorKind unit :=
  match path with
  | Some path =>
      there ← gets (fs_exists path);
      (if there : bool then fs_remove path else mret ()) ;;
      fs_create path
  | None => mret ()
  end.

Definition migrate_config (config_file : string) : ST W Error unit :=
  text ← must (fs_read config_file);
  old ← lift (unwrap (yaml_old_config text));
  let new_config := OldConfigFile.convert old in
  must (fs_rename config_file (config_file +:+ ".orig")) ;;
  must (fs_create config_file) ;;
  must (fs_set_mode config_file 384) ;;
  must (fs_write_all config_file (to_yaml new_config)).

(** A configuration file of version 2 or, failing that, of version 1. *)
Definition read_config (file : string) : ST W Error ConfigFile.ConfigFile :=
  text ← must (fs_read file);
  match yaml_config text with
  | Some config => mret config
  | None =>
      text ← must (fs_read file);
      old ← lift (unwrap (yaml_old_config text));
      mret (OldConfigFile.convert old)
  end.

Definition load_config (args : Args.Args) : ST W Error Config.Config :=
  file ← (match Args.config args with
          | Some file => config_file ← read_config file; mret (Some config_file)
          | None => mret None
          end);
  mret (main_config file args).

Definition generate_key `{Ring} (password : option string) (r : Rng) : ST W Error unit :=
  '(privkey, pubkey) ← lift (Crypto.generate_keypair password r).2;
  modify (print ("Private key: " +:+ privkey +:+ newline +:+ "Public key: " +:+ pubkey +:+ newline +:+ newline)) ;;
  modify (print ("Attention: Keep the private key secret and use only the public key on other nodes to establish trust." +:+ newline)).

Definition has_key (conf : Config.Config) : bool :=
  bool_decide (is_Some (cc_password (Config.crypto conf))) || bool_decide (is_Some (cc_private_key (Config.crypto conf))).

End Setup.

(** ** The life of a node *)

Section Life.
Context `{Ring} {F W G : Type}.
Context `{Process W} `{Files W} `{System W} `{Host W} `{TunDriver F} `{DeviceFile F}.
Context `{Gateway G} `{SocketParsers}.

Section Node.
Context {S P : Type} `{Socket S} `{Protocol P} `{Dev : Device D}.
Abbreviation Node := (GenericCloud D S W G).

(** The peers of the configuration. *)
Definition connect_peers (now : Z) (peers : list string) : ST (Env Node) Error unit :=
  for_each (fun addr =>
    let addr := peer_with_port addr in
    c ← on_self get;
    must (GenericCloud.connect now addr (to_socket_addrs addr (outside c))) ;;
    GenericCloud.add_reconnect_peer now addr) peers.

(** What one wait of the loop ends with: the clocks, whether the program has been
    interrupted, and the event. *)
Record Wait : Type := mkWait { wt_now : Z; wt_system_now : Z; wt_interrupted : bool; wt_event : WaitResult }.

(** The loop of [GenericCloud::run], over what its waits end with; whether it has
    come to its end. *)
Fixpoint turns (waits : list Wait) (poll_error : bool) : ST (Env Node) Error bool :=
  match waits with
  | [] => mret false
  | w :: waits =>
      r ← GenericCloud.turn (P := P) (wt_now w) (wt_system_now w) (wt_interrupted w) (wt_event w) poll_error;
      match r with
      | Some poll_error => turns waits poll_error
      | None => mret true
      end
  end.

Definition run_cloud (waits : list Wait) (poll : bool) (end_now : Z) : ST (Env Node) Error bool :=
  lift (if poll then Ok () else Panic) ;;
  on_out (modify (fun _ => MsgBuffer.new SPACE_BEFORE)) ;;
  d ← GenericCloud.field device;
  GenericCloud.call_hook "vpn_started" [("IFNAME", ifname d)]%string ;;
  finished ← turns waits false;
  if finished : bool then GenericCloud.shutdown end_now ;; mret true else mret false.

(** [run] from the opened device on. *)
Definition live (test_speed : Algorithm -> Z) (node_id : NodeId) (now : Z) (conf : Config.Config) (socket : S)
    (port_forwarding : option (PortForwarding G)) (stats_file poll : bool) (waits : list Wait) (end_now : Z) (r : Rng)
    (device : D) : ST W Error bool := fun w =>
  match GenericCloud.new test_speed node_id now conf socket device port_forwarding stats_file w with
  | Ok cloud =>
      let '(e, res) :=
        (GenericCloud.initialize ;;
         connect_peers now (Config.peers conf) ;;
         on_self (zoom outside GenericCloud.set_outside (change_user conf)) ;;
         finished ← run_cloud waits poll end_now;
         (match (finished : bool), Config.ifdown conf with
          | true, Some script => on_self (zoom outside GenericCloud.set_outside (run_script script (ifname device)))
          | _, _ => mret ()
          end) ;;
         mret finished) (mkEnv cloud (MsgBuffer.new SPACE_BEFORE) r) in
      (outside (self e), res)
  | Err err => (w, Err err)
  | Panic => (w, Panic)
  end.

End Node.

(** What a run of the program meets: the measured speeds, the node's id, the clock
    at the start and at the end, the router's answers, whether epoll can be set up,
    the ends of the waits, the proxy's connections, and the random source. *)
Record Run (G T : Type) : Type := mkRun {
  test_speed : Algorithm -> Z;
  node_id : NodeId;
  now : Z;
  end_now : Z;
  random_port : nat -> Z;
  router : option G;
  internal_ip : bytes;
  poll : bool;
  waits : list Wait;
  incoming : list (outcome ErrorKind T);
  entropy : Rng
}.
Arguments test_speed {G T} _ _.
Arguments node_id {G T} _.
Arguments now {G T} _.
Arguments end_now {G T} _.
Arguments random_port {G T} _ _.
Arguments router {G T} _.
Arguments internal_ip {G T} _.
Arguments poll {G T} _.
Arguments waits {G T} _.
Arguments incoming {G T} _.
Arguments entropy {G T} _.

(** [create_port_forwarding] of the UDP socket; the other sockets have none. *)
Definition udp_port_forwarding {T U} `{UdpSys U} (x : Run G T) (u : U) : outcome Error (option (PortForwarding G)) :=
  addr ← unwrap (match UdpSocket.address u with Ok addr => Some addr | _ => None end);
  Ok (match router x with
      | Some gateway => PortForwarding.new (random_port x) (now x) (internal_ip x) (port_of addr) gateway
      | None => None
      end).

(** [run]; the result tells whether the node has come to its end. *)
Definition run {T S} (P : Type) `{Protocol P} `{Socket S} (pf : S -> outcome Error (option (PortForwarding G))) (x : Run G T)
    (conf : Config.Config) (socket : S) : ST W Error bool :=
  device ← setup_device (F := F) conf;
  port_forwarding ← lift (if Config.port_forwarding conf then pf socket else Ok None);
  stats_file ← open_stats conf;
  w ← get;
  live (P := P) (Dev := tuntap_device (F := F) w) (test_speed x) (node_id x) (now x) conf socket port_forwarding stats_file (poll x)
    (waits x) (end_now x) (entropy x) device.

(** *** [main] *)

Context {T WS U : Type} `{TcpSys T WS} `{WebSocket WS} `{UdpSys U}.
(** How the wizard's dialogue is held, the files built into the program, and the
    turns given to the wait for a websocket message. *)
Context (dialogue : Wizard.WM unit -> ST W ErrorKind unit).
Context (MANPAGE SERVICE_FILE TARGET_FILE WS_PROXY_SERVICE_FILE EXAMPLE_CONFIG VERSION : string) (fuel : nat).

Definition run_command_line (x : Run G T) (cmd : Args.Command) : ST W Error unit :=
  match cmd with
  | Args.GenKey password => generate_key password (entropy x)
  | Args.MigrateConfig config_file => migrate_config config_file
  | Args.Completion shell => modify (completions shell)
  | Args.WsProxy listen => must (lift (run_proxy (W := WS) listen (incoming x))) ;; mret ()
  | Args.EditConfig name => must (dialogue (Wizard.Wizard.configure name))
  | Args.Install uninstall =>
      if uninstall : bool then must Installer.uninstall
      else must (Installer.install MANPAGE SERVICE_FILE TARGET_FILE WS_PROXY_SERVICE_FILE EXAMPLE_CONFIG)
  end.

Definition run_as {S} `{HS : Socket S} (pf : S -> outcome Error (option (PortForwarding G))) (x : Run G T) (conf : Config.Config) (socket : S)
    : ST W Error unit :=
  match Config.device_type conf with
  | Tap => run Frame pf x conf socket
  | Tun => run Packet pf x conf socket
  end ;; mret ().

Definition main (x : Run G T) (args : Args.Args) : ST W Error unit :=
  if Args.version args then modify (print ("VpnCloud v" +:+ VERSION +:+ newline))
  else
    must (new_logger (Args.log_file args)) ;;
    (if Args.verbose args && Args.quiet args then panic else mret ()) ;;
    match Args.cmd args with
    | Some cmd => run_command_line x cmd
    | None =>
        conf ← load_config args;
        if negb (has_key conf) then mret ()
        else
          match strip_prefix "ws://" (Config.listen conf) with
          | Some _ =>
              socket ← must (lift (proxy_connect (T := T) (W := WS) fuel (Config.listen conf)));
              run_as (HS := proxy_socket fuel) (fun _ => Ok None) x conf socket
          | None =>
              socket ← must (lift (UdpSocket.listen (U := U) (Config.listen conf)));
              run_as (udp_port_forwarding x) x conf socket
          end
    end.

End Life.
End Program.

(** ** Migrating a configuration *)

Lemma must_ok {S E A} (m : ST S E A) s s' a : must m s = (s', Ok a) -> m s = (s', Ok a).
Proof. unfold must, catch, mbind, ST_bind. by destruct (m s) as [s1 [x|e|]]; intros [= <- ?]; subst. Qed.

Lemma lift_ok {S E A} (o : outcome E A) (s s' : S) a : lift o s = (s', Ok a) -> s' = s /\ o = Ok a.
Proof. by intros [= <- ->]. Qed.

Lemma unwrap_ok {E A} (o : option A) a : unwrap (E := E) o = Ok a -> o = Some a.
Proof. by destruct o; intros [= ->]. Qed.

(** A chain of calls that has succeeded, taken apart. *)
Ltac taken_apart Hc :=
  repeat match type of Hc with
  | (_ ≫= _) _ = _ => let w := fresh "w" in let u := fresh "u" in let Hs := fresh "Hs" in
      apply st_bind_ok in Hc as (w & u & Hs & Hc); try destruct u; try apply must_ok in Hs
  | must _ _ = _ => apply must_ok in Hc
  end.

Lemma longer_name (s t : string) : t <> ""%string -> s +:+ t <> s.
Proof.
  intros Ht He. apply Ht. induction s as [|a s IH]; [done|]. by injection He as He; apply IH.
Qed.

Section Migration.
Context {W : Type} `{Process W} `{FilesLaws W}.
Import Program.

(** What reading a configuration gives depends on the file's text alone. *)
Lemma read_config_spec file w w' c : read_config file w = (w', Ok c) -> exists t, texts w !! file = Some t /\
  match yaml_config t with
  | Some c' => c = c'
  | None => exists old, yaml_old_config t = Some old /\ c = OldConfigFile.convert old
  end.
Proof.
  intros Hr. unfold read_config in Hr. apply st_bind_ok in Hr as (w1 & t & Hs & Hr). apply must_ok in Hs.
  exists t. split; [by eapply read_spec|]. destruct (yaml_config t) as [c'|]; [by injection Hr|].
  apply st_bind_ok in Hr as (w2 & t' & Hs' & Hr). apply must_ok in Hs'.
  assert (t' = t) as ->.
  { apply read_spec in Hs'. apply read_texts in Hs as Ht. apply read_spec in Hs. rewrite Ht in Hs'. congruence. }
  apply st_bind_ok in Hr as (w3 & old & Ho & Hr). apply lift_ok in Ho as [-> Ho]. apply unwrap_ok in Ho.
  exists old. split; [done|]. by injection Hr.
Qed.

(** C39: migrating a configuration file of version 1 keeps the original beside it and
    touches no other file, and whatever the program read before it reads after. *)
Theorem migrate_preserves file w w' t :
  texts w !! file = Some t -> yaml_config t = None ->
  (forall old, yaml_old_config t = Some old -> yaml_config (to_yaml (OldConfigFile.convert old)) = Some (OldConfigFile.convert old)) ->
  migrate_config file w = (w', Ok ()) ->
  texts w' !! (file +:+ ".orig") = Some t /\
  (forall p, p <> file -> p <> file +:+ ".orig" -> texts w' !! p = texts w !! p) /\
  (forall w1 w2 c c', read_config file w = (w1, Ok c) -> read_config file w' = (w2, Ok c') -> c' = c).
Proof.
  intros Ht Hy Hyaml Hm.
  assert (file +:+ ".orig" <> file) as Hne by by apply longer_name.
  unfold migrate_config in Hm. apply st_bind_ok in Hm as (wa & t' & Hs & Hm). apply must_ok in Hs.
  assert (t' = t) as -> by (apply read_spec in Hs; congruence). apply read_texts in Hs.
  apply st_bind_ok in Hm as (wb & old & Ho & Hm). apply lift_ok in Ho as [-> Ho]. apply unwrap_ok in Ho. cbv zeta in Hm.
  taken_apart Hm.
  apply rename_texts in Hs0 as (t' & Ht' & Hs0). assert (t' = t) as -> by congruence.
  apply create_texts in Hs1. apply mode_texts in Hs2. apply write_texts in Hm.
  assert (texts w' = <[file := to_yaml (OldConfigFile.convert old)]> (<[file +:+ ".orig" := t]> (delete file (texts w)))) as Hw'.
  { rewrite Hm, Hs2, Hs1, Hs0, Hs. by rewrite insert_insert_eq. }
  rewrite Hw'. split_and!.
  - by rewrite lookup_insert_ne, lookup_insert_eq.
  - intros p Hp Hp'. by rewrite !lookup_insert_ne, lookup_delete_ne.
  - intros wx wy c c' Hc Hc'. apply read_config_spec in Hc as (t1 & Ht1 & Hc). apply read_config_spec in Hc' as (t2 & Ht2 & Hc').
    rewrite Ht in Ht1. injection Ht1 as <-. rewrite Hy in Hc. destruct Hc as (old' & Ho' & ->).
    rewrite Hw', lookup_insert_eq in Ht2. injection Ht2 as <-. rewrite (Hyaml old Ho) in Hc'. congruence.
Qed.

End Migration.

(** ** Starting without a secret *)

Section Start.
Context `{Ring} {F W G T WS U : Type}.
Context `{Process W} `{Files W} `{System W} `{Host W} `{TunDriver F} `{DeviceFile F} `{Gateway G} `{SocketParsers}.
Context `{TcpSys T WS} `{WebSocket WS} `{UdpSys U}.
Context (dialogue : Wizard.WM unit -> ST W ErrorKind unit).
Context (MANPAGE SERVICE_FILE TARGET_FILE WS_PROXY_SERVICE_FILE EXAMPLE_CONFIG VERSION : string) (fuel : nat).
Import Program.

Abbreviation program := (main (F := F) (G := G) (T := T) (WS := WS) (U := U) dialogue MANPAGE SERVICE_FILE TARGET_FILE WS_PROXY_SERVICE_FILE
  EXAMPLE_CONFIG VERSION fuel).

(** A configuration without a password and a private key is never run: the program
    ends where it has read it, with no device, socket, script or hook touched. *)
Theorem main_needs_key (x : Run G T) (args : Args.Args) w w1 w2 conf :
  Args.version args = false -> Args.cmd args = None -> Args.verbose args && Args.quiet args = false ->
  must (new_logger (Args.log_file args)) w = (w1, Ok ()) -> load_config args w1 = (w2, Ok conf) ->
  cc_password (Config.crypto conf) = None -> cc_private_key (Config.crypto conf) = None ->
  program x args w = (w2, Ok ()).
Proof.
  intros Hv Hc Hq Hl Hconf Hp Hk. unfold main. rewrite Hv, Hq, Hc. rewrite (bind_ok _ _ _ w1 ()) by done.
  rewrite (bind_ok _ _ _ w1 ()) by done. rewrite (bind_ok _ _ _ w2 conf) by done.
  assert (has_key conf = false) as ->; [|done]. unfold has_key. rewrite Hp, Hk. reflexivity.
Qed.

End Start.

(** ** The hypotheses can hold *)

Definition toy_old_file : OldConfigFile.OldConfigFile :=
  OldConfigFile.mkOldConfigFile None None None None None None None None None None None None None None None None None None None None None None None None None None.

#[export] Instance toy_process : Process (gmap string string) := {|
  run_shell _ _ w := w;
  print _ w := w;
  daemonize_as _ _ _ w := (w, Ok ());
  drop_privileges _ _ w := (w, Ok ());
  completions _ w := w;
  yaml_config t := if decide (t = "version 2"%string) then Some (OldConfigFile.convert toy_old_file) else None;
  yaml_old_config t := if decide (t = "version 1"%string) then Some toy_old_file else None;
  to_yaml _ := "version 2"%string
|}.

Definition toy_old_disk : gmap string string := {["my.net"%string := "version 1"%string]}.
Definition toy_migrated : gmap string string * outcome Error () := Program.migrate_config "my.net" toy_old_disk.

Lemma migrate_preserves_witness : toy_migrated.1 !! "my.net.orig"%string = Some "version 1"%string /\
  forall w2 c, Program.read_config "my.net" toy_migrated.1 = (w2, Ok c) -> c = OldConfigFile.convert toy_old_file.
Proof.
  destruct (migrate_preserves (W := gmap string string) "my.net" toy_old_disk toy_migrated.1 "version 1") as (Ho & _ & Hr).
  - apply lookup_singleton_eq.
  - reflexivity.
  - intros old [= <-]. reflexivity.
  - apply (pair_snd toy_migrated). vm_compute. reflexivity.
  - split; [exact Ho|]. intros w2 c Hc. exact (Hr toy_old_disk w2 (OldConfigFile.convert toy_old_file) c ltac:(reflexivity) Hc).
Defined.
