(* ===== verification/Simulation.v ===== *)
(** * The simulator of the tests (src/src/tests)

    Several nodes with mock devices and mock sockets on a simulated network, as the
    integration tests run them, and these tests themselves: each is evaluated, so
    every operation of the node they reach is run from its definition. *)

From stdpp Require Import pretty.
From S2P Require Import Prelude Errors Util Types Table Traffic Payload Messages Device Net Forwarding.
From S2P Require Import Ring Core Rotate Init Handshake Peer Beacon Configuration Cloud.

Import GenericCloud.

(** ** The hooks of the tests (the end of cloud.rs) *)

Module TestNode.
Section Triggers.
Context `{Ring} {W G P : Type} `{System W} `{Gateway G} `{SocketParsers} `{Protocol P}.

Abbreviation TestNode := (GenericCloud MockDevice MockSocket W G).
Abbreviation CM := (ST (Env TestNode) Error).

Definition trigger_socket_event (now : Z) : CM unit := with_buffer (MsgBuffer.new SPACE_BEFORE) (handle_socket_event (P := P) now).
Definition trigger_device_event (now : Z) : CM unit := with_buffer (MsgBuffer.new SPACE_BEFORE) (handle_device_event (P := P) now).
Definition trigger_housekeep (now : Z) : CM unit :=
  r ← catch (housekeep now now);
  assert (is_ok r).
Definition is_connected (addr : SocketAddr) (c : TestNode) : bool := bool_decide (is_Some (peers c !! addr)).

End Triggers.
End TestNode.

Module Simulator.

(** [set_time] is the clock of all nodes; what lies outside of them is shared, and so is
    the random source. *)
Record Simulator `{Ring} (W G : Type) : Type := mkSimulator {
  next_port : Z;
  nodes : gmap SocketAddr (GenericCloud MockDevice MockSocket W G);
  messages : list (SocketAddr * SocketAddr * bytes);
  mock_time : Z;
  world : W;
  source : Rng
}.
Arguments mkSimulator {_ W G} _ _ _ _ _ _.
Arguments next_port {_ W G} _.
Arguments nodes {_ W G} _.
Arguments messages {_ W G} _.
Arguments mock_time {_ W G} _.
Arguments world {_ W G} _.
Arguments source {_ W G} _.

Section Simulator.
Context `{Ring} {W G P : Type} `{System W} `{Gateway G} `{SocketParsers} `{Protocol P}.
(** What the speed test measures. *)
Variable test_speed : Algorithm -> Z.

Abbreviation Sim := (Simulator W G).
Abbreviation SimM := (ST Sim Error).
Abbreviation Node := (GenericCloud MockDevice MockSocket W G).

Definition new (w : W) (r : Rng) : Sim := mkSimulator 1 ∅ [] 0 w r.

Definition set_messages (l : list (SocketAddr * SocketAddr * bytes)) (s : Sim) : Sim :=
  mkSimulator (next_port s) (nodes s) l (mock_time s) (world s) (source s).
Definition set_nodes (n : gmap SocketAddr Node) (s : Sim) : Sim :=
  mkSimulator (next_port s) n (messages s) (mock_time s) (world s) (source s).
Definition set_time (time : Z) : SimM unit := modify (fun s => mkSimulator (next_port s) (nodes s) (messages s) time (world s) (source s)).

(** The calls on a node make their own buffers. *)
Definition no_buffer : MsgBuffer := mkMsgBuffer 0 [] 0 0.

(** [self.nodes.get_mut(&addr).unwrap()] and a call on it. *)
Definition at_node {A} (addr : SocketAddr) (m : Z -> ST (Env Node) Error A) : SimM A := fun s =>
  match nodes s !! addr with
  | None => (s, Panic)
  | Some node =>
      let '(e, r) := m (mock_time s) (mkEnv (set_outside (world s) node) no_buffer (source s)) in
      (mkSimulator (next_port s) (<[addr := self e]> (nodes s)) (messages s) (mock_time s) (outside (self e)) (rng e), r)
  end.

(** [config.listen] and, without a key of its own, [config.crypto.password]. *)
Definition test_config (listen : string) (c : Config.Config) : Config.Config :=
  let k := Config.crypto c in
  let password := match cc_password k, cc_private_key k with None, None => Some "test123"%string | p, _ => p end in
  Config.mkConfig (Config.device_type c) (Config.device_name c) (Config.device_path c) (Config.fix_rp_filter c) (Config.ip c)
    (Config.advertise_addresses c) (Config.ifup c) (Config.ifdown c)
    (mkCryptoConfig password (cc_private_key k) (cc_public_key k) (cc_trusted_keys k) (cc_algorithms k))
    listen (Config.peers c) (Config.peer_timeout c) (Config.keepalive c) (Config.beacon_store c) (Config.beacon_load c)
    (Config.beacon_interval c) (Config.beacon_password c) (Config.mode c) (Config.switch_timeout c) (Config.claims c) (Config.auto_claim c)
    (Config.port_forwarding c) (Config.daemonize c) (Config.pid_file c) (Config.stats_file c) (Config.statsd_server c)
    (Config.statsd_prefix c) (Config.user c) (Config.group c) (Config.hook c) (Config.hooks c).

Definition add_node (nat : bool) (config : Config.Config) : SimM SocketAddr :=
  s ← get;
  let listen := ("[::]:" +:+ number (next_port s))%string in
  let config := test_config listen config in
  addr ← lift (unwrap (socket_addr_from_str listen));
  let '(node_id, r) := fill 16 (source s) in
  node ← lift (GenericCloud.new test_speed node_id (mock_time s) config (MockSocket.new nat addr) MockDevice.new None false (world s));
  let '(e, res) := GenericCloud.initialize (mkEnv node no_buffer r) in
  lift res ;;
  modify (fun s => mkSimulator (wrap16 (next_port s + 1)) (<[addr := self e]> (nodes s)) (messages s) (mock_time s) (outside (self e)) (rng e)) ;;
  mret addr.

(** [while let Some((dst, data)) = sock.pop_outbound()]; [count] is how many there are. *)
Fixpoint drain (count : nat) (src : SocketAddr) (sock : MockSocket) : MockSocket * list (SocketAddr * SocketAddr * bytes) :=
  match count with
  | O => (sock, [])
  | Datatypes.S count =>
      match MockSocket.pop_outbound sock with
      | (sock, Some (dst, data)) => let '(sock, l) := drain count src sock in (sock, (src, dst, data) :: l)
      | (sock, None) => (sock, [])
      end
  end.
Definition send_out (src : SocketAddr) : SimM unit := modify (fun s =>
  match nodes s !! src with
  | Some node =>
      let '(sock, l) := drain (length (ms_outbound (socket node))) src (socket node) in
      set_messages (messages s ++ l) (set_nodes (<[src := set_socket sock node]> (nodes s)) s)
  | None => s
  end).

Definition simulate_next_message : SimM unit :=
  s ← get;
  match messages s with
  | [] => mret ()
  | (src, dst, data) :: rest =>
      modify (set_messages rest) ;;
      match nodes s !! dst with
      | Some node =>
          let '(sock, taken) := MockSocket.put_inbound (mock_time s) src data (socket node) in
          modify (fun s => set_nodes (<[dst := set_socket sock node]> (nodes s)) s) ;;
          if taken : bool then at_node dst (TestNode.trigger_socket_event (P := P)) ;; send_out dst else mret ()
      | None => mret ()
      end
  end.

(** [limit] messages at most; with more the loop has not ended. *)
Fixpoint simulate_all_messages (limit : nat) : SimM unit :=
  s ← get;
  match messages s, limit with
  | [], _ => mret ()
  | _, O => panic
  | _, Datatypes.S limit => simulate_next_message ;; simulate_all_messages limit
  end.

Definition trigger_node_housekeep (addr : SocketAddr) : SimM unit := at_node addr TestNode.trigger_housekeep ;; send_out addr.

Definition trigger_housekeep : SimM unit :=
  s ← get;
  for_each trigger_node_housekeep (map_to_list (nodes s)).*1.

(** The loop over the seconds. *)
Fixpoint pass (limit : nat) (seconds : nat) : SimM unit :=
  match seconds with
  | O => mret ()
  | Datatypes.S seconds =>
      s ← get;
      set_time (mock_time s + 1) ;;
      trigger_housekeep ;;
      simulate_all_messages limit ;;
      pass limit seconds
  end.
Definition simulate_time (limit : nat) (time : Z) : SimM unit :=
  s ← get;
  pass limit (Z.to_nat (time - mock_time s)).

Definition connect (src dst : SocketAddr) : SimM unit :=
  at_node src (fun now => or_fail (GenericCloud.connect_list now [dst])) ;; send_out src.

(** [assert!(sim.is_connected(src, dst))]. *)
Definition is_connected (src dst : SocketAddr) : SimM bool :=
  s ← get;
  node ← lift (unwrap (nodes s !! src));
  mret (TestNode.is_connected dst node).

Definition put_payload (addr : SocketAddr) (data : bytes) : SimM unit :=
  at_node addr (fun now => update (fun c => set_device (MockDevice.put_inbound data (device c)) c) ;; TestNode.trigger_device_event (P := P) now) ;;
  send_out addr.

Definition pop_payload (addr : SocketAddr) : SimM (option bytes) :=
  at_node addr (fun _ => on_self (zoom device set_device (fun d => let '(d, r) := MockDevice.pop_outbound d in (d, Ok r)))).

Definition drop_message : SimM unit := modify (fun s => set_messages (tail (messages s)) s).

End Simulator.
End Simulator.
