(* ===== verification/Scenarios.v ===== *)
(** * The integration tests (src/src/tests/peers.rs, payload.rs, nat.rs)

    The tests as computations of the simulator that end in a panic where an assertion
    does not hold, and the lemmas that they pass: the kernel runs the nodes, over the
    toy primitives of Ring. Left out are tests of long runs of three nodes
    ([cross_connect], [connect_nat_3_peers], [nat_keepalive]) and those that others
    here go beyond ([lost_init_ping], [lost_init_pong], [switch_delivers],
    [switch_learns]). *)

From S2P Require Import Prelude Errors Util Types Table Traffic Payload Messages Device Net Forwarding.
From S2P Require Import Ring Core Rotate Init Handshake Peer Beacon Configuration Cloud Simulation.
From stdpp Require Import strings.

Import Simulator.
#[local] Open Scope Z_scope.

(** ** The surroundings of the tests *)

(** The addresses the tests write down. *)
Definition sim_ipv4 (text : string) : option bytes :=
  match text with
  | "1.1.1.1" => Some [1; 1; 1; 1]
  | "2.2.2.2" => Some [2; 2; 2; 2]
  | _ => None
  end%string.
Definition sim_parsers : SocketParsers := {|
  ip_parsers := {| Address.ipv4_from_str := sim_ipv4; Address.ipv6_from_str _ := None |};
  socket_addr_from_str text :=
    match text with
    | "[::]:1" => Some (V6 UNSPECIFIED 1 0 0)
    | "[::]:2" => Some (V6 UNSPECIFIED 2 0 0)
    | "[::]:3" => Some (V6 UNSPECIFIED 3 0 0)
    | _ => None
    end%string
|}.

(** A system of which the nodes only use the files. *)
Definition SimFiles : Type := gmap string string.
Definition sim_system : System SimFiles := {|
  to_socket_addrs _ _ := None;
  partial_shuffle _ l w := (w, l);
  choose_multiple n l w := (w, take n l);
  run_hook _ w := w;
  path_exists path w := bool_decide (is_Some (w !! path));
  remove_file path w := (delete path w, Ok ());
  create_file path text w := (<[path := text]> w, Ok ());
  read_to_string path w := (w, match w !! path with Some text => Ok text | None => Err NotFound end);
  spawn _ _ w := (w, Ok ());
  write_stats _ w := (w, Ok ());
  show_addr _ := ""%string
|}.

#[local] Existing Instance sim_parsers.
#[local] Existing Instance sim_system.

Abbreviation SimM := (ST (Simulator SimFiles (list Z)) Error).

(** Equal speeds: the last algorithm of the list is taken. *)
Definition sim_speed (a : Algorithm) : Z := 1142292480.
Definition sim_start : Simulator SimFiles (list Z) := Simulator.new ∅ (toy_rng 1).
Definition passes (test : SimM unit) : bool := is_ok (test sim_start).2.

Definition assert_connected (a b : SocketAddr) : SimM unit := r ← is_connected a b; assert r.
Definition assert_linked (a b : SocketAddr) : SimM unit := assert_connected a b ;; assert_connected b a.
Definition assert_apart (a b : SocketAddr) : SimM unit := r ← is_connected a b; assert (negb r).
Definition assert_payload (addr : SocketAddr) (data : option bytes) : SimM unit := r ← pop_payload addr; assert (bool_decide (r = data)).

Definition join (nat : bool) (config : Config.Config) : SimM SocketAddr := add_node sim_speed nat config.

(** The configurations, as changes of the default. *)
Definition test_file : ConfigFile.ConfigFile :=
  ConfigFile.mkConfigFile None None None None None default_crypto None None None None None None None None None None None None None None None None ∅.
Definition with_device (t : DeviceType) (f : ConfigFile.ConfigFile) : ConfigFile.ConfigFile :=
  ConfigFile.mkConfigFile (Some (ConfigFile.mkDevice (Some t) None None None)) (ConfigFile.ip f) (ConfigFile.advertise_addresses f) (ConfigFile.ifup f)
    (ConfigFile.ifdown f) (ConfigFile.crypto f) (ConfigFile.listen f) (ConfigFile.peers f) (ConfigFile.peer_timeout f) (ConfigFile.keepalive f)
    (ConfigFile.beacon f) (ConfigFile.mode f) (ConfigFile.switch_timeout f) (ConfigFile.claims f) (ConfigFile.auto_claim f)
    (ConfigFile.port_forwarding f) (ConfigFile.pid_file f) (ConfigFile.stats_file f) (ConfigFile.statsd f) (ConfigFile.user f) (ConfigFile.group f)
    (ConfigFile.hook f) (ConfigFile.hooks f).
Definition only_crypto (crypto : CryptoConfig) : ConfigFile.ConfigFile :=
  ConfigFile.mkConfigFile None None None None None crypto None None None None None None None None None None None None None None None None ∅.
Definition only_beacon (store load : option string) : ConfigFile.ConfigFile :=
  ConfigFile.mkConfigFile None None None None None default_crypto None None None None (Some (ConfigFile.mkBeacon store load None None))
    None None None None None None None None None None None ∅.
Definition only_claims (claims : list string) : ConfigFile.ConfigFile :=
  ConfigFile.mkConfigFile None None None None None default_crypto None None None None None None None (Some claims) (Some false) None
    None None None None None None ∅.
Definition no_forwarding : ConfigFile.ConfigFile :=
  ConfigFile.mkConfigFile None None None None None default_crypto None None None None None None None None None (Some false)
    None None None None None None ∅.
Definition configured (f : ConfigFile.ConfigFile) : Config.Config := Config.merge_file f Config.default.

Definition plain_config : Config.Config := configured (only_crypto (mkCryptoConfig None None None [] ["plain"%string])).
Definition beacon_path : string := "target/.vpncloud_test".
Definition storing_config : Config.Config := configured (only_beacon (Some beacon_path) None).
Definition loading_config : Config.Config := configured (only_beacon None (Some beacon_path)).
Definition tap_config : Config.Config := configured (with_device Tap test_file).
Definition tun_config (claim : string) : Config.Config := configured (with_device Tun (only_claims [claim])).

(** ** Peers (tests/peers.rs) *)

Section Peers.
(** No run has as many messages under way. *)
Abbreviation deliver := (simulate_all_messages (P := Frame) 1000).

Definition direct_connect : SimM unit :=
  node1 ← join false Config.default;
  node2 ← join false Config.default;
  connect node1 node2 ;;
  deliver ;;
  assert_linked node1 node2.

Definition direct_connect_unencrypted : SimM unit :=
  node1 ← join false plain_config;
  node2 ← join false plain_config;
  connect node1 node2 ;;
  deliver ;;
  assert_linked node1 node2.

Definition connect_via_beacons : SimM unit :=
  node1 ← join false storing_config;
  node2 ← join false loading_config;
  set_time 100 ;;
  trigger_node_housekeep node1 ;;
  trigger_node_housekeep node2 ;;
  deliver ;;
  assert_linked node1 node2.

Definition reconnect_after_timeout : SimM unit :=
  node1 ← join false Config.default;
  node2 ← join false Config.default;
  connect node1 node2 ;;
  deliver ;;
  assert_linked node1 node2 ;;
  set_time 5000 ;;
  trigger_housekeep ;;
  assert_apart node1 node2 ;;
  assert_apart node2 node1 ;;
  deliver ;;
  assert_linked node1 node2.

Definition lost_init_peng : SimM unit :=
  node1 ← join false Config.default;
  node2 ← join false Config.default;
  connect node1 node2 ;;
  simulate_next_message (P := Frame) ;;
  simulate_next_message (P := Frame) ;;
  drop_message ;;
  simulate_time (P := Frame) 1000 120 ;;
  assert_linked node1 node2.

Lemma direct_connect_passes : passes direct_connect = true.
Proof. vm_compute. reflexivity. Qed.
Lemma direct_connect_unencrypted_passes : passes direct_connect_unencrypted = true.
Proof. vm_compute. reflexivity. Qed.
Lemma connect_via_beacons_passes : passes connect_via_beacons = true.
Proof. vm_compute. reflexivity. Qed.
Lemma reconnect_after_timeout_passes : passes reconnect_after_timeout = true.
Proof. vm_compute. reflexivity. Qed.
Lemma lost_init_peng_passes : passes lost_init_peng = true.
Proof. vm_compute. reflexivity. Qed.
End Peers.

(** ** Payload (tests/payload.rs) *)

Section Payload.
Abbreviation deliver := (simulate_all_messages (P := Frame) 1000).
Abbreviation deliver_packets := (simulate_all_messages (P := Packet) 1000).

(** Three connected switches. *)
Definition switches : SimM (SocketAddr * SocketAddr * SocketAddr) :=
  node1 ← join false tap_config;
  node2 ← join false tap_config;
  node3 ← join false tap_config;
  connect node1 node2 ;;
  connect node1 node3 ;;
  connect node2 node3 ;;
  deliver ;;
  assert_linked node1 node2 ;;
  assert_linked node1 node3 ;;
  assert_linked node2 node3 ;;
  mret (node1, node2, node3).

Definition switch_honours_vlans : SimM unit :=
  '(node1, node2, node3) ← switches;
  let payload := [2; 2; 2; 2; 2; 2; 1; 1; 1; 1; 1; 1; 129; 0; 0; 103; 1; 2; 3; 4; 5] in
  put_payload (P := Frame) node1 payload ;;
  deliver ;;
  assert_payload node2 (Some payload) ;;
  assert_payload node3 (Some payload) ;;
  let payload := [1; 1; 1; 1; 1; 1; 2; 2; 2; 2; 2; 2; 129; 0; 0; 103; 5; 4; 3; 2; 1] in
  put_payload (P := Frame) node2 payload ;;
  deliver ;;
  assert_payload node1 (Some payload) ;;
  assert_payload node3 None ;;
  let payload := [1; 1; 1; 1; 1; 1; 2; 2; 2; 2; 2; 2; 129; 0; 0; 104; 5; 4; 3; 2; 1] in
  put_payload (P := Frame) node2 payload ;;
  deliver ;;
  assert_payload node1 (Some payload) ;;
  assert_payload node3 (Some payload).

(** Two connected routers with a claim each. *)
Definition routers : SimM (SocketAddr * SocketAddr) :=
  node1 ← join false (tun_config "1.1.1.1/32");
  node2 ← join false (tun_config "2.2.2.2/32");
  connect node1 node2 ;;
  deliver_packets ;;
  assert_linked node1 node2 ;;
  mret (node1, node2).

Definition router_delivers : SimM unit :=
  '(node1, node2) ← routers;
  let payload := [64; 0; 0; 0; 0; 0; 0; 0; 0; 0; 0; 0; 1; 1; 1; 1; 2; 2; 2; 2] in
  put_payload (P := Packet) node1 payload ;;
  deliver_packets ;;
  assert_payload node2 (Some payload).

Definition router_drops_unknown_dest : SimM unit :=
  '(node1, node2) ← routers;
  let payload := [64; 0; 0; 0; 0; 0; 0; 0; 0; 0; 0; 0; 1; 1; 1; 1; 3; 3; 3; 3] in
  put_payload (P := Packet) node1 payload ;;
  deliver_packets ;;
  assert_payload node2 None.

Lemma switch_honours_vlans_passes : passes switch_honours_vlans = true.
Proof. vm_compute. reflexivity. Qed.
Lemma router_delivers_passes : passes router_delivers = true.
Proof. vm_compute. reflexivity. Qed.
Lemma router_drops_unknown_dest_passes : passes router_drops_unknown_dest = true.
Proof. vm_compute. reflexivity. Qed.
End Payload.

(** ** Address translation (tests/nat.rs) *)

Section Nat.

Definition connect_nat_2_peers : SimM unit :=
  node1 ← join true (configured no_forwarding);
  node2 ← join true (configured no_forwarding);
  connect node1 node2 ;;
  connect node2 node1 ;;
  simulate_time (P := Frame) 1000 60 ;;
  assert_linked node1 node2.

Lemma connect_nat_2_peers_passes : passes connect_nat_2_peers = true.
Proof. vm_compute. reflexivity. Qed.
End Nat.
