(* ===== verification/Vectors.v ===== *)
(** * The test vectors of the beacons (the tests of src/src/beacon.rs)

    The tests compare with fixed texts, which depend on the digest SHA-512. It is
    written out here (FIPS 180-4) for an instance of Ring that has it, and the tests
    are run with it: the model encodes and decodes what the program does. *)

From S2P Require Import Prelude Errors Util Ring Base62 Beacon.

(** ** SHA-512 *)

Module Sha512.

(** The first 64 bits of the fraction of a square or cube root. *)
Definition root_fraction2 (p : Z) : Z := wrap64 (Z.sqrt (p * 2 ^ 128)).
Fixpoint cube_root_loop (bit : nat) (n acc : Z) : Z :=
  match bit with
  | O => acc
  | S bit => let c := acc + 2 ^ Z.of_nat bit in cube_root_loop bit n (if decide (c * c * c <= n) then c else acc)
  end.
Definition root_fraction3 (p : Z) : Z := wrap64 (cube_root_loop 72 (p * 2 ^ 192) 0).

Definition primes : list Z :=
  [2; 3; 5; 7; 11; 13; 17; 19; 23; 29; 31; 37; 41; 43; 47; 53; 59; 61; 67; 71; 73; 79; 83; 89; 97; 101; 103; 107; 109; 113; 127; 131; 137; 139;
   149; 151; 157; 163; 167; 173; 179; 181; 191; 193; 197; 199; 211; 223; 227; 229; 233; 239; 241; 251; 257; 263; 269; 271; 277; 281; 283; 293;
   307; 311; 313; 317; 331; 337; 347; 349; 353; 359; 367; 373; 379; 383; 389; 397; 401; 409].
Definition K : list Z := Eval vm_compute in root_fraction3 <$> primes.
Definition H0 : list Z := Eval vm_compute in root_fraction2 <$> take 8 primes.

(** Cut to 64 bits. *)
Definition w64 (x : Z) : Z := Z.land x 18446744073709551615.
Definition rotr (n x : Z) : Z := Z.lor (Z.shiftr x n) (w64 (Z.shiftl x (64 - n))).
Definition xor3 (a b c : Z) : Z := Z.lxor a (Z.lxor b c).
Definition big_sigma0 (x : Z) : Z := xor3 (rotr 28 x) (rotr 34 x) (rotr 39 x).
Definition big_sigma1 (x : Z) : Z := xor3 (rotr 14 x) (rotr 18 x) (rotr 41 x).
Definition small_sigma0 (x : Z) : Z := xor3 (rotr 1 x) (rotr 8 x) (Z.shiftr x 7).
Definition small_sigma1 (x : Z) : Z := xor3 (rotr 19 x) (rotr 61 x) (Z.shiftr x 6).
Definition ch (x y z : Z) : Z := Z.lxor (Z.land x y) (Z.land (Z.lxor x 18446744073709551615) z).
Definition maj (x y z : Z) : Z := xor3 (Z.land x y) (Z.land x z) (Z.land y z).

(** The message schedule, the last word first. *)
Fixpoint schedule (n : nat) (ws : list Z) : list Z :=
  match n with
  | O => ws
  | S n => schedule n (w64 (small_sigma1 (nth 1 ws 0) + nth 6 ws 0 + small_sigma0 (nth 14 ws 0) + nth 15 ws 0) :: ws)
  end.

Definition round (s : list Z) (kw : Z * Z) : list Z :=
  match s with
  | [a; b; c; d; e; f; g; h] =>
      let t1 := h + big_sigma1 e + ch e f g + kw.1 + kw.2 in
      let t2 := big_sigma0 a + maj a b c in
      [w64 (t1 + t2); a; b; c; w64 (d + t1); e; f; g]
  | _ => s
  end.

Fixpoint words (n : nat) (bs : bytes) : list Z :=
  match n with
  | O => []
  | S n => be_value (take 8 bs) :: words n (drop 8 bs)
  end.
Definition block (h : list Z) (bs : bytes) : list Z :=
  zip_with (fun x y => w64 (x + y)) h (foldl round h (zip K (reverse (schedule 64 (reverse (words 16 bs)))))).
Fixpoint blocks (n : nat) (h : list Z) (bs : bytes) : list Z :=
  match n with
  | O => h
  | S n => blocks n (block h (take 128 bs)) (drop 128 bs)
  end.

(** A one, zeros and the length in bits, to full blocks. *)
Definition padded (m : bytes) : bytes :=
  m ++ [128] ++ replicate (Z.to_nat ((111 - zlen m) mod 128)) 0 ++ be_bytes 16 (zlen m * 8).
Definition digest (m : bytes) : bytes := concat (be_bytes 8 <$> blocks (length (padded m) / 128) H0 (padded m)).

End Sha512.

(** The digest of the three letters abc, as the standard has it. *)
Lemma sha512_abc : Sha512.digest [97; 98; 99] =
  [221; 175; 53; 161; 147; 97; 122; 186; 204; 65; 115; 73; 174; 32; 65; 49; 18; 230; 250; 78; 137; 169; 126; 162; 10; 158; 238; 230; 75; 85; 211; 154;
   33; 146; 153; 42; 39; 79; 193; 168; 54; 186; 60; 35; 163; 254; 235; 189; 69; 77; 68; 35; 100; 60; 232; 14; 42; 154; 201; 79; 165; 76; 164; 159].
Proof. vm_compute. reflexivity. Qed.

(** The toy primitives with this digest. *)
Definition sha_ring : Ring := {|
  Rng := @Rng toy_ring; fill := @fill toy_ring; key_len := @key_len toy_ring; seal := @seal toy_ring; open_in_place := @open_in_place toy_ring;
  EcdhPrivateKey := @EcdhPrivateKey toy_ring; ecdh_generate := @ecdh_generate toy_ring; compute_public_key := @compute_public_key toy_ring;
  agree_ephemeral := @agree_ephemeral toy_ring; sha256 := @sha256 toy_ring; sha512 := Sha512.digest; Ed25519KeyPair := @Ed25519KeyPair toy_ring;
  from_seed_unchecked := @from_seed_unchecked toy_ring; from_seed_and_public_key := @from_seed_and_public_key toy_ring;
  ed25519_public_key := @ed25519_public_key toy_ring; sign := @sign toy_ring; verify := @verify toy_ring; pbkdf2_derive := @pbkdf2_derive toy_ring
|}.
#[local] Existing Instance sha_ring | 0.

(** ** The tests *)

Module BeaconTests.

Definition hour : Z := 3600.
(** [b"mysecretkey"]. *)
Definition ser : BeaconSerializer := BeaconSerializer.new [109; 121; 115; 101; 99; 114; 101; 116; 107; 101; 121].
Definition encode_at (h : Z) (peers : list SocketAddr) : Result string := BeaconSerializer.encode (H := sha_ring) ser (h * hour) peers.
Definition decode_at (h : Z) (text : string) (ttl : option Z) : Result (list SocketAddr) :=
  BeaconSerializer.decode (H := sha_ring) ser (h * hour) text ttl.
Definition count_at (h : Z) (text : string) (ttl : option Z) : option nat :=
  match decode_at h text ttl with Ok l => Some (length l) | _ => None end.

Definition p5678 : SocketAddr := V4 [1; 2; 3; 4] 5678.
Definition p53 : SocketAddr := V4 [6; 6; 6; 6] 53.
Definition p54 : SocketAddr := V4 [6; 6; 6; 6] 54.
Definition v6 : SocketAddr := V6 [0; 0; 0; 0; 0; 0; 0; 0; 0; 0; 0; 0; 0; 0; 0; 1] 5678 0 0.
Definition two : string := "WsHI31EWDMBYxvITiILIrm2k9gEik22E".
Definition three : string := "WsHI3GXKaXCveo6uejmZizZ72kR6Y0L9T7h49TXONp1ugfKvvvEik22E".

(** [assert_eq!] with a result. *)
Definition returns `{EqDecision A} (o : Result A) (a : A) : bool := match o with Ok x => bool_decide (x = a) | _ => false end.

(** The text is decoded to these peers. *)
Definition finds (text : string) (peers : list SocketAddr) : bool := returns (decode_at 2000 text None) peers.

(** [fn encode()]. *)
Definition encode : bool :=
  returns (encode_at 2000 [p5678; p53]) two && returns (encode_at 2000 [p5678; p53; v6]) three &&
  returns (encode_at 2000 [p5678; p54]) "WsHI32gm9eMSHP3Lm1GXcdP7rD3ik22E"%string.

(** [fn decode()]. *)
Definition decode : bool := finds two [p5678; p53] && finds three [p5678; p53; v6].

(** The characters of a text with tabs, line ends and letters outside ASCII. *)
Definition chars (l : list Z) : string := String.string_of_list_ascii ((fun c => ascii_of_nat (Z.to_nat c)) <$> l).
(** "WsHI3-1E.WD:MB Yx\tvI\nTi(IL)Ir[m2]k9ügEäik22E". *)
Definition split1 : string := ("WsHI3-1E.WD:MB Yx" +:+ chars [9] +:+ "vI" +:+ chars [10] +:+ "Ti(IL)Ir[m2]k9" +:+ chars [195; 188] +:+ "gE" +:+
  chars [195; 164] +:+ "ik22E")%string.
(** "W -, \nsH--I31EWDMBYxvITiILIrm2k9gEi(k)2ÖÄÜ\n2E". *)
Definition split2 : string := ("W -, " +:+ chars [10] +:+ "sH--I31EWDMBYxvITiILIrm2k9gEi(k)2" +:+ chars [195; 150; 195; 132; 195; 156; 10] +:+ "2E")%string.

(** [fn decode_split()]. *)
Definition decode_split : bool := finds split1 [p5678; p53] && finds split2 [p5678; p53].

(** [fn decode_offset()]. *)
Definition decode_offset : bool := finds "Hello World: WsHI31EWDMBYxvITiILIrm2k9gEik22E! End of the World" [p5678; p53].

(** [fn decode_multiple()]. *)
Definition decode_multiple : bool := finds "WsHI31HVpqxFNMNSPrvik22E WsHI34yOBcZIulKdtn2ik22E" [p5678; p53].

(** [fn decode_ttl()]: the hour, the lifetime and the number of peers. *)
Definition decode_ttl : bool :=
  forallb (fun x : Z * option Z * nat => bool_decide (count_at x.1.1 two x.1.2 = Some x.2))
    [(2000, None, 2%nat); (2100, None, 2%nat); (2005, None, 2%nat); (1995, None, 2%nat); (2000, Some 24, 2%nat); (1995, Some 24, 2%nat);
     (2005, Some 24, 2%nat); (2100, Some 24, 0%nat); (1900, Some 24, 0%nat)].

(** [fn decode_invalid()]. *)
Definition decode_invalid : bool :=
  forallb (fun x : string * nat => bool_decide (count_at 2000 x.1 None = Some x.2))
    [(""%string, 0%nat); ("WsHI3ik22E"%string, 0%nat); ("WsHI3--"%string, 0%nat); ("--ik22E"%string, 0%nat);
     ("WsHI32EWDMBYxvITiILIrm2k9gEik22E"%string, 0%nat); ("ik22EWsHI31EWDMBYxvITiILIrm2k9gEik22EWsHI3"%string, 2%nat);
     ("WsHI3WsHI31EWDMBYxvITiILIrm2k9gEik22Eik22E"%string, 2%nat)].

(** [fn encode_decode()]. *)
Definition encode_decode : bool :=
  returns (data ← encode_at 2000 [p5678; p53]; decode_at 2000 data None) [p5678; p53].

End BeaconTests.

Import BeaconTests.

Lemma encode_passes : encode = true.
Proof. vm_compute. reflexivity. Qed.
Lemma decode_passes : decode = true.
Proof. vm_compute. reflexivity. Qed.
Lemma decode_split_passes : decode_split = true.
Proof. vm_compute. reflexivity. Qed.
Lemma decode_offset_passes : decode_offset = true.
Proof. vm_compute. reflexivity. Qed.
Lemma decode_multiple_passes : decode_multiple = true.
Proof. vm_compute. reflexivity. Qed.
Lemma decode_ttl_passes : decode_ttl = true.
Proof. vm_compute. reflexivity. Qed.
Lemma decode_invalid_passes : decode_invalid = true.
Proof. vm_compute. reflexivity. Qed.
Lemma encode_decode_passes : encode_decode = true.
Proof. vm_compute. reflexivity. Qed.
