(* ===== verification/UnitTests.v ===== *)
(** * The unit tests of the modules (the test functions of src/src)

    Each test as a function with the value [true] where all its assertions hold, and
    the lemma that this is its value. The primitives of the crypto are stand-ins
    that depend on all of their inputs ([checksum_ring]). *)

From S2P Require Import Prelude Errors Util Types Base62 Payload Device Net Ring Core Rotate Init Handshake Peer Configuration.

(** [assert_eq!] with a result that is unwrapped, and [assert!] of [is_err()]. *)
Definition returns `{EqDecision A} {E} (o : outcome E A) (a : A) : bool := match o with Ok x => bool_decide (x = a) | _ => false end.
Definition is_err {E A} (o : outcome E A) : bool := match o with Err _ => true | _ => false end.

(** ** types.rs *)

Module TypesTests.

(** The addresses the tests write down. *)
#[local] Instance test_parsers : Address.IpParsers := {|
  Address.ipv4_from_str s := match s with "120.45.22.5"%string => Some [120; 45; 22; 5] | _ => None end;
  Address.ipv6_from_str s :=
    match s with
    | "0001:0203:0405:0607:0809:0a0b:0c0d:0e0f"%string => Some [0; 1; 2; 3; 4; 5; 6; 7; 8; 9; 10; 11; 12; 13; 14; 15]
    | _ => None
    end
|}.

(** Parsed and printed. *)
Definition prints (text : string) : bool := returns (Address.fmt <$> Address.from_str text) text.

Definition address_parse_fmt : bool :=
  prints "120.45.22.5" && prints "78:2d:16:05:01:02" &&
  bool_decide (Address.fmt (mkAddress [3; 56; 120; 45; 22; 5; 1; 2; 0; 0; 0; 0; 0; 0; 0; 0] 8) = "vlan824/78:2d:16:05:01:02"%string) &&
  prints "0001:0203:0405:0607:0809:0a0b:0c0d:0e0f" &&
  bool_decide (Address.fmt (mkAddress [1; 2; 0; 0; 0; 0; 0; 0; 0; 0; 0; 0; 0; 0; 0; 0] 2) = "0102"%string) &&
  is_err (Address.from_str "").

(** The bytes an address is written as are read back, also without the length. *)
Definition read_back (addr : Address) (buf : bytes) : bool :=
  bool_decide (Address.write_to addr [] = Some buf) && returns (fst <$> Address.read_from buf) addr &&
  returns (fst <$> Address.read_from_fixed (drop 1 buf) (addr_len addr)) addr.

Definition address_decode_encode : bool :=
  match Address.from_str "120.45.22.5", Address.from_str "78:2d:16:05:01:02" with
  | Ok a, Ok b =>
      let buf := [6; 120; 45; 22; 5; 1; 2] in
      read_back a [4; 120; 45; 22; 5] && read_back b buf &&
      is_err (Address.read_from (take 1 buf)) && is_err (Address.read_from (<[0%nat := 100]> buf)) &&
      is_err (Address.read_from (take 4 (<[0%nat := 5]> buf)))
  | _, _ => false
  end.

(** Two readings, compared by the [Eq] of the program. *)
Definition same_address (a b : bytes) (la lb : Z) : option bool :=
  match Address.read_from_fixed a la, Address.read_from_fixed b lb with
  | Ok (a, _), Ok (b, _) => Some (Address.eqb a b)
  | _, _ => None
  end.
Definition address_eq : bool :=
  bool_decide (same_address [1; 2; 3; 4] [1; 2; 3; 4] 4 4 = Some true) && bool_decide (same_address [1; 2; 3; 4] [1; 2; 3; 5] 4 4 = Some false) &&
  bool_decide (same_address [1; 2; 3; 4] [1; 2; 3; 5] 3 3 = Some true) && bool_decide (same_address [1; 2; 3; 4] [1; 2; 3; 4] 3 4 = Some false).

Definition address_range_decode_encode : bool :=
  let range := mkRange (mkAddress [0; 1; 2; 3; 0; 0; 0; 0; 0; 0; 0; 0; 0; 0; 0; 0] 4) 24 in
  let buf := [4; 0; 1; 2; 3; 24] in
  bool_decide (Range.write_to range [] = Some buf) && returns (fst <$> Range.read_from buf) range &&
  is_err (Range.read_from (take 5 buf)) && is_err (Range.read_from (<[0%nat := 17]> buf)).

Lemma types_tests_pass : forallb id [address_parse_fmt; address_decode_encode; address_eq; address_range_decode_encode] = true.
Proof. vm_compute. reflexivity. Qed.

End TypesTests.

(** ** payload.rs *)

Module PayloadTests.

Definition frame_data : bytes := [6; 5; 4; 3; 2; 1; 1; 2; 3; 4; 5; 6; 1; 2; 3; 4; 5; 6; 7; 8].
Definition decode_frame_without_vlan : bool :=
  returns (parse (P := Frame) frame_data)
    (mkAddress [1; 2; 3; 4; 5; 6; 0; 0; 0; 0; 0; 0; 0; 0; 0; 0] 6, mkAddress [6; 5; 4; 3; 2; 1; 0; 0; 0; 0; 0; 0; 0; 0; 0; 0] 6).

Definition decode_frame_with_vlan : bool :=
  returns (parse (P := Frame) [6; 5; 4; 3; 2; 1; 1; 2; 3; 4; 5; 6; 129; 0; 4; 210; 1; 2; 3; 4; 5; 6; 7; 8])
    (mkAddress [4; 210; 1; 2; 3; 4; 5; 6; 0; 0; 0; 0; 0; 0; 0; 0] 8, mkAddress [4; 210; 6; 5; 4; 3; 2; 1; 0; 0; 0; 0; 0; 0; 0; 0] 8).

Definition decode_invalid_frame : bool :=
  is_ok (parse (P := Frame) frame_data) && is_err (parse (P := Frame) []) &&
  is_err (parse (P := Frame) [6; 5; 4; 3; 2; 1; 1; 2; 3; 4; 5; 6; 129; 0]).

Definition ipv4_data : bytes := [64; 0; 0; 0; 0; 0; 0; 0; 0; 0; 0; 0; 192; 168; 1; 1; 192; 168; 1; 2].
Definition decode_ipv4_packet : bool :=
  returns (parse (P := Packet) ipv4_data)
    (mkAddress [192; 168; 1; 1; 0; 0; 0; 0; 0; 0; 0; 0; 0; 0; 0; 0] 4, mkAddress [192; 168; 1; 2; 0; 0; 0; 0; 0; 0; 0; 0; 0; 0; 0; 0] 4).

Definition ipv6_data : bytes :=
  [96; 0; 0; 0; 0; 0; 0; 0; 1; 2; 3; 4; 5; 6; 7; 8; 9; 0; 1; 2; 3; 4; 5; 6; 0; 9; 8; 7; 6; 5; 4; 3; 2; 1; 6; 5; 4; 3; 2; 1].
Definition decode_ipv6_packet : bool :=
  returns (parse (P := Packet) ipv6_data)
    (mkAddress [1; 2; 3; 4; 5; 6; 7; 8; 9; 0; 1; 2; 3; 4; 5; 6] 16, mkAddress [0; 9; 8; 7; 6; 5; 4; 3; 2; 1; 6; 5; 4; 3; 2; 1] 16).

Definition decode_invalid_packet : bool :=
  is_ok (parse (P := Packet) ipv4_data) && is_ok (parse (P := Packet) ipv6_data) && is_err (parse (P := Packet) []) &&
  is_err (parse (P := Packet) [32]) && is_err (parse (P := Packet) (take 19 ipv4_data)) && is_err (parse (P := Packet) (take 39 ipv6_data)).

Lemma payload_tests_pass : forallb id [decode_frame_without_vlan; decode_frame_with_vlan; decode_invalid_frame; decode_ipv4_packet;
  decode_ipv6_packet; decode_invalid_packet] = true.
Proof. vm_compute. reflexivity. Qed.

End PayloadTests.

(** ** util.rs *)

Module UtilTests.
Import Base62.

Definition test_ : bytes := [84; 101; 115; 116].
Definition base62 : bool :=
  forallb (fun x : bytes * string => returns (to_base62 (E := Error) x.1) x.2)
    [([0], ""%string); ([61], "z"%string); ([62], "10"%string); ([1; 0], "48"%string); (test_, "1Xp7Ke"%string)] &&
  forallb (fun x : string * bytes => returns (from_base62 x.1) x.2)
    [(""%string, []); ("z"%string, [61]); ("10"%string, [62]); ("48"%string, [1; 0]); ("1Xp7Ke"%string, test_)].

Lemma base62_test_passes : base62 = true.
Proof. vm_compute. reflexivity. Qed.

End UtilTests.

(** ** config.rs *)

Module ConfigTests.

Definition test_file : ConfigFile.ConfigFile := {|
  ConfigFile.device := Some (ConfigFile.mkDevice (Some Tun) (Some "vpncloud%d"%string) None None);
  ConfigFile.ip := None;
  ConfigFile.advertise_addresses := Some [];
  ConfigFile.ifup := Some "ifconfig $IFNAME 10.0.1.1/16 mtu 1400 up"%string;
  ConfigFile.ifdown := Some "true"%string;
  ConfigFile.crypto := default_crypto;
  ConfigFile.listen := None;
  ConfigFile.peers := Some ["remote.machine.foo:3210"; "remote.machine.bar:3210"]%string;
  ConfigFile.peer_timeout := Some 600;
  ConfigFile.keepalive := Some 840;
  ConfigFile.beacon := Some (ConfigFile.mkBeacon (Some "/run/vpncloud.beacon.out"%string) (Some "/run/vpncloud.beacon.in"%string) (Some 7200)
    (Some "test123"%string));
  ConfigFile.mode := Some Normal;
  ConfigFile.switch_timeout := Some 300;
  ConfigFile.claims := Some ["10.0.1.0/24"]%string;
  ConfigFile.auto_claim := Some true;
  ConfigFile.port_forwarding := Some true;
  ConfigFile.pid_file := Some "/run/vpncloud.run"%string;
  ConfigFile.stats_file := Some "/var/log/vpncloud.stats"%string;
  ConfigFile.statsd := Some (ConfigFile.mkStatsd (Some "example.com:1234"%string) (Some "prefix"%string));
  ConfigFile.user := Some "nobody"%string;
  ConfigFile.group := Some "nogroup"%string;
  ConfigFile.hook := None;
  ConfigFile.hooks := ∅
|}.

Definition merged_file : Config.Config := {|
  Config.device_type := Tun;
  Config.device_name := "vpncloud%d";
  Config.device_path := None;
  Config.fix_rp_filter := Config.fix_rp_filter Config.default;
  Config.ip := None;
  Config.advertise_addresses := [];
  Config.ifup := Some "ifconfig $IFNAME 10.0.1.1/16 mtu 1400 up"%string;
  Config.ifdown := Some "true"%string;
  Config.crypto := Config.crypto Config.default;
  Config.listen := "3210";
  Config.peers := ["remote.machine.foo:3210"; "remote.machine.bar:3210"]%string;
  Config.peer_timeout := 600;
  Config.keepalive := Some 840;
  Config.beacon_store := Some "/run/vpncloud.beacon.out"%string;
  Config.beacon_load := Some "/run/vpncloud.beacon.in"%string;
  Config.beacon_interval := 7200;
  Config.beacon_password := Some "test123"%string;
  Config.mode := Normal;
  Config.switch_timeout := 300;
  Config.claims := ["10.0.1.0/24"]%string;
  Config.auto_claim := Config.auto_claim Config.default;
  Config.port_forwarding := true;
  Config.daemonize := Config.daemonize Config.default;
  Config.pid_file := Some "/run/vpncloud.run"%string;
  Config.stats_file := Some "/var/log/vpncloud.stats"%string;
  Config.statsd_server := Some "example.com:1234"%string;
  Config.statsd_prefix := Some "prefix"%string;
  Config.user := Some "nobody"%string;
  Config.group := Some "nogroup"%string;
  Config.hook := Config.hook Config.default;
  Config.hooks := Config.hooks Config.default
|}.

Definition test_args : Args.Args := {|
  Args.config := None;
  Args.type_ := Some Tap;
  Args.device_path := Some "/dev/null"%string;
  Args.fix_rp_filter := false;
  Args.mode := Some Switch;
  Args.password := Some "anothersecret"%string;
  Args.private_key := None;
  Args.public_key := None;
  Args.trusted_keys := [];
  Args.algorithms := [];
  Args.claims := [];
  Args.no_auto_claim := false;
  Args.device := Some "vpncloud0"%string;
  Args.listen := Some "[::]:3211"%string;
  Args.peers := ["another:3210"]%string;
  Args.peer_timeout := Some 1801;
  Args.keepalive := Some 850;
  Args.switch_timeout := Some 301;
  Args.beacon_store := Some "/run/vpncloud.beacon.out2"%string;
  Args.beacon_load := Some "/run/vpncloud.beacon.in2"%string;
  Args.beacon_interval := Some 3600;
  Args.beacon_password := Some "test1234"%string;
  Args.verbose := false;
  Args.quiet := false;
  Args.ip := None;
  Args.advertise_addresses := [];
  Args.ifup := Some "ifconfig $IFNAME 10.0.1.2/16 mtu 1400 up"%string;
  Args.ifdown := Some "ifconfig $IFNAME down"%string;
  Args.version := false;
  Args.no_port_forwarding := true;
  Args.daemon := true;
  Args.pid_file := Some "/run/vpncloud-mynet.run"%string;
  Args.stats_file := Some "/var/log/vpncloud-mynet.stats"%string;
  Args.statsd_server := Some "example.com:2345"%string;
  Args.statsd_prefix := Some "prefix2"%string;
  Args.user := Some "root"%string;
  Args.group := Some "root"%string;
  Args.log_file := None;
  Args.hook := [];
  Args.cmd := None
|}.

Definition merged_args : Config.Config := {|
  Config.device_type := Tap;
  Config.device_name := "vpncloud0";
  Config.device_path := Some "/dev/null"%string;
  Config.fix_rp_filter := false;
  Config.ip := None;
  Config.advertise_addresses := [];
  Config.ifup := Some "ifconfig $IFNAME 10.0.1.2/16 mtu 1400 up"%string;
  Config.ifdown := Some "ifconfig $IFNAME down"%string;
  Config.crypto := mkCryptoConfig (Some "anothersecret"%string) None None [] [];
  Config.listen := "[::]:3211";
  Config.peers := ["remote.machine.foo:3210"; "remote.machine.bar:3210"; "another:3210"]%string;
  Config.peer_timeout := 1801;
  Config.keepalive := Some 850;
  Config.beacon_store := Some "/run/vpncloud.beacon.out2"%string;
  Config.beacon_load := Some "/run/vpncloud.beacon.in2"%string;
  Config.beacon_interval := 3600;
  Config.beacon_password := Some "test1234"%string;
  Config.mode := Switch;
  Config.switch_timeout := 301;
  Config.claims := ["10.0.1.0/24"]%string;
  Config.auto_claim := true;
  Config.port_forwarding := false;
  Config.daemonize := true;
  Config.pid_file := Some "/run/vpncloud-mynet.run"%string;
  Config.stats_file := Some "/var/log/vpncloud-mynet.stats"%string;
  Config.statsd_server := Some "example.com:2345"%string;
  Config.statsd_prefix := Some "prefix2"%string;
  Config.user := Some "root"%string;
  Config.group := Some "root"%string;
  Config.hook := None;
  Config.hooks := ∅
|}.

Definition config_merge : Prop :=
  Config.merge_file test_file Config.default = merged_file /\ Config.merge_args test_args merged_file = merged_args.

Lemma config_merge_passes : config_merge.
Proof. split; reflexivity. Qed.

End ConfigTests.
