(* ===== verification/CryptoTests.v ===== *)
(** * The unit tests of the crypto (the test functions of src/src/crypto)

    The tests of the core, the rotation, the handshake and of a connection, each as a
    computation over the two ends that panics where an assertion does not hold, and
    the lemmas that none does. The primitives are stand-ins that depend on all of
    their inputs, as the tests of manipulated messages and untrusted keys need it. *)

From S2P Require Import Prelude Errors Util Types Ring Core Rotate Init Handshake Peer.

(** ** The primitives *)

(** A checksum, and bytes made of it. *)
Definition checksum (m : bytes) : Z := fold_left (fun acc b => (acc * 31 + b + 1) mod 65521) m 7.
Definition check_bytes (n : nat) (m : bytes) : bytes := take n (concat (replicate n (be_bytes 2 (checksum m)))).

Definition checksum_ring : Ring := {|
  Rng := Z;
  fill n r := (replicate n (r mod 256), r + 1);
  key_len a := match a with AES_128_GCM => 16%nat | _ => 32%nat end;
  seal a k n p := (p, check_bytes 16 (k ++ n ++ p));
  open_in_place a k n c :=
    (c, bool_decide (drop (length c - 16) c = check_bytes 16 (k ++ n ++ take (length c - 16) c)));
  EcdhPrivateKey := Z;
  ecdh_generate r := (r, r + 1);
  compute_public_key p := replicate 32 (p mod 256);
  agree_ephemeral p q := Some (replicate 32 ((p + hd 0 q) mod 256));
  sha256 := check_bytes 32;
  sha512 := check_bytes 64;
  Ed25519KeyPair := bytes;
  from_seed_unchecked s := if decide (length s = 32%nat) then Some s else None;
  from_seed_and_public_key s p := if decide (s = p) then Some s else None;
  ed25519_public_key k := k;
  sign k m := check_bytes 64 (k ++ m);
  verify p m s := bool_decide (s = check_bytes 64 (p ++ m));
  pbkdf2_derive n salt pw := check_bytes 32 (salt ++ pw)
|}.
#[local] Existing Instance checksum_ring | 0.

Definition seed : @Rng checksum_ring := 1.

(** *** Assertions *)

Section Assertions.
Context {S : Type}.
Abbreviation T := (ST S Error).

Definition is_err {E A} (o : outcome E A) : bool := match o with Err _ => true | _ => false end.
Definition assert_ok {A} (m : T A) : T unit := r ← catch m; assert (is_ok r).
Definition assert_err {A} (m : T A) : T unit := r ← catch m; assert (is_err r).
Definition assert_eq `{EqDecision A} (a b : A) : T unit := assert (bool_decide (a = b)).
End Assertions.

(** *** Two ends and a buffer *)

Section Ends.
Context {A : Type}.
Abbreviation T := (ST (Env (A * A)) Error).

Definition sender {X} (m : ST (Env A) Error X) : T X := on_part fst (fun x p => (x, p.2)) m.
Definition receiver {X} (m : ST (Env A) Error X) : T X := on_part snd (fun x p => (p.1, x)) m.
Definition the_buffer : T MsgBuffer := on_out get.
Definition in_buffer (b : MsgBuffer) : T unit := on_out (modify (fun _ => b)).
Definition the_message : T bytes := on_out (fun b => (b, MsgBuffer.message b)).
(** [buffer.message_mut()[i] ^= 1]. *)
Definition tamper (i : Z) : T unit :=
  b ← the_buffer;
  x ← lift (index (buf_data b) (buf_start b + i));
  on_out (MsgBuffer.store (buf_start b + i) (Z.lxor x 1)).
End Ends.

(** ** crypto/core.rs *)

Module CoreTests.

Definition test_nonce : bool :=
  let n1 := Nonce.increment Nonce.zero in
  bool_decide (Nonce.zero = replicate 12 0) && bool_decide (n1 = replicate 11 0 ++ [1]) && bool_decide (Nonce.increment n1 = replicate 11 0 ++ [2]).

Abbreviation T := (ST (Env (CryptoCore * CryptoCore)) Error).

Definition passes (algo : Algorithm) (test : Algorithm -> T unit) : bool :=
  match CryptoCore.create_dummy_pair (E := Error) algo seed with
  | (r, Ok ends) => is_ok (test algo (mkEnv ends (MsgBuffer.new EXTRA_LEN) r)).2
  | _ => false
  end.

(** A buffer with a text of a thousand bytes. *)
Definition plain_buffer : T bytes :=
  plain ← on_rng (random 1000);
  on_out (MsgBuffer.clone_from plain) ;;
  mret plain.

Definition test_encrypt_decrypt (algo : Algorithm) : T unit :=
  plain ← plain_buffer;
  m ← the_message;
  assert_eq plain m ;;
  sender CryptoCore.encrypt ;;
  m ← the_message;
  assert (negb (bool_decide (plain = m))) ;;
  receiver CryptoCore.decrypt ;;
  m ← the_message;
  assert_eq plain m.

(** A copy of the message is tampered with and refused. *)
Definition refused (buffer : MsgBuffer) (i : Z) : T unit :=
  in_buffer buffer ;;
  tamper i ;;
  assert_err (receiver CryptoCore.decrypt).

Definition test_tampering (algo : Algorithm) : T unit :=
  plain_buffer ;;
  sender CryptoCore.encrypt ;;
  buffer ← the_buffer;
  assert_ok (receiver CryptoCore.decrypt) ;;
  refused buffer 0 ;;
  refused buffer 1 ;;
  refused buffer EXTRA_LEN ;;
  in_buffer buffer ;;
  assert_ok (receiver CryptoCore.decrypt).

Definition every_second : T unit := receiver (on_self (modify CryptoCore.every_second)).

Definition test_nonce_pinning (algo : Algorithm) : T unit :=
  plain ← plain_buffer;
  sender CryptoCore.encrypt ;;
  buffer ← the_buffer;
  assert_ok (receiver CryptoCore.decrypt) ;;
  every_second ;;
  in_buffer buffer ;;
  assert_ok (receiver CryptoCore.decrypt) ;;
  every_second ;;
  in_buffer buffer ;;
  assert_err (receiver CryptoCore.decrypt) ;;
  in_buffer (MsgBuffer.new EXTRA_LEN) ;;
  on_out (MsgBuffer.clone_from plain) ;;
  sender CryptoCore.encrypt ;;
  assert_ok (receiver CryptoCore.decrypt).

Definition there : T unit := sender CryptoCore.encrypt ;; assert_ok (receiver CryptoCore.decrypt).
Definition back : T unit := receiver CryptoCore.encrypt ;; assert_ok (sender CryptoCore.decrypt).

Definition test_key_rotation (algo : Algorithm) : T unit :=
  plain_buffer ;;
  there ;;
  bs ← on_rng (random (key_len algo));
  key ← lift (unbound_key algo bs);
  receiver (CryptoCore.rotate_key key 1 false) ;;
  back ;;
  there ;;
  sender (CryptoCore.rotate_key key 1 true) ;;
  back ;;
  there ;;
  bs ← on_rng (random (key_len algo));
  key ← lift (unbound_key algo bs);
  sender (CryptoCore.rotate_key key 2 true) ;;
  sender CryptoCore.encrypt ;;
  assert_err (receiver CryptoCore.decrypt) ;;
  back ;;
  receiver (CryptoCore.rotate_key key 2 false) ;;
  back ;;
  there.

(** The algorithms differ in the length of their keys only: the longer tests are run
    with one of them. *)
Lemma test_nonce_passes : test_nonce = true.
Proof. vm_compute. reflexivity. Qed.
Lemma test_encrypt_decrypt_passes : forallb (fun algo => passes algo test_encrypt_decrypt) [AES_128_GCM; AES_256_GCM; CHACHA20_POLY1305] = true.
Proof. vm_compute. reflexivity. Qed.
Lemma test_tampering_passes : passes AES_128_GCM test_tampering = true.
Proof. vm_compute. reflexivity. Qed.
Lemma test_nonce_pinning_passes : passes AES_128_GCM test_nonce_pinning = true.
Proof. vm_compute. reflexivity. Qed.
Lemma test_key_rotation_passes : passes AES_128_GCM test_key_rotation = true.
Proof. vm_compute. reflexivity. Qed.

End CoreTests.

(** ** crypto/rotate.rs *)

Module RotateTests.

(** Two nodes, each with the buffer it writes to. *)
Record Nodes : Type := mkNodes { node1 : RotationState; out1 : MsgBuffer; node2 : RotationState; out2 : MsgBuffer; random_source : Rng }.
Abbreviation T := (ST Nodes Error).

Definition at1 {A} (m : ST (Env RotationState) Error A) : T A :=
  zoom (fun t => mkEnv (node1 t) (out1 t) (random_source t)) (fun e t => mkNodes (self e) (out e) (node2 t) (out2 t) (rng e)) m.
Definition at2 {A} (m : ST (Env RotationState) Error A) : T A :=
  zoom (fun t => mkEnv (node2 t) (out2 t) (random_source t)) (fun e t => mkNodes (node1 t) (out1 t) (self e) (out e) (rng e)) m.

(** [fn msg(&mut self)]: the message in the buffer, taken out of it. *)
Definition take_msg : ST MsgBuffer Error (option RotationMessage) :=
  empty ← gets MsgBuffer.is_empty;
  if empty : bool then mret None
  else
    data ← (fun b => (b, MsgBuffer.message b));
    '(msg, _) ← lift (unwrap (RotationMessage.read_from (R := bytes) data));
    modify (MsgBuffer.set_length 0) ;;
    mret (Some msg).
(** A copy of it stays. *)
Definition peek_msg : ST MsgBuffer Error (option RotationMessage) := fun b => (b, (take_msg b).2).

Definition from1 (m : ST MsgBuffer Error (option RotationMessage)) : T RotationMessage := r ← at1 (on_out m); lift (unwrap r).
Definition from2 (m : ST MsgBuffer Error (option RotationMessage)) : T RotationMessage := r ← at2 (on_out m); lift (unwrap r).
Definition quiet1 : T unit := e ← at1 (on_out (gets MsgBuffer.is_empty)); assert e.
Definition quiet2 : T unit := e ← at2 (on_out (gets MsgBuffer.is_empty)); assert e.

Definition process1 (msg : RotationMessage) : T (option RotatedKey) := at1 (RotationState.process_message msg).
Definition process2 (msg : RotationMessage) : T (option RotatedKey) := at2 (RotationState.process_message msg).
Definition cycle1 : T (option RotatedKey) := at1 RotationState.cycle.
Definition cycle2 : T (option RotatedKey) := at2 RotationState.cycle.

Definition is_none {A} (o : option A) : T unit := assert (match o with Some _ => false | None => true end).
Definition is_some {A} (o : option A) : T unit := assert (match o with Some _ => true | None => false end).
(** A key of this number, for sending or not. *)
Definition is_key (o : option RotatedKey) (id : Z) (sending : bool) : T unit :=
  assert (match o with Some k => bool_decide (rk_id k = id) && bool_decide (use_for_sending k = sending) | None => false end).
(** The two nodes, the first the initiator, with the messages of a new rotation. *)
Definition passes (test : T unit) : bool :=
  match RotationState.new (E := Error) true (mkEnv () (MsgBuffer.new 8) seed) with
  | (e1, Ok n1) =>
      match RotationState.new (E := Error) false (mkEnv () (MsgBuffer.new 8) (rng e1)) with
      | (e2, Ok n2) => is_ok (test (mkNodes n1 (out e1) n2 (out e2) (rng e2))).2
      | _ => false
      end
  | _ => false
  end.

(** Written and read back. *)
Definition reads_back (msg : RotationMessage) : bool :=
  match RotationMessage.write_to msg ([] : bytes) with
  | Some data => match RotationMessage.read_from data with
                 | Some (m, _) => bool_decide (rm_message_id m = rm_message_id msg) && bool_decide (propose m = propose msg) && bool_decide (confirm m = confirm msg)
                 | None => false
                 end
  | None => false
  end.
Definition test_encode_decode_message : bool :=
  let key i := compute_public_key (i : @EcdhPrivateKey checksum_ring) in
  reads_back (mkRotationMessage 1 (key 1) None) && reads_back (mkRotationMessage 2 (key 2) (Some (key 3))).

(** The cycle in which one node has the message before and answers with the next. *)
Definition cycle_first (id : Z) : T RotationMessage :=
  key1 ← cycle1;
  key2 ← cycle2;
  is_key key1 id false ;;
  is_none key2 ;;
  quiet2 ;;
  msg1 ← from1 take_msg;
  assert (bool_decide (rm_message_id msg1 = id)) ;;
  is_some (confirm msg1) ;;
  mret msg1.
Definition cycle_second (id : Z) : T RotationMessage :=
  key1 ← cycle1;
  key2 ← cycle2;
  is_none key1 ;;
  quiet1 ;;
  is_key key2 id false ;;
  msg2 ← from2 take_msg;
  assert (bool_decide (rm_message_id msg2 = id)) ;;
  is_some (confirm msg2) ;;
  mret msg2.

Definition test_normal_rotation : T unit :=
  msg1 ← from1 take_msg;
  assert (bool_decide (rm_message_id msg1 = 1)) ;;
  quiet2 ;;
  key ← process2 msg1;
  is_none key ;;
  msg2 ← cycle_second 2;
  key ← process1 msg2;
  is_key key 2 true ;;
  msg1 ← cycle_first 3;
  key ← process2 msg1;
  is_key key 3 true ;;
  msg2 ← cycle_second 4;
  key ← process1 msg2;
  is_key key 4 true.

Definition cycles : T unit := cycle1 ;; cycle2 ;; mret ().

Definition test_duplication : T unit :=
  msg1 ← from1 peek_msg;
  msg1_copy ← from1 take_msg;
  process2 msg1 ;;
  key ← process2 msg1_copy; is_none key ;;
  cycles ;;
  msg2 ← from2 peek_msg;
  msg2_copy ← from2 take_msg;
  key ← process1 msg2; is_some key ;;
  key ← process1 msg2_copy; is_none key ;;
  cycles ;;
  msg1 ← from1 peek_msg;
  msg1_copy ← from1 take_msg;
  key ← process2 msg1; is_some key ;;
  key ← process2 msg1_copy; is_none key ;;
  cycles ;;
  msg2 ← from2 peek_msg;
  msg2_copy ← from2 take_msg;
  key ← process1 msg2; is_some key ;;
  key ← process1 msg2_copy; is_none key.

Definition test_lost_message : T unit :=
  from1 take_msg ;;
  cycles ;;
  quiet2 ;;
  cycles ;;
  msg1 ← from1 take_msg;
  key ← process2 msg1; is_none key ;;
  cycles ;;
  msg2 ← from2 take_msg;
  key ← process1 msg2; is_some key.

Definition test_reflect_back : T unit :=
  msg1 ← from1 take_msg;
  key ← process1 msg1; is_none key ;;
  cycles ;;
  quiet2 ;;
  cycles ;;
  msg1 ← from1 take_msg;
  key ← process2 msg1; is_none key ;;
  cycles ;;
  msg2 ← from2 take_msg;
  key ← process1 msg2; is_some key.

Lemma test_encode_decode_message_passes : test_encode_decode_message = true.
Proof. vm_compute. reflexivity. Qed.
Lemma rotation_tests_pass : forallb passes [test_normal_rotation; test_duplication; test_lost_message; test_reflect_back] = true.
Proof. vm_compute. reflexivity. Qed.

End RotateTests.

(** ** crypto/init.rs *)

Module InitTests.

(** [impl Payload for Vec<u8>]. *)
#[local] Instance payload_vec : Payload bytes := {|
  payload_write_to E p :=
    n ← MsgBuffer.write_cursor (write_all p);
    _ ← lift (unwrap n);
    modify (MsgBuffer.set_length (zlen p));
  payload_read_from r := Ok r
|}.

Abbreviation State := (InitState bytes).
Abbreviation T := (ST (Env (State * State)) Error).

Definition speeds : list (Algorithm * Z) := [(AES_128_GCM, 1142292480); (AES_256_GCM, 1140457472); (CHACHA20_POLY1305, 1137180672)].
Definition algorithms : Algorithms := mkAlgorithms speeds false.

Definition create_pair : ST Rng Error (State * State) :=
  bs ← random 32;
  key_pair ← lift (unwrap (from_seed_unchecked bs));
  let trusted_nodes := [ed25519_public_key key_pair] in
  node1 ← random 16;
  node2 ← random 16;
  sender ← InitState.new node1 [1] key_pair trusted_nodes algorithms;
  receiver ← InitState.new node2 [2] key_pair trusted_nodes algorithms;
  mret (sender, receiver).

Definition passes (test : T unit) : bool :=
  match create_pair seed with
  | (r, Ok ends) => is_ok (test (mkEnv ends (MsgBuffer.new 8) r)).2
  | _ => false
  end.

Definition sender_stage (stage : Z) : T unit := s ← sender (on_self (gets next_stage)); assert_eq s stage.
Definition receiver_stage (stage : Z) : T unit := s ← receiver (on_self (gets next_stage)); assert_eq s stage.
Definition continues (r : InitResult bytes) : T unit := assert (match r with Continue => true | _ => false end).
Definition succeeds (r : InitResult bytes) : T unit := assert (match r with Success _ _ => true | _ => false end).
Definition out_empty : T unit := e ← on_out (gets MsgBuffer.is_empty); assert e.
Definition lose : T unit := on_out (modify MsgBuffer.clear).

(** The ping is sent; it is answered; the pong is answered; the peng is taken. *)
Definition ping : T unit := sender InitState.send_ping ;; sender_stage STAGE_PONG.
Definition pong : T unit := result ← receiver InitState.handle_init; receiver_stage STAGE_PENG ;; continues result.
Definition peng : T unit := result ← sender InitState.handle_init; sender_stage WAITING_TO_CLOSE ;; succeeds result.
Definition done_ : T unit := result ← receiver InitState.handle_init; receiver_stage CLOSING ;; succeeds result ;; out_empty.

Definition normal_init : T unit := ping ;; pong ;; peng ;; done_.

Definition lost_init_sender_recovers : T unit :=
  ping ;;
  lose ;;
  sender InitState.every_second ;;
  pong ;;
  lose ;;
  receiver InitState.every_second ;;
  peng ;;
  lose ;;
  sender InitState.every_second ;;
  done_.

Definition lost_init_receiver_recovers : T unit :=
  ping ;;
  pong ;;
  lose ;;
  sender InitState.every_second ;;
  receiver InitState.handle_init ;;
  peng ;;
  lose ;;
  receiver InitState.every_second ;;
  sender InitState.handle_init ;;
  done_.

(** The receiver is of another pair. *)
Definition untrusted_peer : T unit :=
  ends ← on_rng create_pair;
  on_self (modify (fun p => (p.1, ends.2))) ;;
  ping ;;
  assert_err (receiver InitState.handle_init).

Definition manipulated_message : T unit :=
  ping ;;
  tamper 10 ;;
  assert_err (receiver InitState.handle_init).

Definition connect_to_self : T unit :=
  ping ;;
  assert_err (sender InitState.handle_init).

(** The algorithms of the two ends, and what is selected; [None] when there is no success. *)
Definition test_algorithm_negotiation (algos1 algos2 : Algorithms) (selected : option (option Algorithm)) : T unit :=
  let with_algorithms a (s : State) := mkInitState (is_node_id s) (is_salted_node_id_hash s) (is_payload s) (is_key_pair s) (is_trusted_keys s)
    (is_ecdh_private_key s) (next_stage s) (close_time s) (last_message s) (is_crypto s) a (selected_algorithm s) (failed_retries s) in
  on_self (modify (fun p => (with_algorithms algos1 p.1, with_algorithms algos2 p.2))) ;;
  sender InitState.send_ping ;;
  res ← catch (receiver InitState.handle_init);
  match selected with
  | None => assert (negb (is_ok res))
  | Some selected =>
      assert (is_ok res) ;;
      sender InitState.handle_init ;;
      receiver InitState.handle_init ;;
      a ← sender (on_self (gets selected_algorithm));
      b ← receiver (on_self (gets selected_algorithm));
      assert_eq a selected ;;
      assert_eq a b
  end.

Definition slow_speeds : list (Algorithm * Z) := [(AES_128_GCM, 1109393408); (AES_256_GCM, 1112014848); (CHACHA20_POLY1305, 1114636288)].
Definition algorithm_negotiation : bool :=
  forallb (fun x : Algorithms * Algorithms * option (option Algorithm) => passes (test_algorithm_negotiation x.1.1 x.1.2 x.2))
    [(algorithms, algorithms, Some (Some AES_128_GCM));
     (mkAlgorithms (drop 1 speeds) false, mkAlgorithms (take 2 speeds) false, Some (Some AES_256_GCM));
     (algorithms, mkAlgorithms slow_speeds false, Some (Some CHACHA20_POLY1305));
     (mkAlgorithms speeds true, mkAlgorithms speeds true, Some None);
     (mkAlgorithms speeds true, algorithms, Some (Some AES_128_GCM));
     (mkAlgorithms (take 1 speeds) true, mkAlgorithms (drop 1 speeds) false, None)].

Lemma init_tests_pass : forallb passes [normal_init; lost_init_sender_recovers; lost_init_receiver_recovers; untrusted_peer;
  manipulated_message; connect_to_self] = true.
Proof. vm_compute. reflexivity. Qed.
Lemma algorithm_negotiation_passes : algorithm_negotiation = true.
Proof. vm_compute. reflexivity. Qed.

End InitTests.

(** ** crypto/common.rs *)

Module PeerTests.

#[local] Existing Instance InitTests.payload_vec.

Abbreviation Peer := (PeerCrypto bytes).
Abbreviation T := (ST (Env (Peer * Peer)) Error).

Definition create_node (config : CryptoConfig) : ST Rng Error Peer :=
  node_id ← random 16;
  crypto ← lift (Crypto.new (fun _ => 1142292480) node_id config);
  PeerCrypto.peer_instance crypto [].

Definition gives (res : MessageResult bytes) (expected : MessageResult bytes) : T unit :=
  assert (match res, expected with
          | Message a, Message b => bool_decide (a = b)
          | Initialized p, Initialized q | InitializedWithReply p, InitializedWithReply q => bool_decide (p = q)
          | Reply, Reply | NoResult, NoResult => true
          | _, _ => false
          end).
Definition msg_empty (b : bool) : T unit := e ← on_out (gets MsgBuffer.is_empty); assert_eq e b.

(** Another buffer in the place of the one of the environment. *)
Definition with_other {A} (b : MsgBuffer) (m : T A) : T MsgBuffer :=
  msg ← the_buffer;
  in_buffer b ;;
  m ;;
  b ← the_buffer;
  in_buffer msg ;;
  mret b.

(** What [every_second] of one end sends, the other takes. *)
Definition second_of (res : MessageResult bytes) (other : T (MessageResult bytes)) : T unit :=
  match res with
  | NoResult => mret ()
  | Reply => r ← other; gives r NoResult
  | _ => panic
  end.

Fixpoint exchange (rounds : nat) (buffer : MsgBuffer) : T unit :=
  match rounds with
  | O => mret ()
  | S rounds =>
      buffer ← with_other buffer
        (sender (PeerCrypto.send_message 1) ;; res ← receiver PeerCrypto.handle_message; gives res (Message 1));
      res ← sender PeerCrypto.every_second;
      second_of res (receiver PeerCrypto.handle_message) ;;
      res ← receiver PeerCrypto.every_second;
      second_of res (sender PeerCrypto.handle_message) ;;
      exchange rounds buffer
  end.

(** The program's test has a thousand rounds. *)
Definition normal (rounds : nat) : T unit :=
  sender PeerCrypto.initialize ;;
  msg_empty false ;;
  res ← receiver PeerCrypto.handle_message;
  gives res Reply ;;
  msg_empty false ;;
  res ← sender PeerCrypto.handle_message;
  gives res (InitializedWithReply []) ;;
  msg_empty false ;;
  res ← receiver PeerCrypto.handle_message;
  gives res (InitializedWithReply []) ;;
  msg_empty false ;;
  res ← sender PeerCrypto.handle_message;
  gives res NoResult ;;
  msg_empty true ;;
  data ← on_rng (random 1000);
  buffer ← with_other (MsgBuffer.new 16) (on_out (MsgBuffer.clone_from data));
  exchange rounds buffer.

Definition passes (rounds : nat) : bool :=
  let config := mkCryptoConfig (Some "test"%string) None None [] [] in
  match (a ← create_node config; b ← create_node config; mret (a, b)) seed with
  | (r, Ok ends) => is_ok (normal rounds (mkEnv ends (MsgBuffer.new 16) r)).2
  | _ => false
  end.

Lemma normal_passes : passes 2 = true.
Proof. vm_compute. reflexivity. Qed.

End PeerTests.
